(** * WAA agent loop: a shallow embedding of [waa/agent.py], [waa/llm.py],
    [waa/tools/fs.py] and [waa/tools/todo.py], with the properties of the
    orchestration loop and of the tools.

    Conventions of the embedding.
    - A Python [str] is a Rocq [string] holding the UTF-8 bytes of the text.
      The delimiters of the protocol are ASCII, so [startswith], [endswith],
      [in], [replace] and the slice [s[11:-12]] act on the bytes exactly as
      they act on the code points.
    - A Python value produced by [json.loads], stored in a history entry or
      returned by a tool is a [value].
    - A call that may raise returns a sum: [inl e] is the raised exception,
      [inr x] the returned value.
    - The limits of the interpreter that the JSON decoder meets are
      parameters: the number of arrays and objects it may enter one inside
      the other before [RecursionError], and the digit limit of [int]. The
      depth of the directory walk of [fs.tree] is bounded by a parameter. *)

From Stdlib Require Import String Ascii List ZArith NArith Lia Bool Arith.
From Stdlib Require Import DecimalString.
From Stdlib Require Import Permutation Sorted.
From Stdlib Require DecimalPos DecimalFacts.
Import ListNotations.
Open Scope string_scope.

(** ** Python string operations *)

Module PyStr.

Fixpoint drop (n : nat) (s : string) : string :=
  match n, s with
  | O, _ => s
  | S _, EmptyString => EmptyString
  | S n', String _ s' => drop n' s'
  end.

Fixpoint take (n : nat) (s : string) : string :=
  match n, s with
  | O, _ => EmptyString
  | S _, EmptyString => EmptyString
  | S n', String c s' => String c (take n' s')
  end.

Fixpoint rev_onto (s acc : string) : string :=
  match s with
  | EmptyString => acc
  | String c s' => rev_onto s' (String c acc)
  end.

Definition rev (s : string) : string := rev_onto s EmptyString.

(** [s.startswith(p)] *)
Definition startswith (s p : string) : bool := String.prefix p s.

(** [s.endswith(p)] *)
Definition endswith (s p : string) : bool :=
  (String.length p <=? String.length s)%nat
  && String.eqb (drop (String.length s - String.length p) s) p.

(** [s[a:-b]] for [b > 0]: the stop index is [len(s) - b] clamped at 0, and
    the slice is empty when the stop does not exceed the start. *)
Definition slice (s : string) (a b : nat) : string :=
  take (String.length s - b - a) (drop a s).

(** [p in s] *)
Fixpoint contains (s p : string) : bool :=
  String.prefix p s
  || match s with
     | EmptyString => false
     | String _ s' => contains s' p
     end.

(** [s.replace(old, new)] for a non-empty [old]: the occurrences are taken
    from the left and do not overlap; [skip] counts the characters of the
    occurrence just replaced that are still to be dropped. *)
Fixpoint replace_from (old new : string) (skip : nat) (s : string) : string :=
  match s with
  | EmptyString => EmptyString
  | String c s' =>
      match skip with
      | S k => replace_from old new k s'
      | O =>
          if String.prefix old s
          then new ++ replace_from old new (String.length old - 1) s'
          else String c (replace_from old new 0 s')
      end
  end.

Definition replace (s old new : string) : string := replace_from old new 0 s.

Definition code (c : ascii) : nat := nat_of_ascii c.

(** The characters for which [str.isspace] holds, by their UTF-8 encoding:
    U+0009..U+000D, U+001C..U+0020; U+0085, U+00A0; U+1680, U+2000..U+200A,
    U+2028, U+2029, U+202F, U+205F, U+3000. *)
Definition space1 (a : ascii) : bool :=
  ((9 <=? code a) && (code a <=? 13) || (28 <=? code a) && (code a <=? 32))%nat.

Definition space2 (a b : ascii) : bool :=
  ((code a =? 194) && ((code b =? 133) || (code b =? 160)))%nat.

Definition space3 (a b c : ascii) : bool :=
  ((code a =? 225) && (code b =? 154) && (code c =? 128)
   || (code a =? 226) && (code b =? 128)
      && ((128 <=? code c) && (code c <=? 138)
          || (code c =? 168) || (code c =? 169) || (code c =? 175))
   || (code a =? 226) && (code b =? 129) && (code c =? 159)
   || (code a =? 227) && (code b =? 128) && (code c =? 128))%nat.

(** [s.lstrip()] *)
Fixpoint lstrip (s : string) : string :=
  match s with
  | EmptyString => s
  | String a r1 =>
      if space1 a then lstrip r1
      else match r1 with
           | EmptyString => s
           | String b r2 =>
               if space2 a b then lstrip r2
               else match r2 with
                    | EmptyString => s
                    | String c r3 => if space3 a b c then lstrip r3 else s
                    end
           end
  end.

(** [lstrip] on the reversed text: the bytes of a character come last
    byte first. *)
Fixpoint lstrip_rev (s : string) : string :=
  match s with
  | EmptyString => s
  | String a r1 =>
      if space1 a then lstrip_rev r1
      else match r1 with
           | EmptyString => s
           | String b r2 =>
               if space2 b a then lstrip_rev r2
               else match r2 with
                    | EmptyString => s
                    | String c r3 => if space3 c b a then lstrip_rev r3 else s
                    end
           end
  end.

(** [s.rstrip()] *)
Definition rstrip (s : string) : string := rev (lstrip_rev (rev s)).

(** [s.strip()] *)
Definition strip (s : string) : string := rstrip (lstrip s).

End PyStr.

(** ** Python values *)

#[local] Set Warnings "-register-all".

Inductive value : Type :=
| VNone
| VBool (b : bool)
| VInt (z : Z)
| VFloat (m e : Z)        (* the decimal literal m * 10^e *)
| VNaN
| VInf (negative : bool)
| VStr (s : string)
| VList (l : list value)
| VDict (items : list (string * value)).

(** A [dict] keeps one binding per key, in insertion order. *)
Fixpoint dict_get (k : string) (d : list (string * value)) : option value :=
  match d with
  | [] => None
  | (k', v) :: d' => if String.eqb k k' then Some v else dict_get k d'
  end.

Fixpoint dict_set (k : string) (v : value) (d : list (string * value))
  : list (string * value) :=
  match d with
  | [] => [(k, v)]
  | (k', v') :: d' =>
      if String.eqb k k' then (k, v) :: d' else (k', v') :: dict_set k v d'
  end.

(** [dict(pairs)] *)
Definition dict_of_pairs (pairs : list (string * value))
  : list (string * value) :=
  fold_left (fun d kv => dict_set (fst kv) (snd kv) d) pairs [].

(** A decimal literal [m * 10^e] converts to the binary64 zero exactly when
    it is at most half the least subnormal, [2^-1075] (ties go to even). *)
Definition float_is_zero (m e : Z) : bool :=
  ((m =? 0) || ((e <? 0) && (Z.abs m * 2 ^ 1075 <=? 10 ^ (- e))))%Z.

(** The truth value of [if v:] *)
Definition truthy (v : value) : bool :=
  match v with
  | VNone => false
  | VBool b => b
  | VInt z => negb (z =? 0)%Z
  | VFloat m e => negb (float_is_zero m e)
  | VNaN => true
  | VInf _ => true
  | VStr s => negb (String.eqb s "")
  | VList l => match l with [] => false | _ => true end
  | VDict d => match d with [] => false | _ => true end
  end.

(** The double quote, and a text between double quotes. *)
Definition quote : ascii := "034"%char.

Definition quoted (s : string) : string :=
  String quote (s ++ String quote EmptyString).

(** ** [json.loads]

    The decoder of CPython's [json] package with its default hooks and its
    scanner in C, over the UTF-8 bytes of the document. *)

Module Json.

(** What the decoder raises: [JSONDecodeError] for a text that is not a JSON
    document; [RecursionError] where an array or an object is entered beyond
    the depth the interpreter allows; [ValueError] where [int] converts an
    integer with more digits than the limit allows. *)
Inductive error : Type :=
| JSONDecodeError
| RecursionError (container : string)
| ValueError (limit digits : nat).

(** The limits of the interpreter where the decoder is called: [nesting] is
    the number of arrays and objects it may enter one inside the other (the
    recursion limit less the depth of the call stack there);
    [int_max_str_digits] is [sys.get_int_max_str_digits()], 0 for no
    limit. *)
Record Limits : Type := { nesting : nat; int_max_str_digits : nat }.

Inductive scan (A : Type) : Type :=
| Found (a : A) (rest : string)
| Raise (e : error)
| Exhausted.
Arguments Found {A} a rest.
Arguments Raise {A} e.
Arguments Exhausted {A}.

Definition is_ws (c : ascii) : bool :=
  (Ascii.eqb c " " || Ascii.eqb c "009" || Ascii.eqb c "010"
   || Ascii.eqb c "013")%char.

Fixpoint skip_ws (s : string) : string :=
  match s with
  | String c s' => if is_ws c then skip_ws s' else s
  | EmptyString => s
  end.

Definition is_digit (c : ascii) : bool :=
  (48 <=? PyStr.code c)%nat && (PyStr.code c <=? 57)%nat.

Definition hex_digit (c : ascii) : option N :=
  let n := N_of_ascii c in
  if (48 <=? n)%N && (n <=? 57)%N then Some (n - 48)%N
  else if (97 <=? n)%N && (n <=? 102)%N then Some (n - 87)%N
  else if (65 <=? n)%N && (n <=? 70)%N then Some (n - 55)%N
  else None.

Definition hex4 (a b c d : ascii) : option N :=
  match hex_digit a, hex_digit b, hex_digit c, hex_digit d with
  | Some x, Some y, Some z, Some w => Some (((x * 16 + y) * 16 + z) * 16 + w)%N
  | _, _, _, _ => None
  end.

Definition byte (n : N) : string := String (ascii_of_N n) EmptyString.

(** The UTF-8 bytes of a code point (a lone surrogate gets the three bytes
    of its value). *)
Definition utf8 (cp : N) : string :=
  if (cp <? 128)%N then byte cp
  else if (cp <? 2048)%N then byte (192 + cp / 64) ++ byte (128 + cp mod 64)
  else if (cp <? 65536)%N then
    byte (224 + cp / 4096) ++ byte (128 + (cp / 64) mod 64)
    ++ byte (128 + cp mod 64)
  else
    byte (240 + cp / 262144) ++ byte (128 + (cp / 4096) mod 64)
    ++ byte (128 + (cp / 64) mod 64) ++ byte (128 + cp mod 64).

Definition is_high (u : N) : bool := (55296 <=? u)%N && (u <=? 56319)%N.
Definition is_low (u : N) : bool := (56320 <=? u)%N && (u <=? 57343)%N.

Definition flush (pending : option N) : string :=
  match pending with
  | Some hi => utf8 hi
  | None => EmptyString
  end.

Definition emit (prefix : string) (r : scan string) : scan string :=
  match r with
  | Found str rest => Found (prefix ++ str) rest
  | other => other
  end.

(** [scanstring] in strict mode, entered after the opening quote. [pending]
    is a high surrogate read from the preceding [\uXXXX] escape, joined
    with a low surrogate when one follows at once. *)
Fixpoint scanstring (pending : option N) (s : string) : scan string :=
  match s with
  | EmptyString => Raise JSONDecodeError
  | String c s1 =>
      if Ascii.eqb c quote then Found (flush pending) s1
      else if Ascii.eqb c "\"%char then
        match s1 with
        | EmptyString => Raise JSONDecodeError
        | String e s2 =>
            if Ascii.eqb e "u"%char then
              match s2 with
              | String h1 (String h2 (String h3 (String h4 s6))) =>
                  match hex4 h1 h2 h3 h4 with
                  | None => Raise JSONDecodeError
                  | Some u =>
                      match pending with
                      | Some hi =>
                          if is_low u then
                            emit (utf8 (65536 + (hi - 55296) * 1024
                                        + (u - 56320))%N)
                                 (scanstring None s6)
                          else if is_high u then
                            emit (utf8 hi) (scanstring (Some u) s6)
                          else emit (utf8 hi ++ utf8 u) (scanstring None s6)
                      | None =>
                          if is_high u then scanstring (Some u) s6
                          else emit (utf8 u) (scanstring None s6)
                      end
                  end
              | _ => Raise JSONDecodeError
              end
            else
              let plain (x : ascii) :=
                emit (flush pending ++ String x EmptyString)
                     (scanstring None s2) in
              if Ascii.eqb e quote then plain quote
              else if Ascii.eqb e "\"%char then plain "\"%char
              else if Ascii.eqb e "/"%char then plain "/"%char
              else if Ascii.eqb e "b"%char then plain "008"%char
              else if Ascii.eqb e "f"%char then plain "012"%char
              else if Ascii.eqb e "n"%char then plain "010"%char
              else if Ascii.eqb e "r"%char then plain "013"%char
              else if Ascii.eqb e "t"%char then plain "009"%char
              else Raise JSONDecodeError
        end
      else if (PyStr.code c <=? 31)%nat then Raise JSONDecodeError
      else emit (flush pending ++ String c EmptyString) (scanstring None s1)
  end.

Fixpoint take_digits (s : string) : string * string :=
  match s with
  | String c s' =>
      if is_digit c
      then let (ds, rest) := take_digits s' in (String c ds, rest)
      else (EmptyString, s)
  | EmptyString => (EmptyString, s)
  end.

Fixpoint Z_of_digits (acc : Z) (ds : string) : Z :=
  match ds with
  | String c ds' => Z_of_digits (10 * acc + Z.of_nat (PyStr.code c - 48)) ds'
  | EmptyString => acc
  end.

(** The text after the character [c], when the text starts with it. *)
Definition after (c : ascii) (s : string) : option string :=
  match s with
  | String d r => if Ascii.eqb c d then Some r else None
  | EmptyString => None
  end.

(** The integer part: an optional minus sign, then a single 0 or a digit
    from 1 to 9 followed by any digits. *)
Definition match_int (s : string) : option (bool * string * string) :=
  let (neg, s1) :=
    match after "-" s with
    | Some r => (true, r)
    | None => (false, s)
    end in
  match s1 with
  | String c r =>
      if Ascii.eqb c "0"%char then Some (neg, "0", r)
      else if is_digit c
      then let (ds, rest) := take_digits r in Some (neg, String c ds, rest)
      else None
  | EmptyString => None
  end.

(** The optional fraction: a dot and at least one digit. *)
Definition match_frac (s : string) : option string * string :=
  match after "." s with
  | Some r =>
      match take_digits r with
      | (EmptyString, _) => (None, s)
      | (ds, rest) => (Some ds, rest)
      end
  | None => (None, s)
  end.

(** The optional exponent: e or E, an optional sign, at least one digit. *)
Definition match_exp (s : string) : option Z * string :=
  match s with
  | String c r =>
      if Ascii.eqb c "e"%char || Ascii.eqb c "E"%char then
        let (neg, r1) :=
          match after "-" r, after "+" r with
          | Some r', _ => (true, r')
          | None, Some r' => (false, r')
          | None, None => (false, r)
          end in
        match take_digits r1 with
        | (EmptyString, _) => (None, s)
        | (ds, rest) =>
            (Some (if neg then - Z_of_digits 0 ds else Z_of_digits 0 ds)%Z,
             rest)
        end
      else (None, s)
  | EmptyString => (None, s)
  end.

Definition signed (neg : bool) (z : Z) : Z := if neg then (- z)%Z else z.

(** Whether [int] refuses a text of that many digits: the limit applies
    above 640 digits, and a limit of 0 is none. *)
Definition too_long (lim : Limits) (digits : nat) : bool :=
  ((640 <? digits) && (0 <? int_max_str_digits lim)
   && (int_max_str_digits lim <? digits))%nat.

(** [_match_number]: an [int] when neither fraction nor exponent is
    present, a [float] otherwise. *)
Definition match_number (lim : Limits) (s : string) : scan value :=
  match match_int s with
  | None => Raise JSONDecodeError
  | Some (neg, ip, r0) =>
      let (frac, r1) := match_frac r0 in
      let (exp, r2) := match_exp r1 in
      match frac, exp with
      | None, None =>
          if too_long lim (String.length ip)
          then Raise (ValueError (int_max_str_digits lim) (String.length ip))
          else Found (VInt (signed neg (Z_of_digits 0 ip))) r2
      | _, _ =>
          let fd := match frac with Some ds => ds | None => EmptyString end in
          let ex := match exp with Some x => x | None => 0%Z end in
          Found (VFloat (signed neg (Z_of_digits (Z_of_digits 0 ip) fd))
                        (ex - Z.of_nat (String.length fd))) r2
      end
  end.

Definition literal (name : string) (v : value) (s : string)
  : option (scan value) :=
  if String.prefix name s
  then Some (Found v (PyStr.drop (String.length name) s))
  else None.

(** The constants, then the numbers, as [scan_once] tries them. *)
Definition scan_atom (lim : Limits) (s : string) : scan value :=
  match literal "null" VNone s with Some r => r | None =>
  match literal "true" (VBool true) s with Some r => r | None =>
  match literal "false" (VBool false) s with Some r => r | None =>
  match literal "NaN" VNaN s with Some r => r | None =>
  match literal "Infinity" (VInf false) s with Some r => r | None =>
  match literal "-Infinity" (VInf true) s with Some r => r | None =>
  match_number lim s
  end end end end end end.

(** Where a scan of a string ends, as a scan of a value. *)
Definition as_value (r : scan string) : scan value :=
  match r with
  | Found str rest => Found (VStr str) rest
  | Raise e => Raise e
  | Exhausted => Exhausted
  end.

(** [scan_once], [JSONArray] and [JSONObject]. The scanner enters an array
    or an object with [Py_EnterRecursiveCall], which raises when [depth],
    the number of containers that may still be entered, is used up. The
    array and object loops are entered after the opening bracket and the
    white space behind it, when the next character does not close the
    container. *)
Fixpoint scan_once (lim : Limits) (fuel depth : nat) (s : string)
  : scan value :=
  match fuel with
  | O => Exhausted
  | S fuel' =>
      match after quote s, after "{" s, after "[" s with
      | Some r, _, _ => as_value (scanstring None r)
      | None, Some r, _ =>
          match depth with
          | O => Raise (RecursionError "object")
          | S depth' =>
              match after "}" (skip_ws r) with
              | Some rest => Found (VDict []) rest
              | None => json_object lim fuel' depth' (skip_ws r) []
              end
          end
      | None, None, Some r =>
          match depth with
          | O => Raise (RecursionError "array")
          | S depth' =>
              match after "]" (skip_ws r) with
              | Some rest => Found (VList []) rest
              | None => json_array lim fuel' depth' (skip_ws r) []
              end
          end
      | None, None, None => scan_atom lim s
      end
  end

with json_array (lim : Limits) (fuel depth : nat) (s : string)
  (values : list value) : scan value :=
  match fuel with
  | O => Exhausted
  | S fuel' =>
      match scan_once lim fuel' depth s with
      | Found v r =>
          match after "]" (skip_ws r), after "," (skip_ws r) with
          | Some rest, _ => Found (VList (values ++ [v])) rest
          | None, Some rest =>
              json_array lim fuel' depth (skip_ws rest) (values ++ [v])
          | None, None => Raise JSONDecodeError
          end
      | Raise e => Raise e
      | Exhausted => Exhausted
      end
  end

with json_object (lim : Limits) (fuel depth : nat) (s : string)
  (pairs : list (string * value)) : scan value :=
  match fuel with
  | O => Exhausted
  | S fuel' =>
      match after quote s with
      | None => Raise JSONDecodeError
      | Some r =>
          match scanstring None r with
          | Found key r1 =>
              match after ":" (skip_ws r1) with
              | None => Raise JSONDecodeError
              | Some r2 =>
                  match scan_once lim fuel' depth (skip_ws r2) with
                  | Found v r3 =>
                      match after "}" (skip_ws r3), after "," (skip_ws r3) with
                      | Some rest, _ =>
                          Found (VDict (dict_of_pairs (pairs ++ [(key, v)])))
                                rest
                      | None, Some rest =>
                          json_object lim fuel' depth (skip_ws rest)
                                      (pairs ++ [(key, v)])
                      | None, None => Raise JSONDecodeError
                      end
                  | Raise e => Raise e
                  | Exhausted => Exhausted
                  end
              end
          | Raise e => Raise e
          | Exhausted => Exhausted
          end
      end
  end.

(** Fuel that the scanner cannot use up on [s]: an array or an object takes
    one unit when it is entered and one for each of its items, and each of
    these steps reads a character. *)
Definition enough (s : string) : nat := 2 * String.length s + 2.

(** A scan of [s] that finds something leaves less text than [s]. *)
Definition shrinks {A : Type} (s : string) (r : scan A) : Prop :=
  match r with
  | Found _ rest => String.length rest < String.length s
  | Raise _ | Exhausted => True
  end.

(** [json.loads(s)]: one value, white space around it, nothing else; [inl]
    is what it raises. *)
Definition loads (lim : Limits) (s : string) : error + value :=
  let s0 := skip_ws s in
  match scan_once lim (enough s0) (nesting lim) s0 with
  | Found v rest =>
      match skip_ws rest with
      | EmptyString => inr v
      | _ => inl JSONDecodeError
      end
  | Raise e => inl e
  | Exhausted => inl JSONDecodeError
  end.

End Json.

(** ** Exceptions, history entries, messages *)

Inductive exn_class : Type := OSError | OtherError.

(** A raised exception: whether [except OSError] catches it, and [str(e)]. *)
Record exn : Type := Exn { exn_kind : exn_class; exn_str : string }.

Definition type_name (v : value) : string :=
  match v with
  | VNone => "NoneType"
  | VBool _ => "bool"
  | VInt _ => "int"
  | VFloat _ _ | VNaN | VInf _ => "float"
  | VStr _ => "str"
  | VList _ => "list"
  | VDict _ => "dict"
  end.

(** What leaves a handler [except json.JSONDecodeError]: the exception of
    the interpreter for the other errors of the decoder, with [str(e)] as
    CPython 3.11 words it. *)
Definition decimal_nat (n : nat) : string :=
  NilEmpty.string_of_uint (Nat.to_uint n).

Definition uncaught (e : Json.error) : option exn :=
  match e with
  | Json.JSONDecodeError => None
  | Json.RecursionError container =>
      Some (Exn OtherError
              ("maximum recursion depth exceeded while decoding a JSON "
               ++ container ++ " from a unicode string"))
  | Json.ValueError limit digits =>
      Some (Exn OtherError
              ("Exceeds the limit (" ++ decimal_nat limit
               ++ " digits) for integer string conversion: value has "
               ++ decimal_nat digits
               ++ " digits; use sys.set_int_max_str_digits() to increase the limit"))
  end.

(** [v.get] on a value that is not a [dict] *)
Definition AttributeError_get (v : value) : exn :=
  Exn OtherError ("'" ++ type_name v ++ "' object has no attribute 'get'").

Inductive HistoryEntry : Type :=
| SystemPrompt (content : string)
| UserInstruction (content : string)
| LLMResponse (content : string)
| ToolCallResult (tool_name tool_args result : value).

Record message : Type := Message { role : string; content : value }.

(** Modelled from the spec: [HistoryEntry.to_json] of [waa/history.py],
    which is not among the sources. One role-tagged message per entry; a
    tool result carries the tool name, the arguments and the result. *)
Definition to_json (e : HistoryEntry) : message :=
  match e with
  | SystemPrompt c => Message "system" (VStr c)
  | UserInstruction c => Message "user" (VStr c)
  | LLMResponse c => Message "assistant" (VStr c)
  | ToolCallResult n a r =>
      Message "tool" (VDict [("tool", n); ("arguments", a); ("result", r)])
  end.

(** ** The wire format *)

Definition TOOL_OPEN : string := "<tool_call>".
Definition TOOL_CLOSE : string := "</tool_call>".
Definition TERMINATE : string := "<terminate>".

(** The JSON text of a member and of an object, and the text of a tool
    call as the prompt shows it. *)
Definition member (key text : string) : string := quoted key ++ ": " ++ text.

Definition object (members : list string) : string :=
  "{" ++ String.concat ", " members ++ "}".

Definition tool_call_text (tool args : string) : string :=
  TOOL_OPEN
  ++ object [member "tool" (quoted tool); member "arguments" args]
  ++ TOOL_CLOSE.

(** ** [waa/llm.py]: the scripted backend *)

Module Llm.

Definition default_responses : list string :=
  [ tool_call_text "fs.read" (object [member "path" (quoted "package.json")]);
    "Let me check the project structure.";
    tool_call_text "tests.run" (object [member "type" (quoted "all")]);
    "<terminate>" ].

Record MockLanguageModel : Type :=
  Mock { responses : list string; call_count : nat }.

(** [MockLanguageModel(responses)]: [responses or [...]] *)
Definition mock_new (given : option (list string)) : MockLanguageModel :=
  Mock (match given with
        | Some (r :: rs) => r :: rs
        | _ => default_responses
        end) 0.

(** [MockLanguageModel.generate] *)
Definition mock_generate (m : MockLanguageModel) (messages : list message)
  : string * MockLanguageModel :=
  (nth (call_count m mod List.length (responses m)) (responses m) "",
   Mock (responses m) (call_count m + 1)).

(** A message in the shape the remote service takes. *)
Record GeminiMessage : Type :=
  Part { gemini_role : string; gemini_part : value }.

(** The loop of [GeminiLanguageModel.generate] over the messages: the
    system and user roles become [user], the assistant role [model], and a
    tool message a labelled [user] text; other roles are dropped. [str_of]
    is [str] on a content that is not a string. *)
Definition gemini_messages (str_of : value -> string)
  (messages : list message) : list GeminiMessage :=
  flat_map
    (fun msg =>
       if String.eqb (role msg) "system" then [Part "user" (content msg)]
       else if String.eqb (role msg) "user" then [Part "user" (content msg)]
       else if String.eqb (role msg) "assistant"
       then [Part "model" (content msg)]
       else if String.eqb (role msg) "tool" then
         let tool_content :=
           match content msg with
           | VStr text => text
           | other => str_of other
           end in
         [Part "user" (VStr ("Tool result: " ++ tool_content))]
       else [])
    messages.

(** [GeminiLanguageModel.generate]: the messages but the last are the
    history of the chat, the last one is sent; [chat] is the exchange with
    the remote service, whose failure is raised again as a
    [RuntimeError]. *)
Definition gemini_generate {G : Type} (str_of : value -> string)
  (chat : G -> list GeminiMessage -> value -> (exn + string) * G)
  (g : G) (messages : list message) : (exn + string) * G :=
  let converted := gemini_messages str_of messages in
  let input :=
    match converted with
    | [] => VStr ""
    | _ => gemini_part (last converted (Part "" VNone))
    end in
  match chat g (removelast converted) input with
  | (inr text, g') => (inr text, g')
  | (inl e, g') =>
      (inl (Exn OtherError ("Gemini API error: " ++ exn_str e)), g')
  end.

(** [GeminiLanguageModel(model_name, api_key)]: the key given or the one of
    the environment; [connect] configures the client, and fails when the
    package of the service is not installed. *)
Definition gemini_new {G : Type} (connect : string -> string -> exn + G)
  (env_key : option string) (model_name : string) (api_key : option string)
  : exn + G :=
  let key :=
    match api_key with
    | Some (String c k) => Some (String c k)
    | _ => env_key
    end in
  match key with
  | Some (String c k) => connect model_name (String c k)
  | _ => inl (Exn OtherError "GEMINI_API_KEY environment variable not set")
  end.

End Llm.

(** ** The tool-call parser of [waa/agent.py] *)

(** [Agent._parse_tool_call] under the limits of the interpreter; the
    returned [None] is [VNone], and [inl] is the exception that the handler
    [except json.JSONDecodeError] lets through. *)
Definition _parse_tool_call (lim : Json.Limits) (response : string)
  : exn + value :=
  if PyStr.startswith response TOOL_OPEN && PyStr.endswith response TOOL_CLOSE
  then
    let json_str :=
      PyStr.slice response (String.length TOOL_OPEN)
                  (String.length TOOL_CLOSE) in
    match Json.loads lim json_str with
    | inr v => inr v
    | inl e =>
        match uncaught e with
        | None => inr VNone
        | Some raised => inl raised
        end
    end
  else inr VNone.

(** The test [if tool_call:] of [Agent.run], which a response reaches when
    the parser returns. *)
Definition is_tool_invocation (lim : Json.Limits) (response : string)
  : bool :=
  match _parse_tool_call lim response with
  | inr tool_call => truthy tool_call
  | inl _ => false
  end.

(** The responses for which [Agent.run] reaches its last branch, the one
    that logs the response as a thought. *)
Definition plain_text (lim : Json.Limits) (response : string) : bool :=
  negb (PyStr.contains response TERMINATE)
  && match _parse_tool_call lim response with
     | inr tool_call => negb (truthy tool_call)
     | inl _ => false
     end.

(** ** The agent of [waa/agent.py] *)

(** The recognised keys of [.waa/config.json], with their types. *)
Record Config : Type := {
  llm_type : option string;
  model : option string;
  api_key : option string;
  mock_responses : option (list string);
  max_turns : option Z;
  allowed_tools : option (list string);
  protected_files : option (list string)
}.

(** Modelled from the spec: [AgentEnvironment] of [waa/env.py], which is not
    among the sources. A read-only view over the loaded configuration and
    the working directory; [get_config_value(key, default)] is the value
    under the key, or the default when the key is absent. *)
Record AgentEnvironment : Type :=
  Env { working_dir : string; env_config : Config }.

Definition get_config_value {A : Type} (field : Config -> option A)
  (default : A) (env : AgentEnvironment) : A :=
  match field (env_config env) with
  | Some x => x
  | None => default
  end.

(** What the run finds on disk when it starts: [.waa/config.json],
    [.waa/agent.log] and [.waa/instruction.md]. A file that exists but
    cannot be read or decoded is the exception raised on reading it. *)
Record Startup : Type := {
  config_file : option (exn + Config);
  log_exists : bool;
  instruction_file : option (exn + string)
}.

Definition newline : string := String "010"%char EmptyString.

(** A tool once [initialize(env)] has run: its name, its description, the
    argument names with the names of their types, [schema.validate] (the
    exception it raises, if any) and [execute]. [World] is the state of
    whatever the tools act on (file system, processes). *)
Record Tool (World : Type) : Type := {
  name : string;
  description : string;
  arguments : list (string * string);
  validate : value -> option exn;
  execute : value -> World -> (exn + value) * World
}.
Arguments name {World} _.
Arguments description {World} _.
Arguments arguments {World} _.
Arguments validate {World} _ _.
Arguments execute {World} _ _ _.

(** What the agent takes from outside this package. *)
Record Runtime (World : Type) : Type := {
  (* the standard tools of the five tool modules, in the order of
     [all_tools], each initialised with the environment *)
  standard_tools : AgentEnvironment -> list (Tool World);
  (* the remote service of the live backend: the state of its client, the
     configuration of the client for a model and a key, and an exchange
     of a chat (its history, the input sent, the text returned) *)
  Gemini : Type;
  gemini_connect : string -> string -> exn + Gemini;
  gemini_chat :
    Gemini -> list Llm.GeminiMessage -> value -> (exn + string) * Gemini;
  (* [os.getenv("GEMINI_API_KEY")] *)
  GEMINI_API_KEY : option string;
  (* [str(v)] *)
  py_str : value -> string;
  (* the limits of the interpreter where [_parse_tool_call] decodes *)
  json_limits : Json.Limits;
  (* the exceptions of the registry *)
  tool_not_found : value -> exn;
  tool_already_registered : string -> exn
}.
Arguments standard_tools {World} _ _.
Arguments Gemini {World} _.
Arguments gemini_connect {World} _ _ _.
Arguments gemini_chat {World} _ _ _ _.
Arguments GEMINI_API_KEY {World} _.
Arguments py_str {World} _ _.
Arguments json_limits {World} _.
Arguments tool_not_found {World} _ _.
Arguments tool_already_registered {World} _ _.

(** The calls the agent makes on its collaborators, in order: the records
    handed to the logger, the queries sent to the model ([Generate]) and the
    tool executions ([Execute]). *)
Inductive Event : Type :=
| InitStarted
| WorkingDirectory (dir : string)
| DebugMode (debug : bool)
| MaxTurns (n : Z)
| ToolRegistered (tool : string)
| SystemPromptLogged (prompt : string)
| UserInstructionLogged (instruction : string)
| InitComplete
| TurnStarted (number : nat) (limit : Z)
| Querying
| Generate (messages : list message)
| ResponseLogged (turn : nat) (response : string)
| QueryFailed (cause : string)
| ResponseEmpty
| DecidedToTerminate
| FinalAnswer (answer : string)
| Thought (text : string)
| MaxTurnsReached
| RunFinished
| ErrorLogged (msg : string)
| ToolCallLogged (tool args : value)
| Execute (tool : string) (args : value)
| ToolResultLogged (tool result : value) (error : option string).

(** How a run ends: the model asked to stop, the turns ran out, a query
    failed, or an exception left the loop. *)
Inductive Outcome : Type :=
| Explicit (final_answer : string)
| TurnLimit
| EmptyResponse
| Raised (e : exn).

(** How the body of the loop ends for one turn. *)
Inductive Step : Type :=
| Continue
| Stop (outcome : Outcome).

Section Agent.

Context {World : Type} (rt : Runtime World).

Inductive LanguageModel : Type :=
| MockLLM (m : Llm.MockLanguageModel)
| GeminiLLM (g : Gemini rt).

(** [self.llm.generate(messages)] *)
Definition generate (llm : LanguageModel) (messages : list message)
  : (exn + string) * LanguageModel :=
  match llm with
  | MockLLM m =>
      let (r, m') := Llm.mock_generate m messages in (inr r, MockLLM m')
  | GeminiLLM g =>
      let (r, g') :=
        Llm.gemini_generate (py_str rt) (gemini_chat rt) g messages in
      (r, GeminiLLM g')
  end.

(** Modelled from the spec: [ToolRegistry] of [waa/tool.py], which is not
    among the sources. A mapping from tool name to tool, kept in
    registration order; registering a name twice is an error, and
    [get_tool] fails for a name that is not registered. *)
Definition ToolRegistry : Type := list (Tool World).

Definition find_tool (n : string) (reg : ToolRegistry)
  : option (Tool World) :=
  find (fun t => String.eqb (name t) n) reg.

Definition register_tool (t : Tool World) (reg : ToolRegistry)
  : exn + ToolRegistry :=
  match find_tool (name t) reg with
  | Some _ => inl (tool_already_registered rt (name t))
  | None => inr (reg ++ [t])%list
  end.

Definition get_tool (reg : ToolRegistry) (tool_name : value)
  : exn + Tool World :=
  match tool_name with
  | VStr n =>
      match find_tool n reg with
      | Some t => inr t
      | None => inl (tool_not_found rt tool_name)
      end
  | _ => inl (tool_not_found rt tool_name)
  end.

Record Agent : Type := {
  env : AgentEnvironment;
  agent_max_turns : Z;
  llm : LanguageModel;
  tool_registry : ToolRegistry;
  history : list HistoryEntry;
  trace : list Event;
  world : World
}.

Definition log (ev : Event) (a : Agent) : Agent :=
  {| env := env a; agent_max_turns := agent_max_turns a; llm := llm a;
     tool_registry := tool_registry a; history := history a;
     trace := (trace a ++ [ev])%list; world := world a |}.

Definition append (h : HistoryEntry) (a : Agent) : Agent :=
  {| env := env a; agent_max_turns := agent_max_turns a; llm := llm a;
     tool_registry := tool_registry a; history := (history a ++ [h])%list;
     trace := trace a; world := world a |}.

Definition with_llm (l : LanguageModel) (a : Agent) : Agent :=
  {| env := env a; agent_max_turns := agent_max_turns a; llm := l;
     tool_registry := tool_registry a; history := history a;
     trace := trace a; world := world a |}.

Definition with_world (w : World) (a : Agent) : Agent :=
  {| env := env a; agent_max_turns := agent_max_turns a; llm := llm a;
     tool_registry := tool_registry a; history := history a;
     trace := trace a; world := w |}.

Definition with_registry (r : ToolRegistry) (a : Agent) : Agent :=
  {| env := env a; agent_max_turns := agent_max_turns a; llm := llm a;
     tool_registry := r; history := history a;
     trace := trace a; world := world a |}.

(** [Agent.initialize_environment] *)
Definition initialize_environment (dir : string) (st : Startup)
  : exn + AgentEnvironment * Z :=
  match config_file st with
  | None =>
      inl (Exn OSError ("Config file not found: " ++ dir
                        ++ "/.waa/config.json"))
  | Some (inl e) => inl e
  | Some (inr c) =>
      let e := Env dir c in inr (e, get_config_value max_turns 50%Z e)
  end.

(** [Agent.initialize_llm] *)
Definition initialize_llm (c : Config) : exn + LanguageModel :=
  let t := match llm_type c with Some t => t | None => "mock" end in
  if String.eqb t "gemini" then
    let model_name :=
      match model c with
      | Some m => m
      | None => "gemini-2.0-flash-thinking-exp-01-21"
      end in
    let key :=
      match api_key c with Some k => Some k | None => GEMINI_API_KEY rt end in
    match Llm.gemini_new (gemini_connect rt) (GEMINI_API_KEY rt)
            model_name key with
    | inl e => inl e
    | inr g => inr (GeminiLLM g)
    end
  else if String.eqb t "mock" then
    inr (MockLLM (Llm.mock_new (mock_responses c)))
  else
    inl (Exn OtherError ("Unknown llm_type: " ++ t
                         ++ ". Use 'gemini' or 'mock'.")).

(** [Agent.initialize_logger] *)
Definition initialize_logger (debug : bool) (st : Startup) (a : Agent)
  : exn + Agent :=
  if log_exists st then
    inl (Exn OtherError ("Log file already exists: "
                         ++ working_dir (env a) ++ "/.waa/agent.log"
                         ++ ". Remove it to start a new run."))
  else
    inr (log (MaxTurns (agent_max_turns a))
          (log (DebugMode debug)
            (log (WorkingDirectory (working_dir (env a)))
              (log InitStarted a)))).

Definition allowed (allowed_tools : option (list string)) (t : Tool World)
  : bool :=
  match allowed_tools with
  | None => true
  | Some names => existsb (String.eqb (name t)) names
  end.

(** The loop of [Agent.initialize_tool_registry]. *)
Fixpoint register_all (allowed_tools : option (list string))
  (tools : list (Tool World)) (a : Agent) : exn + Agent :=
  match tools with
  | [] => inr a
  | t :: rest =>
      if allowed allowed_tools t then
        match register_tool t (tool_registry a) with
        | inl e => inl e
        | inr reg =>
            register_all allowed_tools rest
              (log (ToolRegistered (name t)) (with_registry reg a))
        end
      else register_all allowed_tools rest a
  end.

(** [Agent.initialize_tool_registry]; the default of [allowed_tools] is
    [None]. *)
Definition initialize_tool_registry (a : Agent) : exn + Agent :=
  register_all (allowed_tools (env_config (env a)))
               (standard_tools rt (env a)) (with_registry [] a).

Definition arg_schema (arg : string * string) : string :=
  member (fst arg) (quoted (snd arg)).

Definition tool_desc (t : Tool World) : string :=
  "- " ++ name t ++ ": " ++ description t ++ newline
  ++ "  Arguments: {" ++ String.concat ", " (map arg_schema (arguments t))
  ++ "}".

Definition prompt_parts : list string :=
  [ "You are WAA, an AI agent that builds and tests web applications.";
    "Your goal is to complete the user's instructions in as few turns as possible.";
    newline ++ "# Tool Calling Protocol";
    "To use a tool, output a <tool_call> XML tag with the tool name and arguments in a JSON block:";
    tool_call_text "TOOL_NAME"
      (object [member "arg1" (quoted "value1");
               member "arg2" (quoted "value2")]);
    newline ++ "# Termination Protocol";
    "When you have fully completed the user's instructions, output the <terminate> tag.";
    "<terminate>Final answer or summary of work done.</terminate>";
    newline ++ "# Available Tools" ].

(** [Agent.load_system_prompt] *)
Definition load_system_prompt (a : Agent) : Agent :=
  let parts :=
    match tool_registry a with
    | [] => (prompt_parts ++ ["No tools are available."])%list
    | all_tools => (prompt_parts ++ map tool_desc all_tools)%list
    end in
  let final_prompt := String.concat newline parts in
  log (SystemPromptLogged final_prompt) (append (SystemPrompt final_prompt) a).

(** [Agent.load_instruction] *)
Definition load_instruction (st : Startup) (a : Agent) : exn + Agent :=
  match instruction_file st with
  | None =>
      inl (Exn OSError
             ("Instruction file not found at conventional path: "
              ++ working_dir (env a) ++ "/.waa/instruction.md"))
  | Some (inl e) => inl e
  | Some (inr instruction_content) =>
      inr (log (UserInstructionLogged instruction_content)
             (append (UserInstruction instruction_content) a))
  end.

(** [Agent.initialize], on the agent built by [Agent.__init__]. *)
Definition initialize (dir : string) (debug : bool) (st : Startup)
  (w : World) : exn + Agent :=
  match initialize_environment dir st with
  | inl e => inl e
  | inr (e, turns) =>
      match initialize_llm (env_config e) with
      | inl x => inl x
      | inr l =>
          let a0 := {| env := e; agent_max_turns := turns; llm := l;
                       tool_registry := []; history := []; trace := [];
                       world := w |} in
          match initialize_logger debug st a0 with
          | inl x => inl x
          | inr a1 =>
              match initialize_tool_registry a1 with
              | inl x => inl x
              | inr a2 => load_instruction st (load_system_prompt a2)
              end
          end
      end
  end.

(** [Agent.query_llm]: the returned [None] is the failed query. *)
Definition query_llm (turn : nat) (a : Agent) : option string * Agent :=
  let messages := map to_json (history a) in
  let a1 := log (Generate messages) (log Querying a) in
  match generate (llm a1) messages with
  | (inr response_content, l) =>
      let a2 := log (ResponseLogged turn response_content) (with_llm l a1) in
      (Some response_content, append (LLMResponse response_content) a2)
  | (inl e, l) =>
      (None, log (QueryFailed (exn_str e)) (with_llm l a1))
  end.

Definition failure (error_str : string) : value :=
  VDict [("ok", VBool false); ("error", VStr error_str)].

(** The handler [except Exception as e] of [Agent.execute_tool]. *)
Definition tool_failed (tool_name : value) (e : exn) (a : Agent)
  : value * Agent :=
  let error_str :=
    "Error executing tool " ++ py_str rt tool_name ++ ": " ++ exn_str e in
  (failure error_str, log (ErrorLogged error_str) a).

(** [Agent.execute_tool]; [inl] is the exception that leaves it uncaught. *)
Definition execute_tool (tool_call : value) (a : Agent) : exn + Agent :=
  match tool_call with
  | VDict d =>
      let tool_name :=
        match dict_get "tool" d with Some v => v | None => VNone end in
      let tool_args :=
        match dict_get "arguments" d with Some v => v | None => VDict [] end in
      let '(result, error, a1) :=
        if negb (truthy tool_name) then
          let error := "Malformed tool call: missing 'tool' name." in
          (VNone, Some error, log (ErrorLogged error) a)
        else
          match get_tool (tool_registry a) tool_name with
          | inl e => let (r, a') := tool_failed tool_name e a in (r, None, a')
          | inr tool =>
              match validate tool tool_args with
              | Some e =>
                  let (r, a') := tool_failed tool_name e a in (r, None, a')
              | None =>
                  let a' :=
                    log (Execute (name tool) tool_args)
                        (log (ToolCallLogged tool_name tool_args) a) in
                  match execute tool tool_args (world a') with
                  | (inr r, w) => (r, None, with_world w a')
                  | (inl e, w) =>
                      let (r, a'') :=
                        tool_failed tool_name e (with_world w a') in
                      (r, None, a'')
                  end
              end
          end in
      inr (append (ToolCallResult tool_name tool_args result)
             (log (ToolResultLogged tool_name result error) a1))
  | other => inl (AttributeError_get other)
  end.

(** The body of the loop of [Agent.run] for one turn: [Stop] is a [break]
    or an exception that leaves the loop, [Continue] the end of the body. *)
Definition take_turn (turn : nat) (a : Agent) : Step * Agent :=
  let a1 := log (TurnStarted (turn + 1) (agent_max_turns a)) a in
  match query_llm turn a1 with
  | (None, a2) => (Stop EmptyResponse, log ResponseEmpty a2)
  | (Some llm_response_content, a2) =>
      if PyStr.contains llm_response_content TERMINATE then
        let final_answer :=
          PyStr.strip (PyStr.replace llm_response_content TERMINATE "") in
        (Stop (Explicit final_answer),
         log (FinalAnswer final_answer) (log DecidedToTerminate a2))
      else
        match _parse_tool_call (json_limits rt) llm_response_content with
        | inl e => (Stop (Raised e), a2)
        | inr tool_call =>
            if truthy tool_call then
              match execute_tool tool_call a2 with
              | inr a3 => (Continue, a3)
              | inl e => (Stop (Raised e), a2)
              end
            else (Continue, log (Thought llm_response_content) a2)
        end
  end.

(** The loop [for turn in range(self.max_turns)] of [Agent.run] with its
    [else] clause, with [remaining] turns to go from [turn] on. *)
Fixpoint loop (remaining turn : nat) (a : Agent) : Outcome * Agent :=
  match remaining with
  | O => (TurnLimit, log MaxTurnsReached a)
  | S remaining' =>
      match take_turn turn a with
      | (Stop outcome, a') => (outcome, a')
      | (Continue, a') => loop remaining' (S turn) a'
      end
  end.

Inductive RunResult : Type :=
| InitFailed (e : exn)
| Finished (outcome : Outcome) (a : Agent).

(** [Agent.run] *)
Definition run (dir : string) (debug : bool) (st : Startup) (w : World)
  : RunResult :=
  match initialize dir debug st w with
  | inl e => InitFailed e
  | inr a =>
      let (outcome, a') :=
        loop (Z.to_nat (agent_max_turns a)) 0 (log InitComplete a) in
      Finished outcome (log RunFinished a')
  end.

(** The number of model queries and of tool executions in a trace. *)
Definition is_generate (ev : Event) : bool :=
  match ev with Generate _ => true | _ => false end.

Definition is_execute (ev : Event) : bool :=
  match ev with Execute _ _ => true | _ => false end.

Definition is_response (ev : Event) : bool :=
  match ev with ResponseLogged _ _ => true | _ => false end.

Definition is_tool_result (ev : Event) : bool :=
  match ev with ToolResultLogged _ _ _ => true | _ => false end.

Definition count (p : Event -> bool) (t : list Event) : nat :=
  List.length (filter p t).

Definition queries (a : Agent) : nat := count is_generate (trace a).
Definition executions (a : Agent) : nat := count is_execute (trace a).

End Agent.

Arguments env {World rt} _.
Arguments agent_max_turns {World rt} _.
Arguments llm {World rt} _.
Arguments tool_registry {World rt} _.
Arguments history {World rt} _.
Arguments trace {World rt} _.
Arguments world {World rt} _.
Arguments log {World rt} _ _.
Arguments append {World rt} _ _.
Arguments with_llm {World rt} _ _.
Arguments with_world {World rt} _ _.
Arguments with_registry {World rt} _ _.
Arguments queries {World rt} _.
Arguments executions {World rt} _.
Arguments InitFailed {World rt} _.
Arguments Finished {World rt} _ _.

(** ** The file-system tools of [waa/tools/fs.py] *)

(** What the tools take from [pathlib] and [shutil], over the state [World]
    of the file system. *)
Record FileSystem (World : Type) : Type := {
  Path : Type;
  to_path : string -> Path;
  join : Path -> string -> Path;                        (* [p / s] *)
  resolve : Path -> World -> exn + Path;
  str : Path -> string;
  path_eqb : Path -> Path -> bool;
  parent : Path -> Path;
  path_name : Path -> string;
  path_exists : Path -> World -> bool;
  is_file : Path -> World -> bool;
  is_dir : Path -> World -> bool;
  read_text : Path -> World -> exn + string;
  stat_size : Path -> World -> exn + Z;
  iterdir : Path -> World -> exn + list Path;
  mkdir_parents : Path -> World -> (exn + unit) * World;
  write_text : Path -> string -> World -> (exn + unit) * World;
  unlink : Path -> World -> (exn + unit) * World;
  rmdir : Path -> World -> (exn + unit) * World;
  rmtree : Path -> World -> (exn + unit) * World;
  lower : string -> string;                             (* [str.lower] *)
  recursion_limit : nat
}.
Arguments Path {World} _.
Arguments to_path {World} _ _.
Arguments join {World} _ _ _.
Arguments resolve {World} _ _ _.
Arguments str {World} _ _.
Arguments path_eqb {World} _ _ _.
Arguments parent {World} _ _.
Arguments path_name {World} _ _.
Arguments path_exists {World} _ _ _.
Arguments is_file {World} _ _ _.
Arguments is_dir {World} _ _ _.
Arguments read_text {World} _ _ _.
Arguments stat_size {World} _ _ _.
Arguments iterdir {World} _ _ _.
Arguments mkdir_parents {World} _ _ _.
Arguments write_text {World} _ _ _ _.
Arguments unlink {World} _ _ _.
Arguments rmdir {World} _ _ _.
Arguments rmtree {World} _ _ _.
Arguments lower {World} _ _.
Arguments recursion_limit {World} _.

(** Code that reads or changes the world and may raise. *)
Definition Try (World A : Type) : Type := World -> (exn + A) * World.

Definition ret {World A : Type} (x : A) : Try World A := fun w => (inr x, w).

Definition raise {World A : Type} (e : exn) : Try World A :=
  fun w => (inl e, w).

Definition bind {World A B : Type} (m : Try World A) (k : A -> Try World B)
  : Try World B :=
  fun w =>
    match m w with
    | (inr x, w') => k x w'
    | (inl e, w') => (inl e, w')
    end.

(** An operation that only reads the world. *)
Definition reading {World A : Type} (f : World -> exn + A) : Try World A :=
  fun w => (f w, w).

Definition asking {World A : Type} (f : World -> A) : Try World A :=
  fun w => (inr (f w), w).

(** [try: m except Exception as e: return handler(e)] *)
Definition try_except {World A : Type} (m : Try World A) (handler : exn -> A)
  : Try World A :=
  fun w =>
    match m w with
    | (inl e, w') => (inr (handler e), w')
    | done => done
    end.

Declare Scope try_scope.
Delimit Scope try_scope with try.
Notation "x <- m ;; k" := (bind m (fun x => k))
  (at level 61, m at next level, right associativity) : try_scope.
Notation "m ;; k" := (bind m (fun _ => k))
  (at level 61, right associativity) : try_scope.
Notation "' pat <- m ;; k" :=
  (bind m (fun x => match x with pat => k end))
  (at level 61, pat pattern, m at next level, right associativity)
  : try_scope.

Definition KeyError (key : string) : exn := Exn OtherError ("'" ++ key ++ "'").

Definition TypeError (msg : string) : exn := Exn OtherError msg.

(** [input[key]] *)
Definition subscript (input : value) (key : string) : exn + value :=
  match input with
  | VDict d =>
      match dict_get key d with
      | Some v => inr v
      | None => inl (KeyError key)
      end
  | other =>
      inl (TypeError ("'" ++ type_name other ++ "' object is not subscriptable"))
  end.

(** [input.get(key, default)] on a [dict] *)
Definition get_default (input : value) (key : string) (default : value)
  : exn + value :=
  match input with
  | VDict d =>
      match dict_get key d with
      | Some v => inr v
      | None => inr default
      end
  | other => inl (AttributeError_get other)
  end.

Definition success (data : list (string * value)) : value :=
  VDict [("ok", VBool true); ("data", VDict data)].

Definition message_of (text : string) : list (string * value) :=
  [("message", VStr text)].

(** [s.replace(old, new, 1)] *)
Fixpoint replace_first (s old new : string) : string :=
  if String.prefix old s then new ++ PyStr.drop (String.length old) s
  else match s with
       | EmptyString => EmptyString
       | String c s' => String c (replace_first s' old new)
       end.

(** [len(s.splitlines())]: the line boundaries are LF, CR, CR LF, VT, FF,
    FS, GS, RS, NEL (U+0085), LS and PS (U+2028, U+2029); [pending] tells
    whether a line has begun that no boundary has closed yet. *)
Fixpoint count_lines (pending : bool) (s : string) : nat :=
  match s with
  | EmptyString => if pending then 1 else 0
  | String a r1 =>
      let n := PyStr.code a in
      if (n =? 13)%nat then
        match r1 with
        | String "010"%char r2 => S (count_lines false r2)
        | _ => S (count_lines false r1)
        end
      else if ((n =? 10) || (n =? 11) || (n =? 12)
               || (28 <=? n) && (n <=? 30))%nat
      then S (count_lines false r1)
      else
        match r1 with
        | String b r2 =>
            if ((n =? 194) && (PyStr.code b =? 133))%nat
            then S (count_lines false r2)
            else
              match r2 with
              | String c r3 =>
                  if ((n =? 226) && (PyStr.code b =? 128)
                      && ((PyStr.code c =? 168) || (PyStr.code c =? 169)))%nat
                  then S (count_lines false r3)
                  else count_lines true r1
              | EmptyString => count_lines true r1
              end
        | EmptyString => count_lines true r1
        end
  end.

(** [sorted(items, key=k)] with a stable insertion. *)
Fixpoint insert_by {A : Type} (k : A -> string) (x : A) (l : list A)
  : list A :=
  match l with
  | [] => [x]
  | y :: l' =>
      if String.ltb (k x) (k y) then x :: l else y :: insert_by k x l'
  end.

Definition sorted_by {A : Type} (k : A -> string) (l : list A) : list A :=
  fold_left (fun acc x => insert_by k x acc) l [].

Section FsTools.

Context {World : Type} (fs : FileSystem World).

Local Open Scope try_scope.

(** What [initialize(env)] stores in a tool. *)
Record FsTool : Type := {
  tool_working_dir : Path fs;
  tool_protected_files : list string
}.

Definition fs_initialize (env : AgentEnvironment) : FsTool :=
  {| tool_working_dir := to_path fs (working_dir env);
     tool_protected_files := get_config_value protected_files [] env |}.

(** [(self.working_dir / path_str).resolve()] *)
Definition resolve_in (t : FsTool) (path_str : value)
  : Try World (string * Path fs) :=
  match path_str with
  | VStr p =>
      full_path <- reading (resolve fs (join fs (tool_working_dir t) p)) ;;
      ret (p, full_path)
  | other =>
      raise (TypeError ("unsupported operand type(s) for /: 'PosixPath' and '"
                        ++ type_name other ++ "'"))
  end.

(** [str(full_path).startswith(str(self.working_dir.resolve()))] *)
Definition inside (t : FsTool) (full_path : Path fs) : Try World bool :=
  root <- reading (resolve fs (tool_working_dir t)) ;;
  ret (PyStr.startswith (str fs full_path) (str fs root)).

(** [path_str in self.protected_files] *)
Definition protected (t : FsTool) (p : string) : bool :=
  existsb (String.eqb p) (tool_protected_files t).

Definition outside_error (p : string) : value :=
  failure ("Path is outside the working directory: " ++ p).

Definition expect_str (what : string) (v : value) : Try World string :=
  match v with
  | VStr s => ret s
  | other => raise (TypeError (what ++ type_name other))
  end.

(** [FileCreateTool.execute] *)
Definition write_execute (t : FsTool) (input : value) : Try World value :=
  path_str <- reading (fun _ => subscript input "path") ;;
  content <- reading (fun _ => subscript input "content") ;;
  try_except
    ('(p, full_path) <- resolve_in t path_str ;;
     ok <- inside t full_path ;;
     if negb ok then ret (outside_error p)
     else if protected t p then
       ret (failure ("File is protected and cannot be written to: " ++ p))
     else
       mkdir_parents fs (parent fs full_path) ;;
       text <- expect_str "data must be str, not " content ;;
       write_text fs full_path text ;;
       ret (success (message_of ("Successfully wrote to file " ++ p ++ "."))))
    (fun e => failure ("Failed to write file: " ++ exn_str e)).

(** [FileDeleteTool.execute] *)
Definition delete_execute (t : FsTool) (input : value) : Try World value :=
  path_str <- reading (fun _ => subscript input "path") ;;
  try_except
    ('(p, full_path) <- resolve_in t path_str ;;
     ok <- inside t full_path ;;
     if negb ok then ret (outside_error p)
     else if protected t p then
       ret (failure ("File is protected and cannot be deleted: " ++ p))
     else
       present <- asking (path_exists fs full_path) ;;
       if negb present then ret (failure ("File not found: " ++ p))
       else
         file <- asking (is_file fs full_path) ;;
         if negb file then
           ret (failure ("Path is not a file, cannot be deleted with fs.delete: "
                         ++ p))
         else
           unlink fs full_path ;;
           ret (success (message_of ("Successfully deleted file " ++ p ++ "."))))
    (fun e => failure ("Failed to delete file: " ++ exn_str e)).

(** [FileReadTool.execute] *)
Definition read_execute (t : FsTool) (input : value) : Try World value :=
  path_str <- reading (fun _ => subscript input "path") ;;
  try_except
    ('(p, full_path) <- resolve_in t path_str ;;
     ok <- inside t full_path ;;
     if negb ok then ret (outside_error p)
     else
       present <- asking (path_exists fs full_path) ;;
       if negb present then ret (failure ("File not found: " ++ p))
       else
         file <- asking (is_file fs full_path) ;;
         if negb file then ret (failure ("Path is not a file: " ++ p))
         else
           content <- reading (read_text fs full_path) ;;
           size <- reading (stat_size fs full_path) ;;
           let line_count := count_lines false content in
           ret (success [("content", VStr content);
                         ("size", VInt size);
                         ("line_count", VInt (Z.of_nat line_count));
                         ("message",
                          VStr ("Successfully read file " ++ p ++ "."))]))
    (fun e => failure ("Failed to read file: " ++ exn_str e)).

(** [FileEditTool.execute] *)
Definition edit_execute (t : FsTool) (input : value) : Try World value :=
  path_str <- reading (fun _ => subscript input "path") ;;
  old_text <- reading (fun _ => subscript input "old_text") ;;
  new_text <- reading (fun _ => subscript input "new_text") ;;
  try_except
    ('(p, full_path) <- resolve_in t path_str ;;
     ok <- inside t full_path ;;
     if negb ok then ret (outside_error p)
     else if protected t p then
       ret (failure ("File is protected and cannot be edited: " ++ p))
     else
       file <- asking (is_file fs full_path) ;;
       if negb file then ret (failure ("File not found: " ++ p))
       else
         content <- reading (read_text fs full_path) ;;
         old <- expect_str "replace() argument 1 must be str, not " old_text ;;
         new <- expect_str "replace() argument 2 must be str, not " new_text ;;
         let new_content := replace_first content old new in
         if String.eqb content new_content then
           ret (failure ("Text to be replaced ('" ++ old
                         ++ "') not found in file: " ++ p))
         else
           write_text fs full_path new_content ;;
           ret (success (message_of ("Successfully edited file " ++ p ++ "."))))
    (fun e => failure ("Failed to edit file: " ++ exn_str e)).

(** [DirectoryCreateTool.execute] *)
Definition mkdir_execute (t : FsTool) (input : value) : Try World value :=
  path_str <- reading (fun _ => subscript input "path") ;;
  try_except
    ('(p, full_path) <- resolve_in t path_str ;;
     ok <- inside t full_path ;;
     if negb ok then ret (outside_error p)
     else
       mkdir_parents fs full_path ;;
       ret (success (message_of ("Successfully created directory " ++ p ++ "."))))
    (fun e => failure ("Failed to create directory: " ++ exn_str e)).

(** [DirectoryDeleteTool.execute]; [except OSError] comes before
    [except Exception]. An [OSError] can only come from the file system,
    hence after the joining of the path, which needs [path_str] to be a
    [str]. *)
Definition rmdir_execute (t : FsTool) (input : value) : Try World value :=
  path_str <- reading (fun _ => subscript input "path") ;;
  recursive <- reading (fun _ => get_default input "recursive" (VBool false)) ;;
  try_except
    ('(p, full_path) <- resolve_in t path_str ;;
     ok <- inside t full_path ;;
     if negb ok then ret (outside_error p)
     else
       root <- reading (resolve fs (tool_working_dir t)) ;;
       if path_eqb fs full_path root then
         ret (failure "Cannot delete the root working directory.")
       else
         present <- asking (path_exists fs full_path) ;;
         if negb present then ret (failure ("Directory not found: " ++ p))
         else
           dir <- asking (is_dir fs full_path) ;;
           if negb dir then ret (failure ("Path is not a directory: " ++ p))
           else if truthy recursive then
             rmtree fs full_path ;;
             ret (success (message_of ("Successfully recursively deleted directory "
                                       ++ p ++ ".")))
           else
             rmdir fs full_path ;;
             ret (success (message_of ("Successfully deleted empty directory "
                                       ++ p ++ "."))))
    (fun e =>
       match exn_kind e with
       | OSError =>
           failure ("Directory not empty. Use recursive=True to delete it: "
                    ++ match path_str with VStr p => p | _ => "" end)
       | OtherError => failure ("Failed to delete directory: " ++ exn_str e)
       end).

(** The loop of [DirectoryListTool.execute] over the items of the
    directory. *)
Fixpoint list_entries (items : list (Path fs)) : Try World (list value) :=
  match items with
  | [] => ret []
  | item :: rest =>
      dir <- asking (is_dir fs item) ;;
      let item_type := if dir then "dir" else "file" in
      item_size <- reading (stat_size fs item) ;;
      entries <- list_entries rest ;;
      ret (VDict [("name", VStr (path_name fs item));
                  ("type", VStr item_type);
                  ("size", VInt item_size)] :: entries)
  end.

(** [DirectoryListTool.execute] *)
Definition ls_execute (t : FsTool) (input : value) : Try World value :=
  path_str <- reading (fun _ => subscript input "path") ;;
  try_except
    ('(p, full_path) <- resolve_in t path_str ;;
     ok <- inside t full_path ;;
     if negb ok then ret (outside_error p)
     else
       dir <- asking (is_dir fs full_path) ;;
       if negb dir then ret (failure ("Path is not a directory: " ++ p))
       else
         items <- reading (iterdir fs full_path) ;;
         entries <- list_entries items ;;
         ret (success [("entries", VList entries)]))
    (fun e => failure ("Failed to list directory contents: " ++ exn_str e)).

Definition RecursionError : exn :=
  Exn OtherError "maximum recursion depth exceeded".

(** [DirectoryTreeTool._build_tree], with the depth of recursion the
    interpreter still allows. *)
Fixpoint _build_tree (depth : nat) (directory : Path fs) (prefix : string)
  : Try World (list string) :=
  match depth with
  | O => raise RecursionError
  | S depth' =>
      listed <- reading (iterdir fs directory) ;;
      let items := sorted_by (fun p => lower fs (path_name fs p)) listed in
      (fix each (items : list (Path fs)) : Try World (list string) :=
         match items with
         | [] => ret []
         | item :: rest =>
             let is_last := match rest with [] => true | _ => false end in
             let connector := if is_last then "└── " else "├── " in
             let line := prefix ++ connector ++ path_name fs item in
             dir <- asking (is_dir fs item) ;;
             below <-
               (if dir
                then _build_tree depth' item
                       (prefix ++ if is_last then "    " else "│   ")
                else ret []) ;;
             others <- each rest ;;
             ret (line :: below ++ others)%list
         end) items
  end.

(** [DirectoryTreeTool.execute] *)
Definition tree_execute (t : FsTool) (input : value) : Try World value :=
  path_str <- reading (fun _ => get_default input "path" (VStr ".")) ;;
  try_except
    ('(p, full_path) <- resolve_in t path_str ;;
     ok <- inside t full_path ;;
     if negb ok then ret (outside_error p)
     else
       dir <- asking (is_dir fs full_path) ;;
       if negb dir then ret (failure ("Path is not a directory: " ++ p))
       else
         lines <- _build_tree (recursion_limit fs) full_path "" ;;
         ret (success [("tree", VList (map VStr (p :: lines)))]))
    (fun e => failure ("Failed to generate directory tree: " ++ exn_str e)).

(** The argument declarations of a tool: name, whether it is required, and
    the name of its type. *)
Record ToolArgument : Type :=
  Arg { arg_name : string; arg_required : bool; arg_type : string }.

(** [standard_fs_tools()], each tool initialised with [env]; [validate] is
    [ToolSchema.validate] of [waa/tool.py], which is not among the
    sources. *)
Definition fs_tool (validate : list ToolArgument -> value -> option exn)
  (tool_name about : string) (schema : list ToolArgument)
  (execute : FsTool -> value -> Try World value) (env : AgentEnvironment)
  : Tool World :=
  {| name := tool_name;
     description := about;
     arguments := map (fun a => (arg_name a, arg_type a)) schema;
     validate := validate schema;
     execute := execute (fs_initialize env) |}.

Definition standard_fs_tools
  (validate : list ToolArgument -> value -> option exn)
  (env : AgentEnvironment) : list (Tool World) :=
  [ fs_tool validate "fs.write"
      "Creates or overwrites a file with specified content. Creates parent directories if needed."
      [Arg "path" true "str"; Arg "content" true "str"] write_execute env;
    fs_tool validate "fs.delete" "Deletes a specified file."
      [Arg "path" true "str"] delete_execute env;
    fs_tool validate "fs.read"
      "Reads the content of a file. Returns the content, size, and line count."
      [Arg "path" true "str"] read_execute env;
    fs_tool validate "fs.edit"
      "Edits a file by replacing the first occurrence of old_text with new_text."
      [Arg "path" true "str"; Arg "old_text" true "str";
       Arg "new_text" true "str"] edit_execute env;
    fs_tool validate "fs.mkdir"
      "Creates a new directory. It will also create parent directories if they do not exist."
      [Arg "path" true "str"] mkdir_execute env;
    fs_tool validate "fs.rmdir"
      "Deletes a directory. Use the 'recursive' argument (boolean) to delete non-empty directories."
      [Arg "path" true "str"; Arg "recursive" false "bool"] rmdir_execute env;
    fs_tool validate "fs.ls"
      "Lists contents of a directory, showing name, type ('file' or 'dir'), and size for each entry."
      [Arg "path" true "str"] ls_execute env;
    fs_tool validate "fs.tree"
      "Displays the directory structure as a tree, starting from the given path or current directory."
      [Arg "path" false "str"] tree_execute env ].

End FsTools.

(** ** A file system without symbolic links

    Paths are lists of components below the root; the disk maps the paths
    that exist to a file with its content or to a directory. With no links
    to follow, [resolve] only removes the empty, [.] and [..] components. *)

Module MemFs.

Inductive node : Type := File (content : string) | Dir.

Definition Disk : Type := list (list string * node).

Fixpoint components (s : string) : list string :=
  match s with
  | EmptyString => [EmptyString]
  | String c s' =>
      if Ascii.eqb c "/"%char then EmptyString :: components s'
      else match components s' with
           | x :: l => String c x :: l
           | [] => [String c EmptyString]
           end
  end.

Definition join (p : list string) (s : string) : list string :=
  if String.prefix "/" s then components s else (p ++ components s)%list.

Definition normalize (p : list string) : list string :=
  fold_left
    (fun acc c =>
       if String.eqb c "" || String.eqb c "." then acc
       else if String.eqb c ".." then removelast acc
       else (acc ++ [c])%list)
    p [].

Definition has_null (c : string) : bool :=
  PyStr.contains c (String "000"%char EmptyString).

Definition resolve (p : list string) (d : Disk) : exn + list string :=
  if existsb has_null p then inl (Exn OtherError "embedded null byte")
  else inr (normalize p).

Definition str (p : list string) : string := "/" ++ String.concat "/" p.

Definition path_eqb (p q : list string) : bool :=
  if list_eq_dec string_dec p q then true else false.

Definition lookup (p : list string) (d : Disk) : option node :=
  match find (fun e => path_eqb (fst e) p) d with
  | Some e => Some (snd e)
  | None => None
  end.

Definition is_dir (p : list string) (d : Disk) : bool :=
  match p, lookup p d with
  | [], _ => true
  | _, Some Dir => true
  | _, _ => false
  end.

Definition is_file (p : list string) (d : Disk) : bool :=
  match p, lookup p d with
  | [], _ => false
  | _, Some (File _) => true
  | _, _ => false
  end.

Definition path_exists (p : list string) (d : Disk) : bool :=
  is_dir p d || is_file p d.

Definition no_such (p : list string) : exn :=
  Exn OSError ("[Errno 2] No such file or directory: '" ++ str p ++ "'").

Definition read_text (p : list string) (d : Disk) : exn + string :=
  match lookup p d with
  | Some (File c) => inr c
  | Some Dir => inl (Exn OSError ("[Errno 21] Is a directory: '" ++ str p ++ "'"))
  | None => inl (no_such p)
  end.

Definition stat_size (p : list string) (d : Disk) : exn + Z :=
  match lookup p d with
  | Some (File c) => inr (Z.of_nat (String.length c))
  | Some Dir => inr 4096%Z
  | None => if is_dir p d then inr 4096%Z else inl (no_such p)
  end.

Definition child_of (p q : list string) : bool :=
  match q with
  | [] => false
  | _ => path_eqb (removelast q) p
  end.

Definition below (p q : list string) : bool :=
  path_eqb (firstn (List.length p) q) p.

Definition iterdir (p : list string) (d : Disk) : exn + list (list string) :=
  if is_dir p d then inr (map fst (filter (fun e => child_of p (fst e)) d))
  else inl (Exn OSError ("[Errno 20] Not a directory: '" ++ str p ++ "'")).

Definition remove (p : list string) (d : Disk) : Disk :=
  filter (fun e => negb (path_eqb (fst e) p)) d.

(** [mkdir(parents=True, exist_ok=True)]: the missing ancestors are made
    from the root down, and a file in the way stops the descent. *)
Fixpoint mkdir_from (done todo : list string) (d : Disk)
  : (exn + unit) * Disk :=
  match todo with
  | [] => (inr tt, d)
  | c :: rest =>
      let here := (done ++ [c])%list in
      match lookup here d with
      | Some (File _) =>
          (inl (Exn OSError ("[Errno 17] File exists: '" ++ str here ++ "'")), d)
      | Some Dir => mkdir_from here rest d
      | None => mkdir_from here rest (d ++ [(here, Dir)])%list
      end
  end.

Definition mkdir_parents (p : list string) (d : Disk) : (exn + unit) * Disk :=
  mkdir_from [] p d.

Definition write_text (p : list string) (text : string) (d : Disk)
  : (exn + unit) * Disk :=
  if is_dir p d then
    (inl (Exn OSError ("[Errno 21] Is a directory: '" ++ str p ++ "'")), d)
  else if is_dir (removelast p) d then
    (inr tt, (remove p d ++ [(p, File text)])%list)
  else (inl (no_such p), d).

Definition unlink (p : list string) (d : Disk) : (exn + unit) * Disk :=
  if is_file p d then (inr tt, remove p d) else (inl (no_such p), d).

Definition rmdir (p : list string) (d : Disk) : (exn + unit) * Disk :=
  if negb (is_dir p d) then (inl (no_such p), d)
  else if existsb (fun e => child_of p (fst e)) d then
    (inl (Exn OSError ("[Errno 39] Directory not empty: '" ++ str p ++ "'")), d)
  else (inr tt, remove p d).

Definition rmtree (p : list string) (d : Disk) : (exn + unit) * Disk :=
  if is_dir p d then (inr tt, filter (fun e => negb (below p (fst e))) d)
  else (inl (no_such p), d).

Definition lower_char (c : ascii) : ascii :=
  if ((65 <=? PyStr.code c) && (PyStr.code c <=? 90))%nat
  then ascii_of_nat (PyStr.code c + 32)
  else c.

(** [str.lower] on ASCII names. *)
Fixpoint lower (s : string) : string :=
  match s with
  | EmptyString => EmptyString
  | String c s' => String (lower_char c) (lower s')
  end.

(** The resolved path [p] is the directory [root] or lies under it. *)
Definition within (root p : list string) : bool := below root p.

End MemFs.

Definition mem_fs : FileSystem MemFs.Disk :=
  {| Path := list string;
     to_path := fun s => MemFs.normalize (MemFs.components s);
     join := MemFs.join;
     resolve := MemFs.resolve;
     str := MemFs.str;
     path_eqb := MemFs.path_eqb;
     parent := @removelast string;
     path_name := fun p => last p EmptyString;
     path_exists := MemFs.path_exists;
     is_file := MemFs.is_file;
     is_dir := MemFs.is_dir;
     read_text := MemFs.read_text;
     stat_size := MemFs.stat_size;
     iterdir := MemFs.iterdir;
     mkdir_parents := MemFs.mkdir_parents;
     write_text := MemFs.write_text;
     unlink := MemFs.unlink;
     rmdir := MemFs.rmdir;
     rmtree := MemFs.rmtree;
     lower := MemFs.lower;
     recursion_limit := 1000 |}.


(** ** The recognition rule in the words of the specification

    A response is a tool invocation when the whole response, once trimmed,
    is wrapped by the two delimiters and the text between them decodes to an
    object that has a tool-name field. *)
Definition spec_tool_invocation (lim : Json.Limits) (response : string)
  : bool :=
  let trimmed := PyStr.strip response in
  PyStr.startswith trimmed TOOL_OPEN
  && PyStr.endswith trimmed TOOL_CLOSE
  && match Json.loads lim
             (PyStr.slice trimmed (String.length TOOL_OPEN)
                          (String.length TOOL_CLOSE)) with
     | inr (VDict d) =>
         match dict_get "tool" d with
         | Some _ => true
         | None => false
         end
     | _ => false
     end.

(** ** Trimming in the words of the specification

    The final answer is what is left of the text once the white space
    around it is taken off: the text is white space, the answer, white
    space, and the answer neither begins nor ends with a white-space
    character. A white-space character is given by its UTF-8 encoding. *)
Definition whitespace (c : string) : bool :=
  match c with
  | String a EmptyString => PyStr.space1 a
  | String a (String b EmptyString) => PyStr.space2 a b
  | String a (String b (String d EmptyString)) => PyStr.space3 a b d
  | _ => false
  end.

Inductive blank : string -> Prop :=
| blank_empty : blank EmptyString
| blank_more (c s : string) : whitespace c = true -> blank s -> blank (c ++ s).

Definition trimmed (s : string) : Prop :=
  forall c rest, whitespace c = true -> s <> c ++ rest /\ s <> rest ++ c.

(** No white-space character begins the text; none, read backwards, begins
    it. *)
Definition no_lead (t : string) : Prop :=
  forall c rest, whitespace c = true -> t <> c ++ rest.

Definition no_lead_rev (t : string) : Prop :=
  forall c rest, whitespace c = true -> t <> PyStr.rev c ++ rest.

(** The length of the history in the words of the specification: the two
    opening entries, two entries for every turn that produced a response,
    one less when the run ended on an empty response. *)
Definition spec_history_length (responses : nat) (ended_empty : bool) : nat :=
  2 + 2 * responses - (if ended_empty then 1 else 0).

(** ** A concrete installation

    The file-system tools over the link-free file system, the scripted
    backend, and no live backend (its package is not installed). *)

Module Scenario.

Definition has_type (ty : string) (v : value) : bool :=
  match v with
  | VStr _ => String.eqb ty "str"
  | VBool _ => String.eqb ty "bool"
  | VInt _ => String.eqb ty "int"
  | VList _ => String.eqb ty "list"
  | _ => false
  end.

(** Modelled from the spec: [ToolSchema.validate] of [waa/tool.py], which is
    not among the sources. It checks that the required arguments are
    present and that the given ones have the expected type, and fails on
    the first violation. *)
Fixpoint schema_validate (schema : list ToolArgument) (args : value)
  : option exn :=
  match schema with
  | [] => None
  | a :: rest =>
      match args with
      | VDict d =>
          match dict_get (arg_name a) d with
          | None =>
              if arg_required a
              then Some (Exn OtherError
                           ("Missing required argument: " ++ arg_name a))
              else schema_validate rest args
          | Some v =>
              if has_type (arg_type a) v then schema_validate rest args
              else Some (Exn OtherError
                           ("Argument '" ++ arg_name a ++ "' must be of type "
                            ++ arg_type a))
          end
      | _ => Some (Exn OtherError "Arguments must be an object")
      end
  end.

(** [str(v)] for the values that occur as tool names below: strings, [None],
    booleans and integers. *)
Definition str_of (v : value) : string :=
  match v with
  | VStr s => s
  | VNone => "None"
  | VBool true => "True"
  | VBool false => "False"
  | VInt z => NilEmpty.string_of_int (Z.to_int z)
  | _ => type_name v
  end.

(** The limits of an interpreter with its defaults: a recursion limit of
    1000 with ten frames on the stack where the decoder is called, and
    4300 digits. *)
Definition limits : Json.Limits :=
  {| Json.nesting := 990; Json.int_max_str_digits := 4300 |}.

Definition runtime : Runtime MemFs.Disk :=
  {| standard_tools := standard_fs_tools mem_fs schema_validate;
     Gemini := Empty_set;
     gemini_connect := fun _ _ =>
       inl (Exn OtherError
              "google-generativeai package not installed. Install with: pip install google-generativeai");
     gemini_chat := fun g _ _ => match g with end;
     GEMINI_API_KEY := None;
     py_str := str_of;
     json_limits := limits;
     tool_not_found := fun v => Exn OtherError ("Tool not found: " ++ str_of v);
     tool_already_registered := fun n =>
       Exn OtherError ("Tool already registered: " ++ n) |}.

Definition dir : string := "/w/proj".

(** The disk holds the working directory [/w/proj] and nothing else. *)
Definition disk : MemFs.Disk := [(["w"], MemFs.Dir); (["w"; "proj"], MemFs.Dir)].

Definition config (script : list string) (turns : option Z)
  (guarded : option (list string)) : Config :=
  {| llm_type := Some "mock"; model := None; api_key := None;
     mock_responses := Some script; max_turns := turns;
     allowed_tools := None; protected_files := guarded |}.

Definition startup (c : Config) : Startup :=
  {| config_file := Some (inr c); log_exists := false;
     instruction_file := Some (inr "Build the app.") |}.

(** A run of the scripted backend. *)
Definition scripted (script : list string) (turns : option Z)
  : RunResult runtime :=
  run runtime dir false (startup (config script turns None)) disk.

Definition outcome_of (r : RunResult runtime) : option Outcome :=
  match r with
  | Finished o _ => Some o
  | InitFailed _ => None
  end.

Definition agent_of (r : RunResult runtime) : option (Agent runtime) :=
  match r with
  | Finished _ a => Some a
  | InitFailed _ => None
  end.

(** A state of the agent at the start of a turn: the scripted backend at
    the start of its script, the file-system tools registered, a short
    system prompt and the instruction in the history. *)
Definition ready (script : list string) : Agent runtime :=
  let e := Env dir (config script None None) in
  {| env := e;
     agent_max_turns := 50;
     llm := MockLLM runtime (Llm.mock_new (Some script));
     tool_registry := standard_fs_tools mem_fs schema_validate e;
     history := [SystemPrompt "You are WAA."; UserInstruction "Build the app."];
     trace := [];
     world := disk |}.

(** The agent a run leaves behind. *)
Definition final (r : RunResult runtime) : Agent runtime :=
  match r with
  | Finished _ a => a
  | InitFailed _ => ready []
  end.

(** What a finished run is observed by. *)
Definition observe {A : Type} (f : Agent runtime -> A)
  (r : RunResult runtime) : option A :=
  option_map f (agent_of r).

Definition one_block : string :=
  tool_call_text "fs.mkdir" (object [member "path" (quoted "a")]).

Definition other_block : string :=
  tool_call_text "fs.mkdir" (object [member "path" (quoted "b")]).

(** Two well-formed blocks, one after the other. *)
Definition two_blocks : string := one_block ++ other_block.

(** A well-formed block with white space around it. *)
Definition padded_block : string := " " ++ one_block ++ newline.

(** A block whose object has no tool name. *)
Definition nameless_body : string := object [member "arguments" (object [])].

Definition nameless_block : string := TOOL_OPEN ++ nameless_body ++ TOOL_CLOSE.

(** A block naming a tool that is not registered, and one whose arguments
    the schema rejects. *)
Definition unknown_tool_block : string :=
  tool_call_text "fs.chmod" (object []).

Definition invalid_args_block : string :=
  tool_call_text "fs.mkdir" (object []).

(** The delimiters around text that is not JSON and holds the termination
    marker. *)
Definition marker_in_block : string := "<tool_call><terminate></tool_call>".

(** A well-formed block that also holds the termination marker, and the
    text before and after the marker. *)
Definition block_with_marker : string :=
  tool_call_text "fs.mkdir" (object [member "path" (quoted TERMINATE)]).

Definition before_marker : string :=
  TOOL_OPEN ++ "{" ++ member "tool" (quoted "fs.mkdir") ++ ", "
  ++ member "arguments" ("{" ++ member "path" (String quote EmptyString)).

Definition after_marker : string := String quote "}}" ++ TOOL_CLOSE.

(** Text between the delimiters that is not JSON: the tool name lacks its
    quotes. *)
Definition malformed_body : string := object [member "tool" "fs.ls"].

Definition malformed_block : string :=
  TOOL_OPEN ++ malformed_body ++ TOOL_CLOSE.

(** Text between the delimiters that is not JSON and opens more arrays than
    the interpreter lets the decoder enter: [n] opening brackets and
    nothing else. *)
Fixpoint brackets (n : nat) : string :=
  match n with
  | O => EmptyString
  | S n' => String "[" (brackets n')
  end.

Definition deep_body : string := brackets 1100.

Definition deep_block : string := TOOL_OPEN ++ deep_body ++ TOOL_CLOSE.

(** Text between the delimiters that is not JSON and starts with an integer
    of more digits than [int] converts: 4301 digits and a stray word. *)
Fixpoint ones (n : nat) : string :=
  match n with
  | O => EmptyString
  | S n' => String "1" (ones n')
  end.

Definition long_body : string := ones 4301 ++ " x".

Definition long_block : string := TOOL_OPEN ++ long_body ++ TOOL_CLOSE.

(** A block whose object holds an integer of 4301 digits. *)
Definition long_number_body : string :=
  object [member "tool" (quoted "fs.mkdir"); member "arguments" (ones 4301)].

Definition long_number_block : string :=
  TOOL_OPEN ++ long_number_body ++ TOOL_CLOSE.

(** An interpreter that lets the decoder go further: 2000 containers, no
    limit on the digits. *)
Definition generous : Json.Limits :=
  {| Json.nesting := 2000; Json.int_max_str_digits := 0 |}.

(** A disk with a directory next to the working directory whose name
    starts with the name of the working directory. *)
Definition disk_with_sibling : MemFs.Disk :=
  [ (["w"], MemFs.Dir); (["w"; "proj"], MemFs.Dir);
    (["w"; "proj-private"], MemFs.Dir);
    (["w"; "proj-private"; "key"], MemFs.File "secret") ].

(** The file-system tools as initialised for the working directory, with
    the given protected paths. *)
Definition fs_tool_state (guarded : list string) : FsTool mem_fs :=
  fs_initialize mem_fs (Env dir (config [] None (Some guarded))).

End Scenario.

(** ** The entries a run leaves in the history *)

(** [tool_call.get("tool")] and [tool_call.get("arguments", {})] *)
Definition requested_tool (d : list (string * value)) : value :=
  match dict_get "tool" d with Some v => v | None => VNone end.

Definition requested_arguments (d : list (string * value)) : value :=
  match dict_get "arguments" d with Some v => v | None => VDict [] end.

(** The entries of the turns of a run: a response, and right after it the
    result of the tool call when the response decoded to one; the result
    carries the tool name and the arguments of the decoded object. *)
Inductive Turns (lim : Json.Limits) : list HistoryEntry -> Prop :=
| Turns_done : Turns lim []
| Turns_response (r : string) (hs : list HistoryEntry) :
    Turns lim hs -> Turns lim (LLMResponse r :: hs)
| Turns_tool_call (r : string) (d : list (string * value)) (result : value)
    (hs : list HistoryEntry) :
    _parse_tool_call lim r = inr (VDict d) ->
    Turns lim hs ->
    Turns lim
      (LLMResponse r
       :: ToolCallResult (requested_tool d) (requested_arguments d) result
       :: hs).

(** ** The rest of [waa/llm.py] *)

(** [MockLanguageModel.reset] *)
Definition mock_reset (m : Llm.MockLanguageModel) : Llm.MockLanguageModel :=
  Llm.Mock (Llm.responses m) 0.

(** The responses of [n] successive calls of [MockLanguageModel.generate],
    whatever the messages. *)
Fixpoint mock_replies (n : nat) (m : Llm.MockLanguageModel)
  : list string * Llm.MockLanguageModel :=
  match n with
  | O => ([], m)
  | S n' =>
      let (r, m1) := Llm.mock_generate m [] in
      let (rs, m2) := mock_replies n' m1 in
      (r :: rs, m2)
  end.

(** [create_language_model] *)
Definition create_language_model {World : Type} (rt : Runtime World)
  (model_name : string) : exn + LanguageModel rt :=
  if PyStr.startswith model_name "gemini/" then
    match Llm.gemini_new (gemini_connect rt) (GEMINI_API_KEY rt)
            model_name None with
    | inl e => inl e
    | inr g => inr (GeminiLLM rt g)
    end
  else if String.eqb model_name "mock" then
    inr (MockLLM rt (Llm.mock_new None))
  else
    inl (Exn OtherError
           ("不支持的语言模型或格式不正确: " ++ model_name)).

(** ** A live backend whose service cannot be reached

    The installation of [Scenario] with the package of the service
    installed and a key in the environment; every exchange fails. *)

Module Offline.

Definition runtime : Runtime MemFs.Disk :=
  {| standard_tools := standard_fs_tools mem_fs Scenario.schema_validate;
     Gemini := string;
     gemini_connect := fun model_name _ => inr model_name;
     gemini_chat := fun g _ _ =>
       (inl (Exn OtherError "503 Service Unavailable"), g);
     GEMINI_API_KEY := Some "key-of-the-environment";
     py_str := Scenario.str_of;
     json_limits := Scenario.limits;
     tool_not_found := fun v =>
       Exn OtherError ("Tool not found: " ++ Scenario.str_of v);
     tool_already_registered := fun n =>
       Exn OtherError ("Tool already registered: " ++ n) |}.

(** The agent at the start of a turn, with the live backend. *)
Definition ready : Agent runtime :=
  let e := Env Scenario.dir (Scenario.config [] None None) in
  {| env := e;
     agent_max_turns := 50;
     llm := GeminiLLM runtime "gemini-2.5-flash";
     tool_registry := standard_fs_tools mem_fs Scenario.schema_validate e;
     history := [SystemPrompt "You are WAA."; UserInstruction "Build the app."];
     trace := [];
     world := Scenario.disk |}.

End Offline.

(** [isinstance(v, dict)] *)
Definition is_dict (v : value) : bool :=
  match v with VDict _ => true | _ => false end.

(** The world after the tool executions that a trace records, replayed in
    order from [w] with the tools of a registry. *)
Fixpoint replay {World : Type} (reg : list (Tool World)) (evs : list Event)
  (w : World) : World :=
  match evs with
  | [] => w
  | Execute n args :: rest =>
      match find_tool n reg with
      | Some t => replay reg rest (snd (execute t args w))
      | None => replay reg rest w
      end
  | _ :: rest => replay reg rest w
  end.

(** ** What a tool's [execute] does to the world and returns *)

(** A computation that leaves the world as it was. *)
Definition quiet {World A : Type} (m : Try World A) : Prop :=
  forall w, snd (m w) = w.

(** A result of one of the two shapes of the tool contract. *)
Definition result_shaped (r : value) : Prop :=
  (exists error_str, r = failure error_str) \/ (exists data, r = success data).

(** A computation that raises or returns such a result. *)
Definition shaped {World : Type} (m : Try World value) : Prop :=
  forall w,
    match m w with
    | (inr r, _) => result_shaped r
    | (inl _, _) => True
    end.

(** A call that raises nothing and returns such a result. *)
Definition answers {World : Type} (x : (exn + value) * World) : Prop :=
  exists r w', x = (inr r, w') /\ result_shaped r.

(** The lines [fs.tree] shows for entries that are not directories, under
    a prefix: each name after a connector, the last one after the closing
    connector. *)
Fixpoint flat_lines (prefix : string) (names : list string) : list string :=
  match names with
  | [] => []
  | n :: rest =>
      (prefix ++ (match rest with [] => "└── " | _ => "├── " end) ++ n)
      :: flat_lines prefix rest
  end.

(** The order of [sorted(items, key=k)]. *)
Definition key_le {A : Type} (k : A -> string) (x y : A) : Prop :=
  String.leb (k x) (k y) = true.

(** ** [json.dumps(obj, indent=2)]

    The encoder of CPython's [json] package with [ensure_ascii] and
    [allow_nan] at their defaults, as [json.dump(todos, f, indent=2)] uses
    it: an item per line, two spaces for each level, [,] between items and
    [: ] after a key. The text of a finite float is the interpreter's.
    Integers are written in full and values at any depth: the limits of
    the interpreter on the digits of a conversion and on recursion are
    modelled in the decoder only. *)

Module JsonOut.

Definition hex_char (n : N) : ascii :=
  ascii_of_N (if (n <? 10)%N then 48 + n else 87 + n).

(** The escape [\uXXXX] of a code unit, in lower-case digits. *)
Definition u4 (n : N) : string :=
  String "\" (String "u"
    (String (hex_char (n / 4096))
       (String (hex_char ((n / 256) mod 16))
          (String (hex_char ((n / 16) mod 16))
             (String (hex_char (n mod 16)) EmptyString))))).

(** What [encode_basestring_ascii] writes for a code point: the short
    escapes, the printable ASCII characters as they are, and [\uXXXX] for
    the others, as a surrogate pair above the basic plane. *)
Definition escape_code (n : N) : string :=
  if (n =? 34)%N then String "\" (String quote EmptyString)
  else if (n =? 92)%N then "\\"
  else if (n =? 10)%N then "\n"
  else if (n =? 13)%N then "\r"
  else if (n =? 9)%N then "\t"
  else if (n =? 8)%N then "\b"
  else if (n =? 12)%N then "\f"
  else if ((32 <=? n) && (n <=? 126))%N then Json.byte n
  else if (n <? 65536)%N then u4 n
  else u4 (55296 + ((n - 65536) / 1024) mod 1024)
       ++ u4 (56320 + (n - 65536) mod 1024).

(** The payload of a continuation byte. *)
Definition cont (c : ascii) : N := (N_of_ascii c mod 64)%N.

(** The escaped text of a string, code point by code point over its UTF-8
    bytes; a byte that starts no complete sequence, which the encoding of
    a Python [str] never has, is taken for a code point by itself. *)
Fixpoint escape (s : string) : string :=
  match s with
  | EmptyString => EmptyString
  | String a r =>
      let n := N_of_ascii a in
      if (n <? 192)%N then escape_code n ++ escape r
      else
        match r with
        | String b r2 =>
            if (n <? 224)%N
            then escape_code ((n mod 32) * 64 + cont b) ++ escape r2
            else
              match r2 with
              | String c r3 =>
                  if (n <? 240)%N
                  then escape_code (((n mod 16) * 64 + cont b) * 64 + cont c)
                       ++ escape r3
                  else
                    match r3 with
                    | String d r4 =>
                        escape_code
                          ((((n mod 8) * 64 + cont b) * 64 + cont c) * 64
                           + cont d)
                        ++ escape r4
                    | EmptyString => escape_code n ++ escape r
                    end
              | EmptyString => escape_code n ++ escape r
              end
        | EmptyString => escape_code n ++ escape r
        end
  end.

(** [int.__repr__] *)
Definition decimal (z : Z) : string := NilEmpty.string_of_int (Z.to_int z).

Fixpoint spaces (n : nat) : string :=
  match n with
  | O => EmptyString
  | S n' => String " " (spaces n')
  end.

(** The line break before an item at a level of nesting. *)
Definition newline_indent (level : nat) : string :=
  newline ++ spaces (2 * level).

Section Encoder.

Variable float_repr : Z -> Z -> string.

(** [_iterencode] at a level of nesting. *)
Fixpoint encode (level : nat) (v : value) : string :=
  match v with
  | VNone => "null"
  | VBool true => "true"
  | VBool false => "false"
  | VInt z => decimal z
  | VFloat m e => float_repr m e
  | VNaN => "NaN"
  | VInf false => "Infinity"
  | VInf true => "-Infinity"
  | VStr s => quoted (escape s)
  | VList [] => "[]"
  | VList (x :: l) =>
      "[" ++ newline_indent (S level) ++ encode (S level) x
      ++ (fix items (l : list value) : string :=
            match l with
            | [] => EmptyString
            | y :: l' =>
                "," ++ newline_indent (S level) ++ encode (S level) y
                ++ items l'
            end) l
      ++ newline_indent level ++ "]"
  | VDict [] => "{}"
  | VDict ((k, x) :: d) =>
      "{" ++ newline_indent (S level) ++ quoted (escape k) ++ ": "
      ++ encode (S level) x
      ++ (fix members (d : list (string * value)) : string :=
            match d with
            | [] => EmptyString
            | (k', y) :: d' =>
                "," ++ newline_indent (S level) ++ quoted (escape k') ++ ": "
                ++ encode (S level) y ++ members d'
            end) d
      ++ newline_indent level ++ "}"
  end.

Definition dumps (v : value) : string := encode 0 v.

End Encoder.

End JsonOut.

(** ** The to-do tools of [waa/tools/todo.py] *)

Definition TODO_FILE : string := ".waa/todo.json".

(** What the to-do tools take from the interpreter besides the file
    system: the clock, the exception of the decoder, and the arithmetic and
    the printing of floats, which the representation of a float by its
    literal leaves open. *)
Record Interpreter (World : Type) : Type := {
  (* [datetime.now().isoformat()] *)
  now_isoformat : World -> string;
  (* the [JSONDecodeError] that [json.load] raises on a text *)
  decode_error : string -> exn;
  (* what is left of the recursion limit where [json.load] is called, and
     [sys.get_int_max_str_digits()] *)
  decode_limits : Json.Limits;
  (* [repr(x)] for the float of the literal [m * 10^e] *)
  float_repr : Z -> Z -> string;
  (* [a == b] for two numbers, one of them the float of a literal *)
  float_eq : value -> value -> bool;
  (* [max(ids + [0]) + 1] when the ids are not all integers *)
  max_plus_one : list value -> exn + value;
  (* [str(v)] for a float, a list or a dict *)
  str_other : value -> string
}.
Arguments now_isoformat {World} _ _.
Arguments decode_error {World} _ _.
Arguments decode_limits {World} _.
Arguments float_repr {World} _ _ _.
Arguments float_eq {World} _ _ _.
Arguments max_plus_one {World} _ _.
Arguments str_other {World} _ _.

(** The integer of an [int]; a [bool] is an [int]. *)
Definition as_int (v : value) : option Z :=
  match v with
  | VInt z => Some z
  | VBool true => Some 1%Z
  | VBool false => Some 0%Z
  | _ => None
  end.

Fixpoint ints (vs : list value) : option (list Z) :=
  match vs with
  | [] => Some []
  | v :: rest =>
      match as_int v, ints rest with
      | Some z, Some zs => Some (z :: zs)
      | _, _ => None
      end
  end.

(** The code points of a text: a byte that continues a sequence stays with
    the byte before it. *)
Definition is_continuation (c : ascii) : bool :=
  ((128 <=? N_of_ascii c) && (N_of_ascii c <? 192))%N.

Fixpoint chars (s : string) : list string :=
  match s with
  | EmptyString => []
  | String c r =>
      let rest := chars r in
      match r with
      | String c' _ =>
          if is_continuation c' then
            match rest with
            | x :: l => String c x :: l
            | [] => [String c EmptyString]
            end
          else String c EmptyString :: rest
      | EmptyString => [String c EmptyString]
      end
  end.

(** [for todo in todos]: the items of a list, the keys of a dict, the
    characters of a string. *)
Definition iterate (todos : value) : exn + list value :=
  match todos with
  | VList l => inr l
  | VDict d => inr (map (fun kv => VStr (fst kv)) d)
  | VStr s => inr (map VStr (chars s))
  | other =>
      inl (TypeError ("'" ++ type_name other ++ "' object is not iterable"))
  end.

(** [len(todos)] *)
Definition py_len (todos : value) : exn + Z :=
  match todos with
  | VList l => inr (Z.of_nat (List.length l))
  | VDict d => inr (Z.of_nat (List.length d))
  | VStr s => inr (Z.of_nat (List.length (chars s)))
  | other =>
      inl (TypeError ("object of type '" ++ type_name other
                      ++ "' has no len()"))
  end.

(** [todos.append(item)] *)
Definition py_append (todos item : value) : exn + value :=
  match todos with
  | VList l => inr (VList (l ++ [item]))
  | other =>
      inl (Exn OtherError ("'" ++ type_name other
                           ++ "' object has no attribute 'append'"))
  end.

(** [todo.get(key)] and [todo.get(key, default)] on an item of the list *)
Definition item_get (key : string) (default : value) (todo : value)
  : exn + value :=
  get_default todo key default.

Section Values.

Context {World : Type} (py : Interpreter World).

(** [a == b] on values decoded from JSON: numbers by their value, texts,
    lists and dicts by their content, a dict whatever the order of its
    keys; [nan] equals nothing. *)
Fixpoint py_eq (a b : value) : bool :=
  match a with
  | VNone => match b with VNone => true | _ => false end
  | VBool _ | VInt _ =>
      match as_int a, as_int b with
      | Some x, Some y => Z.eqb x y
      | _, _ => match b with VFloat _ _ => float_eq py a b | _ => false end
      end
  | VFloat _ _ =>
      match b with
      | VBool _ | VInt _ | VFloat _ _ | VInf _ => float_eq py a b
      | _ => false
      end
  | VNaN => false
  | VInf n =>
      match b with
      | VInf n' => Bool.eqb n n'
      | VFloat _ _ => float_eq py a b
      | _ => false
      end
  | VStr s => match b with VStr u => String.eqb s u | _ => false end
  | VList l =>
      match b with
      | VList m =>
          (fix all (l m : list value) : bool :=
             match l, m with
             | [], [] => true
             | x :: l', y :: m' => py_eq x y && all l' m'
             | _, _ => false
             end) l m
      | _ => false
      end
  | VDict d =>
      match b with
      | VDict e =>
          Nat.eqb (List.length d) (List.length e)
          && (fix all (d : list (string * value)) : bool :=
                match d with
                | [] => true
                | (k, x) :: d' =>
                    match dict_get k e with
                    | Some y => py_eq x y && all d'
                    | None => false
                    end
                end) d
      | _ => false
      end
  end.

(** [str(v)], as an f-string prints a value. *)
Definition format_value (v : value) : string :=
  match v with
  | VStr s => s
  | VInt z => JsonOut.decimal z
  | VBool true => "True"
  | VBool false => "False"
  | VNone => "None"
  | other => str_other py other
  end.

(** [[todo.get('id', 0) for todo in todos]] *)
Fixpoint ids_of (items : list value) : exn + list value :=
  match items with
  | [] => inr []
  | todo :: rest =>
      match item_get "id" (VInt 0) todo with
      | inl e => inl e
      | inr id =>
          match ids_of rest with
          | inl e => inl e
          | inr ids => inr (id :: ids)
          end
      end
  end.

(** [max(ids + [0]) + 1] *)
Definition next_id (ids : list value) : exn + value :=
  match ints ids with
  | Some zs => inr (VInt (fold_left Z.max zs 0 + 1)%Z)
  | None => max_plus_one py ids
  end.

(** [[todo for todo in todos if todo.get('status') == status_filter]] *)
Fixpoint with_status (status_filter : value) (items : list value)
  : exn + list value :=
  match items with
  | [] => inr []
  | todo :: rest =>
      match item_get "status" VNone todo with
      | inl e => inl e
      | inr status =>
          match with_status status_filter rest with
          | inl e => inl e
          | inr kept =>
              inr (if py_eq status status_filter then todo :: kept else kept)
          end
      end
  end.

(** The loop of [TodoCompleteTool.execute]: the first item with the id is
    marked, and the loop ends there; [None] when no item has the id. *)
Fixpoint complete_first (item_id : value) (now : string) (items : list value)
  : exn + option (list value) :=
  match items with
  | [] => inr None
  | todo :: rest =>
      match item_get "id" VNone todo with
      | inl e => inl e
      | inr id =>
          if py_eq id item_id then
            match todo with
            | VDict d =>
                inr (Some (VDict (dict_set "completed_at" (VStr now)
                                    (dict_set "status" (VStr "completed") d))
                           :: rest))
            | other => inl (AttributeError_get other)
            end
          else
            match complete_first item_id now rest with
            | inl e => inl e
            | inr None => inr None
            | inr (Some rest') => inr (Some (todo :: rest'))
            end
      end
  end.

(** [[todo for todo in todos if todo.get("id") != item_id]] *)
Fixpoint without_id (item_id : value) (items : list value)
  : exn + list value :=
  match items with
  | [] => inr []
  | todo :: rest =>
      match item_get "id" VNone todo with
      | inl e => inl e
      | inr id =>
          match without_id item_id rest with
          | inl e => inl e
          | inr kept =>
              inr (if negb (py_eq id item_id) then todo :: kept else kept)
          end
      end
  end.

(** [todo.get("id") != item_id], of an item whose [get] answers. *)
Definition other_id (item_id todo : value) : bool :=
  match item_get "id" VNone todo with
  | inr id => negb (py_eq id item_id)
  | inl _ => false
  end.

End Values.

(** A value computed without the world, within code that acts on it. *)
Definition lift {World A : Type} (x : exn + A) : Try World A :=
  reading (fun _ => x).

Section TodoTools.

Context {World : Type} (fs : FileSystem World) (py : Interpreter World).

Local Open Scope try_scope.

(** What [initialize(env)] stores in a tool. *)
Record TodoTool : Type := { todo_file : Path fs }.

Definition todo_initialize (env : AgentEnvironment) : TodoTool :=
  {| todo_file := join fs (to_path fs (working_dir env)) TODO_FILE |}.

(** The exception that leaves [json.load(f)] on a text that does not
    decode. *)
Definition load_error (e : Json.error) (text : string) : exn :=
  match uncaught e with
  | None => decode_error py text
  | Some raised => raised
  end.

(** [_read_todos] *)
Definition _read_todos (t : TodoTool) : Try World value :=
  present <- asking (path_exists fs (todo_file t)) ;;
  if negb present then ret (VList [])
  else
    text <- reading (read_text fs (todo_file t)) ;;
    match Json.loads (decode_limits py) text with
    | inr todos => ret todos
    | inl e => raise (load_error e text)
    end.

(** [_write_todos] *)
Definition _write_todos (t : TodoTool) (todos : value) : Try World unit :=
  mkdir_parents fs (parent fs (todo_file t)) ;;
  write_text fs (todo_file t) (JsonOut.dumps (float_repr py) todos).

(** The item [TodoAddTool.execute] makes. *)
Definition new_todo (new_id description : value) (created_at : string)
  : value :=
  VDict [("id", new_id); ("description", description);
         ("status", VStr "pending"); ("created_at", VStr created_at);
         ("completed_at", VNone)].

(** [TodoAddTool.execute] *)
Definition add_execute (t : TodoTool) (input : value) : Try World value :=
  try_except
    (todos <- _read_todos t ;;
     items <- lift (iterate todos) ;;
     ids <- lift (ids_of items) ;;
     new_id <- lift (next_id py ids) ;;
     description <- lift (subscript input "description") ;;
     created_at <- asking (now_isoformat py) ;;
     appended <- lift (py_append todos (new_todo new_id description created_at)) ;;
     _write_todos t appended ;;
     ret (success (message_of ("TODO item added with ID: "
                               ++ format_value py new_id ++ "."))))
    (fun e => failure ("Failed to add TODO item: " ++ exn_str e)).

Definition allowed_statuses : list string := ["pending"; "completed"; "all"].

(** [TodoListTool.execute] *)
Definition list_execute (t : TodoTool) (input : value) : Try World value :=
  try_except
    (status_filter <- lift (get_default input "status" (VStr "all")) ;;
     if negb (existsb (fun s => py_eq py status_filter (VStr s))
                allowed_statuses)
     then
       ret (failure
              "Invalid status filter. Must be one of: ['pending', 'completed', 'all']")
     else
       todos <- _read_todos t ;;
       filtered_todos <-
         (if negb (py_eq py status_filter (VStr "all")) then
            items <- lift (iterate todos) ;;
            kept <- lift (with_status py status_filter items) ;;
            ret (VList kept)
          else ret todos) ;;
       count <- lift (py_len filtered_todos) ;;
       ret (success [("todos", filtered_todos); ("count", VInt count)]))
    (fun e => failure ("Failed to list TODO items: " ++ exn_str e)).

(** [TodoCompleteTool.execute] *)
Definition complete_execute (t : TodoTool) (input : value)
  : Try World value :=
  try_except
    (item_id <- lift (subscript input "id") ;;
     todos <- _read_todos t ;;
     items <- lift (iterate todos) ;;
     found <-
       reading (fun w => complete_first py item_id (now_isoformat py w) items) ;;
     match found with
     | None =>
         ret (failure ("TODO item with ID " ++ format_value py item_id
                       ++ " not found."))
     | Some marked =>
         _write_todos t (VList marked) ;;
         ret (success (message_of ("TODO item " ++ format_value py item_id
                                   ++ " marked as completed.")))
     end)
    (fun e => failure ("Failed to complete TODO item: " ++ exn_str e)).

(** [TodoRemoveTool.execute] *)
Definition remove_execute (t : TodoTool) (input : value) : Try World value :=
  try_except
    (item_id <- lift (subscript input "id") ;;
     todos <- _read_todos t ;;
     initial_len <- lift (py_len todos) ;;
     items <- lift (iterate todos) ;;
     todos_after_removal <- lift (without_id py item_id items) ;;
     if Z.eqb (Z.of_nat (List.length todos_after_removal)) initial_len then
       ret (failure ("TODO item with ID " ++ format_value py item_id
                     ++ " not found."))
     else
       _write_todos t (VList todos_after_removal) ;;
       ret (success (message_of ("TODO item " ++ format_value py item_id
                                 ++ " removed."))))
    (fun e => failure ("Failed to remove TODO item: " ++ exn_str e)).

(** [standard_todo_tools()], each tool initialised with [env]; [validate]
    is [ToolSchema.validate] of [waa/tool.py], which is not among the
    sources. *)
Definition todo_tool (validate : list ToolArgument -> value -> option exn)
  (tool_name about : string) (schema : list ToolArgument)
  (execute : TodoTool -> value -> Try World value) (env : AgentEnvironment)
  : Tool World :=
  {| name := tool_name;
     description := about;
     arguments := map (fun a => (arg_name a, arg_type a)) schema;
     validate := validate schema;
     execute := execute (todo_initialize env) |}.

Definition standard_todo_tools
  (validate : list ToolArgument -> value -> option exn)
  (env : AgentEnvironment) : list (Tool World) :=
  [ todo_tool validate "todo.add"
      "Add a new TODO item. Generate unique ID, set status to 'pending', record creation timestamp."
      [Arg "description" true "str"] add_execute env;
    todo_tool validate "todo.list"
      "List TODO items. Support optional status filter: 'pending', 'completed', or 'all' (default)."
      [Arg "status" false "str"] list_execute env;
    todo_tool validate "todo.complete"
      "Mark item as completed by ID. Update status and record completion timestamp."
      [Arg "id" true "int"] complete_execute env;
    todo_tool validate "todo.remove" "Remove a TODO item by ID."
      [Arg "id" true "int"] remove_execute env ].

End TodoTools.

(** ** More of the concrete installation *)

Module Cases.

(** A configuration whose allow-list lets two of the standard tools
    through and names a tool that does not exist; the script makes a
    directory, says so, and stops. *)
Definition restricted : Config :=
  {| llm_type := Some "mock"; model := None; api_key := None;
     mock_responses :=
       Some [Scenario.one_block; "The directory is there.";
             "<terminate>Done."];
     max_turns := Some 5%Z;
     allowed_tools := Some ["fs.mkdir"; "fs.read"; "tests.run"];
     protected_files := None |}.

(** The environment of the tools of [Scenario.ready]. *)
Definition env : AgentEnvironment :=
  Env Scenario.dir (Scenario.config [] None None).

(** [fs.mkdir] as registered there. *)
Definition mkdir_tool : Tool MemFs.Disk :=
  fs_tool mem_fs Scenario.schema_validate "fs.mkdir"
    "Creates a new directory. It will also create parent directories if they do not exist."
    [Arg "path" true "str"] (mkdir_execute mem_fs) env.

(** A response between the delimiters that decodes to an array. *)
Definition array_block : string := TOOL_OPEN ++ "[1]" ++ TOOL_CLOSE.

(** The working directory with two files in it. *)
Definition disk_with_files : MemFs.Disk :=
  [ (["w"], MemFs.Dir); (["w"; "proj"], MemFs.Dir);
    (["w"; "proj"; "notes.txt"], MemFs.File "one two one");
    (["w"; "proj"; "Index.html"], MemFs.File "<p>one</p>") ].

(** An interpreter for lists that hold no float: the clock stands still,
    and what is left to the interpreter about floats is never asked. *)
Definition interpreter : Interpreter MemFs.Disk :=
  {| now_isoformat := fun _ => "2025-01-15T10:30:00.250000";
     decode_error := fun _ =>
       Exn OtherError "Expecting value: line 1 column 1 (char 0)";
     decode_limits := Scenario.limits;
     float_repr := fun m e =>
       JsonOut.decimal m ++ "e" ++ JsonOut.decimal e;
     float_eq := fun _ _ => false;
     max_plus_one := fun _ =>
       inl (TypeError
              "'>' not supported between instances of 'int' and 'str'");
     str_other := type_name |}.

(** The to-do tools as initialised for the working directory. *)
Definition todo_state : TodoTool mem_fs := todo_initialize mem_fs env.

(** Three items; two of them share the id 1. *)
Definition first_item : value :=
  VDict [("id", VInt 1); ("description", VStr "set up the project");
         ("status", VStr "completed");
         ("created_at", VStr "2025-01-14T09:00:00");
         ("completed_at", VStr "2025-01-14T17:00:00")].

Definition second_item : value :=
  VDict [("id", VInt 3); ("description", VStr "write the tests");
         ("status", VStr "pending");
         ("created_at", VStr "2025-01-14T09:05:00");
         ("completed_at", VNone)].

Definition third_item : value :=
  VDict [("id", VInt 1); ("description", VStr "an item with a used id");
         ("status", VStr "pending");
         ("created_at", VStr "2025-01-14T09:10:00");
         ("completed_at", VNone)].

Definition items : list value := [first_item; second_item; third_item].

Definition fourth_item : value :=
  VDict [("id", VStr "1"); ("description", VStr "an id that is a text");
         ("status", VStr "pending");
         ("created_at", VStr "2025-01-14T09:15:00");
         ("completed_at", VNone)].

Definition four_items : list value := items ++ [fourth_item].

(** The working directory with the to-do file that holds a text. *)
Definition disk_with_todo_text (text : string) : MemFs.Disk :=
  [ (["w"], MemFs.Dir); (["w"; "proj"], MemFs.Dir);
    (["w"; "proj"; ".waa"], MemFs.Dir);
    (["w"; "proj"; ".waa"; "todo.json"], MemFs.File text) ].

Definition disk_with_todos : MemFs.Disk :=
  disk_with_todo_text (JsonOut.dumps (float_repr interpreter) (VList items)).

Definition disk_with_four_todos : MemFs.Disk :=
  disk_with_todo_text
    (JsonOut.dumps (float_repr interpreter) (VList four_items)).

(** A list with a text beyond ASCII, a negative number and nested
    containers. *)
Definition mixed : value :=
  VList [VDict [("id", VInt (-7)); ("description", VStr "café 😀 ok");
                ("done", VBool true);
                ("tags", VList [VNone; VInf true; VStr EmptyString]);
                ("more", VDict [])];
         VInt 0].

(** The item that [todo.add] makes of a description at the time of the
    clock of [interpreter], with the id 4. *)
Definition added : value :=
  new_todo (VInt 4) (VStr "déployer") "2025-01-15T10:30:00.250000".

End Cases.

(** The records that open a turn. *)
Definition is_turn_started (ev : Event) : bool :=
  match ev with TurnStarted _ _ => true | _ => false end.

(** A tool with the same working directory and nothing protected. *)
Definition unprotected {World : Type} {fs : FileSystem World} (t : FsTool fs)
  : FsTool fs :=
  {| tool_working_dir := tool_working_dir fs t; tool_protected_files := [] |}.

(** ** What the to-do file keeps as it is

    The values that [json.load] gives back as [json.dump] took them. *)

(** The number of digits of an integer. *)
Definition digits (z : Z) : nat :=
  String.length (JsonOut.decimal (Z.abs z)).

(** A value whose integers have no more digits than [int] converts, and
    whose arrays and objects are nested no deeper than a budget. *)
Fixpoint within (lim : Json.Limits) (depth : nat) (v : value) {struct v}
  : bool :=
  match v with
  | VInt z => negb (Json.too_long lim (digits z))
  | VList l =>
      match depth with
      | O => false
      | S inner => forallb (within lim inner) l
      end
  | VDict d =>
      match depth with
      | O => false
      | S inner => forallb (fun kv => within lim inner (snd kv)) d
      end
  | _ => true
  end.

(** The UTF-8 encoding of code points none of which is a surrogate: what
    the text of a Python [str] without lone surrogates is. *)
Fixpoint utf8_ok (s : string) : bool :=
  match s with
  | EmptyString => true
  | String a r =>
      let n := N_of_ascii a in
      if (n <? 128)%N then utf8_ok r
      else if (n <? 194)%N then false
      else
        match r with
        | String b r2 =>
            let x := N_of_ascii b in
            if (n <? 224)%N then is_continuation b && utf8_ok r2
            else
              match r2 with
              | String c r3 =>
                  if (n <? 240)%N then
                    is_continuation b && is_continuation c
                    && (negb (n =? 224)%N || (160 <=? x)%N)
                    && (negb (n =? 237)%N || (x <? 160)%N)
                    && utf8_ok r3
                  else
                    match r3 with
                    | String d r4 =>
                        (n <? 245)%N
                        && is_continuation b && is_continuation c
                        && is_continuation d
                        && (negb (n =? 240)%N || (144 <=? x)%N)
                        && (negb (n =? 244)%N || (x <? 144)%N)
                        && utf8_ok r4
                    | EmptyString => false
                    end
              | EmptyString => false
              end
        | EmptyString => false
        end
  end.

Fixpoint distinct (keys : list string) : bool :=
  match keys with
  | [] => true
  | k :: rest => negb (existsb (String.eqb k) rest) && distinct rest
  end.

(** A value without a float given by a literal, whose texts and keys are
    such encodings, and whose objects have one binding per key. *)
Fixpoint storable (v : value) : bool :=
  match v with
  | VFloat _ _ => false
  | VStr s => utf8_ok s
  | VList l => forallb storable l
  | VDict d =>
      distinct (map fst d)
      && forallb (fun kv => utf8_ok (fst kv) && storable (snd kv)) d
  | _ => true
  end.

(** The text of the items and of the members after the first, as the
    encoder writes them at a level. *)
Definition encoded_items (float_repr : Z -> Z -> string) (level : nat)
  (l : list value) : string :=
  fold_right
    (fun y text =>
       "," ++ JsonOut.newline_indent level
       ++ JsonOut.encode float_repr level y ++ text)
    EmptyString l.

Definition encoded_members (float_repr : Z -> Z -> string) (level : nat)
  (d : list (string * value)) : string :=
  fold_right
    (fun kv text =>
       "," ++ JsonOut.newline_indent level
       ++ quoted (JsonOut.escape (fst kv)) ++ ": "
       ++ JsonOut.encode float_repr level (snd kv) ++ text)
    EmptyString d.

(** A text that cannot continue a number. *)
Definition ends_number (rest : string) : bool :=
  match rest with
  | EmptyString => true
  | String c _ =>
      negb (Json.is_digit c || Ascii.eqb c "." || Ascii.eqb c "e"
            || Ascii.eqb c "E")
  end.

(** A character that is no white space and closes no array or object. *)
Definition opens (c : ascii) : Prop :=
  Json.is_ws c = false /\ Ascii.eqb "]" c = false /\ Ascii.eqb "}" c = false.

(** The decoder finds the value in the text the encoder writes for it at
    any level, whatever follows that cannot continue a number, with a
    budget the value is within. *)
Definition read_back (lim : Json.Limits) (float_repr : Z -> Z -> string)
  (v : value) : Prop :=
  forall level rest fuel depth,
    ends_number rest = true ->
    within lim depth v = true ->
    2 * String.length (JsonOut.encode float_repr level v) < fuel ->
    Json.scan_once lim fuel depth (JsonOut.encode float_repr level v ++ rest)
    = Json.Found v rest.

(** * Properties *)

(** ** Strings *)

Module PyStrFacts.
Import PyStr.

Lemma length_app (a b : string) :
  String.length (a ++ b) = String.length a + String.length b.
Proof. induction a as [|c a IH]; simpl; [reflexivity | now rewrite IH]. Qed.

Lemma app_assoc (a b c : string) : (a ++ b) ++ c = a ++ (b ++ c).
Proof. induction a as [|x a IH]; simpl; [reflexivity | now rewrite IH]. Qed.

Lemma app_empty_r (a : string) : a ++ "" = a.
Proof. induction a as [|x a IH]; simpl; [reflexivity | now rewrite IH]. Qed.

Lemma take_drop (n : nat) (s : string) : take n s ++ drop n s = s.
Proof.
  revert s; induction n as [|n IH]; intros [|c s]; simpl; try reflexivity.
  now rewrite IH.
Qed.

Lemma drop_app (a b : string) : drop (String.length a) (a ++ b) = b.
Proof. induction a as [|c a IH]; simpl; [now destruct b | exact IH]. Qed.

Lemma take_app (a b : string) : take (String.length a) (a ++ b) = a.
Proof. induction a as [|c a IH]; simpl; [now destruct b | now rewrite IH]. Qed.

Lemma drop_app_ge (n : nat) (a b : string) :
  String.length a <= n -> drop n (a ++ b) = drop (n - String.length a) b.
Proof.
  revert n; induction a as [|c a IH]; intros n Hn; simpl in *.
  - now rewrite Nat.sub_0_r.
  - destruct n as [|n]; [lia|]. simpl. apply IH. lia.
Qed.

Lemma length_drop (n : nat) (s : string) :
  String.length (drop n s) = String.length s - n.
Proof.
  revert s; induction n as [|n IH]; intros [|c s]; simpl; auto.
Qed.

Lemma prefix_app (p s : string) : String.prefix p (p ++ s) = true.
Proof.
  induction p as [|c p IH]; simpl; [now destruct s|].
  destruct (ascii_dec c c); [exact IH | congruence].
Qed.

Lemma prefix_split (p s : string) :
  String.prefix p s = true -> s = p ++ drop (String.length p) s.
Proof.
  revert s; induction p as [|c p IH]; intros s H; simpl in *.
  - now destruct s.
  - destruct s as [|d s]; simpl in H; [discriminate|].
    destruct (ascii_dec c d); [subst d | discriminate].
    simpl. f_equal. now apply IH.
Qed.

Lemma prefix_app_long (p a z : string) :
  String.length p <= String.length a ->
  String.prefix p (a ++ z) = String.prefix p a.
Proof.
  revert a; induction p as [|c p IH]; intros a H; simpl in *.
  - now destruct a, z.
  - destruct a as [|d a]; simpl in *; [lia|].
    destruct (ascii_dec c d); [apply IH; lia | reflexivity].
Qed.

Lemma endswith_app (s p : string) : endswith (s ++ p) p = true.
Proof.
  unfold endswith. rewrite length_app.
  replace (String.length s + String.length p - String.length p)
    with (String.length s) by lia.
  rewrite drop_app, String.eqb_refl.
  rewrite andb_true_r. apply Nat.leb_le. lia.
Qed.

Lemma endswith_split (s p : string) :
  endswith s p = true ->
  s = take (String.length s - String.length p) s ++ p.
Proof.
  unfold endswith. intros H. apply andb_prop in H as [_ H].
  apply String.eqb_eq in H.
  set (n := String.length s - String.length p) in *.
  rewrite <- (take_drop n s) at 1. now rewrite H.
Qed.

Lemma endswith_app_r (a b p : string) :
  String.length p <= String.length b ->
  endswith (a ++ b) p = endswith b p.
Proof.
  intros H. unfold endswith. rewrite length_app.
  rewrite drop_app_ge by lia.
  replace (String.length a + String.length b - String.length p
           - String.length a)
    with (String.length b - String.length p) by lia.
  f_equal. apply eq_true_iff_eq. rewrite !Nat.leb_le. lia.
Qed.

Lemma slice_between (a body b : string) :
  slice (a ++ body ++ b) (String.length a) (String.length b) = body.
Proof.
  unfold slice. rewrite drop_app, !length_app.
  replace (String.length a + (String.length body + String.length b)
           - String.length b - String.length a)
    with (String.length body) by lia.
  apply take_app.
Qed.

Lemma contains_here (p s : string) :
  String.prefix p s = true -> contains s p = true.
Proof. intros H. destruct s; cbn [contains]; now rewrite H. Qed.

Lemma contains_app (pre p post : string) :
  contains (pre ++ p ++ post) p = true.
Proof.
  induction pre as [|c pre IH]; cbn [contains String.append].
  - apply contains_here, prefix_app.
  - rewrite IH. apply orb_true_r.
Qed.

Lemma contains_split (s p : string) :
  contains s p = true -> exists pre post, s = pre ++ p ++ post.
Proof.
  induction s as [|c s IH]; cbn [contains]; intros H.
  - rewrite orb_false_r in H. destruct p; [|discriminate].
    now exists "", "".
  - apply orb_prop in H as [H | H].
    + exists "", (drop (String.length p) (String c s)).
      now apply prefix_split in H.
    + destruct (IH H) as (pre & post & ->).
      now exists (String c pre), post.
Qed.

End PyStrFacts.

(** ** The tool-call parser *)

Section ParserFacts.
Import PyStr PyStrFacts.

(** A response that starts with the opening delimiter and ends with the
    closing one is the two delimiters around the slice the parser takes:
    the delimiters cannot overlap. *)
Lemma wrapped_shape (r : string) :
  startswith r TOOL_OPEN = true ->
  endswith r TOOL_CLOSE = true ->
  r = TOOL_OPEN ++ slice r (String.length TOOL_OPEN) (String.length TOOL_CLOSE)
      ++ TOOL_CLOSE.
Proof.
  intros Hs He. unfold startswith in Hs. apply prefix_split in Hs.
  set (r1 := drop (String.length TOOL_OPEN) r) in *.
  rewrite Hs in He |- *. clearbody r1. clear Hs.
  destruct (Nat.ltb (String.length r1) 12) eqn:Hlen.
  - exfalso. apply Nat.ltb_lt in Hlen.
    do 12 (destruct r1 as [|? r1]; [vm_compute in He; discriminate He|]).
    simpl in Hlen. lia.
  - apply Nat.ltb_ge in Hlen.
    rewrite endswith_app_r in He by exact Hlen.
    apply endswith_split in He.
    unfold slice. rewrite drop_app, length_app.
    replace (String.length TOOL_OPEN + String.length r1
             - String.length TOOL_CLOSE - String.length TOOL_OPEN)
      with (String.length r1 - String.length TOOL_CLOSE) by (simpl; lia).
    now rewrite <- He.
Qed.

Lemma parse_wrapped (lim : Json.Limits) (body : string) :
  _parse_tool_call lim (TOOL_OPEN ++ body ++ TOOL_CLOSE)
  = match Json.loads lim body with
    | inr v => inr v
    | inl e =>
        match uncaught e with
        | None => inr VNone
        | Some raised => inl raised
        end
    end.
Proof.
  unfold _parse_tool_call, startswith.
  rewrite prefix_app.
  rewrite <- app_assoc, endswith_app, app_assoc.
  now rewrite slice_between.
Qed.

Lemma parse_found (lim : Json.Limits) (r : string) (v : value) :
  _parse_tool_call lim r = inr v ->
  v <> VNone ->
  exists body,
    r = TOOL_OPEN ++ body ++ TOOL_CLOSE /\ Json.loads lim body = inr v.
Proof.
  intros H Hv. unfold _parse_tool_call in H.
  destruct (startswith r TOOL_OPEN) eqn:Hs;
    [|injection H as <-; now elim Hv].
  destruct (endswith r TOOL_CLOSE) eqn:He;
    [|injection H as <-; now elim Hv].
  cbn [andb] in *.
  exists (slice r (String.length TOOL_OPEN) (String.length TOOL_CLOSE)).
  split; [now apply wrapped_shape|].
  destruct (Json.loads lim _) as [e|w]; [|now injection H as <-].
  destruct (uncaught e); [discriminate|].
  injection H as <-. now elim Hv.
Qed.

(** The parser raises only what the decoder raises on the text between the
    delimiters. *)
Lemma parse_raised (lim : Json.Limits) (r : string) (x : exn) :
  _parse_tool_call lim r = inl x ->
  exists body e,
    r = TOOL_OPEN ++ body ++ TOOL_CLOSE
    /\ Json.loads lim body = inl e
    /\ uncaught e = Some x.
Proof.
  intros H. unfold _parse_tool_call in H.
  destruct (startswith r TOOL_OPEN) eqn:Hs; [|discriminate].
  destruct (endswith r TOOL_CLOSE) eqn:He; [|discriminate].
  cbn [andb] in *.
  exists (slice r (String.length TOOL_OPEN) (String.length TOOL_CLOSE)).
  destruct (Json.loads lim _) as [e|w]; [|discriminate].
  exists e. split; [now apply wrapped_shape|]. split; [reflexivity|].
  destruct (uncaught e); [now injection H as <-|discriminate].
Qed.

End ParserFacts.

(** ** Traces and histories *)

Section AgentFacts.

Context {World : Type} (rt : Runtime World).
Implicit Types (a : Agent rt) (p : Event -> bool).

Lemma count_app p (t u : list Event) : count p (t ++ u) = count p t + count p u.
Proof. unfold count. now rewrite filter_app, length_app. Qed.

Lemma count_nil p : count p [] = 0.
Proof. reflexivity. Qed.

Lemma count_cons p ev (t : list Event) :
  count p (ev :: t) = (if p ev then 1 else 0) + count p t.
Proof. unfold count. simpl. now destruct (p ev). Qed.

Lemma count_registered p (names : list string) :
  (forall n, p (ToolRegistered n) = false) ->
  count p (map ToolRegistered names) = 0.
Proof.
  intros H. induction names as [|n names IH]; [reflexivity|].
  simpl. now rewrite count_cons, H, IH.
Qed.

(** *** Initialisation *)

Lemma register_all_effect (names : option (list string))
  (tools : list (Tool World)) a a' :
  register_all rt names tools a = inr a' ->
  history a' = history a
  /\ agent_max_turns a' = agent_max_turns a
  /\ llm a' = llm a
  /\ exists registered,
       trace a' = (trace a ++ map ToolRegistered registered)%list.
Proof.
  revert a. induction tools as [|t tools IH]; intros a H; simpl in H.
  - injection H as <-. repeat split. exists []. simpl. now rewrite app_nil_r.
  - destruct (allowed names t).
    + destruct (register_tool rt t (tool_registry a)); [discriminate|].
      apply IH in H as (Hh & Hm & Hl & regs & Ht). simpl in *.
      repeat split; auto.
      exists (name t :: regs). rewrite Ht, <- app_assoc. reflexivity.
    + now apply IH.
Qed.

(** After a successful initialisation the history holds the system prompt
    and the user instruction, nothing has been asked of the model or of a
    tool, the turn limit is the configured one, 50 by default, and the
    backend is the one the configuration selects. *)
Lemma initialize_effect (dir : string) (debug : bool) (st : Startup)
  (w : World) a :
  initialize rt dir debug st w = inr a ->
  List.length (history a) = 2
  /\ (forall p,
        (forall n, p (ToolRegistered n) = false) ->
        p InitStarted = false ->
        (forall d, p (WorkingDirectory d) = false) ->
        (forall b, p (DebugMode b) = false) ->
        (forall n, p (MaxTurns n) = false) ->
        (forall s, p (SystemPromptLogged s) = false) ->
        (forall s, p (UserInstructionLogged s) = false) ->
        count p (trace a) = 0)
  /\ exists c,
       config_file st = Some (inr c)
       /\ agent_max_turns a
          = match max_turns c with Some n => n | None => 50%Z end
       /\ initialize_llm rt c = inr (llm a).
Proof.
  unfold initialize, initialize_environment. intros H.
  destruct (config_file st) as [[e|c]|]; try discriminate.
  destruct (initialize_llm rt _) as [e|l] eqn:Hllm; [discriminate|].
  unfold initialize_logger in H.
  destruct (log_exists st); [discriminate|].
  match type of H with
  | match initialize_tool_registry _ ?x with _ => _ end = _ =>
      set (a1 := x) in *
  end.
  destruct (initialize_tool_registry rt a1) as [e|a2] eqn:Hreg; [discriminate|].
  unfold initialize_tool_registry in Hreg.
  apply register_all_effect in Hreg as (Hh & Hm & Hl & regs & Ht).
  unfold load_instruction in H.
  destruct (instruction_file st) as [[e|text]|]; try discriminate.
  injection H as <-. simpl in *.
  rewrite Hh, Hm, Hl. split; [reflexivity|]. split.
  - intros p Hr H0 H1 H2 H3 H4 H5.
    rewrite !count_app, Ht, !count_cons, !count_nil.
    rewrite count_registered by exact Hr.
    now rewrite H0, H1, H2, H3, H4, H5.
  - exists c. repeat split. exact Hllm.
Qed.

(** *** One turn *)

Ltac by_cases_on_trace :=
  simpl; rewrite <- ?app_assoc; simpl;
  repeat split; try reflexivity; try discriminate;
  try (unfold count; simpl; lia).

Lemma execute_tool_effect (tool_call : value) a a' :
  execute_tool rt tool_call a = inr a' ->
  agent_max_turns a' = agent_max_turns a
  /\ exists evs tool_name tool_args result,
       trace a' = (trace a ++ evs)%list
       /\ history a'
          = (history a ++ [ToolCallResult tool_name tool_args result])%list
       /\ count is_generate evs = 0
       /\ count is_response evs = 0
       /\ count is_tool_result evs = 1
       /\ count is_execute evs <= 1.
Proof.
  unfold execute_tool, tool_failed. intros H.
  destruct tool_call; try discriminate.
  destruct (negb (truthy _)).
  - injection H as <-. split; [reflexivity|].
    eexists [_; _], _, _, _. by_cases_on_trace.
  - destruct (get_tool rt _ _) as [e|tool].
    + injection H as <-. split; [reflexivity|].
      eexists [_; _], _, _, _. by_cases_on_trace.
    + destruct (validate tool _).
      * injection H as <-. split; [reflexivity|].
        eexists [_; _], _, _, _. by_cases_on_trace.
      * destruct (execute tool _ _) as [[e|r] w']; injection H as <-;
          (split; [reflexivity|]).
        -- eexists [_; _; _; _], _, _, _. by_cases_on_trace.
        -- eexists [_; _; _], _, _, _. by_cases_on_trace.
Qed.

Lemma take_turn_effect (turn : nat) a (s : Step) a' :
  take_turn rt turn a = (s, a') ->
  agent_max_turns a' = agent_max_turns a
  /\ exists evs hs,
       trace a' = (trace a ++ evs)%list
       /\ history a' = (history a ++ hs)%list
       /\ count is_generate evs = 1
       /\ count is_execute evs <= 1
       /\ count is_response evs <= 1
       /\ count is_tool_result evs <= count is_response evs
       /\ List.length hs = count is_response evs + count is_tool_result evs
       /\ s <> Stop TurnLimit.
Proof.
  unfold take_turn, query_llm. intros H.
  destruct (generate rt _ _) as [[e|r] l'].
  - injection H as <- <-. split; [reflexivity|].
    eexists [_; _; _; _; _], []. rewrite app_nil_r. by_cases_on_trace.
  - destruct (PyStr.contains r TERMINATE).
    + injection H as <- <-. split; [reflexivity|].
      eexists [_; _; _; _; _; _], [_]. by_cases_on_trace.
    + destruct (_parse_tool_call (json_limits rt) r) as [e|tool_call].
      { injection H as <- <-. split; [reflexivity|].
        eexists [_; _; _; _], [_]. by_cases_on_trace. }
      destruct (truthy tool_call).
      * destruct (execute_tool rt _ _) as [e|a3] eqn:Hx.
        -- injection H as <- <-. split; [reflexivity|].
           eexists [_; _; _; _], [_]. by_cases_on_trace.
        -- injection H as <- <-.
           apply execute_tool_effect in Hx
             as (Hm & evs & n & args & res & Ht & Hh & Hg & Hr & Hres & Hex).
           simpl in *. split; [exact Hm|].
           exists ([TurnStarted (turn + 1) (agent_max_turns a); Querying;
                    Generate (map to_json (history a));
                    ResponseLogged turn r] ++ evs)%list,
                  [LLMResponse r; ToolCallResult n args res].
           rewrite Ht, Hh, <- !app_assoc.
           cbn [List.app List.length]. rewrite !count_cons.
           cbn [is_generate is_execute is_response is_tool_result].
           repeat split; try lia; discriminate.
      * injection H as <- <-. split; [reflexivity|].
        eexists [_; _; _; _; _], [_]. by_cases_on_trace.
Qed.

(** *** The loop *)

Lemma loop_effect (n turn : nat) a (o : Outcome) a' :
  loop rt n turn a = (o, a') ->
  agent_max_turns a' = agent_max_turns a
  /\ exists evs hs,
       trace a' = (trace a ++ evs)%list
       /\ history a' = (history a ++ hs)%list
       /\ count is_generate evs <= n
       /\ (o = TurnLimit -> count is_generate evs = n)
       /\ count is_execute evs <= count is_generate evs
       /\ count is_tool_result evs <= count is_response evs
       /\ List.length hs = count is_response evs + count is_tool_result evs.
Proof.
  revert turn a. induction n as [|n IH]; intros turn a H; simpl in H.
  - injection H as <- <-. split; [reflexivity|].
    exists [MaxTurnsReached], []. simpl. rewrite app_nil_r.
    repeat split; auto.
  - destruct (take_turn rt turn a) as [s a1] eqn:Ht.
    apply take_turn_effect in Ht
      as (Hm & evs & hs & Ht & Hh & Hg & Hx & Hr & Hres & Hlen & Hs).
    destruct s as [|o1].
    + apply IH in H
        as (Hm' & evs' & hs' & Ht' & Hh' & Hg' & Hlim & Hx' & Hres' & Hlen').
      split; [congruence|].
      exists (evs ++ evs')%list, (hs ++ hs')%list.
      rewrite Ht', Ht, Hh', Hh, <- !app_assoc, !count_app, length_app.
      repeat split; auto; try lia.
      intros Ho. specialize (Hlim Ho). lia.
    + injection H as <- <-. split; [exact Hm|].
      exists evs, hs. repeat split; auto; try lia.
      intros ->. now elim Hs.
Qed.

End AgentFacts.

(** *** What a turn does with a response *)

Section TurnFacts.

Context {World : Type} (rt : Runtime World).
Implicit Types (a : Agent rt).

(** The agent once the model has answered [r] in turn [turn]: the turn and
    the query are logged, the backend has moved on, the response is logged
    and appended to the history. *)
Lemma take_turn_answered (turn : nat) a (r : string) (l' : LanguageModel rt) :
  generate rt (llm a) (map to_json (history a)) = (inr r, l') ->
  exists a2,
    query_llm rt turn (log (TurnStarted (turn + 1) (agent_max_turns a)) a)
    = (Some r, a2)
    /\ trace a2
       = (trace a ++ [TurnStarted (turn + 1) (agent_max_turns a); Querying;
                      Generate (map to_json (history a));
                      ResponseLogged turn r])%list
    /\ history a2 = (history a ++ [LLMResponse r])%list
    /\ world a2 = world a
    /\ tool_registry a2 = tool_registry a
    /\ llm a2 = l'.
Proof.
  intros H. unfold query_llm. simpl. rewrite H.
  eexists. split; [reflexivity|]. simpl. rewrite <- !app_assoc. simpl.
  repeat split.
Qed.

(** A response that holds the termination marker stops the loop in that
    turn: the history gains the response and nothing else, no tool runs,
    the world is as it was. *)
Lemma take_turn_terminate (turn : nat) a (r : string) (l' : LanguageModel rt) :
  generate rt (llm a) (map to_json (history a)) = (inr r, l') ->
  PyStr.contains r TERMINATE = true ->
  exists a',
    take_turn rt turn a
    = (Stop (Explicit (PyStr.strip (PyStr.replace r TERMINATE ""))), a')
    /\ trace a'
       = (trace a ++ [TurnStarted (turn + 1) (agent_max_turns a); Querying;
                      Generate (map to_json (history a));
                      ResponseLogged turn r; DecidedToTerminate;
                      FinalAnswer
                        (PyStr.strip (PyStr.replace r TERMINATE ""))])%list
    /\ history a' = (history a ++ [LLMResponse r])%list
    /\ world a' = world a.
Proof.
  intros H Hc.
  destruct (take_turn_answered turn a r l' H) as (a2 & Hq & Ht & Hh & Hw & _).
  unfold take_turn. rewrite Hq, Hc.
  eexists. split; [reflexivity|]. simpl. rewrite Ht, Hh, Hw, <- !app_assoc.
  simpl. repeat split.
Qed.

(** A response without the marker that the parser does not take for a tool
    call is logged as a thought, and the loop goes on. *)
Lemma take_turn_thought (turn : nat) a (r : string) (l' : LanguageModel rt) :
  generate rt (llm a) (map to_json (history a)) = (inr r, l') ->
  plain_text (json_limits rt) r = true ->
  exists a',
    take_turn rt turn a = (Continue, a')
    /\ trace a'
       = (trace a ++ [TurnStarted (turn + 1) (agent_max_turns a); Querying;
                      Generate (map to_json (history a));
                      ResponseLogged turn r; Thought r])%list
    /\ history a' = (history a ++ [LLMResponse r])%list
    /\ world a' = world a
    /\ llm a' = l'
    /\ agent_max_turns a' = agent_max_turns a.
Proof.
  intros H Hp. unfold plain_text in Hp.
  apply andb_prop in Hp as [Hc Hi].
  apply negb_true_iff in Hc.
  destruct (_parse_tool_call (json_limits rt) r) as [e|tool_call] eqn:Hparse;
    [discriminate|].
  apply negb_true_iff in Hi.
  destruct (take_turn_answered turn a r l' H)
    as (a2 & Hq & Ht & Hh & Hw & _ & Hl).
  unfold take_turn. rewrite Hq, Hc, Hparse, Hi.
  eexists. split; [reflexivity|]. simpl. rewrite Ht, Hh, Hw, Hl, <- !app_assoc.
  simpl. repeat split.
  unfold query_llm in Hq. simpl in Hq. rewrite H in Hq.
  injection Hq as <-. reflexivity.
Qed.

End TurnFacts.

(** ** Replacing the termination marker *)

Section ReplaceFacts.
Import PyStr PyStrFacts.

Lemma replace_absent (old new s : string) :
  contains s old = false -> replace s old new = s.
Proof.
  unfold replace. induction s as [|c s IH]; [reflexivity|].
  cbn [contains replace_from]. intros H.
  apply orb_false_elim in H as [Hp Hc].
  rewrite Hp. f_equal. now apply IH.
Qed.

(** No occurrence of the marker starts in a non-empty text that does not
    begin with it and ends inside a marker that follows the text: the
    marker has a single [<], in front. *)
Lemma no_straddle (c : ascii) (x z : string) :
  String.prefix TERMINATE (String c x) = false ->
  String.prefix TERMINATE (String c x ++ TERMINATE ++ z) = false.
Proof.
  intros H.
  destruct (Nat.leb (String.length TERMINATE) (String.length (String c x)))
    eqn:Hlen.
  - apply Nat.leb_le in Hlen. now rewrite prefix_app_long.
  - apply Nat.leb_gt in Hlen. clear H.
    destruct (String.prefix TERMINATE (String c x ++ TERMINATE ++ z)) eqn:Hp;
      [|reflexivity].
    exfalso. apply prefix_split in Hp.
    do 10 (destruct x as [|? x]; [simpl in Hp; discriminate Hp|]).
    simpl in Hlen. lia.
Qed.

(** With a single occurrence of the marker, what [replace] leaves is the
    text before it followed by the text after it. *)
Lemma replace_single (pre post : string) :
  contains pre TERMINATE = false ->
  contains post TERMINATE = false ->
  replace (pre ++ TERMINATE ++ post) TERMINATE "" = pre ++ post.
Proof.
  intros Hpre Hpost. induction pre as [|c pre IH].
  - unfold replace. simpl.
    replace (String.prefix "" post) with true by now destruct post.
    now apply replace_absent.
  - cbn [contains] in Hpre. apply orb_false_elim in Hpre as [Hp Hc].
    unfold replace in *. cbn [String.append replace_from].
    change (String c (pre ++ TERMINATE ++ post))
      with (String c pre ++ TERMINATE ++ post).
    rewrite (no_straddle c pre post Hp).
    cbn [String.append]. f_equal. now apply IH.
Qed.

End ReplaceFacts.

(** ** Trimming *)

Section TrimFacts.
Import PyStr PyStrFacts.

Lemma rev_onto_app (s acc : string) : rev_onto s acc = rev s ++ acc.
Proof.
  unfold rev. revert acc. induction s as [|a s IH]; intros acc; simpl;
    [reflexivity|].
  rewrite IH, (IH (String a EmptyString)), app_assoc. reflexivity.
Qed.

Lemma rev_cons (a : ascii) (s : string) :
  rev (String a s) = rev s ++ String a EmptyString.
Proof. unfold rev at 1. simpl. apply rev_onto_app. Qed.

Lemma rev_app (a b : string) : rev (a ++ b) = rev b ++ rev a.
Proof.
  induction a as [|x a IH]; simpl; [now rewrite app_empty_r|].
  now rewrite !rev_cons, IH, app_assoc.
Qed.

Lemma rev_rev (s : string) : rev (rev s) = s.
Proof.
  induction s as [|a s IH]; [reflexivity|].
  now rewrite rev_cons, rev_app, IH.
Qed.

Lemma blank_app (a b : string) : blank a -> blank b -> blank (a ++ b).
Proof.
  induction 1 as [|c s Hc _ IH]; intros Hb; [exact Hb|].
  rewrite app_assoc. constructor; auto.
Qed.

Lemma blank_one (c : string) : whitespace c = true -> blank c.
Proof.
  intros H. rewrite <- (app_empty_r c). constructor; [exact H|constructor].
Qed.

Lemma whitespace_cases (c : string) :
  whitespace c = true ->
  (exists a, c = String a EmptyString /\ space1 a = true)
  \/ (exists a b, c = String a (String b EmptyString) /\ space2 a b = true)
  \/ (exists a b d,
        c = String a (String b (String d EmptyString))
        /\ space3 a b d = true).
Proof.
  destruct c as [|a [|b [|d [|? ?]]]]; simpl; intros H; try discriminate;
    eauto 10.
Qed.

Ltac no_space :=
  let c := fresh "c" in
  let rest := fresh "rest" in
  let Hc := fresh "Hc" in
  let E := fresh "E" in
  intros c rest Hc E;
  apply whitespace_cases in Hc
    as [(? & -> & Hc) | [(? & ? & -> & Hc) | (? & ? & ? & -> & Hc)]];
  cbv in E; try discriminate E; injection E; intros; subst; congruence.

Lemma lstrip_spec (n : nat) :
  forall s,
    String.length s <= n ->
    exists l, s = l ++ lstrip s /\ blank l /\ no_lead (lstrip s).
Proof.
  induction n as [|n IH]; intros s Hn.
  - destruct s; [|simpl in Hn; lia].
    exists EmptyString. repeat split; [constructor|no_space].
  - destruct s as [|a r1];
      [exists EmptyString; repeat split; [constructor|no_space]|].
    cbn [lstrip String.length] in *.
    destruct (space1 a) eqn:H1.
    { destruct (IH r1) as (l & E & Hb & Hl); [lia|].
      exists (String a l). split; [simpl; now rewrite <- E|].
      split; [|exact Hl].
      change (String a l) with (String a EmptyString ++ l).
      now constructor. }
    destruct r1 as [|b r2];
      [exists EmptyString; repeat split; [constructor|no_space]|].
    cbn [String.length] in *.
    destruct (space2 a b) eqn:H2.
    { destruct (IH r2) as (l & E & Hb & Hl); [lia|].
      exists (String a (String b l)). split; [simpl; now rewrite <- E|].
      split; [|exact Hl].
      change (String a (String b l))
        with (String a (String b EmptyString) ++ l).
      now constructor. }
    destruct r2 as [|d r3];
      [exists EmptyString; repeat split; [constructor|no_space]|].
    cbn [String.length] in *.
    destruct (space3 a b d) eqn:H3.
    { destruct (IH r3) as (l & E & Hb & Hl); [lia|].
      exists (String a (String b (String d l))).
      split; [simpl; now rewrite <- E|].
      split; [|exact Hl].
      change (String a (String b (String d l)))
        with (String a (String b (String d EmptyString)) ++ l).
      now constructor. }
    exists EmptyString. repeat split; [constructor|no_space].
Qed.

Lemma lstrip_rev_spec (n : nat) :
  forall x,
    String.length x <= n ->
    exists l,
      x = l ++ lstrip_rev x /\ blank (rev l) /\ no_lead_rev (lstrip_rev x).
Proof.
  induction n as [|n IH]; intros s Hn.
  - destruct s; [|simpl in Hn; lia].
    exists EmptyString. repeat split; [constructor|no_space].
  - destruct s as [|a r1];
      [exists EmptyString; repeat split; [constructor|no_space]|].
    cbn [lstrip_rev String.length] in *.
    destruct (space1 a) eqn:H1.
    { destruct (IH r1) as (l & E & Hb & Hl); [lia|].
      exists (String a l). split; [simpl; now rewrite <- E|].
      split; [|exact Hl].
      rewrite rev_cons. apply blank_app; [exact Hb|now apply blank_one]. }
    destruct r1 as [|b r2];
      [exists EmptyString; repeat split; [constructor|no_space]|].
    cbn [String.length] in *.
    destruct (space2 b a) eqn:H2.
    { destruct (IH r2) as (l & E & Hb & Hl); [lia|].
      exists (String a (String b l)). split; [simpl; now rewrite <- E|].
      split; [|exact Hl].
      rewrite !rev_cons, app_assoc.
      apply blank_app; [exact Hb|now apply blank_one]. }
    destruct r2 as [|d r3];
      [exists EmptyString; repeat split; [constructor|no_space]|].
    cbn [String.length] in *.
    destruct (space3 d b a) eqn:H3.
    { destruct (IH r3) as (l & E & Hb & Hl); [lia|].
      exists (String a (String b (String d l))).
      split; [simpl; now rewrite <- E|].
      split; [|exact Hl].
      rewrite !rev_cons, !app_assoc.
      apply blank_app; [exact Hb|now apply blank_one]. }
    exists EmptyString. repeat split; [constructor|no_space].
Qed.

(** [s.strip()] takes white space off both ends of [s] and leaves a text
    that neither begins nor ends with a white-space character. *)
Lemma strip_spec (s : string) :
  exists lead trail,
    s = lead ++ strip s ++ trail
    /\ blank lead /\ blank trail /\ trimmed (strip s).
Proof.
  destruct (lstrip_spec (String.length s) s (le_n _)) as (l & El & Hl & Hnl).
  destruct (lstrip_rev_spec (String.length (rev (lstrip s))) (rev (lstrip s))
              (le_n _)) as (t & Et & Ht & Hnt).
  assert (E : lstrip s = strip s ++ rev t).
  { unfold strip, rstrip. rewrite <- rev_app, <- Et. now rewrite rev_rev. }
  exists l, (rev t). split; [now rewrite <- E|]. split; [exact Hl|].
  split; [exact Ht|].
  intros c rest Hc. split.
  - intros Hs. apply (Hnl c (rest ++ rev t) Hc).
    now rewrite E, Hs, app_assoc.
  - intros Hs. apply (Hnt c (rev rest) Hc).
    unfold strip, rstrip in Hs.
    apply (f_equal rev) in Hs. rewrite rev_rev, rev_app in Hs. exact Hs.
Qed.

End TrimFacts.

(** ** Termination *)

Lemma last_after {A : Type} (l : list A) (x : A) (m : list A) (d : A) :
  last (l ++ x :: m) d = last (x :: m) d.
Proof.
  induction l as [|y l IH]; [reflexivity|].
  simpl. rewrite IH. now destruct l.
Qed.

(** C3. The termination marker is recognised anywhere in the response, and
    before the response is tried as a tool call: when the model answers
    with any text around the marker, be it a well-formed tool-call block or
    not, the turn stops the loop with the explicit outcome, the run ends
    there, no tool is executed, and the history gains the response only. *)
Theorem terminate_before_tool_call {World : Type} (rt : Runtime World)
  (turn n : nat) (a : Agent rt) (pre post : string) (l' : LanguageModel rt) :
  generate rt (llm a) (map to_json (history a))
  = (inr (pre ++ TERMINATE ++ post), l') ->
  exists answer a',
    take_turn rt turn a = (Stop (Explicit answer), a')
    /\ loop rt (S n) turn a = (Explicit answer, a')
    /\ executions a' = executions a
    /\ queries a' = queries a + 1
    /\ history a' = (history a ++ [LLMResponse (pre ++ TERMINATE ++ post)])%list
    /\ world a' = world a.
Proof.
  intros H.
  destruct (take_turn_terminate rt turn a _ l' H
              (PyStrFacts.contains_app pre TERMINATE post))
    as (a' & Hturn & Ht & Hh & Hw).
  eexists _, a'. split; [exact Hturn|].
  split; [simpl; now rewrite Hturn|].
  unfold executions, queries. rewrite Ht, !count_app.
  repeat split; auto; unfold count; simpl; lia.
Qed.

Lemma terminate_before_tool_call_witness :
  is_tool_invocation Scenario.limits Scenario.block_with_marker = true
  /\ Scenario.block_with_marker
     = Scenario.before_marker ++ TERMINATE ++ Scenario.after_marker
  /\ generate Scenario.runtime
       (llm (Scenario.ready [Scenario.block_with_marker]))
       (map to_json (history (Scenario.ready [Scenario.block_with_marker])))
     = (inr (Scenario.before_marker ++ TERMINATE ++ Scenario.after_marker),
        MockLLM Scenario.runtime (Llm.Mock [Scenario.block_with_marker] 1))
  /\ exists answer a',
       take_turn Scenario.runtime 0 (Scenario.ready [Scenario.block_with_marker])
       = (Stop (Explicit answer), a')
       /\ loop Scenario.runtime 1 0 (Scenario.ready [Scenario.block_with_marker])
          = (Explicit answer, a')
       /\ executions a' = executions (Scenario.ready [Scenario.block_with_marker])
       /\ queries a' = queries (Scenario.ready [Scenario.block_with_marker]) + 1
       /\ history a'
          = (history (Scenario.ready [Scenario.block_with_marker])
             ++ [LLMResponse
                   (Scenario.before_marker ++ TERMINATE
                    ++ Scenario.after_marker)])%list
       /\ world a' = world (Scenario.ready [Scenario.block_with_marker]).
Proof.
  split; [reflexivity|]. split; [reflexivity|]. split; [reflexivity|].
  apply (terminate_before_tool_call Scenario.runtime 0 0
           (Scenario.ready [Scenario.block_with_marker])
           Scenario.before_marker Scenario.after_marker
           (MockLLM Scenario.runtime (Llm.Mock [Scenario.block_with_marker] 1))).
  reflexivity.
Defined.

(** C5. When the response of a turn holds the termination marker, the run
    ends in that turn and no tool is executed. The final answer is the
    response with the marker taken out, trimmed: what is left of the
    response is white space, the answer, white space, and the answer
    neither begins nor ends with a white-space character. With a single
    marker, what is left of the response is the text before the marker
    followed by the text after it. The scripted responses
    [<terminate>Done.] and the same with white space on both sides end the
    run in the first turn with the final answer [Done.] and no tool
    execution. *)
Theorem final_answer_is_trimmed_rest {World : Type} (rt : Runtime World)
  (turn : nat) (a : Agent rt) (r : string) (l' : LanguageModel rt) :
  generate rt (llm a) (map to_json (history a)) = (inr r, l') ->
  PyStr.contains r TERMINATE = true ->
  (exists answer lead trail a',
     take_turn rt turn a = (Stop (Explicit answer), a')
     /\ last (trace a') RunFinished = FinalAnswer answer
     /\ executions a' = executions a
     /\ PyStr.replace r TERMINATE "" = lead ++ answer ++ trail
     /\ blank lead /\ blank trail /\ trimmed answer)
  /\ (forall pre post,
        r = pre ++ TERMINATE ++ post ->
        PyStr.contains pre TERMINATE = false ->
        PyStr.contains post TERMINATE = false ->
        PyStr.replace r TERMINATE "" = pre ++ post)
  /\ Scenario.outcome_of (Scenario.scripted ["<terminate>Done."] None)
     = Some (Explicit "Done.")
  /\ Scenario.outcome_of
       (Scenario.scripted [" <terminate> Done.  " ++ newline] None)
     = Some (Explicit "Done.")
  /\ Scenario.observe executions (Scenario.scripted ["<terminate>Done."] None)
     = Some 0
  /\ Scenario.observe queries (Scenario.scripted ["<terminate>Done."] None)
     = Some 1.
Proof.
  intros H Hc. split; [|split].
  - destruct (take_turn_terminate rt turn a r l' H Hc)
      as (a' & Hturn & Ht & Hh & Hw).
    destruct (strip_spec (PyStr.replace r TERMINATE ""))
      as (lead & trail & E & Hlead & Htrail & Htrim).
    exists (PyStr.strip (PyStr.replace r TERMINATE "")), lead, trail, a'.
    split; [exact Hturn|]. split; [rewrite Ht; now rewrite last_after|].
    split; [|tauto].
    unfold executions. rewrite Ht, count_app. unfold count. simpl. lia.
  - intros pre post -> Hpre Hpost. now apply replace_single.
  - repeat split; vm_compute; reflexivity.
Qed.

Lemma final_answer_is_trimmed_rest_witness :
  generate Scenario.runtime
    (llm (Scenario.ready ["  <terminate> Done. </terminate> "]))
    (map to_json
       (history (Scenario.ready ["  <terminate> Done. </terminate> "])))
  = (inr "  <terminate> Done. </terminate> ",
     MockLLM Scenario.runtime
       (Llm.Mock ["  <terminate> Done. </terminate> "] 1))
  /\ PyStr.contains "  <terminate> Done. </terminate> " TERMINATE = true
  /\ exists lead trail a',
       take_turn Scenario.runtime 0
         (Scenario.ready ["  <terminate> Done. </terminate> "])
       = (Stop (Explicit "Done. </terminate>"), a')
       /\ PyStr.replace "  <terminate> Done. </terminate> " TERMINATE ""
          = lead ++ "Done. </terminate>" ++ trail
       /\ blank lead /\ blank trail /\ trimmed "Done. </terminate>".
Proof.
  split; [reflexivity|]. split; [reflexivity|].
  destruct (final_answer_is_trimmed_rest Scenario.runtime 0
              (Scenario.ready ["  <terminate> Done. </terminate> "])
              "  <terminate> Done. </terminate> "
              (MockLLM Scenario.runtime
                 (Llm.Mock ["  <terminate> Done. </terminate> "] 1))
              eq_refl eq_refl)
    as [(answer & lead & trail & a' & Hturn & _ & _ & E & Hl & Ht & Htrim) _].
  assert (F : fst (take_turn Scenario.runtime 0
                     (Scenario.ready ["  <terminate> Done. </terminate> "]))
              = Stop (Explicit "Done. </terminate>"))
    by (vm_compute; reflexivity).
  rewrite Hturn in F. injection F as ->.
  exists lead, trail, a'. tauto.
Defined.

(** ** Recognising a tool call *)




(** The loop looks for the termination marker before it calls the parser:
    the text [<terminate>] between the delimiters is not JSON, and the
    turn ends the run instead of being logged as a thought. *)
Lemma malformed_block_with_marker_terminates :
  Json.loads Scenario.limits "<terminate>" = inl Json.JSONDecodeError
  /\ Scenario.marker_in_block = TOOL_OPEN ++ "<terminate>" ++ TOOL_CLOSE
  /\ Scenario.outcome_of (Scenario.scripted [Scenario.marker_in_block] None)
     = Some (Explicit "<tool_call></tool_call>")
  /\ Scenario.observe
       (fun a => existsb (fun ev => match ev with Thought _ => true | _ => false end)
                         (trace a))
       (Scenario.scripted [Scenario.marker_in_block] None)
     = Some false.
Proof. repeat split; vm_compute; reflexivity. Qed.

(** Where the decoder raises [JSONDecodeError] on the text between the
    delimiters, the parser returns [None]; and when the response does not
    hold the termination marker, the loop logs the response as a thought,
    logs no error, executes no tool, appends the response to the history
    and goes on to the next turn. *)
Lemma malformed_block_is_plain_text (lim : Json.Limits) (body : string) :
  Json.loads lim body = inl Json.JSONDecodeError ->
  _parse_tool_call lim (TOOL_OPEN ++ body ++ TOOL_CLOSE) = inr VNone
  /\ forall {World : Type} (rt : Runtime World) (turn : nat) (a : Agent rt)
       (l' : LanguageModel rt),
       json_limits rt = lim ->
       generate rt (llm a) (map to_json (history a))
       = (inr (TOOL_OPEN ++ body ++ TOOL_CLOSE), l') ->
       PyStr.contains (TOOL_OPEN ++ body ++ TOOL_CLOSE) TERMINATE = false ->
       exists a',
         take_turn rt turn a = (Continue, a')
         /\ trace a'
            = (trace a
               ++ [TurnStarted (turn + 1) (agent_max_turns a); Querying;
                   Generate (map to_json (history a));
                   ResponseLogged turn (TOOL_OPEN ++ body ++ TOOL_CLOSE);
                   Thought (TOOL_OPEN ++ body ++ TOOL_CLOSE)])%list
         /\ history a'
            = (history a ++ [LLMResponse (TOOL_OPEN ++ body ++ TOOL_CLOSE)])%list
         /\ world a' = world a.
Proof.
  intros H.
  assert (Hp : _parse_tool_call lim (TOOL_OPEN ++ body ++ TOOL_CLOSE)
               = inr VNone)
    by now rewrite parse_wrapped, H.
  split; [exact Hp|].
  intros World rt turn a l' Hlim Hg Hc.
  destruct (take_turn_thought rt turn a _ l' Hg) as (a' & Ht & Htr & Hh & Hw & _).
  - unfold plain_text. now rewrite Hlim, Hc, Hp.
  - now exists a'.
Qed.

Section DeepFacts.
Import Json.

Variable lim : Limits.

Lemma skip_ws_brackets (n : nat) :
  skip_ws (Scenario.brackets n) = Scenario.brackets n.
Proof. now destruct n. Qed.

Lemma after_brackets (n : nat) : after "]" (Scenario.brackets n) = None.
Proof. now destruct n. Qed.

(** One opening bracket more than the scanner may enter: it raises. *)
Lemma scan_brackets_too_deep (depth : nat) :
  forall fuel,
    2 * depth < fuel ->
    scan_once lim fuel depth (Scenario.brackets (S depth))
    = Raise (RecursionError "array").
Proof.
  induction depth as [|depth IH]; intros fuel Hf.
  - destruct fuel as [|fuel]; [lia|]. reflexivity.
  - destruct fuel as [|[|fuel]]; try lia.
    change (Scenario.brackets (S (S depth)))
      with (String "[" (Scenario.brackets (S depth))).
    cbn [scan_once after]. cbv beta iota.
    change (Ascii.eqb quote "[") with false.
    change (Ascii.eqb "{" "[") with false.
    change (Ascii.eqb "[" "[") with true. cbv beta iota.
    rewrite skip_ws_brackets, after_brackets. cbn [json_array].
    now rewrite IH by lia.
Qed.

(** Opening brackets that the scanner may all enter are no JSON document:
    a value is missing at the end. *)
Lemma scan_brackets_invalid (n : nat) :
  forall fuel depth,
    n <= depth -> 2 * n < fuel ->
    scan_once lim fuel depth (Scenario.brackets n) = Raise JSONDecodeError.
Proof.
  induction n as [|n IH]; intros fuel depth Hd Hf.
  - destruct fuel as [|fuel]; [lia|]. reflexivity.
  - destruct fuel as [|[|fuel]]; try lia.
    destruct depth as [|depth]; [lia|].
    change (Scenario.brackets (S n)) with (String "[" (Scenario.brackets n)).
    cbn [scan_once after]. cbv beta iota.
    change (Ascii.eqb quote "[") with false.
    change (Ascii.eqb "{" "[") with false.
    change (Ascii.eqb "[" "[") with true. cbv beta iota.
    rewrite skip_ws_brackets, after_brackets. cbn [json_array].
    now rewrite IH by lia.
Qed.

Lemma length_brackets (n : nat) : String.length (Scenario.brackets n) = n.
Proof. induction n as [|n IH]; simpl; [reflexivity|now rewrite IH]. Qed.

Lemma loads_brackets (n : nat) :
  loads lim (Scenario.brackets n)
  = inl (if (n <=? nesting lim)%nat then JSONDecodeError
         else RecursionError "array").
Proof.
  unfold loads. rewrite skip_ws_brackets.
  destruct (Nat.leb_spec n (nesting lim)) as [Hn|Hn].
  - rewrite scan_brackets_invalid;
      [reflexivity|exact Hn|unfold enough; rewrite length_brackets; lia].
  - assert (Hmore : forall k fuel,
              2 * (nesting lim + k) < fuel ->
              scan_once lim fuel (nesting lim)
                (Scenario.brackets (S (nesting lim + k)))
              = Raise (RecursionError "array")).
    { clear n Hn. generalize (nesting lim) as d.
      induction d as [|d IH]; intros k fuel Hf.
      - destruct fuel as [|fuel]; [lia|]. reflexivity.
      - destruct fuel as [|[|fuel]]; try lia.
        change (Scenario.brackets (S (S d + k)))
          with (String "[" (Scenario.brackets (S (d + k)))).
        cbn [scan_once after]. cbv beta iota.
        change (Ascii.eqb quote "[") with false.
        change (Ascii.eqb "{" "[") with false.
        change (Ascii.eqb "[" "[") with true. cbv beta iota.
        rewrite skip_ws_brackets, after_brackets. cbn [json_array].
        now rewrite IH by lia. }
    replace n with (S (nesting lim + (n - S (nesting lim)))) by lia.
    rewrite Hmore; [reflexivity|].
    unfold enough. rewrite length_brackets. lia.
Qed.

End DeepFacts.

(** C4. The handler of the parser catches [JSONDecodeError] only. Text
    between the delimiters that is not JSON and opens more arrays than the
    interpreter lets the decoder enter makes the decoder raise
    [RecursionError], under whatever limit; text that starts with an
    integer of more digits than [int] converts makes it raise
    [ValueError]. Such an exception leaves the parser and the loop: the
    run ends with the exception, the response is in the history, and no
    thought is logged. *)
Theorem malformed_block_raises :
  (forall (lim roomy : Json.Limits),
      Json.nesting lim < Json.nesting roomy ->
      Json.loads roomy (Scenario.brackets (S (Json.nesting lim)))
      = inl Json.JSONDecodeError
      /\ Json.loads lim (Scenario.brackets (S (Json.nesting lim)))
         = inl (Json.RecursionError "array")
      /\ _parse_tool_call lim
           (TOOL_OPEN ++ Scenario.brackets (S (Json.nesting lim))
            ++ TOOL_CLOSE)
         = inl (Exn OtherError
                  "maximum recursion depth exceeded while decoding a JSON array from a unicode string"))
  /\ (forall {World : Type} (rt : Runtime World) (turn : nat) (a : Agent rt)
        (r : string) (l' : LanguageModel rt) (e : exn),
        generate rt (llm a) (map to_json (history a)) = (inr r, l') ->
        PyStr.contains r TERMINATE = false ->
        _parse_tool_call (json_limits rt) r = inl e ->
        exists a',
          take_turn rt turn a = (Stop (Raised e), a')
          /\ trace a'
             = (trace a
                ++ [TurnStarted (turn + 1) (agent_max_turns a); Querying;
                    Generate (map to_json (history a));
                    ResponseLogged turn r])%list
          /\ history a' = (history a ++ [LLMResponse r])%list
          /\ world a' = world a)
  /\ Json.loads Scenario.generous Scenario.deep_body
     = inl Json.JSONDecodeError
  /\ Scenario.outcome_of (Scenario.scripted [Scenario.deep_block] None)
     = Some (Raised
               (Exn OtherError
                  "maximum recursion depth exceeded while decoding a JSON array from a unicode string"))
  /\ Scenario.observe
       (fun a => existsb (fun ev => match ev with Thought _ => true | _ => false end)
                         (trace a))
       (Scenario.scripted [Scenario.deep_block] None)
     = Some false
  /\ Json.loads Scenario.generous Scenario.long_body
     = inl Json.JSONDecodeError
  /\ Scenario.outcome_of (Scenario.scripted [Scenario.long_block] None)
     = Some (Raised
               (Exn OtherError
                  "Exceeds the limit (4300 digits) for integer string conversion: value has 4301 digits; use sys.set_int_max_str_digits() to increase the limit"))
  /\ Scenario.observe (fun a => List.length (history a))
       (Scenario.scripted [Scenario.long_block] None)
     = Some 3.
Proof.
  split; [|split].
  - intros lim roomy Hroomy. rewrite parse_wrapped, !loads_brackets.
    replace (S (Json.nesting lim) <=? Json.nesting roomy)%nat with true
      by (symmetry; apply Nat.leb_le; lia).
    replace (S (Json.nesting lim) <=? Json.nesting lim)%nat with false
      by (symmetry; apply Nat.leb_gt; lia).
    repeat split.
  - intros World rt turn a r l' e Hg Hc Hp.
    destruct (take_turn_answered rt turn a r l' Hg)
      as (a2 & Hq & Ht & Hh & Hw & _).
    exists a2. unfold take_turn. rewrite Hq, Hc, Hp. now repeat split.
  - repeat split; vm_compute; reflexivity.
Qed.

(** ** Runs *)

Section RunFacts.

Context {World : Type} (rt : Runtime World).
Implicit Types (a : Agent rt).

(** A run that starts is the loop on the initialised agent. *)
Lemma run_finished (dir : string) (debug : bool) (st : Startup) (w : World)
  (o : Outcome) a :
  run rt dir debug st w = Finished o a ->
  exists a0 a1,
    initialize rt dir debug st w = inr a0
    /\ loop rt (Z.to_nat (agent_max_turns a0)) 0 (log InitComplete a0) = (o, a1)
    /\ a = log RunFinished a1.
Proof.
  unfold run. intros H.
  destruct (initialize rt dir debug st w) as [e|a0]; [discriminate|].
  destruct (loop rt _ 0 _) as [o1 a1] eqn:Hloop.
  injection H as <- <-. now exists a0, a1.
Qed.

(** The scripted backend answers every query and answers it from its
    script. *)
Lemma mock_answers (script : list string) (k : nat) (msgs : list message) :
  script <> [] ->
  exists r,
    In r script
    /\ generate rt (MockLLM rt (Llm.Mock script k)) msgs
       = (inr r, MockLLM rt (Llm.Mock script (k + 1))).
Proof.
  intros Hne. simpl.
  exists (nth (k mod List.length script) script ""). split; [|reflexivity].
  apply nth_In. apply Nat.mod_upper_bound.
  destruct script; [congruence | discriminate].
Qed.

(** With a scripted backend that only answers plain text the loop uses up
    its turns: one query per turn, no tool execution. *)
Lemma loop_plain_text (script : list string) :
  script <> [] ->
  Forall (fun r => plain_text (json_limits rt) r = true) script ->
  forall (n turn k : nat) a,
    llm a = MockLLM rt (Llm.Mock script k) ->
    exists a',
      loop rt n turn a = (TurnLimit, a')
      /\ queries a' = queries a + n
      /\ executions a' = executions a.
Proof.
  intros Hne Hplain. induction n as [|n IH]; intros turn k a Hl.
  - eexists. split; [reflexivity|]. unfold queries, executions. simpl.
    rewrite !count_app. unfold count. simpl. split; lia.
  - destruct (mock_answers script k (map to_json (history a)) Hne)
      as (r & Hin & Hgen).
    rewrite <- Hl in Hgen.
    rewrite Forall_forall in Hplain.
    destruct (take_turn_thought rt turn a r _ Hgen (Hplain r Hin))
      as (a1 & Hturn & Ht & _ & _ & Hl1 & _).
    destruct (IH (S turn) (k + 1) a1 Hl1) as (a' & Hloop & Hq & Hx).
    exists a'. cbn [loop]. rewrite Hturn. split; [exact Hloop|].
    rewrite Hq, Hx. unfold queries, executions. rewrite Ht, !count_app.
    unfold count. simpl. split; lia.
Qed.

End RunFacts.

Lemma Scenario_finished (r : RunResult Scenario.runtime) (o : Outcome) :
  Scenario.outcome_of r = Some o -> r = Finished o (Scenario.final r).
Proof. destruct r; simpl; [discriminate | now intros [= ->]]. Qed.

(** C6, as stated, fails: three turns of plain text leave a history of five
    entries, where the formula of the specification gives eight. *)
Lemma history_length_differs_from_spec :
  Scenario.outcome_of (Scenario.scripted ["Let me think."] (Some 3%Z))
  = Some TurnLimit
  /\ Scenario.observe (fun a => count is_response (trace a))
       (Scenario.scripted ["Let me think."] (Some 3%Z)) = Some 3
  /\ Scenario.observe (fun a => List.length (history a))
       (Scenario.scripted ["Let me think."] (Some 3%Z)) = Some 5
  /\ spec_history_length 3 false = 8.
Proof. repeat split; vm_compute; reflexivity. Qed.

(** C6, amended. When a run ends, however it ends, the history holds the
    system prompt, the user instruction, one entry for every turn that
    produced a model response and one more for every such turn that
    dispatched a tool call: its length lies between 2 plus the number of
    responses and 2 plus twice that number, and a failed query adds and
    removes nothing. *)
Theorem history_length {World : Type} (rt : Runtime World) (dir : string)
  (debug : bool) (st : Startup) (w : World) (o : Outcome) (a : Agent rt) :
  run rt dir debug st w = Finished o a ->
  List.length (history a)
  = 2 + count is_response (trace a) + count is_tool_result (trace a)
  /\ count is_tool_result (trace a) <= count is_response (trace a).
Proof.
  intros H.
  apply run_finished in H as (a0 & a1 & Hinit & Hloop & ->).
  apply initialize_effect in Hinit as (Hlen & Hquiet & _).
  apply loop_effect in Hloop
    as (_ & evs & hs & Ht & Hh & _ & _ & _ & Hres & Hhs).
  simpl in *. rewrite Ht, Hh, length_app, !count_app, Hlen, Hhs.
  rewrite (Hquiet is_response), (Hquiet is_tool_result) by reflexivity.
  rewrite !count_cons, !count_nil. cbn [is_response is_tool_result].
  split; lia.
Qed.

Lemma history_length_witness :
  (run Scenario.runtime Scenario.dir false
        (Scenario.startup
           (Scenario.config [Scenario.one_block; "Done with the directory."]
              (Some 2%Z) None))
        Scenario.disk)
  = Finished TurnLimit (Scenario.final (run Scenario.runtime Scenario.dir false
        (Scenario.startup
           (Scenario.config [Scenario.one_block; "Done with the directory."]
              (Some 2%Z) None))
        Scenario.disk))
  /\ List.length (history (Scenario.final (run Scenario.runtime Scenario.dir false
        (Scenario.startup
           (Scenario.config [Scenario.one_block; "Done with the directory."]
              (Some 2%Z) None))
        Scenario.disk))) = 2 + 2 + 1.
Proof.
  assert (E : (run Scenario.runtime Scenario.dir false
        (Scenario.startup
           (Scenario.config [Scenario.one_block; "Done with the directory."]
              (Some 2%Z) None))
        Scenario.disk) = Finished TurnLimit (Scenario.final (run Scenario.runtime Scenario.dir false
        (Scenario.startup
           (Scenario.config [Scenario.one_block; "Done with the directory."]
              (Some 2%Z) None))
        Scenario.disk)))
    by (apply Scenario_finished; vm_compute; reflexivity).
  split; [exact E|].
  rewrite (proj1 (history_length Scenario.runtime Scenario.dir false
                    (Scenario.startup
                       (Scenario.config
                          [Scenario.one_block; "Done with the directory."]
                          (Some 2%Z) None))
                    Scenario.disk TurnLimit (Scenario.final (run Scenario.runtime Scenario.dir false
        (Scenario.startup
           (Scenario.config [Scenario.one_block; "Done with the directory."]
              (Some 2%Z) None))
        Scenario.disk)) E)).
  vm_compute. reflexivity.
Defined.

(** ** The turn limit *)

(** C8. A run sends at most [max_turns] queries to the model, where
    [max_turns] is the value of the configuration, 50 when the
    configuration has none; and with a scripted backend that answers plain
    text on every call, such as with [max_turns = 3], the run sends exactly
    [max_turns] queries and ends in the turn-limit state. *)
Theorem queries_bounded_by_max_turns {World : Type} (rt : Runtime World)
  (dir : string) (debug : bool) (st : Startup) (w : World) (o : Outcome)
  (a : Agent rt) :
  run rt dir debug st w = Finished o a ->
  exists c,
    config_file st = Some (inr c)
    /\ queries a
       <= Z.to_nat (match max_turns c with Some n => n | None => 50%Z end)
    /\ forall script,
         llm_type c = Some "mock" \/ llm_type c = None ->
         mock_responses c = Some script ->
         script <> [] ->
         Forall (fun r => plain_text (json_limits rt) r = true) script ->
         o = TurnLimit
         /\ queries a
            = Z.to_nat (match max_turns c with Some n => n | None => 50%Z end).
Proof.
  intros H.
  apply run_finished in H as (a0 & a1 & Hinit & Hloop & ->).
  apply initialize_effect in Hinit as (_ & Hquiet & c & Hc & Hmax & Hllm).
  exists c. split; [exact Hc|].
  assert (Hq0 : count is_generate (trace a0) = 0)
    by (apply Hquiet; reflexivity).
  split.
  - apply loop_effect in Hloop as (_ & evs & hs & Ht & _ & Hg & _).
    unfold queries. simpl in *. rewrite Ht, !count_app, Hq0, <- Hmax.
    rewrite !count_cons, !count_nil. simpl. lia.
  - intros script Hty Hscript Hne Hplain.
    assert (Hl : llm (log InitComplete a0)
                 = MockLLM rt (Llm.Mock script 0)).
    { simpl. unfold initialize_llm in Hllm.
      assert (Hm : initialize_llm rt c
                   = inr (MockLLM rt (Llm.mock_new (mock_responses c)))).
      { unfold initialize_llm. destruct Hty as [-> | ->]; reflexivity. }
      fold (initialize_llm rt c) in Hllm. rewrite Hm in Hllm.
      injection Hllm as <-. rewrite Hscript.
      destruct script; [congruence | reflexivity]. }
    destruct (loop_plain_text rt script Hne Hplain
                (Z.to_nat (agent_max_turns a0)) 0 0 _ Hl)
      as (a' & Hloop' & Hq & _).
    rewrite Hloop' in Hloop. injection Hloop as <- <-.
    split; [reflexivity|].
    unfold queries in *. simpl in *. rewrite count_app, Hq, count_app, Hq0.
    rewrite <- Hmax, !count_cons, !count_nil. simpl. lia.
Qed.

Lemma queries_bounded_by_max_turns_witness :
  run Scenario.runtime Scenario.dir false
    (Scenario.startup (Scenario.config ["Let me think."] (Some 3%Z) None))
    Scenario.disk
  = Finished TurnLimit
      (Scenario.final
         (run Scenario.runtime Scenario.dir false
            (Scenario.startup (Scenario.config ["Let me think."] (Some 3%Z) None))
            Scenario.disk))
  /\ Forall (fun r => plain_text Scenario.limits r = true) ["Let me think."]
  /\ queries
       (Scenario.final
          (run Scenario.runtime Scenario.dir false
             (Scenario.startup
                (Scenario.config ["Let me think."] (Some 3%Z) None))
             Scenario.disk))
     = 3.
Proof.
  assert (E : run Scenario.runtime Scenario.dir false
                (Scenario.startup
                   (Scenario.config ["Let me think."] (Some 3%Z) None))
                Scenario.disk
              = Finished TurnLimit
                  (Scenario.final
                     (run Scenario.runtime Scenario.dir false
                        (Scenario.startup
                           (Scenario.config ["Let me think."] (Some 3%Z) None))
                        Scenario.disk)))
    by (apply Scenario_finished; vm_compute; reflexivity).
  assert (P : Forall (fun r => plain_text Scenario.limits r = true)
                ["Let me think."])
    by (repeat constructor).
  split; [exact E|]. split; [exact P|].
  destruct (queries_bounded_by_max_turns Scenario.runtime Scenario.dir false
              (Scenario.startup
                 (Scenario.config ["Let me think."] (Some 3%Z) None))
              Scenario.disk TurnLimit _ E)
    as (c & Hc & _ & Hexact).
  injection Hc as <-.
  destruct (Hexact ["Let me think."] (or_introl eq_refl) eq_refl
              ltac:(discriminate) P) as [_ Hq].
  exact Hq.
Defined.

(** ** Failures within a tool call *)

Section DispatchFacts.

Context {World : Type} (rt : Runtime World).
Implicit Types (a : Agent rt).

(** A tool name that is not registered is recorded as a failed result, and
    no tool runs. *)
Lemma unregistered_tool_recorded (d : list (string * value)) (tool_name : value)
  (e : exn) a :
  dict_get "tool" d = Some tool_name ->
  truthy tool_name = true ->
  get_tool rt (tool_registry a) tool_name = inl e ->
  exists a',
    execute_tool rt (VDict d) a = inr a'
    /\ history a'
       = (history a
          ++ [ToolCallResult tool_name
                (match dict_get "arguments" d with
                 | Some v => v
                 | None => VDict []
                 end)
                (failure ("Error executing tool " ++ py_str rt tool_name
                          ++ ": " ++ exn_str e))])%list
    /\ executions a' = executions a
    /\ world a' = world a.
Proof.
  intros Hd Ht Hg. unfold execute_tool. rewrite Hd, Ht, Hg. simpl.
  eexists. split; [reflexivity|]. simpl. repeat split.
  unfold executions. simpl. rewrite !count_app. unfold count. simpl. lia.
Qed.

(** Arguments that the schema of the tool rejects are recorded as a failed
    result, and the tool does not run. *)
Lemma rejected_arguments_recorded (d : list (string * value))
  (tool_name : value) (tool : Tool World) (e : exn) a :
  dict_get "tool" d = Some tool_name ->
  truthy tool_name = true ->
  get_tool rt (tool_registry a) tool_name = inr tool ->
  validate tool (match dict_get "arguments" d with
                 | Some v => v
                 | None => VDict []
                 end) = Some e ->
  exists a',
    execute_tool rt (VDict d) a = inr a'
    /\ history a'
       = (history a
          ++ [ToolCallResult tool_name
                (match dict_get "arguments" d with
                 | Some v => v
                 | None => VDict []
                 end)
                (failure ("Error executing tool " ++ py_str rt tool_name
                          ++ ": " ++ exn_str e))])%list
    /\ executions a' = executions a
    /\ world a' = world a.
Proof.
  intros Hd Ht Hg Hv. unfold execute_tool. rewrite Hd, Ht, Hg, Hv. simpl.
  eexists. split; [reflexivity|]. simpl. repeat split.
  unfold executions. simpl. rewrite !count_app. unfold count. simpl. lia.
Qed.

End DispatchFacts.

(** C7. For the tool call [{"arguments": {}}], which has no tool name, the
    entry appended to the history carries [None] as its result, not a
    result with [ok = false] and an error message: the message is handed to
    the logger only. The loop does go on to the next turn. An unregistered
    name and rejected arguments are recorded as the claim says. *)
Theorem missing_tool_name_records_no_failure :
  (forall {World : Type} (rt : Runtime World) (a : Agent rt),
      execute_tool rt (VDict [("arguments", VDict [])]) a
      = inr (append (ToolCallResult VNone (VDict []) VNone)
               (log (ToolResultLogged VNone VNone
                       (Some "Malformed tool call: missing 'tool' name."))
                  (log (ErrorLogged "Malformed tool call: missing 'tool' name.")
                     a))))
  /\ Scenario.observe (fun a => last (history a) (SystemPrompt ""))
       (Scenario.scripted [Scenario.nameless_block] (Some 2%Z))
     = Some (ToolCallResult VNone (VDict []) VNone)
  /\ Scenario.observe queries
       (Scenario.scripted [Scenario.nameless_block] (Some 2%Z))
     = Some 2
  /\ Scenario.observe (fun a => last (history a) (SystemPrompt ""))
       (Scenario.scripted [Scenario.unknown_tool_block] (Some 1%Z))
     = Some (ToolCallResult (VStr "fs.chmod") (VDict [])
               (failure "Error executing tool fs.chmod: Tool not found: fs.chmod"))
  /\ Scenario.observe (fun a => last (history a) (SystemPrompt ""))
       (Scenario.scripted [Scenario.invalid_args_block] (Some 1%Z))
     = Some (ToolCallResult (VStr "fs.mkdir") (VDict [])
               (failure "Error executing tool fs.mkdir: Missing required argument: path")).
Proof.
  split; [reflexivity|]. repeat split; vm_compute; reflexivity.
Qed.

(** ** The file-system tools *)

Section FsFacts.

Context {World : Type} (fs : FileSystem World).

(** What every tool does first with a path that is a string: resolve it
    against the working directory and compare the two resolved paths as
    strings. *)
Lemma resolve_in_str (t : FsTool fs) (p : string) (w : World) :
  resolve_in fs t (VStr p) w
  = match resolve fs (join fs (tool_working_dir fs t) p) w with
    | inr full_path => (inr (p, full_path), w)
    | inl e => (inl e, w)
    end.
Proof.
  unfold resolve_in, bind, reading, ret.
  now destruct (resolve fs _ w).
Qed.

Lemma inside_eq (t : FsTool fs) (full_path : Path fs) (w : World) :
  inside fs t full_path w
  = match resolve fs (tool_working_dir fs t) w with
    | inr root => (inr (PyStr.startswith (str fs full_path) (str fs root)), w)
    | inl e => (inl e, w)
    end.
Proof.
  unfold inside, bind, reading, ret.
  now destruct (resolve fs _ w).
Qed.

(** X12. When the string of the resolved path does not start with the
    string of the resolved working directory, each of the eight tools
    answers that the path is outside the working directory and leaves the
    world as it was. *)
Lemma refused_when_not_a_string_prefix (t : FsTool fs)
  (d : list (string * value)) (p : string) (w : World)
  (full_path root : Path fs) :
  dict_get "path" d = Some (VStr p) ->
  resolve fs (join fs (tool_working_dir fs t) p) w = inr full_path ->
  resolve fs (tool_working_dir fs t) w = inr root ->
  PyStr.startswith (str fs full_path) (str fs root) = false ->
  (forall c, dict_get "content" d = Some c ->
             write_execute fs t (VDict d) w = (inr (outside_error p), w))
  /\ delete_execute fs t (VDict d) w = (inr (outside_error p), w)
  /\ read_execute fs t (VDict d) w = (inr (outside_error p), w)
  /\ (forall o n, dict_get "old_text" d = Some o ->
                  dict_get "new_text" d = Some n ->
                  edit_execute fs t (VDict d) w = (inr (outside_error p), w))
  /\ mkdir_execute fs t (VDict d) w = (inr (outside_error p), w)
  /\ rmdir_execute fs t (VDict d) w = (inr (outside_error p), w)
  /\ ls_execute fs t (VDict d) w = (inr (outside_error p), w)
  /\ tree_execute fs t (VDict d) w = (inr (outside_error p), w).
Proof.
  intros Hp Hfull Hroot Hout.
  repeat split; intros;
    unfold write_execute, delete_execute, read_execute, edit_execute,
      mkdir_execute, rmdir_execute, ls_execute, tree_execute;
    unfold bind at 1; unfold reading at 1, subscript, get_default;
    repeat match goal with
           | H : dict_get _ d = Some _ |- _ => rewrite H
           end;
    repeat (unfold bind at 1; unfold reading at 1, subscript, get_default;
            repeat match goal with
                   | H : dict_get _ d = Some _ |- _ => rewrite H
                   end);
    unfold try_except.
  all: try (destruct (dict_get "recursive" d)).
  all: unfold bind at 1; rewrite resolve_in_str, Hfull;
    unfold bind at 1; rewrite inside_eq, Hroot, Hout; reflexivity.
Qed.

(** C9, amended. A write to a path listed in [protected_files] returns a
    failure result and leaves the file system as it was; when the path
    resolves to a place whose string starts with that of the working
    directory, the error says that the file is protected and cannot be
    written to. *)
Theorem protected_write_refused (t : FsTool fs) (input : value) (p : string)
  (content : value) (w : World) :
  subscript input "path" = inr (VStr p) ->
  subscript input "content" = inr content ->
  protected fs t p = true ->
  exists msg,
    write_execute fs t input w = (inr (failure msg), w)
    /\ forall full_path root,
         resolve fs (join fs (tool_working_dir fs t) p) w = inr full_path ->
         resolve fs (tool_working_dir fs t) w = inr root ->
         PyStr.startswith (str fs full_path) (str fs root) = true ->
         msg = "File is protected and cannot be written to: " ++ p.
Proof.
  intros Hp Hc Hprot. unfold write_execute.
  unfold bind at 1. unfold reading at 1. rewrite Hp.
  unfold bind at 1. unfold reading at 1. rewrite Hc.
  unfold try_except, bind at 1. rewrite resolve_in_str.
  destruct (resolve fs (join fs (tool_working_dir fs t) p) w) as [e|full] eqn:Hf.
  - eexists. split; [reflexivity|]. discriminate.
  - unfold bind at 1. rewrite inside_eq.
    destruct (resolve fs (tool_working_dir fs t) w) as [e|root] eqn:Hr.
    + eexists. split; [reflexivity|]. discriminate.
    + destruct (PyStr.startswith (str fs full) (str fs root)) eqn:Hs; simpl.
      * rewrite Hprot. eexists. split; [reflexivity|].
        intros ? ? _ _ _. reflexivity.
      * eexists. split; [reflexivity|].
        intros ? ? [= <-] [= <-] Hs'. congruence.
Qed.

End FsFacts.

(** C9, as stated, fails for a protected path that resolves outside the
    working directory: the write is refused by the earlier check, and the
    error does not say that the file is protected. *)
Lemma protected_path_outside_reports_outside :
  protected mem_fs (Scenario.fs_tool_state ["../notes.txt"]) "../notes.txt"
  = true
  /\ write_execute mem_fs (Scenario.fs_tool_state ["../notes.txt"])
       (VDict [("path", VStr "../notes.txt"); ("content", VStr "x")])
       Scenario.disk
     = (inr (failure "Path is outside the working directory: ../notes.txt"),
        Scenario.disk)
  /\ PyStr.contains "Path is outside the working directory: ../notes.txt"
       "protected"
     = false.
Proof. repeat split; vm_compute; reflexivity. Qed.

Lemma protected_write_refused_witness :
  subscript (VDict [("path", VStr "src/app.js"); ("content", VStr "x")]) "path"
  = inr (VStr "src/app.js")
  /\ subscript (VDict [("path", VStr "src/app.js"); ("content", VStr "x")])
       "content"
     = inr (VStr "x")
  /\ protected mem_fs (Scenario.fs_tool_state ["src/app.js"]) "src/app.js"
     = true
  /\ exists msg,
       write_execute mem_fs (Scenario.fs_tool_state ["src/app.js"])
         (VDict [("path", VStr "src/app.js"); ("content", VStr "x")])
         Scenario.disk
       = (inr (failure msg), Scenario.disk)
       /\ msg = "File is protected and cannot be written to: src/app.js".
Proof.
  split; [reflexivity|]. split; [reflexivity|]. split; [reflexivity|].
  destruct (protected_write_refused mem_fs
              (Scenario.fs_tool_state ["src/app.js"])
              (VDict [("path", VStr "src/app.js"); ("content", VStr "x")])
              "src/app.js" (VStr "x") Scenario.disk eq_refl eq_refl eq_refl)
    as (msg & Hrun & Hmsg).
  exists msg. split; [exact Hrun|].
  apply (Hmsg ["w"; "proj"; "src"; "app.js"] ["w"; "proj"]); reflexivity.
Defined.

(** C10. With the working directory [/w/proj] and a directory
    [/w/proj-private] next to it, the path [../proj-private/key] resolves
    to a place that is neither the working directory nor under it, and the
    tools do not refuse it: [fs.read] returns the content of the file,
    [fs.write] overwrites it, [fs.delete] removes it. The check compares
    the two paths as strings, and [/w/proj-private/key] starts with
    [/w/proj]. *)
Theorem sibling_directory_passes_the_check :
  MemFs.resolve
    (MemFs.join (tool_working_dir mem_fs (Scenario.fs_tool_state []))
                "../proj-private/key")
    Scenario.disk_with_sibling
  = inr ["w"; "proj-private"; "key"]
  /\ MemFs.resolve (tool_working_dir mem_fs (Scenario.fs_tool_state []))
       Scenario.disk_with_sibling
     = inr ["w"; "proj"]
  /\ MemFs.within ["w"; "proj"] ["w"; "proj-private"; "key"] = false
  /\ read_execute mem_fs (Scenario.fs_tool_state [])
       (VDict [("path", VStr "../proj-private/key")])
       Scenario.disk_with_sibling
     = (inr (success [("content", VStr "secret"); ("size", VInt 6);
                      ("line_count", VInt 1);
                      ("message",
                       VStr "Successfully read file ../proj-private/key.")]),
        Scenario.disk_with_sibling)
  /\ write_execute mem_fs (Scenario.fs_tool_state [])
       (VDict [("path", VStr "../proj-private/key");
               ("content", VStr "overwritten")])
       Scenario.disk_with_sibling
     = (inr (success (message_of
                        "Successfully wrote to file ../proj-private/key.")),
        [ (["w"], MemFs.Dir); (["w"; "proj"], MemFs.Dir);
          (["w"; "proj-private"], MemFs.Dir);
          (["w"; "proj-private"; "key"], MemFs.File "overwritten") ])
  /\ delete_execute mem_fs (Scenario.fs_tool_state [])
       (VDict [("path", VStr "../proj-private/key")])
       Scenario.disk_with_sibling
     = (inr (success (message_of
                        "Successfully deleted file ../proj-private/key.")),
        [ (["w"], MemFs.Dir); (["w"; "proj"], MemFs.Dir);
          (["w"; "proj-private"], MemFs.Dir) ]).
Proof. repeat split; vm_compute; reflexivity. Qed.

(** ** The JSON scanner *)

Module JsonFacts.
Import Json.

Lemma skip_ws_length (s : string) :
  String.length (skip_ws s) <= String.length s.
Proof.
  induction s as [|c s IH]; simpl; [lia|].
  destruct (is_ws c); simpl; lia.
Qed.

Lemma after_length (c : ascii) (s r : string) :
  after c s = Some r -> String.length s = S (String.length r).
Proof.
  destruct s as [|d s]; simpl; [discriminate|].
  destruct (Ascii.eqb c d); [now intros [= ->] | discriminate].
Qed.

Lemma emit_shrinks (p s : string) (r : scan string) :
  shrinks s r -> shrinks s (emit p r).
Proof. now destruct r. Qed.

Lemma emit_not_exhausted (p : string) (r : scan string) :
  r <> Exhausted -> emit p r <> Exhausted.
Proof. now destruct r. Qed.

Lemma shrinks_longer {A : Type} (s s' : string) (r : scan A) :
  String.length s <= String.length s' -> shrinks s r -> shrinks s' r.
Proof. destruct r; simpl; auto. lia. Qed.

(** [scanstring] uses no fuel, and what it finds ends before the end of
    its text. *)
Lemma scanstring_ok (n : nat) :
  forall (s : string) (pending : option N),
    String.length s <= n ->
    shrinks s (scanstring pending s) /\ scanstring pending s <> Exhausted.
Proof.
  induction n as [|n IH]; intros s pending Hn.
  - destruct s; [split; [exact I | discriminate] | simpl in Hn; lia].
  - destruct s as [|c s1]; [split; [exact I | discriminate]|].
    simpl in Hn. cbn [scanstring].
    assert (Hrec : forall (p : string) (q : option N) (t : string),
               String.length t <= String.length s1 ->
               shrinks (String c s1) (emit p (scanstring q t))
               /\ emit p (scanstring q t) <> Exhausted).
    { intros p q t Ht. destruct (IH t q) as [Hs He]; [lia|]. split.
      - apply emit_shrinks. eapply shrinks_longer; [|exact Hs]. simpl. lia.
      - now apply emit_not_exhausted. }
    assert (Hrec' : forall (q : option N) (t : string),
               String.length t <= String.length s1 ->
               shrinks (String c s1) (scanstring q t)
               /\ scanstring q t <> Exhausted).
    { intros q t Ht. destruct (IH t q) as [Hs He]; [lia|].
      split; [|exact He].
      eapply shrinks_longer; [|exact Hs]. simpl. lia. }
    destruct (Ascii.eqb c quote); [split; [simpl; lia | discriminate]|].
    destruct (Ascii.eqb c "\"%char).
    + destruct s1 as [|e s2]; [split; [exact I | discriminate]|].
      simpl in Hn.
      destruct (Ascii.eqb e "u"%char).
      * destruct s2 as [|h1 [|h2 [|h3 [|h4 s6]]]];
          try (split; [exact I | discriminate]).
        simpl in Hn.
        destruct (hex4 h1 h2 h3 h4); [|split; [exact I | discriminate]].
        destruct pending;
          repeat match goal with
                 | |- context [if ?b then _ else _] => destruct b
                 end;
          first [apply Hrec | apply Hrec']; simpl; lia.
      * repeat match goal with
               | |- context [if ?b then _ else _] => destruct b
               end;
          first [apply Hrec; simpl; lia | split; [exact I | discriminate]].
    + destruct (PyStr.code c <=? 31)%nat; [split; [exact I | discriminate]|].
      apply Hrec. simpl. lia.
Qed.

Lemma take_digits_length (s ds r : string) :
  take_digits s = (ds, r) ->
  String.length s = String.length ds + String.length r.
Proof.
  revert ds r. induction s as [|c s IH]; intros ds r; simpl.
  - now intros [= <- <-].
  - destruct (is_digit c).
    + destruct (take_digits s) as [ds' r'] eqn:E. intros [= <- <-].
      simpl. now rewrite (IH ds' r' eq_refl).
    + now intros [= <- <-].
Qed.

Lemma match_int_length (s : string) (neg : bool) (ip r : string) :
  match_int s = Some (neg, ip, r) -> String.length r < String.length s.
Proof.
  unfold match_int.
  destruct (after "-" s) as [s1|] eqn:Ha.
  - apply after_length in Ha. destruct s1 as [|c t]; [discriminate|].
    destruct (Ascii.eqb c "0"%char); [intros [= _ _ <-]; simpl in *; lia|].
    destruct (is_digit c); [|discriminate].
    destruct (take_digits t) as [ds rest] eqn:E. intros [= _ _ <-].
    apply take_digits_length in E. simpl in *. lia.
  - destruct s as [|c t]; [discriminate|].
    destruct (Ascii.eqb c "0"%char); [intros [= _ _ <-]; simpl in *; lia|].
    destruct (is_digit c); [|discriminate].
    destruct (take_digits t) as [ds rest] eqn:E. intros [= _ _ <-].
    apply take_digits_length in E. simpl in *. lia.
Qed.

Lemma match_frac_length (s : string) (f : option string) (r : string) :
  match_frac s = (f, r) -> String.length r <= String.length s.
Proof.
  unfold match_frac. destruct (after "." s) as [t|] eqn:Ha.
  - apply after_length in Ha.
    destruct (take_digits t) as [ds rest] eqn:E.
    apply take_digits_length in E.
    destruct ds; intros [= _ <-]; simpl in *; lia.
  - intros [= _ <-]. lia.
Qed.

Lemma match_exp_length (s : string) (x : option Z) (r : string) :
  match_exp s = (x, r) -> String.length r <= String.length s.
Proof.
  unfold match_exp. destruct s as [|c t]; [intros [= _ <-]; simpl; lia|].
  destruct (Ascii.eqb c "e"%char || Ascii.eqb c "E"%char);
    [|intros [= _ <-]; lia].
  destruct (after "-" t) as [t1|] eqn:Hm;
    [|destruct (after "+" t) as [t1|] eqn:Hp];
    try apply after_length in Hm; try apply after_length in Hp;
    match goal with
    | |- context [take_digits ?u] =>
        destruct (take_digits u) as [ds rest] eqn:E;
        apply take_digits_length in E
    end;
    destruct ds; intros [= _ <-]; simpl in *; lia.
Qed.

Section Limited.

Variable lim : Limits.

Lemma match_number_ok (s : string) :
  shrinks s (match_number lim s) /\ match_number lim s <> Exhausted.
Proof.
  unfold match_number.
  destruct (match_int s) as [[[neg ip] r0]|] eqn:Hi;
    [|split; [exact I | discriminate]].
  apply match_int_length in Hi.
  destruct (match_frac r0) as [f r1] eqn:Hf. apply match_frac_length in Hf.
  destruct (match_exp r1) as [x r2] eqn:Hx. apply match_exp_length in Hx.
  destruct f, x; try destruct (too_long lim _);
    (split; [simpl; lia | discriminate]).
Qed.

Lemma literal_ok (name : string) (v : value) (s : string) (r : scan value) :
  name <> EmptyString ->
  literal name v s = Some r -> shrinks s r /\ r <> Exhausted.
Proof.
  unfold literal. intros Hne.
  destruct (String.prefix name s) eqn:Hp; [|discriminate].
  intros [= <-]. split; [|discriminate]. simpl.
  apply PyStrFacts.prefix_split in Hp.
  rewrite PyStrFacts.length_drop.
  assert (String.length s
          = String.length name
            + String.length (PyStr.drop (String.length name) s))
    by (rewrite Hp at 1; apply PyStrFacts.length_app).
  destruct name; [congruence | simpl in *; lia].
Qed.

Lemma scan_atom_ok (s : string) :
  shrinks s (scan_atom lim s) /\ scan_atom lim s <> Exhausted.
Proof.
  unfold scan_atom.
  repeat match goal with
         | |- context [literal ?n ?v s] =>
             destruct (literal n v s) eqn:?;
             [eapply literal_ok; [|eassumption]; discriminate|]
         end.
  apply match_number_ok.
Qed.

(** What the scanner finds ends before the end of its text. *)
Lemma scan_shrinks (fuel : nat) :
  (forall depth s, shrinks s (scan_once lim fuel depth s))
  /\ (forall depth s values, shrinks s (json_array lim fuel depth s values))
  /\ (forall depth s pairs, shrinks s (json_object lim fuel depth s pairs)).
Proof.
  induction fuel as [|fuel (IHv & IHa & IHo)]; [repeat split|].
  split; [|split].
  - intros depth s. cbn [scan_once].
    destruct (after quote s) as [r|] eqn:Hq.
    { apply after_length in Hq.
      destruct (scanstring_ok (String.length r) r None (le_n _)) as [Hs _].
      destruct (scanstring None r); simpl in *; auto. lia. }
    destruct (after "{" s) as [r|] eqn:Ho.
    { destruct depth as [|depth]; [exact I|].
      apply after_length in Ho. pose proof (skip_ws_length r).
      destruct (after "}" (skip_ws r)) as [rest|] eqn:Hc.
      - apply after_length in Hc. simpl. lia.
      - eapply shrinks_longer; [|apply IHo]. lia. }
    destruct (after "[" s) as [r|] eqn:Hb.
    { destruct depth as [|depth]; [exact I|].
      apply after_length in Hb. pose proof (skip_ws_length r).
      destruct (after "]" (skip_ws r)) as [rest|] eqn:Hc.
      - apply after_length in Hc. simpl. lia.
      - eapply shrinks_longer; [|apply IHa]. lia. }
    apply scan_atom_ok.
  - intros depth s values. cbn [json_array].
    pose proof (IHv depth s) as Hv.
    destruct (scan_once lim fuel depth s) as [v r| |]; try exact I.
    simpl in Hv. pose proof (skip_ws_length r).
    destruct (after "]" (skip_ws r)) as [rest|] eqn:Hc.
    { apply after_length in Hc. simpl. lia. }
    destruct (after "," (skip_ws r)) as [rest|] eqn:Hm; [|exact I].
    apply after_length in Hm. pose proof (skip_ws_length rest).
    eapply shrinks_longer; [|apply IHa]. lia.
  - intros depth s pairs. cbn [json_object].
    destruct (after quote s) as [r|] eqn:Hq; [|exact I].
    apply after_length in Hq.
    destruct (scanstring_ok (String.length r) r None (le_n _)) as [Hs _].
    destruct (scanstring None r) as [key r1| |]; try exact I.
    simpl in Hs. pose proof (skip_ws_length r1).
    destruct (after ":" (skip_ws r1)) as [r2|] eqn:Hc; [|exact I].
    apply after_length in Hc. pose proof (skip_ws_length r2).
    pose proof (IHv depth (skip_ws r2)) as Hv.
    destruct (scan_once lim fuel depth (skip_ws r2)) as [v r3| |];
      try exact I.
    simpl in Hv. pose proof (skip_ws_length r3).
    destruct (after "}" (skip_ws r3)) as [rest|] eqn:He.
    { apply after_length in He. simpl. lia. }
    destruct (after "," (skip_ws r3)) as [rest|] eqn:Hm; [|exact I].
    apply after_length in Hm. pose proof (skip_ws_length rest).
    eapply shrinks_longer; [|apply IHo]. lia.
Qed.

(** With fuel beyond twice the length of the text the scanner does not run
    out of it. *)
Lemma scan_fueled (fuel : nat) :
  (forall depth s,
      2 * String.length s < fuel -> scan_once lim fuel depth s <> Exhausted)
  /\ (forall depth s values,
        2 * String.length s + 1 < fuel ->
        json_array lim fuel depth s values <> Exhausted)
  /\ (forall depth s pairs,
        2 * String.length s + 1 < fuel ->
        json_object lim fuel depth s pairs <> Exhausted).
Proof.
  induction fuel as [|fuel (IHv & IHa & IHo)];
    [repeat split; intros; lia|].
  split; [|split].
  - intros depth s Hf. cbn [scan_once].
    destruct (after quote s) as [r|] eqn:Hq.
    { destruct (scanstring_ok (String.length r) r None (le_n _)) as [_ He].
      now destruct (scanstring None r). }
    destruct (after "{" s) as [r|] eqn:Ho.
    { destruct depth as [|depth]; [discriminate|].
      apply after_length in Ho. pose proof (skip_ws_length r).
      destruct (after "}" (skip_ws r)); [discriminate|].
      apply IHo. lia. }
    destruct (after "[" s) as [r|] eqn:Hb.
    { destruct depth as [|depth]; [discriminate|].
      apply after_length in Hb. pose proof (skip_ws_length r).
      destruct (after "]" (skip_ws r)); [discriminate|].
      apply IHa. lia. }
    apply scan_atom_ok.
  - intros depth s values Hf. cbn [json_array].
    pose proof (IHv depth s) as Hv.
    pose proof (proj1 (scan_shrinks fuel) depth s) as Hs.
    destruct (scan_once lim fuel depth s) as [v r| |];
      [|discriminate|apply Hv; lia].
    simpl in Hs. pose proof (skip_ws_length r).
    destruct (after "]" (skip_ws r)); [discriminate|].
    destruct (after "," (skip_ws r)) as [rest|] eqn:Hm; [|discriminate].
    apply after_length in Hm. pose proof (skip_ws_length rest).
    apply IHa. lia.
  - intros depth s pairs Hf. cbn [json_object].
    destruct (after quote s) as [r|] eqn:Hq; [|discriminate].
    apply after_length in Hq.
    destruct (scanstring_ok (String.length r) r None (le_n _)) as [Hs He].
    destruct (scanstring None r) as [key r1| |];
      [|discriminate|now elim He].
    simpl in Hs. pose proof (skip_ws_length r1).
    destruct (after ":" (skip_ws r1)) as [r2|] eqn:Hc; [|discriminate].
    apply after_length in Hc. pose proof (skip_ws_length r2).
    pose proof (IHv depth (skip_ws r2)) as Hv.
    pose proof (proj1 (scan_shrinks fuel) depth (skip_ws r2)) as Hs2.
    destruct (scan_once lim fuel depth (skip_ws r2)) as [v r3| |];
      [|discriminate|apply Hv; lia].
    simpl in Hs2. pose proof (skip_ws_length r3).
    destruct (after "}" (skip_ws r3)); [discriminate|].
    destruct (after "," (skip_ws r3)) as [rest|] eqn:Hm; [|discriminate].
    apply after_length in Hm. pose proof (skip_ws_length rest).
    apply IHo. lia.
Qed.

(** The fuel [loads] gives the scanner is enough: where [loads] raises
    [JSONDecodeError], the document is not valid. *)
Lemma loads_fueled (depth : nat) (s : string) :
  scan_once lim (enough (skip_ws s)) depth (skip_ws s) <> Exhausted.
Proof. apply scan_fueled. unfold enough. lia. Qed.

End Limited.

End JsonFacts.

(** ** A JSON document followed by markup

    What the scanner finds in a text it also finds, and up to the same
    place, when the text is followed by a [<] and anything else: no JSON
    token goes on with a [<]. *)

Module JsonFrame.
Import Json JsonFacts.

Section Tail.

Variable lim : Limits.
Variable x : string.
Let t : string := String "<" x.

Lemma skip_ws_tail (s : string) : skip_ws (s ++ t) = skip_ws s ++ t.
Proof.
  induction s as [|c s IH]; [reflexivity|].
  simpl. now destruct (is_ws c).
Qed.

Lemma after_tail (c : ascii) (s r : string) :
  after c s = Some r -> after c (s ++ t) = Some (r ++ t).
Proof.
  destruct s as [|d s]; simpl; [discriminate|].
  destruct (Ascii.eqb c d); [now intros [= ->] | discriminate].
Qed.

Lemma after_tail_none (c : ascii) (s : string) :
  after c s = None ->
  Ascii.eqb c "<" = false -> after c (s ++ t) = None.
Proof.
  intros H Hc. destruct s as [|d s]; simpl in *; [now rewrite Hc|].
  now destruct (Ascii.eqb c d).
Qed.

Lemma emit_found (p : string) (r : scan string) (str rest : string) :
  emit p r = Found str rest ->
  exists str', r = Found str' rest /\ str = p ++ str'.
Proof.
  destruct r as [str' rest'| |]; simpl; try discriminate.
  intros [= <- <-]. now exists str'.
Qed.

Lemma scanstring_tail (n : nat) :
  forall (s : string) (pending : option N) (str r : string),
    String.length s <= n ->
    scanstring pending s = Found str r ->
    scanstring pending (s ++ t) = Found str (r ++ t).
Proof.
  induction n as [|n IH]; intros s pending str r Hn H.
  - destruct s; [discriminate | simpl in Hn; lia].
  - destruct s as [|c s1]; [discriminate|].
    simpl in Hn. cbn [scanstring String.append] in *.
    assert (Hrec : forall (p : string) (q : option N) (u : string),
               String.length u <= String.length s1 ->
               emit p (scanstring q u) = Found str r ->
               emit p (scanstring q (u ++ t)) = Found str (r ++ t)).
    { intros p q u Hu He. apply emit_found in He as (str' & He & ->).
      rewrite (IH u q str' r); [reflexivity | lia | exact He]. }
    assert (Hrec' : forall (q : option N) (u : string),
               String.length u <= String.length s1 ->
               scanstring q u = Found str r ->
               scanstring q (u ++ t) = Found str (r ++ t)).
    { intros q u Hu He. apply IH; [lia | exact He]. }
    destruct (Ascii.eqb c quote); [now injection H as <- <-|].
    destruct (Ascii.eqb c "\"%char).
    + destruct s1 as [|e s2]; [discriminate|].
      cbn [String.append]. simpl in Hn.
      destruct (Ascii.eqb e "u"%char).
      * destruct s2 as [|h1 [|h2 [|h3 [|h4 s6]]]]; try discriminate.
        cbn [String.append].
        destruct (hex4 h1 h2 h3 h4); [|discriminate].
        destruct pending;
          repeat match goal with
                 | |- context [if ?b then _ else _] => destruct b
                 end;
          first [apply Hrec | apply Hrec']; simpl; auto; lia.
      * repeat match goal with
               | |- context [if ?b then _ else _] => destruct b
               end;
          first [discriminate | apply Hrec; simpl; auto; lia].
    + destruct (PyStr.code c <=? 31)%nat; [discriminate|].
      apply Hrec; simpl; auto; lia.
Qed.

Lemma take_digits_tail (s ds r : string) :
  take_digits s = (ds, r) -> take_digits (s ++ t) = (ds, r ++ t).
Proof.
  revert ds r. induction s as [|c s IH]; intros ds r; simpl.
  - now intros [= <- <-].
  - destruct (is_digit c).
    + destruct (take_digits s) as [ds' r'] eqn:E. intros [= <- <-].
      now rewrite (IH ds' r' eq_refl).
    + now intros [= <- <-].
Qed.

Lemma match_int_tail (s : string) (neg : bool) (ip r : string) :
  match_int s = Some (neg, ip, r) ->
  match_int (s ++ t) = Some (neg, ip, r ++ t).
Proof.
  unfold match_int.
  destruct (after "-" s) as [s1|] eqn:Ha.
  - rewrite (after_tail _ _ _ Ha).
    destruct s1 as [|c u]; [discriminate|]. cbn [String.append].
    destruct (Ascii.eqb c "0"%char); [now intros [= <- <- <-]|].
    destruct (is_digit c); [|discriminate].
    destruct (take_digits u) as [ds rest] eqn:E.
    rewrite (take_digits_tail _ _ _ E). now intros [= <- <- <-].
  - rewrite (after_tail_none _ _ Ha eq_refl).
    destruct s as [|c u]; [discriminate|]. cbn [String.append].
    destruct (Ascii.eqb c "0"%char); [now intros [= <- <- <-]|].
    destruct (is_digit c); [|discriminate].
    destruct (take_digits u) as [ds rest] eqn:E.
    rewrite (take_digits_tail _ _ _ E). now intros [= <- <- <-].
Qed.

Lemma match_frac_tail (s : string) (f : option string) (r : string) :
  match_frac s = (f, r) -> match_frac (s ++ t) = (f, r ++ t).
Proof.
  unfold match_frac. destruct (after "." s) as [u|] eqn:Ha.
  - rewrite (after_tail _ _ _ Ha).
    destruct (take_digits u) as [ds rest] eqn:E.
    rewrite (take_digits_tail _ _ _ E).
    destruct ds; now intros [= <- <-].
  - rewrite (after_tail_none _ _ Ha eq_refl). now intros [= <- <-].
Qed.

Lemma match_exp_tail (s : string) (e : option Z) (r : string) :
  match_exp s = (e, r) -> match_exp (s ++ t) = (e, r ++ t).
Proof.
  unfold match_exp. destruct s as [|c u]; [now intros [= <- <-]|].
  cbn [String.append].
  destruct (Ascii.eqb c "e"%char || Ascii.eqb c "E"%char);
    [|now intros [= <- <-]].
  destruct (after "-" u) as [u1|] eqn:Hm.
  - rewrite (after_tail _ _ _ Hm).
    destruct (take_digits u1) as [ds rest] eqn:E.
    rewrite (take_digits_tail _ _ _ E). destruct ds; now intros [= <- <-].
  - rewrite (after_tail_none _ _ Hm eq_refl).
    destruct (after "+" u) as [u1|] eqn:Hp.
    + rewrite (after_tail _ _ _ Hp).
      destruct (take_digits u1) as [ds rest] eqn:E.
      rewrite (take_digits_tail _ _ _ E). destruct ds; now intros [= <- <-].
    + rewrite (after_tail_none _ _ Hp eq_refl).
      destruct (take_digits u) as [ds rest] eqn:E.
      rewrite (take_digits_tail _ _ _ E). destruct ds; now intros [= <- <-].
Qed.

Lemma match_number_tail (s : string) (v : value) (r : string) :
  match_number lim s = Found v r ->
  match_number lim (s ++ t) = Found v (r ++ t).
Proof.
  unfold match_number.
  destruct (match_int s) as [[[neg ip] r0]|] eqn:Hi; [|discriminate].
  rewrite (match_int_tail _ _ _ _ Hi).
  destruct (match_frac r0) as [f r1] eqn:Hf.
  rewrite (match_frac_tail _ _ _ Hf).
  destruct (match_exp r1) as [e r2] eqn:He.
  rewrite (match_exp_tail _ _ _ He).
  destruct f, e; try destruct (too_long lim _); try discriminate;
    now intros [= <- <-].
Qed.

(** Whether a name without [<] starts the text does not depend on the
    tail. *)
Lemma prefix_tail (name s : string) :
  PyStr.contains name "<" = false ->
  String.prefix name (s ++ t) = String.prefix name s.
Proof.
  revert s. induction name as [|c name IH]; intros s Hc.
  - now destruct s.
  - cbn [PyStr.contains] in Hc. apply orb_false_elim in Hc as [Hp Hc].
    assert (Hne : c <> "<"%char).
    { intros ->. simpl in Hp. now destruct name. }
    destruct s as [|d s]; simpl.
    + destruct (ascii_dec c "<"); [contradiction | reflexivity].
    + destruct (ascii_dec c d); [now apply IH | reflexivity].
Qed.

Lemma drop_tail (n : nat) (s : string) :
  n <= String.length s -> PyStr.drop n (s ++ t) = PyStr.drop n s ++ t.
Proof.
  revert s. induction n as [|n IH]; intros s Hn; [reflexivity|].
  destruct s as [|c s]; simpl in *; [lia|]. apply IH. lia.
Qed.

Lemma literal_tail (name : string) (v : value) (s : string) :
  PyStr.contains name "<" = false ->
  literal name v (s ++ t)
  = match literal name v s with
    | Some (Found v' r) => Some (Found v' (r ++ t))
    | other => other
    end.
Proof.
  intros Hc. unfold literal. rewrite (prefix_tail _ _ Hc).
  destruct (String.prefix name s) eqn:Hp; [|reflexivity].
  rewrite drop_tail; [reflexivity|].
  apply PyStrFacts.prefix_split in Hp. rewrite Hp at 1.
  rewrite PyStrFacts.length_app. lia.
Qed.

Lemma scan_atom_tail (s : string) (v : value) (r : string) :
  scan_atom lim s = Found v r -> scan_atom lim (s ++ t) = Found v (r ++ t).
Proof.
  unfold scan_atom. intros H.
  repeat match type of H with
         | context [literal ?n ?w s] =>
             rewrite (literal_tail n w s eq_refl);
             destruct (literal n w s) as [[]|] eqn:?;
             [congruence | discriminate | discriminate |]
         end.
  now apply match_number_tail.
Qed.

Lemma scan_tail (fuel : nat) :
  (forall depth s v r,
      scan_once lim fuel depth s = Found v r ->
      scan_once lim fuel depth (s ++ t) = Found v (r ++ t))
  /\ (forall depth s values v r,
        json_array lim fuel depth s values = Found v r ->
        json_array lim fuel depth (s ++ t) values = Found v (r ++ t))
  /\ (forall depth s pairs v r,
        json_object lim fuel depth s pairs = Found v r ->
        json_object lim fuel depth (s ++ t) pairs = Found v (r ++ t)).
Proof.
  induction fuel as [|fuel (IHv & IHa & IHo)];
    [repeat split; intros; discriminate|].
  split; [|split].
  - intros depth s v r. cbn [scan_once].
    destruct (after quote s) as [u|] eqn:Hq.
    { rewrite (after_tail _ _ _ Hq).
      destruct (scanstring None u) as [str rest| |] eqn:Hs; try discriminate.
      rewrite (scanstring_tail _ _ _ _ _ (le_n _) Hs).
      now intros [= <- <-]. }
    rewrite (after_tail_none _ _ Hq eq_refl).
    destruct (after "{" s) as [u|] eqn:Ho.
    { rewrite (after_tail _ _ _ Ho), skip_ws_tail.
      destruct depth as [|depth]; [discriminate|].
      destruct (after "}" (skip_ws u)) as [rest|] eqn:Hc.
      - rewrite (after_tail _ _ _ Hc). now intros [= <- <-].
      - rewrite (after_tail_none _ _ Hc eq_refl). apply IHo. }
    rewrite (after_tail_none _ _ Ho eq_refl).
    destruct (after "[" s) as [u|] eqn:Hb.
    { rewrite (after_tail _ _ _ Hb), skip_ws_tail.
      destruct depth as [|depth]; [discriminate|].
      destruct (after "]" (skip_ws u)) as [rest|] eqn:Hc.
      - rewrite (after_tail _ _ _ Hc). now intros [= <- <-].
      - rewrite (after_tail_none _ _ Hc eq_refl). apply IHa. }
    rewrite (after_tail_none _ _ Hb eq_refl).
    apply scan_atom_tail.
  - intros depth s values v r. cbn [json_array].
    destruct (scan_once lim fuel depth s) as [w u| |] eqn:Hs;
      try discriminate.
    rewrite (IHv _ _ _ _ Hs), skip_ws_tail.
    destruct (after "]" (skip_ws u)) as [rest|] eqn:Hc.
    { rewrite (after_tail _ _ _ Hc). now intros [= <- <-]. }
    rewrite (after_tail_none _ _ Hc eq_refl).
    destruct (after "," (skip_ws u)) as [rest|] eqn:Hm; [|discriminate].
    rewrite (after_tail _ _ _ Hm), skip_ws_tail. apply IHa.
  - intros depth s pairs v r. cbn [json_object].
    destruct (after quote s) as [u|] eqn:Hq; [|discriminate].
    rewrite (after_tail _ _ _ Hq).
    destruct (scanstring None u) as [key r1| |] eqn:Hs; try discriminate.
    rewrite (scanstring_tail _ _ _ _ _ (le_n _) Hs), skip_ws_tail.
    destruct (after ":" (skip_ws r1)) as [r2|] eqn:Hc; [|discriminate].
    rewrite (after_tail _ _ _ Hc), skip_ws_tail.
    destruct (scan_once lim fuel depth (skip_ws r2)) as [w r3| |] eqn:Hv;
      try discriminate.
    rewrite (IHv _ _ _ _ Hv), skip_ws_tail.
    destruct (after "}" (skip_ws r3)) as [rest|] eqn:He.
    { rewrite (after_tail _ _ _ He). now intros [= <- <-]. }
    rewrite (after_tail_none _ _ He eq_refl).
    destruct (after "," (skip_ws r3)) as [rest|] eqn:Hm; [|discriminate].
    rewrite (after_tail _ _ _ Hm), skip_ws_tail. apply IHo.
Qed.

End Tail.

(** More fuel finds the same. *)
Lemma scan_more_fuel (lim : Limits) (fuel : nat) :
  (forall depth s v r,
      scan_once lim fuel depth s = Found v r ->
      scan_once lim (S fuel) depth s = Found v r)
  /\ (forall depth s values v r,
        json_array lim fuel depth s values = Found v r ->
        json_array lim (S fuel) depth s values = Found v r)
  /\ (forall depth s pairs v r,
        json_object lim fuel depth s pairs = Found v r ->
        json_object lim (S fuel) depth s pairs = Found v r).
Proof.
  induction fuel as [|fuel (IHv & IHa & IHo)];
    [repeat split; intros; discriminate|].
  split; [|split].
  - intros depth s v r H. cbn [scan_once] in H. cbn [scan_once].
    destruct (after quote s); [exact H|].
    destruct (after "{" s) as [u|].
    { destruct depth as [|depth]; [exact H|].
      destruct (after "}" (skip_ws u)); [exact H | now apply IHo]. }
    destruct (after "[" s) as [u|]; [|exact H].
    destruct depth as [|depth]; [exact H|].
    destruct (after "]" (skip_ws u)); [exact H | now apply IHa].
  - intros depth s values v r H. cbn [json_array] in H.
    change (json_array lim (S (S fuel)) depth s values)
      with (match scan_once lim (S fuel) depth s with
            | Found w u =>
                match after "]" (skip_ws u), after "," (skip_ws u) with
                | Some rest, _ => Found (VList (values ++ [w])) rest
                | None, Some rest =>
                    json_array lim (S fuel) depth (skip_ws rest)
                               (values ++ [w])
                | None, None => Raise JSONDecodeError
                end
            | Raise e => Raise e
            | Exhausted => Exhausted
            end).
    destruct (scan_once lim fuel depth s) as [w u| |] eqn:Hs;
      try discriminate.
    rewrite (IHv _ _ _ _ Hs).
    destruct (after "]" (skip_ws u)); [exact H|].
    destruct (after "," (skip_ws u)); [now apply IHa | exact H].
  - intros depth s pairs v r H. cbn [json_object] in H.
    change (json_object lim (S (S fuel)) depth s pairs)
      with (match after quote s with
            | None => Raise JSONDecodeError
            | Some u =>
                match scanstring None u with
                | Found key r1 =>
                    match after ":" (skip_ws r1) with
                    | None => Raise JSONDecodeError
                    | Some r2 =>
                        match scan_once lim (S fuel) depth (skip_ws r2) with
                        | Found w r3 =>
                            match after "}" (skip_ws r3),
                                  after "," (skip_ws r3) with
                            | Some rest, _ =>
                                Found (VDict (dict_of_pairs
                                                (pairs ++ [(key, w)]))) rest
                            | None, Some rest =>
                                json_object lim (S fuel) depth (skip_ws rest)
                                            (pairs ++ [(key, w)])
                            | None, None => Raise JSONDecodeError
                            end
                        | Raise e => Raise e
                        | Exhausted => Exhausted
                        end
                    end
                | Raise e => Raise e
                | Exhausted => Exhausted
                end
            end).
    destruct (after quote s) as [u|]; [|discriminate].
    destruct (scanstring None u) as [key r1| |]; try discriminate.
    destruct (after ":" (skip_ws r1)) as [r2|]; [|discriminate].
    destruct (scan_once lim fuel depth (skip_ws r2)) as [w r3| |] eqn:Hs;
      try discriminate.
    rewrite (IHv _ _ _ _ Hs).
    destruct (after "}" (skip_ws r3)); [exact H|].
    destruct (after "," (skip_ws r3)); [now apply IHo | exact H].
Qed.

Lemma scan_once_more_fuel (lim : Limits) (fuel fuel' depth : nat)
  (s : string) (v : value) (r : string) :
  fuel <= fuel' ->
  scan_once lim fuel depth s = Found v r ->
  scan_once lim fuel' depth s = Found v r.
Proof.
  induction 1 as [|fuel' _ IH]; [auto|].
  intros H. now apply scan_more_fuel, IH.
Qed.

(** A valid JSON document followed by [<] and anything is not a valid JSON
    document. *)
Lemma loads_with_markup (lim : Limits) (j : string) (v : value)
  (x : string) :
  loads lim j = inr v -> loads lim (j ++ String "<" x) = inl JSONDecodeError.
Proof.
  unfold loads. intros H. rewrite skip_ws_tail.
  destruct (scan_once lim (enough (skip_ws j)) (nesting lim) (skip_ws j))
    as [w r| |] eqn:Hs; try discriminate.
  destruct (skip_ws r) eqn:Hr; [|discriminate].
  apply (proj1 (scan_tail lim x (enough (skip_ws j)))) in Hs.
  apply (scan_once_more_fuel _ _ (enough (skip_ws j ++ String "<" x))) in Hs.
  - rewrite Hs, skip_ws_tail, Hr. reflexivity.
  - unfold enough. rewrite PyStrFacts.length_app. lia.
Qed.

End JsonFrame.

(** ** One response, at most one tool *)

Section BlockFacts.
Import PyStr PyStrFacts.

Lemma app_inv_head (a b c : string) : a ++ b = a ++ c -> b = c.
Proof. induction a as [|x a IH]; simpl; [auto | intros [= H]; auto]. Qed.

Lemma app_eq_split (a b c d : string) :
  a ++ b = c ++ d ->
  String.length a <= String.length c ->
  exists y, c = a ++ y /\ b = y ++ d.
Proof.
  revert c. induction a as [|x a IH]; intros c H Hlen.
  - exists c. now split.
  - destruct c as [|z c]; simpl in *; [lia|].
    injection H as <- H.
    destruct (IH c H) as (y & -> & ->); [lia|]. now exists y.
Qed.

(** A response that is a well-formed block followed by anything, such as a
    second block, is not taken for a tool call: what lies between the outer
    delimiters is a JSON document followed by the closing delimiter of the
    first block. *)
Lemma block_then_more_decodes_to_nothing (lim : Json.Limits) (j : string)
  (v : value) (rest body : string) :
  Json.loads lim j = inr v ->
  rest <> EmptyString ->
  TOOL_OPEN ++ j ++ TOOL_CLOSE ++ rest = TOOL_OPEN ++ body ++ TOOL_CLOSE ->
  Json.loads lim body = inl Json.JSONDecodeError.
Proof.
  intros Hj Hrest Hr. apply app_inv_head in Hr.
  assert (Hlen : String.length j <= String.length body)
    by (apply (f_equal String.length) in Hr;
        rewrite !length_app in Hr; lia).
  destruct (app_eq_split _ _ _ _ Hr Hlen) as (y & -> & Hy).
  destruct y as [|c y];
    [apply (f_equal String.length) in Hy; rewrite !length_app in Hy;
     simpl in Hy; destruct rest; [congruence | simpl in Hy; lia]|].
  injection Hy as <- _.
  now apply JsonFrame.loads_with_markup with (v := v).
Qed.

Lemma block_then_more_is_no_tool_call (lim : Json.Limits) (j : string)
  (v : value) (rest : string) :
  Json.loads lim j = inr v ->
  rest <> EmptyString ->
  _parse_tool_call lim (TOOL_OPEN ++ j ++ TOOL_CLOSE ++ rest) = inr VNone
  /\ is_tool_invocation lim (TOOL_OPEN ++ j ++ TOOL_CLOSE ++ rest) = false.
Proof.
  intros Hj Hrest.
  assert (Hp : _parse_tool_call lim (TOOL_OPEN ++ j ++ TOOL_CLOSE ++ rest)
               = inr VNone).
  { destruct (_parse_tool_call lim _) as [x|w] eqn:Hp.
    - exfalso. apply parse_raised in Hp as (body & e & Hr & Hl & Hx).
      rewrite (block_then_more_decodes_to_nothing lim j v rest body Hj Hrest Hr)
        in Hl.
      injection Hl as <-. discriminate Hx.
    - destruct w; try reflexivity; exfalso;
        (apply parse_found in Hp as (body & Hr & Hl); [|discriminate]);
        rewrite (block_then_more_decodes_to_nothing lim j v rest body
                   Hj Hrest Hr) in Hl;
        discriminate Hl. }
  split; [exact Hp|]. unfold is_tool_invocation. now rewrite Hp.
Qed.

End BlockFacts.

Section NoToolFacts.

Context {World : Type} (rt : Runtime World).

(** A response that is not taken for a tool call leads to no tool
    execution and leaves the world as it was. *)
Lemma take_turn_without_tool (turn : nat) (a : Agent rt) (r : string)
  (l' : LanguageModel rt) :
  generate rt (llm a) (map to_json (history a)) = (inr r, l') ->
  is_tool_invocation (json_limits rt) r = false ->
  executions (snd (take_turn rt turn a)) = executions a
  /\ world (snd (take_turn rt turn a)) = world a
  /\ history (snd (take_turn rt turn a)) = (history a ++ [LLMResponse r])%list.
Proof.
  intros Hg Hi.
  destruct (PyStr.contains r TERMINATE) eqn:Hc.
  - destruct (take_turn_terminate rt turn a r l' Hg Hc)
      as (a' & -> & Ht & Hh & Hw).
    simpl. unfold executions. rewrite Ht, count_app.
    repeat split; auto; unfold count; simpl; lia.
  - destruct (_parse_tool_call (json_limits rt) r) as [e|tool_call] eqn:Hp.
    + destruct (take_turn_answered rt turn a r l' Hg)
        as (a2 & Hq & Ht & Hh & Hw & _).
      unfold take_turn. rewrite Hq, Hc, Hp. simpl.
      unfold executions. rewrite Ht, count_app.
      repeat split; auto; unfold count; simpl; lia.
    + destruct (take_turn_thought rt turn a r l' Hg)
        as (a' & -> & Ht & Hh & Hw & _).
      * unfold plain_text, is_tool_invocation in *.
        rewrite Hp in *. now rewrite Hc, Hi.
      * simpl. unfold executions. rewrite Ht, count_app.
        repeat split; auto; unfold count; simpl; lia.
Qed.

End NoToolFacts.

(** C1, as stated, fails: a response that is two well-formed blocks, one
    after the other, each of which alone is taken for a tool call and
    executed, leads to no tool execution at all, where the claim has the
    first block executed. *)
Lemma two_blocks_execute_nothing :
  Scenario.two_blocks = Scenario.one_block ++ Scenario.other_block
  /\ Scenario.observe executions
       (Scenario.scripted [Scenario.one_block] (Some 1%Z)) = Some 1
  /\ Scenario.observe executions
       (Scenario.scripted [Scenario.other_block] (Some 1%Z)) = Some 1
  /\ Scenario.observe executions
       (Scenario.scripted [Scenario.two_blocks] (Some 1%Z)) = Some 0
  /\ Scenario.observe world
       (Scenario.scripted [Scenario.two_blocks] (Some 1%Z))
     = Some Scenario.disk.
Proof. repeat split; vm_compute; reflexivity. Qed.

(** C1, amended. No model response leads to more than one tool execution
    within its turn: a turn sends one query to the model and executes at
    most one tool, and over any number of turns the tool executions do not
    outnumber the queries. A response that is a well-formed block followed
    by more text, such as a second well-formed block, leads to no tool
    execution: the history gains the response and the world is as it
    was. *)
Theorem at_most_one_execution_per_response {World : Type} (rt : Runtime World)
  (n turn : nat) (a : Agent rt) :
  (queries (snd (take_turn rt turn a)) = queries a + 1
   /\ executions (snd (take_turn rt turn a)) <= executions a + 1
   /\ executions (snd (loop rt n turn a)) + queries a
      <= executions a + queries (snd (loop rt n turn a)))
  /\ forall (j : string) (v : value) (rest : string) (l' : LanguageModel rt),
       Json.loads (json_limits rt) j = inr v ->
       rest <> EmptyString ->
       generate rt (llm a) (map to_json (history a))
       = (inr (TOOL_OPEN ++ j ++ TOOL_CLOSE ++ rest), l') ->
       executions (snd (take_turn rt turn a)) = executions a
       /\ world (snd (take_turn rt turn a)) = world a
       /\ history (snd (take_turn rt turn a))
          = (history a
             ++ [LLMResponse (TOOL_OPEN ++ j ++ TOOL_CLOSE ++ rest)])%list.
Proof.
  split; [split; [|split]|].
  - destruct (take_turn rt turn a) as [s a'] eqn:H.
    apply take_turn_effect in H as (_ & evs & hs & Ht & _ & Hg & _).
    simpl. unfold queries. rewrite Ht, count_app. lia.
  - destruct (take_turn rt turn a) as [s a'] eqn:H.
    apply take_turn_effect in H as (_ & evs & hs & Ht & _ & _ & Hx & _).
    simpl. unfold executions. rewrite Ht, count_app. lia.
  - destruct (loop rt n turn a) as [o a'] eqn:H.
    apply loop_effect in H as (_ & evs & hs & Ht & _ & _ & _ & Hx & _).
    simpl. unfold executions, queries. rewrite Ht, !count_app. lia.
  - intros j v rest l' Hj Hrest Hg.
    apply (take_turn_without_tool rt turn a _ l' Hg).
    now apply (block_then_more_is_no_tool_call (json_limits rt) j v rest).
Qed.

Lemma at_most_one_execution_per_response_witness :
  Json.loads Scenario.limits
    (object [member "tool" (quoted "fs.mkdir");
             member "arguments" (object [member "path" (quoted "a")])])
  = inr (VDict [("tool", VStr "fs.mkdir");
                ("arguments", VDict [("path", VStr "a")])])
  /\ Scenario.other_block <> EmptyString
  /\ generate Scenario.runtime (llm (Scenario.ready [Scenario.two_blocks]))
       (map to_json (history (Scenario.ready [Scenario.two_blocks])))
     = (inr (TOOL_OPEN
             ++ object [member "tool" (quoted "fs.mkdir");
                        member "arguments"
                          (object [member "path" (quoted "a")])]
             ++ TOOL_CLOSE ++ Scenario.other_block),
        MockLLM Scenario.runtime (Llm.Mock [Scenario.two_blocks] 1))
  /\ executions
       (snd (take_turn Scenario.runtime 0 (Scenario.ready [Scenario.two_blocks])))
     = executions (Scenario.ready [Scenario.two_blocks]).
Proof.
  split; [reflexivity|]. split; [discriminate|]. split; [reflexivity|].
  apply (proj2 (at_most_one_execution_per_response Scenario.runtime 0 0
                  (Scenario.ready [Scenario.two_blocks]))
           (object [member "tool" (quoted "fs.mkdir");
                    member "arguments" (object [member "path" (quoted "a")])])
           (VDict [("tool", VStr "fs.mkdir");
                   ("arguments", VDict [("path", VStr "a")])])
           Scenario.other_block
           (MockLLM Scenario.runtime (Llm.Mock [Scenario.two_blocks] 1))).
  - reflexivity.
  - discriminate.
  - reflexivity.
Defined.
(** * The agent beyond the loop: start, registry, history *)

Section StartFacts.

Context {World : Type} (rt : Runtime World).
Implicit Types (a : Agent rt).

Lemma find_tool_none (n : string) (reg : list (Tool World)) :
  find_tool n reg = None <-> ~ In n (map name reg).
Proof.
  unfold find_tool. induction reg as [|t reg IH]; simpl.
  - tauto.
  - destruct (String.eqb (name t) n) eqn:E.
    + apply String.eqb_eq in E. split; [discriminate|].
      intros H. elim H. now left.
    + apply String.eqb_neq in E. rewrite IH. tauto.
Qed.

Lemma find_tool_unique (reg : list (Tool World)) (t : Tool World) :
  NoDup (map name reg) -> In t reg -> find_tool (name t) reg = Some t.
Proof.
  unfold find_tool. induction reg as [|u reg IH]; simpl; intros Hnd Hin.
  - easy.
  - inversion Hnd as [|x l Hx Hl]; subst. destruct Hin as [->|Hin].
    + now rewrite String.eqb_refl.
    + destruct (String.eqb (name u) (name t)) eqn:E; [|auto].
      apply String.eqb_eq in E. elim Hx. rewrite E. now apply in_map.
Qed.

Lemma register_all_registry (names : option (list string))
  (tools : list (Tool World)) a a' :
  register_all rt names tools a = inr a' ->
  tool_registry a' = (tool_registry a ++ filter (allowed names) tools)%list
  /\ env a' = env a
  /\ world a' = world a.
Proof.
  revert a. induction tools as [|t tools IH]; intros a H; simpl in H.
  - injection H as <-. now rewrite app_nil_r.
  - simpl. destruct (allowed names t).
    + unfold register_tool in H.
      destruct (find_tool (name t) (tool_registry a)); [discriminate|].
      apply IH in H as (Hr & He & Hw). simpl in *.
      rewrite Hr, <- app_assoc. auto.
    + now apply IH.
Qed.

Lemma register_all_succeeds (names : option (list string))
  (tools : list (Tool World)) a :
  NoDup (map name (tool_registry a)) ->
  (exists a', register_all rt names tools a = inr a')
  <-> NoDup (map name (tool_registry a ++ filter (allowed names) tools)).
Proof.
  revert a. induction tools as [|t tools IH]; intros a Hnd; simpl.
  - rewrite app_nil_r. split; [auto | intros _; now exists a].
  - destruct (allowed names t).
    + unfold register_tool.
      destruct (find_tool (name t) (tool_registry a)) eqn:F.
      * split; [intros [a' H]; discriminate|].
        intros H. rewrite map_app in H. simpl in H.
        apply NoDup_remove_2 in H. elim H. apply in_or_app. left.
        destruct (in_dec string_dec (name t) (map name (tool_registry a)))
          as [Hin|Hout]; [exact Hin|].
        apply find_tool_none in Hout. congruence.
      * apply find_tool_none in F.
        match goal with
        | |- (exists a', register_all _ _ _ ?x = _) <-> _ => set (a1 := x)
        end.
        assert (Hnd1 : NoDup (map name (tool_registry a1))).
        { subst a1. simpl. rewrite map_app. simpl.
          apply NoDup_app; [exact Hnd | repeat constructor; easy |].
          intros x Hx [<-|[]]. now apply F. }
        rewrite (IH a1 Hnd1). subst a1. simpl. now rewrite <- app_assoc.
    + now apply IH.
Qed.

(** The history an initialisation leaves: the system prompt, then the
    instruction as read from its file; the registry holds the allowed
    standard tools. *)
Lemma initialize_result (dir : string) (debug : bool) (st : Startup)
  (w : World) a :
  initialize rt dir debug st w = inr a ->
  exists c prompt text,
    config_file st = Some (inr c)
    /\ env a = Env dir c
    /\ instruction_file st = Some (inr text)
    /\ history a = [SystemPrompt prompt; UserInstruction text]
    /\ tool_registry a
       = filter (allowed (allowed_tools c)) (standard_tools rt (Env dir c))
    /\ NoDup (map name (tool_registry a))
    /\ world a = w.
Proof.
  unfold initialize, initialize_environment. intros H.
  destruct (config_file st) as [[e|c]|]; try discriminate.
  destruct (initialize_llm rt _) as [e|l]; [discriminate|].
  unfold initialize_logger in H.
  destruct (log_exists st); [discriminate|].
  match type of H with
  | match initialize_tool_registry _ ?x with _ => _ end = _ =>
      set (a1 := x) in *
  end.
  destruct (initialize_tool_registry rt a1) as [e|a2] eqn:Hreg; [discriminate|].
  unfold initialize_tool_registry in Hreg.
  pose proof (register_all_effect rt _ _ _ _ Hreg) as (Hh & _).
  pose proof (register_all_registry _ _ _ _ Hreg) as (Hr & He & Hw).
  assert (Hnd : NoDup (map name (tool_registry a2))).
  { rewrite Hr.
    apply (register_all_succeeds _ _ (with_registry [] a1)).
    - constructor.
    - now exists a2. }
  unfold load_instruction in H.
  destruct (instruction_file st) as [[e|text]|]; try discriminate.
  injection H as <-. simpl in *.
  exists c. eexists. exists text. rewrite Hh, He. simpl.
  repeat split; auto.
Qed.

End StartFacts.

(** X1. A run starts, and then ends with an outcome, exactly when the
    configuration file is there and readable, the backend it selects can be
    built, no log file is left from an earlier run, the allowed standard
    tools have distinct names, and the instruction file is there and
    readable. In every other case [run] raises before the first turn. *)
Theorem run_starts_iff {World : Type} (rt : Runtime World) (dir : string)
  (debug : bool) (st : Startup) (w : World) :
  (exists o a, run rt dir debug st w = Finished o a)
  <-> (exists c l text,
         config_file st = Some (inr c)
         /\ initialize_llm rt c = inr l
         /\ log_exists st = false
         /\ NoDup (map name (filter (allowed (allowed_tools c))
                               (standard_tools rt (Env dir c))))
         /\ instruction_file st = Some (inr text)).
Proof.
  split.
  - intros (o & a & H).
    apply run_finished in H as (a0 & a1 & Hinit & _ & _).
    pose proof (initialize_effect rt _ _ _ _ _ Hinit) as (_ & _ & c & Hc & _ & Hl).
    pose proof (initialize_result rt _ _ _ _ _ Hinit)
      as (c' & p & text & Hc' & _ & Hi & _ & Hr & Hnd & _).
    assert (c' = c) as -> by congruence.
    exists c, (llm a0), text. rewrite <- Hr. repeat split; auto.
    unfold initialize, initialize_environment, initialize_logger in Hinit.
    rewrite Hc in Hinit. simpl in Hinit.
    destruct (initialize_llm rt c); [discriminate|].
    now destruct (log_exists st).
  - intros (c & l & text & Hc & Hl & Hlog & Hnd & Hi).
    unfold run, initialize, initialize_environment, initialize_logger.
    rewrite Hc. simpl. rewrite Hl, Hlog.
    unfold initialize_tool_registry.
    match goal with
    | |- context [register_all rt ?n ?t ?x] =>
        destruct (proj2 (register_all_succeeds rt n t x (NoDup_nil _)))
          as (a2 & Hreg)
    end.
    { simpl. exact Hnd. }
    rewrite Hreg. unfold load_instruction. rewrite Hi.
    destruct (loop rt _ 0 _) as [o a']. now eexists _, _.
Qed.

Section FrameFacts.

Context {World : Type} (rt : Runtime World).
Implicit Types (a : Agent rt).

(** A tool call leaves the registry, the environment and the backend as
    they were, and the world too unless a tool ran. *)
Lemma execute_tool_frame (tool_call : value) a a' :
  execute_tool rt tool_call a = inr a' ->
  tool_registry a' = tool_registry a
  /\ env a' = env a
  /\ llm a' = llm a
  /\ (executions a' = executions a -> world a' = world a).
Proof.
  unfold execute_tool, tool_failed. intros H.
  destruct tool_call; try discriminate.
  destruct (negb (truthy _)).
  - injection H as <-. simpl. auto.
  - destruct (get_tool rt _ _) as [e|tool].
    + injection H as <-. simpl. auto.
    + destruct (validate tool _).
      * injection H as <-. simpl. auto.
      * destruct (execute tool _ _) as [[e|r] w']; injection H as <-;
          simpl; repeat split; unfold executions; simpl;
          rewrite <- ?app_assoc, !count_app; unfold count; simpl; lia.
Qed.

Lemma take_turn_frame (turn : nat) a (s : Step) a' :
  take_turn rt turn a = (s, a') ->
  tool_registry a' = tool_registry a
  /\ env a' = env a
  /\ llm a' = snd (generate rt (llm a) (map to_json (history a)))
  /\ (executions a' = executions a -> world a' = world a).
Proof.
  unfold take_turn, query_llm. intros H. simpl in H.
  destruct (generate rt _ _) as [[e|r] l'].
  - injection H as <- <-. simpl. auto.
  - destruct (PyStr.contains r TERMINATE).
    + injection H as <- <-. simpl. auto.
    + destruct (_parse_tool_call (json_limits rt) r) as [e|tool_call] eqn:Hp.
      { injection H as <- <-. simpl. auto. }
      destruct (truthy tool_call).
      * destruct (execute_tool rt _ _) as [e|a3] eqn:Hx.
        -- injection H as <- <-. simpl. auto.
        -- injection H as <- <-.
           apply execute_tool_frame in Hx as (Hr & He & Hl & Hw).
           simpl in *. repeat split; auto.
           intros Hx. rewrite Hw; [reflexivity|].
           rewrite Hx. unfold executions. simpl.
           rewrite <- !app_assoc, !count_app. unfold count. simpl. lia.
      * injection H as <- <-. simpl. auto.
Qed.

Lemma executions_grow (turn : nat) a (s : Step) a' :
  take_turn rt turn a = (s, a') -> executions a <= executions a'.
Proof.
  intros H. apply take_turn_effect in H as (_ & evs & hs & Ht & _).
  unfold executions. rewrite Ht, count_app. lia.
Qed.

Lemma executions_grow_loop (n turn : nat) a (o : Outcome) a' :
  loop rt n turn a = (o, a') -> executions a <= executions a'.
Proof.
  intros H. apply loop_effect in H as (_ & evs & hs & Ht & _).
  unfold executions. rewrite Ht, count_app. lia.
Qed.

Lemma loop_frame (n turn : nat) a (o : Outcome) a' :
  loop rt n turn a = (o, a') ->
  tool_registry a' = tool_registry a
  /\ env a' = env a
  /\ (executions a' = executions a -> world a' = world a).
Proof.
  revert turn a. induction n as [|n IH]; intros turn a H; simpl in H.
  - injection H as <- <-. simpl. auto.
  - destruct (take_turn rt turn a) as [s a1] eqn:Ht.
    pose proof (executions_grow _ _ _ _ Ht) as Hle.
    apply take_turn_frame in Ht as (Hr & He & _ & Hw).
    destruct s as [|o1].
    + pose proof (executions_grow_loop _ _ _ _ _ H) as Hle'.
      apply IH in H as (Hr' & He' & Hw').
      repeat split; try congruence.
      intros Hx. rewrite Hw' by lia. apply Hw. lia.
    + injection H as <- <-. auto.
Qed.

End FrameFacts.

(** X2. The registry of a run holds exactly the standard tools that the
    allow-list of the configuration lets through, in their order, and no
    name twice; it is the same at the end of the run as at its start.
    Every registered tool is found under its name, and a name outside the
    allow-list, or a name that is not a string, is not found. *)
Theorem registry_is_the_allowed_tools {World : Type} (rt : Runtime World)
  (dir : string) (debug : bool) (st : Startup) (w : World) (o : Outcome)
  (a : Agent rt) :
  run rt dir debug st w = Finished o a ->
  exists c,
    config_file st = Some (inr c)
    /\ tool_registry a
       = filter (allowed (allowed_tools c)) (standard_tools rt (Env dir c))
    /\ NoDup (map name (tool_registry a))
    /\ (forall t, In t (tool_registry a) ->
                  get_tool rt (tool_registry a) (VStr (name t)) = inr t)
    /\ (forall names n,
          allowed_tools c = Some names -> ~ In n names ->
          get_tool rt (tool_registry a) (VStr n)
          = inl (tool_not_found rt (VStr n)))
    /\ (forall v, (forall n, v <> VStr n) ->
                  get_tool rt (tool_registry a) v = inl (tool_not_found rt v)).
Proof.
  intros H. apply run_finished in H as (a0 & a1 & Hinit & Hloop & ->).
  apply initialize_result in Hinit
    as (c & p & text & Hc & _ & _ & _ & Hr & Hnd & _).
  apply loop_frame in Hloop as (Hr' & _). simpl in *.
  rewrite Hr'. exists c. repeat split; auto.
  - intros t Hin. unfold get_tool.
    now rewrite (find_tool_unique (tool_registry a0) t Hnd Hin).
  - intros names n Hal Hout. unfold get_tool.
    destruct (find_tool n (tool_registry a0)) as [t|] eqn:F; [|reflexivity].
    unfold find_tool in F. apply find_some in F as [Hin Hn].
    apply String.eqb_eq in Hn. subst n.
    rewrite Hr in Hin. apply filter_In in Hin as [_ Ha].
    unfold allowed in Ha. rewrite Hal in Ha.
    apply existsb_exists in Ha as (x & Hx & Heq).
    apply String.eqb_eq in Heq. subst x. now elim Hout.
  - intros v Hv. unfold get_tool. destruct v; try reflexivity.
    now elim (Hv s).
Qed.

Section HistoryFacts.

Context {World : Type} (rt : Runtime World).
Implicit Types (a : Agent rt).

Lemma Turns_app (hs hs' : list HistoryEntry) :
  Turns (json_limits rt) hs -> Turns (json_limits rt) hs' ->
  Turns (json_limits rt) (hs ++ hs').
Proof.
  intros H H'. induction H; simpl; [exact H' | |].
  - now constructor.
  - now constructor.
Qed.

(** The entry a tool call appends. *)
Lemma execute_tool_entry (d : list (string * value)) a a' :
  execute_tool rt (VDict d) a = inr a' ->
  exists result,
    history a'
    = (history a
       ++ [ToolCallResult (requested_tool d) (requested_arguments d)
             result])%list.
Proof.
  unfold execute_tool, tool_failed, requested_tool, requested_arguments.
  intros H.
  destruct (negb (truthy _)).
  - injection H as <-. now eexists.
  - destruct (get_tool rt _ _) as [e|tool].
    + injection H as <-. now eexists.
    + destruct (validate tool _).
      * injection H as <-. now eexists.
      * destruct (execute tool _ _) as [[e|r] w']; injection H as <-;
          now eexists.
Qed.

Lemma take_turn_entries (turn : nat) a (s : Step) a' :
  take_turn rt turn a = (s, a') ->
  exists hs, history a' = (history a ++ hs)%list /\ Turns (json_limits rt) hs.
Proof.
  unfold take_turn, query_llm. intros H. simpl in H.
  destruct (generate rt _ _) as [[e|r] l'].
  - injection H as <- <-. exists []. simpl. rewrite app_nil_r.
    split; [reflexivity | constructor].
  - destruct (PyStr.contains r TERMINATE).
    + injection H as <- <-. exists [LLMResponse r].
      split; [reflexivity | repeat constructor].
    + destruct (_parse_tool_call (json_limits rt) r) as [e|tool_call] eqn:Hp.
      { injection H as <- <-. exists [LLMResponse r].
      split; [reflexivity | repeat constructor]. }
      destruct (truthy tool_call).
      * destruct (execute_tool rt _ _) as [e|a3] eqn:Hx.
        -- injection H as <- <-. exists [LLMResponse r].
           split; [reflexivity | repeat constructor].
        -- injection H as <- <-.
           destruct tool_call as [| | | | | | | |d]; try discriminate.
           apply execute_tool_entry in Hx as (result & Hh).
           exists [LLMResponse r;
                   ToolCallResult (requested_tool d) (requested_arguments d)
                     result].
           split.
           ++ rewrite Hh. simpl. now rewrite <- app_assoc.
           ++ apply Turns_tool_call; [exact Hp | constructor].
      * injection H as <- <-. exists [LLMResponse r].
        split; [reflexivity | repeat constructor].
Qed.

Lemma loop_entries (n turn : nat) a (o : Outcome) a' :
  loop rt n turn a = (o, a') ->
  exists hs, history a' = (history a ++ hs)%list /\ Turns (json_limits rt) hs.
Proof.
  revert turn a. induction n as [|n IH]; intros turn a H; simpl in H.
  - injection H as <- <-. exists []. simpl. rewrite app_nil_r.
    split; [reflexivity | constructor].
  - destruct (take_turn rt turn a) as [s a1] eqn:Ht.
    apply take_turn_entries in Ht as (hs & Hh & HT).
    destruct s as [|o1].
    + apply IH in H as (hs' & Hh' & HT').
      exists (hs ++ hs')%list. rewrite Hh', Hh, <- app_assoc.
      split; [reflexivity | now apply Turns_app].
    + injection H as <- <-. now exists hs.
Qed.

End HistoryFacts.

(** X3. The history of a run that started: the system prompt, then the
    instruction as read from its file, then the entries of the turns in
    order. Each response of the model is one entry; a tool result comes
    only right after the response that decoded to the tool call, and
    carries the tool name and the arguments of that call. *)
Theorem history_of_a_run {World : Type} (rt : Runtime World) (dir : string)
  (debug : bool) (st : Startup) (w : World) (o : Outcome) (a : Agent rt) :
  run rt dir debug st w = Finished o a ->
  exists prompt text hs,
    instruction_file st = Some (inr text)
    /\ history a = SystemPrompt prompt :: UserInstruction text :: hs
    /\ Turns (json_limits rt) hs.
Proof.
  intros H. apply run_finished in H as (a0 & a1 & Hinit & Hloop & ->).
  apply initialize_result in Hinit as (c & p & text & _ & _ & Hi & Hh & _).
  apply loop_entries in Hloop as (hs & Hh' & HT). simpl in *.
  exists p, text, hs. rewrite Hh', Hh. auto.
Qed.

Section WorldFacts.

Context {World : Type} (rt : Runtime World).
Implicit Types (a : Agent rt).

Lemma replay_app (reg : list (Tool World)) (t u : list Event) (w : World) :
  replay reg (t ++ u) w = replay reg u (replay reg t w).
Proof.
  revert w. induction t as [|ev t IH]; intros w; simpl; [reflexivity|].
  destruct ev; auto. destruct (find_tool tool reg); auto.
Qed.

Lemma replay_nothing (reg : list (Tool World)) (t : list Event) (w : World) :
  count is_execute t = 0 -> replay reg t w = w.
Proof.
  induction t as [|ev t IH]; simpl; [reflexivity|].
  rewrite count_cons. destruct ev; simpl; auto; discriminate.
Qed.

Lemma get_tool_found (reg : list (Tool World)) (v : value) (t : Tool World) :
  get_tool rt reg v = inr t -> find_tool (name t) reg = Some t.
Proof.
  unfold get_tool. destruct v; try discriminate.
  destruct (find_tool s reg) as [u|] eqn:F; [|discriminate].
  intros [= ->]. unfold find_tool in F.
  pose proof (find_some _ _ F) as [_ Hn]. apply String.eqb_eq in Hn.
  now rewrite Hn.
Qed.

Lemma execute_tool_replay (tool_call : value) a a' :
  execute_tool rt tool_call a = inr a' ->
  exists evs,
    trace a' = (trace a ++ evs)%list
    /\ world a' = replay (tool_registry a) evs (world a).
Proof.
  unfold execute_tool, tool_failed. intros H.
  destruct tool_call; try discriminate.
  destruct (negb (truthy _)).
  - injection H as <-. eexists.
    cbn [trace world log append with_world]. rewrite <- !app_assoc.
    split; reflexivity.
  - destruct (get_tool rt _ _) as [e|tool] eqn:G.
    + injection H as <-. eexists.
      cbn [trace world log append with_world]. rewrite <- !app_assoc.
      split; reflexivity.
    + apply get_tool_found in G.
      destruct (validate tool _).
      * injection H as <-. eexists.
        cbn [trace world log append with_world]. rewrite <- !app_assoc.
        split; reflexivity.
      * destruct (execute tool _ _) as [[e|r] w'] eqn:X; injection H as <-;
          cbn [world log] in X; eexists;
          cbn [trace world log append with_world]; rewrite <- !app_assoc;
          (split; [reflexivity|]); cbn [replay List.app];
          now rewrite G, X.
Qed.

Lemma take_turn_replay (turn : nat) a (s : Step) a' :
  take_turn rt turn a = (s, a') ->
  exists evs,
    trace a' = (trace a ++ evs)%list
    /\ world a' = replay (tool_registry a) evs (world a).
Proof.
  unfold take_turn, query_llm. intros H.
  cbn [llm history log] in H.
  destruct (generate rt _ _) as [[e|r] l'].
  - injection H as <- <-. eexists.
    cbn [trace world log append with_llm]. rewrite <- !app_assoc.
    split; reflexivity.
  - destruct (PyStr.contains r TERMINATE).
    + injection H as <- <-. eexists.
      cbn [trace world log append with_llm]. rewrite <- !app_assoc.
      split; reflexivity.
    + destruct (_parse_tool_call (json_limits rt) r) as [e|tool_call] eqn:Hp.
      { injection H as <- <-. eexists.
      cbn [trace world log append with_llm]. rewrite <- !app_assoc.
      split; reflexivity. }
      destruct (truthy tool_call).
      * destruct (execute_tool rt _ _) as [e|a3] eqn:Hx.
        -- injection H as <- <-. eexists.
           cbn [trace world log append with_llm]. rewrite <- !app_assoc.
           split; reflexivity.
        -- injection H as <- <-.
           apply execute_tool_replay in Hx as (evs & Ht & Hw).
           cbn [trace world tool_registry log append with_llm] in Ht, Hw.
           exists ([TurnStarted (turn + 1) (agent_max_turns a); Querying;
                    Generate (map to_json (history a));
                    ResponseLogged turn r] ++ evs)%list.
           rewrite Ht, Hw, <- !app_assoc. split; reflexivity.
      * injection H as <- <-. eexists.
        cbn [trace world log append with_llm]. rewrite <- !app_assoc.
        split; reflexivity.
Qed.

Lemma loop_replay (n turn : nat) a (o : Outcome) a' :
  loop rt n turn a = (o, a') ->
  exists evs,
    trace a' = (trace a ++ evs)%list
    /\ world a' = replay (tool_registry a) evs (world a).
Proof.
  revert turn a. induction n as [|n IH]; intros turn a H; simpl in H.
  - injection H as <- <-. now exists [MaxTurnsReached].
  - destruct (take_turn rt turn a) as [s a1] eqn:Ht.
    pose proof (take_turn_frame rt _ _ _ _ Ht) as (Hr & _).
    apply take_turn_replay in Ht as (evs & Ht & Hw).
    destruct s as [|o1].
    + apply IH in H as (evs' & Ht' & Hw').
      exists (evs ++ evs')%list.
      rewrite Ht', Ht, Hw', Hw, Hr, replay_app, <- app_assoc. auto.
    + injection H as <- <-. now exists evs.
Qed.

End WorldFacts.


(** X5. A query that fails ends the run in that turn with the outcome of an
    empty response: the failure is logged with the text of the exception,
    no entry is appended to the history, no tool runs, the world is as it
    was, and no later turn starts however many remain. *)
Theorem failed_query_ends_the_run {World : Type} (rt : Runtime World)
  (turn : nat) (a : Agent rt) (e : exn) (l' : LanguageModel rt) :
  generate rt (llm a) (map to_json (history a)) = (inl e, l') ->
  exists a',
    take_turn rt turn a = (Stop EmptyResponse, a')
    /\ (forall n, loop rt (S n) turn a = (EmptyResponse, a'))
    /\ history a' = history a
    /\ world a' = world a
    /\ llm a' = l'
    /\ trace a'
       = (trace a ++ [TurnStarted (turn + 1) (agent_max_turns a); Querying;
                      Generate (map to_json (history a));
                      QueryFailed (exn_str e); ResponseEmpty])%list.
Proof.
  intros H.
  assert (Ht : exists a', take_turn rt turn a = (Stop EmptyResponse, a')
            /\ history a' = history a /\ world a' = world a /\ llm a' = l'
            /\ trace a'
               = (trace a ++ [TurnStarted (turn + 1) (agent_max_turns a);
                              Querying; Generate (map to_json (history a));
                              QueryFailed (exn_str e); ResponseEmpty])%list).
  { unfold take_turn, query_llm. simpl. rewrite H.
    eexists. split; [reflexivity|]. simpl. rewrite <- !app_assoc. auto. }
  destruct Ht as (a' & Ht & Hrest). exists a'.
  split; [exact Ht|]. split; [|exact Hrest].
  intros n. simpl. now rewrite Ht.
Qed.

(** X6. When the tool named by a call is registered and its schema accepts
    the arguments, the tool runs once on the world of the agent, and the
    entry appended to the history carries what came of it: the result it
    returned, as it is, or, when it raised, a failure with the text of the
    exception. Either way the world is the one the tool left. *)
Theorem tool_outcome_is_recorded {World : Type} (rt : Runtime World)
  (d : list (string * value)) (a : Agent rt) (tool : Tool World)
  (res : exn + value) (w' : World) :
  truthy (requested_tool d) = true ->
  get_tool rt (tool_registry a) (requested_tool d) = inr tool ->
  validate tool (requested_arguments d) = None ->
  execute tool (requested_arguments d) (world a) = (res, w') ->
  exists a',
    execute_tool rt (VDict d) a = inr a'
    /\ history a'
       = (history a
          ++ [ToolCallResult (requested_tool d) (requested_arguments d)
                match res with
                | inr r => r
                | inl e =>
                    failure ("Error executing tool "
                             ++ py_str rt (requested_tool d) ++ ": "
                             ++ exn_str e)
                end])%list
    /\ world a' = w'
    /\ executions a' = executions a + 1.
Proof.
  unfold requested_tool, requested_arguments.
  intros Ht Hg Hv Hx. unfold execute_tool. rewrite Ht, Hg, Hv. simpl.
  rewrite Hx. destruct res as [e|r]; simpl;
    (eexists; split; [reflexivity|]); simpl; repeat split;
    unfold executions; simpl; rewrite <- ?app_assoc, !count_app;
    unfold count; simpl; lia.
Qed.

(** X7. A response between the two delimiters that decodes to a true value
    which is not an object (an array, a string, a number) is taken for a
    tool call, and the call raises: the response is in the history, no
    tool result follows it, no tool runs, and the exception leaves the
    loop, so no later turn starts. *)
Theorem tool_call_that_is_no_object_raises {World : Type}
  (rt : Runtime World) (turn : nat) (a : Agent rt) (r : string)
  (l' : LanguageModel rt) (tool_call : value) :
  generate rt (llm a) (map to_json (history a)) = (inr r, l') ->
  PyStr.contains r TERMINATE = false ->
  _parse_tool_call (json_limits rt) r = inr tool_call ->
  truthy tool_call = true ->
  is_dict tool_call = false ->
  exists a',
    take_turn rt turn a
    = (Stop (Raised (AttributeError_get tool_call)), a')
    /\ (forall n,
          loop rt (S n) turn a
          = (Raised (AttributeError_get tool_call), a'))
    /\ history a' = (history a ++ [LLMResponse r])%list
    /\ world a' = world a
    /\ executions a' = executions a.
Proof.
  intros H Hc Hp Ht Hd.
  destruct (take_turn_answered rt turn a r l' H) as (a2 & Hq & Htr & Hh & Hw & _).
  assert (Hturn : take_turn rt turn a
                  = (Stop (Raised (AttributeError_get tool_call)), a2)).
  { unfold take_turn. rewrite Hq, Hc, Hp, Ht.
    destruct tool_call; try discriminate; reflexivity. }
  exists a2. split; [exact Hturn|]. split.
  - intros n. simpl. now rewrite Hturn.
  - repeat split; auto.
    unfold executions. rewrite Htr, count_app. unfold count. simpl. lia.
Qed.

(** X8. A response without the termination marker that decodes to an
    object with at least one member never ends the run, whatever becomes
    of the call (no tool name, unknown tool, rejected arguments, a tool
    that fails or raises): the turn appends the response and one tool
    result to the history and the loop goes on. *)
Theorem tool_call_turn_goes_on {World : Type} (rt : Runtime World)
  (turn : nat) (a : Agent rt) (r : string) (l' : LanguageModel rt)
  (d : list (string * value)) :
  generate rt (llm a) (map to_json (history a)) = (inr r, l') ->
  PyStr.contains r TERMINATE = false ->
  _parse_tool_call (json_limits rt) r = inr (VDict d) ->
  truthy (VDict d) = true ->
  exists a' result,
    take_turn rt turn a = (Continue, a')
    /\ history a'
       = (history a
          ++ [LLMResponse r;
              ToolCallResult (requested_tool d) (requested_arguments d)
                result])%list
    /\ llm a' = l'
    /\ queries a' = queries a + 1
    /\ executions a' <= executions a + 1.
Proof.
  intros H Hc Hp Ht.
  destruct (take_turn_answered rt turn a r l' H)
    as (a2 & Hq & Htr & Hh & Hw & Hreg & Hl).
  destruct (execute_tool rt (VDict d) a2) as [e|a3] eqn:Hx.
  { unfold execute_tool in Hx.
    destruct (negb (truthy _)); [discriminate|].
    destruct (get_tool rt _ _); [discriminate|].
    destruct (validate _ _); [discriminate|].
    destruct (execute _ _ _) as [[?|?] ?]; discriminate. }
  pose proof (execute_tool_entry rt _ _ _ Hx) as (result & He).
  pose proof (execute_tool_frame rt _ _ _ Hx) as (_ & _ & Hl3 & _).
  pose proof (execute_tool_effect rt _ _ _ Hx)
    as (_ & evs & _ & _ & _ & Ht3 & _ & Hg & _ & _ & Hex).
  exists a3, result. unfold take_turn. rewrite Hq, Hc, Hp, Ht, Hx.
  split; [reflexivity|]. rewrite He, Hh, <- app_assoc, Hl3, Hl.
  repeat split.
  - unfold queries. rewrite Ht3, Htr, !count_app. rewrite Hg.
    unfold count. simpl. lia.
  - unfold executions. rewrite Ht3, Htr, !count_app.
    unfold count in *. simpl. lia.
Qed.

Section ScriptFacts.

Context {World : Type} (rt : Runtime World).
Implicit Types (a : Agent rt).

Lemma count_zero_not_in p (t : list Event) (ev : Event) :
  count p t = 0 -> In ev t -> p ev = false.
Proof.
  induction t as [|x t IH]; simpl; [easy|].
  rewrite count_cons. intros H [<-|Hin].
  - destruct (p x); [discriminate | reflexivity].
  - apply IH; [|exact Hin]. destruct (p x); [discriminate | exact H].
Qed.

(** The responses a turn logs: at most the one of its own query, under the
    number of the turn. *)
Lemma take_turn_logs (turn : nat) a (s : Step) a' :
  take_turn rt turn a = (s, a') ->
  exists evs,
    trace a' = (trace a ++ evs)%list
    /\ forall t r,
         In (ResponseLogged t r) evs ->
         t = turn
         /\ fst (generate rt (llm a) (map to_json (history a))) = inr r.
Proof.
  unfold take_turn, query_llm. intros H. simpl in H.
  destruct (generate rt _ _) as [[e|r] l'].
  - injection H as <- <-. eexists [_; _; _; _; _]. simpl.
    rewrite <- !app_assoc. split; [reflexivity|].
    intros t r0 Hin. simpl in Hin.
    repeat (destruct Hin as [Hin|Hin]; [discriminate|]). easy.
  - assert (Hsame : forall t r0 (rest : list Event),
              count is_response rest = 0 ->
              In (ResponseLogged t r0)
                 ([TurnStarted (turn + 1) (agent_max_turns a); Querying;
                   Generate (map to_json (history a));
                   ResponseLogged turn r] ++ rest) ->
              t = turn /\ @inr exn string r = inr r0).
    { intros t r0 rest Hz Hin. simpl in Hin.
      repeat (destruct Hin as [Hin|Hin]; try discriminate).
      - now injection Hin as <- <-.
      - apply (count_zero_not_in _ _ _ Hz) in Hin. discriminate. }
    destruct (PyStr.contains r TERMINATE).
    + injection H as <- <-.
      exists ([TurnStarted (turn + 1) (agent_max_turns a); Querying;
               Generate (map to_json (history a)); ResponseLogged turn r]
              ++ [DecidedToTerminate;
                  FinalAnswer (PyStr.strip (PyStr.replace r TERMINATE ""))])%list.
      simpl. rewrite <- !app_assoc. split; [reflexivity|].
      intros t r0. now apply (Hsame t r0 [_; _]).
    + destruct (_parse_tool_call (json_limits rt) r) as [e|tool_call] eqn:Hp.
      { injection H as <- <-.
      exists ([TurnStarted (turn + 1) (agent_max_turns a); Querying;
               Generate (map to_json (history a)); ResponseLogged turn r]
              ++ [])%list.
      simpl. rewrite <- !app_assoc. split; [reflexivity|].
      intros t r0. now apply (Hsame t r0 []). }
      destruct (truthy tool_call).
      * destruct (execute_tool rt _ _) as [e|a3] eqn:Hx.
        -- injection H as <- <-.
           exists ([TurnStarted (turn + 1) (agent_max_turns a); Querying;
                    Generate (map to_json (history a)); ResponseLogged turn r]
                   ++ [])%list.
           simpl. rewrite <- !app_assoc. split; [reflexivity|].
           intros t r0. now apply (Hsame t r0 []).
        -- injection H as <- <-.
           apply execute_tool_effect in Hx
             as (_ & evs & _ & _ & _ & Ht & _ & _ & Hr & _).
           simpl in Ht.
           exists ([TurnStarted (turn + 1) (agent_max_turns a); Querying;
                    Generate (map to_json (history a)); ResponseLogged turn r]
                   ++ evs)%list.
           rewrite Ht, <- !app_assoc. split; [reflexivity|].
           intros t r0. now apply Hsame.
      * injection H as <- <-.
        exists ([TurnStarted (turn + 1) (agent_max_turns a); Querying;
                 Generate (map to_json (history a)); ResponseLogged turn r]
                ++ [Thought r])%list.
        simpl. rewrite <- !app_assoc. split; [reflexivity|].
        intros t r0. now apply (Hsame t r0 [_]).
Qed.

Lemma loop_follows_script (script : list string) (n turn : nat) a
  (o : Outcome) a' :
  llm a = MockLLM rt (Llm.Mock script turn) ->
  loop rt n turn a = (o, a') ->
  exists evs,
    trace a' = (trace a ++ evs)%list
    /\ forall t r,
         In (ResponseLogged t r) evs ->
         r = nth (t mod List.length script) script "".
Proof.
  revert turn a. induction n as [|n IH]; intros turn a Hl H; simpl in H.
  - injection H as <- <-. exists [MaxTurnsReached]. split; [reflexivity|].
    intros t r [Hin|[]]. discriminate.
  - destruct (take_turn rt turn a) as [s a1] eqn:Ht.
    pose proof (take_turn_frame rt _ _ _ _ Ht) as (_ & _ & Hl1 & _).
    apply take_turn_logs in Ht as (evs & Ht & Hev).
    rewrite Hl in Hl1, Hev. simpl in Hl1, Hev.
    assert (Hmine : forall t r, In (ResponseLogged t r) evs ->
                       r = nth (t mod List.length script) script "").
    { intros t r Hin. apply Hev in Hin as [-> Hr]. now injection Hr as <-. }
    destruct s as [|o1].
    + replace (turn + 1) with (S turn) in Hl1 by lia.
      apply (IH _ _ Hl1) in H as (evs' & Ht' & Hev').
      exists (evs ++ evs')%list. rewrite Ht', Ht, <- app_assoc.
      split; [reflexivity|].
      intros t r Hin. apply in_app_or in Hin as [Hin|Hin]; auto.
    + injection H as <- <-. exists evs. auto.
Qed.

End ScriptFacts.

(** X9. In a run with the scripted backend the response logged for turn
    [t] (counted from 0) is the entry [t mod n] of the script of [n]
    responses: the script is played in order and starts again when it is
    used up. The script is the one of the configuration, or the four
    default responses when the configuration gives none or an empty
    one. *)
Theorem scripted_run_follows_the_script {World : Type} (rt : Runtime World)
  (dir : string) (debug : bool) (st : Startup) (w : World) (o : Outcome)
  (a : Agent rt) (c : Config) :
  run rt dir debug st w = Finished o a ->
  config_file st = Some (inr c) ->
  match llm_type c with Some t => String.eqb t "mock" | None => true end
  = true ->
  forall t r,
    In (ResponseLogged t r) (trace a) ->
    r = nth (t mod List.length (Llm.responses (Llm.mock_new (mock_responses c))))
            (Llm.responses (Llm.mock_new (mock_responses c))) "".
Proof.
  intros H Hc Hmock t r Hin.
  apply run_finished in H as (a0 & a1 & Hinit & Hloop & ->).
  apply initialize_effect in Hinit as (_ & Hcount & c' & Hc' & _ & Hl).
  assert (c' = c) as -> by congruence.
  assert (Hllm : llm a0 = MockLLM rt (Llm.Mock
                   (Llm.responses (Llm.mock_new (mock_responses c))) 0)).
  { unfold initialize_llm in Hl.
    destruct (llm_type c) as [ty|].
    - apply String.eqb_eq in Hmock. subst ty. simpl in Hl.
      now injection Hl as <-.
    - simpl in Hl. now injection Hl as <-. }
  apply (loop_follows_script rt _ _ 0 (log InitComplete a0) _ _ Hllm)
    in Hloop as (evs & Ht & Hev).
  simpl in Hin, Ht. rewrite Ht in Hin.
  apply in_app_or in Hin as [Hin|[Hin|[]]]; [|discriminate].
  apply in_app_or in Hin as [Hin|Hin]; [|now apply Hev].
  apply in_app_or in Hin as [Hin|[Hin|[]]]; [|discriminate].
  assert (H0 : count is_response (trace a0) = 0) by (now apply Hcount).
  apply (count_zero_not_in _ _ _ H0) in Hin. discriminate.
Qed.

Lemma mock_replies_from (script : list string) (n k : nat) :
  mock_replies n (Llm.Mock script k)
  = (map (fun i => nth ((k + i) mod List.length script) script "") (seq 0 n),
     Llm.Mock script (k + n)).
Proof.
  revert k. induction n as [|n IH]; intros k.
  - simpl. now rewrite Nat.add_0_r.
  - cbn [mock_replies Llm.mock_generate Llm.responses Llm.call_count].
    rewrite IH. cbn [seq map]. rewrite Nat.add_0_r.
    rewrite <- seq_shift, map_map.
    f_equal; [f_equal|f_equal; lia].
    apply map_ext. intros i. f_equal. f_equal. lia.
Qed.

(** X10. The scripted backend by itself: whatever the messages, its
    replies to successive calls are the script in order, played again from
    its start once used up, and never anything else; [reset] brings the
    backend back to a fresh one, so the replies after a reset are those of
    a new backend with the same script. [create_language_model] builds
    the scripted backend, with the default script, for the name [mock] and
    for no other name. *)
Theorem mock_backend_cycles (given : option (list string)) (k n : nat) :
  let m := Llm.mock_new given in
  let script := Llm.responses m in
  script <> []
  /\ fst (mock_replies n m)
     = map (fun i => nth (i mod List.length script) script "") (seq 0 n)
  /\ Forall (fun r => In r script) (fst (mock_replies n m))
  /\ mock_reset (snd (mock_replies k m)) = m
  /\ fst (mock_replies n (mock_reset (snd (mock_replies k m))))
     = fst (mock_replies n m)
  /\ forall (World : Type) (rt : Runtime World) (model_name : string)
            (b : Llm.MockLanguageModel),
       create_language_model rt model_name = inr (MockLLM rt b)
       <-> model_name = "mock" /\ b = Llm.mock_new None.
Proof.
  intros m script.
  assert (Hne : script <> []).
  { subst script m. unfold Llm.mock_new. simpl.
    destruct given as [[|r rs]|]; discriminate. }
  assert (Hm : m = Llm.Mock script 0) by reflexivity.
  assert (Hreset : mock_reset (snd (mock_replies k m)) = m).
  { rewrite Hm, mock_replies_from. reflexivity. }
  split; [exact Hne|]. split; [|split; [|split; [|split]]].
  - rewrite Hm, mock_replies_from. reflexivity.
  - rewrite Hm, mock_replies_from. cbn [fst].
    apply Forall_forall. intros r Hin.
    apply in_map_iff in Hin as (i & <- & _).
    apply nth_In. apply Nat.mod_upper_bound.
    destruct script; [congruence | discriminate].
  - exact Hreset.
  - now rewrite Hreset.
  - intros World rt model_name b. unfold create_language_model.
    destruct (PyStr.startswith model_name "gemini/") eqn:Hg.
    + split.
      * destruct (Llm.gemini_new _ _ _ _); discriminate.
      * intros [-> _]. discriminate.
    + destruct (String.eqb_spec model_name "mock") as [->|Hn].
      * split; [now intros [= <-] | now intros [_ ->]].
      * split; [discriminate | now intros [-> _]].
Qed.

Lemma gemini_messages_cons (str_of : value -> string) (msg : message)
  (messages : list message) :
  Llm.gemini_messages str_of (msg :: messages)
  = (Llm.gemini_messages str_of [msg]
     ++ Llm.gemini_messages str_of messages)%list.
Proof.
  unfold Llm.gemini_messages. simpl. now rewrite app_nil_r.
Qed.

(** X11. What the live backend hands to the remote service. The converted
    messages carry no role but [user] and [model]; a message with one of
    the four roles [system], [user], [assistant], [tool] becomes one
    converted message and any other message is dropped, in order. The chat
    is opened with all converted messages but the last, and the content of
    the last one is what is sent (the empty text when there is none). A
    failure of the service is raised again as one exception whose text
    starts with [Gemini API error: ]. *)
Theorem gemini_exchange {G : Type} (str_of : value -> string)
  (chat : G -> list Llm.GeminiMessage -> value -> (exn + string) * G)
  (g : G) (messages : list message) :
  let known (m : message) :=
    existsb (String.eqb (role m)) ["system"; "user"; "assistant"; "tool"] in
  let converted := Llm.gemini_messages str_of messages in
  Forall (fun p => Llm.gemini_role p = "user" \/ Llm.gemini_role p = "model")
         converted
  /\ List.length converted = List.length (filter known messages)
  /\ exists hist input,
       (converted = [] /\ hist = [] /\ input = VStr ""
        \/ exists r, converted = (hist ++ [Llm.Part r input])%list)
       /\ Llm.gemini_generate str_of chat g messages
          = match chat g hist input with
            | (inr text, g') => (inr text, g')
            | (inl e, g') =>
                (inl (Exn OtherError ("Gemini API error: " ++ exn_str e)), g')
            end.
Proof.
  intros known converted. split; [|split].
  - subst converted. induction messages as [|m ms IH]; [constructor|].
    rewrite gemini_messages_cons. apply Forall_app. split; [|exact IH].
    unfold Llm.gemini_messages. simpl.
    destruct (String.eqb (role m) "system");
      [constructor; [now left | constructor]|].
    destruct (String.eqb (role m) "user");
      [constructor; [now left | constructor]|].
    destruct (String.eqb (role m) "assistant");
      [constructor; [now right | constructor]|].
    destruct (String.eqb (role m) "tool");
      [constructor; [now left | constructor] | constructor].
  - subst converted. induction messages as [|m ms IH]; [reflexivity|].
    rewrite gemini_messages_cons, length_app, IH.
    unfold Llm.gemini_messages, known. simpl.
    destruct (String.eqb (role m) "system"); [reflexivity|].
    destruct (String.eqb (role m) "user"); [reflexivity|].
    destruct (String.eqb (role m) "assistant"); [reflexivity|].
    destruct (String.eqb (role m) "tool"); reflexivity.
  - unfold Llm.gemini_generate. fold converted.
    destruct converted as [|p ps] eqn:E.
    + exists [], (VStr ""). split; [now left | reflexivity].
    + exists (removelast (p :: ps)),
             (Llm.gemini_part (last (p :: ps) (Llm.Part "" VNone))).
      split; [|reflexivity]. right.
      exists (Llm.gemini_role (last (p :: ps) (Llm.Part "" VNone))).
      rewrite (app_removelast_last (Llm.Part "" VNone)) at 1
        by discriminate.
      now destruct (last (p :: ps) (Llm.Part "" VNone)).
Qed.

(** * More on the file-system tools *)

Section TryFacts.

Context {World : Type}.

Lemma quiet_ret {A : Type} (x : A) : quiet (@ret World A x).
Proof. intros w. reflexivity. Qed.

Lemma quiet_raise {A : Type} (e : exn) : quiet (@raise World A e).
Proof. intros w. reflexivity. Qed.

Lemma quiet_reading {A : Type} (f : World -> exn + A) : quiet (reading f).
Proof. intros w. reflexivity. Qed.

Lemma quiet_asking {A : Type} (f : World -> A) : quiet (asking f).
Proof. intros w. reflexivity. Qed.

Lemma quiet_bind {A B : Type} (m : Try World A) (k : A -> Try World B) :
  quiet m -> (forall x, quiet (k x)) -> quiet (bind m k).
Proof.
  intros Hm Hk w. unfold bind. specialize (Hm w).
  destruct (m w) as [[e|x] w1]; simpl in Hm; subst w1; [reflexivity|].
  apply Hk.
Qed.

Lemma quiet_try_except {A : Type} (m : Try World A) (handler : exn -> A) :
  quiet m -> quiet (try_except m handler).
Proof.
  intros Hm w. unfold try_except. specialize (Hm w).
  now destruct (m w) as [[e|x] w1].
Qed.

Lemma shaped_ret (r : value) : result_shaped r -> shaped (@ret World value r).
Proof. intros H w. exact H. Qed.

Lemma shaped_raise (e : exn) : shaped (@raise World value e).
Proof. intros w. exact I. Qed.

Lemma shaped_bind {A : Type} (m : Try World A) (k : A -> Try World value) :
  (forall x, shaped (k x)) -> shaped (bind m k).
Proof.
  intros Hk w. unfold bind. destruct (m w) as [[e|x] w1]; [exact I|].
  apply Hk.
Qed.

Lemma try_except_answers (m : Try World value) (handler : exn -> value)
  (w : World) :
  shaped m -> (forall e, result_shaped (handler e)) ->
  answers (try_except m handler w).
Proof.
  intros Hm Hh. unfold try_except, answers. specialize (Hm w).
  destruct (m w) as [[e|r] w1]; eauto.
Qed.

Lemma bind_read_value {A B : Type} (x : A) (k : A -> Try World B) (w : World) :
  bind (reading (fun _ => inr x)) k w = k x w.
Proof. reflexivity. Qed.

Lemma failure_shaped (error_str : string) : result_shaped (failure error_str).
Proof. left. now exists error_str. Qed.

Lemma success_shaped (data : list (string * value)) :
  result_shaped (success data).
Proof. right. now exists data. Qed.

End TryFacts.

Ltac quiet_step :=
  first
    [ apply quiet_ret | apply quiet_raise | apply quiet_reading
    | apply quiet_asking | apply quiet_try_except
    | apply quiet_bind; [|intros ?]
    | match goal with
      | |- quiet (match ?x with _ => _ end) => destruct x
      | |- quiet (if ?b then _ else _) => destruct b
      end ].

Ltac shaped_step :=
  first
    [ apply shaped_raise
    | apply shaped_ret; first [apply failure_shaped | apply success_shaped]
    | apply shaped_bind; intros ?
    | match goal with
      | |- shaped (match ?x with _ => _ end) => destruct x
      | |- shaped (if ?b then _ else _) => destruct b
      end ].

Section FsMoreFacts.

Context {World : Type} (fs : FileSystem World).

Lemma resolve_in_quiet (t : FsTool fs) (v : value) : quiet (resolve_in fs t v).
Proof. unfold resolve_in. repeat quiet_step. Qed.

Lemma inside_quiet (t : FsTool fs) (p : Path fs) : quiet (inside fs t p).
Proof. unfold inside. repeat quiet_step. Qed.

Lemma list_entries_quiet (items : list (Path fs)) :
  quiet (list_entries fs items).
Proof.
  induction items as [|item items IH]; simpl; [apply quiet_ret|].
  repeat (exact IH || quiet_step).
Qed.

Lemma build_tree_quiet (depth : nat) :
  forall (directory : Path fs) (prefix : string),
    quiet (_build_tree fs depth directory prefix).
Proof.
  induction depth as [|depth IH]; intros directory prefix;
    cbn [_build_tree]; [apply quiet_raise|].
  apply quiet_bind; [apply quiet_reading|]. intros listed.
  generalize (sorted_by (fun p => lower fs (path_name fs p)) listed).
  intros items. induction items as [|item items IHi]; [apply quiet_ret|].
  apply quiet_bind; [apply quiet_asking|]. intros dir.
  apply quiet_bind.
  - destruct dir; [apply IH | apply quiet_ret].
  - intros below. apply quiet_bind; [exact IHi|]. intros others.
    apply quiet_ret.
Qed.

(** X13. [fs.read], [fs.ls] and [fs.tree] only look: whatever the input
    and whatever state the file system is in, the state after the call is
    the state before it, also when the call fails or raises. *)
Theorem reading_tools_change_nothing (t : FsTool fs) (input : value)
  (w : World) :
  snd (read_execute fs t input w) = w
  /\ snd (ls_execute fs t input w) = w
  /\ snd (tree_execute fs t input w) = w.
Proof.
  repeat split.
  - revert w. change (quiet (read_execute fs t input)).
    unfold read_execute.
    repeat (apply resolve_in_quiet || apply inside_quiet || quiet_step).
  - revert w. change (quiet (ls_execute fs t input)).
    unfold ls_execute.
    repeat (apply resolve_in_quiet || apply inside_quiet
            || apply list_entries_quiet || quiet_step).
  - revert w. change (quiet (tree_execute fs t input)).
    unfold tree_execute.
    repeat (apply resolve_in_quiet || apply inside_quiet
            || apply build_tree_quiet || quiet_step).
Qed.

(** X14. With the arguments that its body reads by subscript present, a
    tool never raises: every failure inside it, of the file system or of
    the interpreter, comes back as a result with [ok] false, and every
    result has one of the two shapes of the tool contract. [fs.tree] reads
    no argument by subscript, so it never raises on an object. *)
Theorem fs_tools_answer_with_a_result (t : FsTool fs)
  (d : list (string * value)) (path_str : value) (w : World) :
  dict_get "path" d = Some path_str ->
  (forall c, dict_get "content" d = Some c ->
             answers (write_execute fs t (VDict d) w))
  /\ answers (delete_execute fs t (VDict d) w)
  /\ answers (read_execute fs t (VDict d) w)
  /\ (forall o n, dict_get "old_text" d = Some o ->
                  dict_get "new_text" d = Some n ->
                  answers (edit_execute fs t (VDict d) w))
  /\ answers (mkdir_execute fs t (VDict d) w)
  /\ answers (rmdir_execute fs t (VDict d) w)
  /\ answers (ls_execute fs t (VDict d) w)
  /\ answers (tree_execute fs t (VDict d) w).
Proof.
  intros Hp.
  repeat split; intros;
    unfold write_execute, delete_execute, read_execute, edit_execute,
      mkdir_execute, rmdir_execute, ls_execute, tree_execute;
    unfold subscript, get_default;
    repeat match goal with
           | H : dict_get _ d = Some _ |- _ => rewrite H
           end.
  all: try (destruct (dict_get "recursive" d)).
  all: rewrite !bind_read_value.
  all: apply try_except_answers;
    [ repeat shaped_step
    | intros e; try destruct (exn_kind e); apply failure_shaped ].
Qed.

(** X15. A required argument that is missing is not turned into a failure
    result by the tool: [execute] raises [KeyError] for the key, before it
    looks at the file system; the same holds for [content] of [fs.write]
    and for the two texts of [fs.edit] when the path is there. *)
Theorem missing_argument_raises_key_error (t : FsTool fs)
  (d : list (string * value)) (w : World) :
  (dict_get "path" d = None ->
   write_execute fs t (VDict d) w = (inl (KeyError "path"), w)
   /\ delete_execute fs t (VDict d) w = (inl (KeyError "path"), w)
   /\ read_execute fs t (VDict d) w = (inl (KeyError "path"), w)
   /\ edit_execute fs t (VDict d) w = (inl (KeyError "path"), w)
   /\ mkdir_execute fs t (VDict d) w = (inl (KeyError "path"), w)
   /\ rmdir_execute fs t (VDict d) w = (inl (KeyError "path"), w)
   /\ ls_execute fs t (VDict d) w = (inl (KeyError "path"), w))
  /\ (dict_get "path" d <> None ->
      (dict_get "content" d = None ->
       write_execute fs t (VDict d) w = (inl (KeyError "content"), w))
      /\ (dict_get "old_text" d = None ->
          edit_execute fs t (VDict d) w = (inl (KeyError "old_text"), w))
      /\ (dict_get "old_text" d <> None -> dict_get "new_text" d = None ->
          edit_execute fs t (VDict d) w = (inl (KeyError "new_text"), w))).
Proof.
  split.
  - intros Hp.
    repeat split;
      unfold write_execute, delete_execute, read_execute, edit_execute,
        mkdir_execute, rmdir_execute, ls_execute;
      unfold bind at 1; unfold reading at 1, subscript; now rewrite Hp.
  - intros Hp. destruct (dict_get "path" d) as [p|] eqn:Ep; [|now elim Hp].
    repeat split.
    + intros Hc. unfold write_execute.
      unfold bind at 1; unfold reading at 1, subscript; rewrite Ep.
      unfold bind at 1; unfold reading at 1; now rewrite Hc.
    + intros Ho. unfold edit_execute.
      unfold bind at 1; unfold reading at 1, subscript; rewrite Ep.
      unfold bind at 1; unfold reading at 1; now rewrite Ho.
    + intros Ho Hn. unfold edit_execute.
      destruct (dict_get "old_text" d) as [o|] eqn:Eo; [|now elim Ho].
      unfold bind at 1; unfold reading at 1, subscript; rewrite Ep.
      unfold bind at 1; unfold reading at 1; rewrite Eo.
      unfold bind at 1; unfold reading at 1; now rewrite Hn.
Qed.

End FsMoreFacts.

Section FsGuardFacts.

Context {World : Type} (fs : FileSystem World).

(** X16. [fs.delete] and [fs.edit] refuse a path listed in
    [protected_files]: the call returns a failure and the file system is
    as it was. When the path resolves to a place whose string starts with
    that of the working directory, the error names the protection. *)
Theorem protected_delete_and_edit_refused (t : FsTool fs)
  (d : list (string * value)) (p : string) (w : World) :
  dict_get "path" d = Some (VStr p) ->
  protected fs t p = true ->
  (exists msg,
     delete_execute fs t (VDict d) w = (inr (failure msg), w)
     /\ forall full_path root,
          resolve fs (join fs (tool_working_dir fs t) p) w = inr full_path ->
          resolve fs (tool_working_dir fs t) w = inr root ->
          PyStr.startswith (str fs full_path) (str fs root) = true ->
          msg = "File is protected and cannot be deleted: " ++ p)
  /\ (forall o n,
        dict_get "old_text" d = Some o ->
        dict_get "new_text" d = Some n ->
        exists msg,
          edit_execute fs t (VDict d) w = (inr (failure msg), w)
          /\ forall full_path root,
               resolve fs (join fs (tool_working_dir fs t) p) w
               = inr full_path ->
               resolve fs (tool_working_dir fs t) w = inr root ->
               PyStr.startswith (str fs full_path) (str fs root) = true ->
               msg = "File is protected and cannot be edited: " ++ p).
Proof.
  intros Hp Hprot. split; [|intros o n Ho Hn].
  all: unfold delete_execute, edit_execute, subscript;
    rewrite ?Hp, ?Ho, ?Hn, !bind_read_value;
    unfold try_except, bind at 1; rewrite resolve_in_str;
    destruct (resolve fs (join fs (tool_working_dir fs t) p) w)
      as [e|full] eqn:Hf;
    [ eexists; split; [reflexivity | discriminate] |];
    unfold bind at 1; rewrite inside_eq;
    destruct (resolve fs (tool_working_dir fs t) w) as [e|root] eqn:Hr;
    [ eexists; split; [reflexivity | discriminate] |];
    destruct (PyStr.startswith (str fs full) (str fs root)) eqn:Hs; simpl;
    [ rewrite Hprot; eexists; split; [reflexivity|];
      intros ? ? _ _ _; reflexivity
    | eexists; split; [reflexivity|];
      intros ? ? [= <-] [= <-] Hs'; congruence ].
Qed.

(** X17. [fs.rmdir] never removes the working directory itself: a path
    that resolves to the resolved working directory is refused, with or
    without [recursive], and the file system is as it was. *)
Theorem working_directory_is_not_removed (t : FsTool fs)
  (d : list (string * value)) (p : string) (w : World)
  (full_path root : Path fs) :
  dict_get "path" d = Some (VStr p) ->
  resolve fs (join fs (tool_working_dir fs t) p) w = inr full_path ->
  resolve fs (tool_working_dir fs t) w = inr root ->
  PyStr.startswith (str fs full_path) (str fs root) = true ->
  path_eqb fs full_path root = true ->
  rmdir_execute fs t (VDict d) w
  = (inr (failure "Cannot delete the root working directory."), w).
Proof.
  intros Hp Hfull Hroot Hin Heq.
  unfold rmdir_execute, subscript, get_default. rewrite Hp.
  destruct (dict_get "recursive" d); rewrite !bind_read_value;
    unfold try_except, bind at 1; rewrite resolve_in_str, Hfull;
    unfold bind at 1; rewrite inside_eq, Hroot, Hin; simpl;
    unfold bind at 1, reading at 1; rewrite Hroot, Heq; reflexivity.
Qed.

End FsGuardFacts.

Section EditFacts.

Import PyStr PyStrFacts.

Lemma replace_first_absent (s old new : string) :
  contains s old = false -> replace_first s old new = s.
Proof.
  induction s as [|c s IH]; intros H.
  - cbn [contains] in H. apply orb_false_iff in H as [Hp _].
    cbn [replace_first]. now rewrite Hp.
  - cbn [contains] in H. apply orb_false_iff in H as [Hp Hc].
    cbn [replace_first]. rewrite Hp. now rewrite IH.
Qed.

Lemma prefix_refl_drop (old s : string) :
  String.prefix old s = true ->
  old ++ drop (String.length old) s = s.
Proof.
  intros H. apply prefix_split in H. rewrite H at 2.
  reflexivity.
Qed.

Lemma replace_first_same (s old : string) : replace_first s old old = s.
Proof.
  induction s as [|c s IH]; cbn [replace_first].
  - destruct (String.prefix old "") eqn:H; [|reflexivity].
    now apply prefix_refl_drop.
  - destruct (String.prefix old (String c s)) eqn:H.
    + now apply prefix_refl_drop.
    + now rewrite IH.
Qed.

(** The first occurrence: [old] starts at the end of [pre] and at no
    earlier place. *)
Lemma replace_first_at (pre old post new : string) :
  (forall i, i < String.length pre ->
             String.prefix old (drop i (pre ++ old ++ post)) = false) ->
  replace_first (pre ++ old ++ post) old new = pre ++ new ++ post.
Proof.
  induction pre as [|c pre IH]; intros H.
  - simpl. destruct (old ++ post) as [|c s] eqn:E; cbn [replace_first].
    + destruct old; [|discriminate]. simpl in E. subst post. reflexivity.
    + rewrite <- E, prefix_app, drop_app. reflexivity.
  - change (String c pre ++ old ++ post) with (String c (pre ++ old ++ post)).
    cbn [replace_first].
    assert (H0 : String.prefix old (String c (pre ++ old ++ post)) = false).
    { apply (H 0). simpl. lia. }
    rewrite H0. cbn [String.append]. f_equal. apply IH.
    intros i Hi. apply (H (S i)). simpl. lia.
Qed.

End EditFacts.

Section EditToolFacts.

Context {World : Type} (fs : FileSystem World).

(** X18. What [fs.edit] does to a file it may edit. When the old text does
    not occur in the content, and also when it occurs but the new text is
    the same text, the tool answers that the text was not found and
    writes nothing. When the old text occurs first after [pre], the
    content written is [pre], the new text, and what followed the old
    text: the first occurrence is replaced and no other. *)
Theorem edit_replaces_the_first_occurrence (t : FsTool fs)
  (d : list (string * value)) (p old new content : string) (w : World)
  (full_path root : Path fs) :
  dict_get "path" d = Some (VStr p) ->
  dict_get "old_text" d = Some (VStr old) ->
  dict_get "new_text" d = Some (VStr new) ->
  resolve fs (join fs (tool_working_dir fs t) p) w = inr full_path ->
  resolve fs (tool_working_dir fs t) w = inr root ->
  PyStr.startswith (str fs full_path) (str fs root) = true ->
  protected fs t p = false ->
  is_file fs full_path w = true ->
  read_text fs full_path w = inr content ->
  (PyStr.contains content old = false \/ new = old ->
   edit_execute fs t (VDict d) w
   = (inr (failure ("Text to be replaced ('" ++ old
                    ++ "') not found in file: " ++ p)), w))
  /\ (forall pre post,
        content = pre ++ old ++ post ->
        (forall i, i < String.length pre ->
                   String.prefix old (PyStr.drop i content) = false) ->
        pre ++ new ++ post <> content ->
        edit_execute fs t (VDict d) w
        = match write_text fs full_path (pre ++ new ++ post) w with
          | (inr _, w') =>
              (inr (success (message_of ("Successfully edited file " ++ p
                                         ++ "."))), w')
          | (inl e, w') =>
              (inr (failure ("Failed to edit file: " ++ exn_str e)), w')
          end).
Proof.
  intros Hp Ho Hn Hfull Hroot Hin Hprot Hfile Hread.
  assert (Hrun : edit_execute fs t (VDict d) w
            = if String.eqb content (replace_first content old new)
              then (inr (failure ("Text to be replaced ('" ++ old
                                  ++ "') not found in file: " ++ p)), w)
              else match write_text fs full_path
                           (replace_first content old new) w with
                   | (inr _, w') =>
                       (inr (success (message_of
                                        ("Successfully edited file " ++ p
                                         ++ "."))), w')
                   | (inl e, w') =>
                       (inr (failure ("Failed to edit file: " ++ exn_str e)),
                        w')
                   end).
  { unfold edit_execute, subscript. rewrite Hp, Ho, Hn, !bind_read_value.
    unfold try_except, bind at 1. rewrite resolve_in_str, Hfull.
    unfold bind at 1. rewrite inside_eq, Hroot, Hin. cbn [negb]. rewrite Hprot.
    unfold bind at 1, asking at 1. rewrite Hfile. cbn [negb].
    unfold bind at 1, reading at 1. rewrite Hread.
    unfold bind at 1, expect_str at 1, ret at 1.
    unfold bind at 1, expect_str at 1, ret at 1.
    destruct (String.eqb content (replace_first content old new));
      [reflexivity|].
    unfold bind at 1.
    destruct (write_text fs full_path _ w) as [[e|[]] w']; reflexivity. }
  split.
  - intros Hc. rewrite Hrun.
    assert (replace_first content old new = content) as ->.
    { destruct Hc as [Hc| ->];
        [now apply replace_first_absent | apply replace_first_same]. }
    now rewrite String.eqb_refl.
  - intros pre post Hc Hfirst Hne. rewrite Hrun. subst content.
    rewrite (replace_first_at pre old post new Hfirst).
    destruct (String.eqb (pre ++ old ++ post) (pre ++ new ++ post)) eqn:E;
      [|reflexivity].
    apply String.eqb_eq in E. now elim Hne.
Qed.

End EditToolFacts.

Section SortFacts.

Context {A : Type} (k : A -> string).

Lemma ltb_leb (s u : string) : String.ltb s u = true -> String.leb s u = true.
Proof.
  unfold String.ltb, String.leb. now destruct (String.compare s u).
Qed.

Lemma not_ltb_leb (s u : string) :
  String.ltb s u = false -> String.leb u s = true.
Proof.
  unfold String.ltb, String.leb. rewrite (String.compare_antisym s u).
  now destruct (String.compare u s).
Qed.

Lemma insert_by_permutation (x : A) (l : list A) :
  Permutation (insert_by k x l) (x :: l).
Proof.
  induction l as [|y l IH]; simpl; [reflexivity|].
  destruct (String.ltb (k x) (k y)); [reflexivity|].
  rewrite IH. apply perm_swap.
Qed.

Lemma insert_by_sorted (x : A) (l : list A) :
  Sorted (key_le k) l -> Sorted (key_le k) (insert_by k x l).
Proof.
  induction l as [|y l IH]; simpl; intros H.
  - repeat constructor.
  - destruct (String.ltb (k x) (k y)) eqn:E.
    + constructor; [exact H|]. constructor. now apply ltb_leb.
    + inversion H as [|? ? Hs Hh]; subst. constructor; [now apply IH|].
      destruct l as [|z l]; simpl.
      * constructor. now apply not_ltb_leb.
      * destruct (String.ltb (k x) (k z)).
        -- constructor. now apply not_ltb_leb.
        -- constructor. now inversion Hh.
Qed.

Lemma sorted_by_spec (l : list A) :
  Permutation (sorted_by k l) l /\ Sorted (key_le k) (sorted_by k l).
Proof.
  unfold sorted_by.
  assert (H : forall acc,
             Sorted (key_le k) acc ->
             Permutation (fold_left (fun acc x => insert_by k x acc) l acc)
                         (acc ++ l)
             /\ Sorted (key_le k) (fold_left (fun acc x => insert_by k x acc) l acc)).
  { induction l as [|x l IH]; intros acc Hs; simpl.
    - now rewrite app_nil_r.
    - destruct (IH (insert_by k x acc) (insert_by_sorted x acc Hs)) as [Hp Hs'].
      split; [|exact Hs'].
      transitivity (insert_by k x acc ++ l)%list; [exact Hp|].
      transitivity ((x :: acc) ++ l)%list;
        [apply Permutation_app_tail, insert_by_permutation|].
      simpl. apply Permutation_middle. }
  destruct (H [] (Sorted_nil _)) as [Hp Hs]. now split.
Qed.

End SortFacts.

Section TreeFacts.

Context {World : Type} (fs : FileSystem World).

(** X19. The listing of a directory that holds no directory: [fs.tree]
    shows every entry once, in non-decreasing order of the lower-cased
    names, each name after the given prefix and a connector, the closing
    connector before the last one; the file system is as it was. *)
Theorem tree_of_a_flat_directory (depth : nat) (directory : Path fs)
  (prefix : string) (listed : list (Path fs)) (w : World) :
  iterdir fs directory w = inr listed ->
  (forall p, In p listed -> is_dir fs p w = false) ->
  exists items,
    Permutation items listed
    /\ Sorted (key_le (fun p => lower fs (path_name fs p))) items
    /\ _build_tree fs (S depth) directory prefix w
       = (inr (flat_lines prefix (map (path_name fs) items)), w).
Proof.
  intros Hls Hflat.
  destruct (sorted_by_spec (fun p => lower fs (path_name fs p)) listed)
    as [Hperm Hsorted].
  exists (sorted_by (fun p => lower fs (path_name fs p)) listed).
  split; [exact Hperm|]. split; [exact Hsorted|].
  cbn [_build_tree]. unfold bind at 1, reading at 1. rewrite Hls.
  assert (Hall : forall p,
            In p (sorted_by (fun p => lower fs (path_name fs p)) listed) ->
            is_dir fs p w = false).
  { intros p Hin. apply Hflat. now apply (Permutation_in _ Hperm). }
  revert Hall.
  generalize (sorted_by (fun p => lower fs (path_name fs p)) listed).
  intros items. induction items as [|item items IH]; intros Hall.
  - reflexivity.
  - unfold bind at 1, asking at 1. rewrite (Hall item) by now left.
    unfold bind at 1, ret at 1. unfold bind at 1.
    rewrite IH by (intros p Hp; apply Hall; now right).
    unfold ret. cbn [map flat_lines List.app].
    now destruct items.
Qed.

End TreeFacts.

(** * The to-do tools *)

Section TodoFacts.

Context {World : Type} (fs : FileSystem World) (py : Interpreter World).

Lemma bind_asking {A B : Type} (f : World -> A) (k : A -> Try World B)
  (w : World) :
  bind (asking f) k w = k (f w) w.
Proof. reflexivity. Qed.

Lemma bind_lift_value {A B : Type} (x : A) (k : A -> Try World B)
  (w : World) :
  bind (lift (inr x)) k w = k x w.
Proof. reflexivity. Qed.

Lemma bind_lift_raise {A B : Type} (e : exn) (k : A -> Try World B)
  (w : World) :
  bind (lift (inl e)) k w = (inl e, w).
Proof. reflexivity. Qed.

Lemma bind_returned {A B : Type} (m : Try World A) (k : A -> Try World B)
  (w w' : World) (x : A) :
  m w = (inr x, w') -> bind m k w = k x w'.
Proof. intros H. unfold bind. now rewrite H. Qed.

Lemma bind_raised {A B : Type} (m : Try World A) (k : A -> Try World B)
  (w w' : World) (e : exn) :
  m w = (inl e, w') -> bind m k w = (inl e, w').
Proof. intros H. unfold bind. now rewrite H. Qed.

Lemma read_todos_quiet (t : TodoTool fs) : quiet (_read_todos fs py t).
Proof. unfold _read_todos, lift. repeat quiet_step. Qed.

(** *** Comparing with an integer or a text *)

Lemma py_eq_int (v : value) (z n : Z) :
  as_int v = Some z -> py_eq py v (VInt n) = Z.eqb z n.
Proof.
  destruct v as [| [|] | | | | | | |]; simpl; try discriminate;
    now intros [= <-].
Qed.

Lemma py_eq_text (v : value) (s : string) :
  py_eq py v (VStr s)
  = match v with VStr u => String.eqb u s | _ => false end.
Proof. now destruct v as [| [|] | | | | | | |]. Qed.

Lemma fold_max_bounds (zs : list Z) (a : Z) :
  (a <= fold_left Z.max zs a)%Z
  /\ Forall (fun z => (z <= fold_left Z.max zs a)%Z) zs.
Proof.
  revert a. induction zs as [|z zs IH]; intros a; simpl.
  - split; [lia | constructor].
  - destruct (IH (Z.max a z)) as [Ha Hall]. split; [lia|].
    constructor; [lia | exact Hall].
Qed.

(** No item whose id is an integer below [n], or which has no id, matches
    the id [n]. *)
Lemma below_matches_nothing (n : Z) (now : string) (items : list value) :
  forall ids zs,
    ids_of items = inr ids -> ints ids = Some zs ->
    Forall (fun z => (z < n)%Z) zs ->
    without_id py (VInt n) items = inr items
    /\ complete_first py (VInt n) now items = inr None.
Proof.
  induction items as [|todo items IH]; intros ids zs Hids Hints Hlt.
  - now split.
  - cbn [ids_of] in Hids. unfold item_get, get_default in *.
    destruct todo as [| | | | | | | |d]; try discriminate.
    destruct (ids_of items) as [e|ids'] eqn:E;
      [destruct (dict_get "id" d); discriminate|].
    assert (Hid : exists id, ids = id :: ids'
                    /\ id = match dict_get "id" d with
                            | Some v => v
                            | None => VInt 0
                            end).
    { destruct (dict_get "id" d); injection Hids as <-; eauto. }
    destruct Hid as (id & -> & Hid). cbn [ints] in Hints.
    destruct (as_int id) as [z|] eqn:Hz; [|discriminate].
    destruct (ints ids') as [zs'|] eqn:Hzs; [|discriminate].
    injection Hints as <-. inversion Hlt as [|? ? Hz_lt Hrest]; subst.
    destruct (IH ids' zs' eq_refl Hzs Hrest) as [Hw Hc].
    assert (Hne : py_eq py match dict_get "id" d with
                           | Some v => v
                           | None => VNone
                           end (VInt n) = false).
    { destruct (dict_get "id" d) as [v|]; [|reflexivity].
      rewrite (py_eq_int v z n Hz). apply Z.eqb_neq. lia. }
    cbn [without_id complete_first]. unfold item_get, get_default.
    destruct (dict_get "id" d) as [v|]; rewrite Hne, ?Hw, ?Hc; now split.
Qed.


(** *** Listing *)

(** The items with a status, as [todo.list] selects them. *)
Lemma with_status_filter (s : string) (items : list value) :
  Forall (fun todo => is_dict todo = true) items ->
  with_status py (VStr s) items
  = inr (filter (fun todo =>
                   match item_get "status" VNone todo with
                   | inr (VStr u) => String.eqb u s
                   | _ => false
                   end) items).
Proof.
  induction 1 as [|todo items Hd _ IH]; [reflexivity|].
  cbn [with_status filter]. rewrite IH.
  destruct todo; try discriminate. unfold item_get, get_default.
  destruct (dict_get "status" items0) as [v|]; [|reflexivity].
  rewrite py_eq_text. now destruct v.
Qed.

End TodoFacts.

Section TodoMoreFacts.

Context {World : Type} (fs : FileSystem World) (py : Interpreter World).

(** X21. [todo.list] only looks, whatever the input. A filter that is none
    of [pending], [completed] and [all] is refused before the file is
    read. With the filter [all], given or by default, the answer holds the
    list as it is in the file and its length; with [pending] or
    [completed], the items with that status, in their order, and their
    number. *)
Theorem list_filters_by_status (t : TodoTool fs) (input : value)
  (w : World) :
  snd (list_execute fs py t input w) = w
  /\ (forall d v,
        input = VDict d -> dict_get "status" d = Some v ->
        v <> VStr "pending" -> v <> VStr "completed" -> v <> VStr "all" ->
        list_execute fs py t input w
        = (inr (failure
                  "Invalid status filter. Must be one of: ['pending', 'completed', 'all']"),
           w))
  /\ (forall d items,
        input = VDict d ->
        _read_todos fs py t w = (inr (VList items), w) ->
        (dict_get "status" d = None \/ dict_get "status" d = Some (VStr "all")
         -> list_execute fs py t input w
            = (inr (success [("todos", VList items);
                             ("count", VInt (Z.of_nat (List.length items)))]),
               w))
        /\ (forall s,
              dict_get "status" d = Some (VStr s) ->
              s = "pending" \/ s = "completed" ->
              Forall (fun todo => is_dict todo = true) items ->
              let selected :=
                filter (fun todo =>
                          match item_get "status" VNone todo with
                          | inr (VStr u) => String.eqb u s
                          | _ => false
                          end) items in
              list_execute fs py t input w
              = (inr (success [("todos", VList selected);
                               ("count",
                                VInt (Z.of_nat (List.length selected)))]),
                 w))).
Proof.
  split; [|split].
  - revert w. change (quiet (list_execute fs py t input)).
    unfold list_execute, lift.
    repeat (apply read_todos_quiet || quiet_step).
  - intros d v -> Hs Hp Hc Ha.
    unfold list_execute, try_except, get_default. rewrite Hs, bind_lift_value.
    assert (Hno : existsb (fun s => py_eq py v (VStr s)) allowed_statuses
                  = false).
    { unfold allowed_statuses. cbn [existsb]. rewrite !py_eq_text.
      destruct v as [| | | | | |u| |]; try reflexivity.
      repeat match goal with
             | |- context [String.eqb u ?s] =>
                 destruct (String.eqb_spec u s); [subst u; congruence|]
             end.
      reflexivity. }
    now rewrite Hno.
  - intros d items -> Hread. split.
    + intros Hs.
      assert (Hf : get_default (VDict d) "status" (VStr "all") = inr (VStr "all")).
      { unfold get_default. destruct Hs as [-> | ->]; reflexivity. }
      unfold list_execute, try_except. rewrite Hf, bind_lift_value.
      cbn [allowed_statuses existsb py_eq String.eqb Ascii.eqb Bool.eqb orb
             negb].
      rewrite (bind_returned _ _ _ _ _ Hread).
      reflexivity.
    + intros s Hs Hwhich Hdicts selected.
      unfold list_execute, try_except, get_default.
      rewrite Hs, bind_lift_value.
      assert (Hok : existsb (fun u => py_eq py (VStr s) (VStr u))
                      allowed_statuses = true
                    /\ py_eq py (VStr s) (VStr "all") = false).
      { destruct Hwhich as [-> | ->]; split; reflexivity. }
      destruct Hok as [Hin Hall]. rewrite Hin. cbn [negb].
      rewrite (bind_returned _ _ _ _ _ Hread), Hall. cbn [negb iterate].
      unfold bind at 1. rewrite bind_lift_value.
      rewrite (with_status_filter py s items Hdicts), bind_lift_value.
      reflexivity.
Qed.

(** *** Completing and removing *)

(** What the loop of [todo.complete] finds. *)
Lemma complete_first_found (item_id : value) (now : string)
  (items marked : list value) :
  complete_first py item_id now items = inr (Some marked) ->
  exists before d after id,
    items = (before ++ VDict d :: after)%list
    /\ marked
       = (before
          ++ VDict (dict_set "completed_at" (VStr now)
                      (dict_set "status" (VStr "completed") d))
          :: after)%list
    /\ item_get "id" VNone (VDict d) = inr id
    /\ py_eq py id item_id = true
    /\ complete_first py item_id now before = inr None.
Proof.
  revert marked. induction items as [|todo items IH]; intros marked H.
  - discriminate.
  - cbn [complete_first] in H.
    destruct (item_get "id" VNone todo) as [e|id] eqn:Hid; [discriminate|].
    destruct (py_eq py id item_id) eqn:Heq.
    + destruct todo as [| | | | | | | |d]; try discriminate.
      injection H as <-. exists [], d, items, id. simpl. auto.
    + destruct (complete_first py item_id now items) as [e|[rest|]] eqn:Hc;
        try discriminate.
      injection H as <-.
      destruct (IH rest eq_refl) as (before & d & after & id' & -> & -> & Hg & Hm & Hb).
      exists (todo :: before), d, after, id'. simpl.
      rewrite Hid, Heq, Hb. auto.
Qed.

Lemma complete_first_none (item_id : value) (now : string)
  (items : list value) :
  complete_first py item_id now items = inr None ->
  without_id py item_id items = inr items.
Proof.
  induction items as [|todo items IH]; [reflexivity|].
  cbn [complete_first without_id].
  destruct (item_get "id" VNone todo) as [e|id]; [discriminate|].
  destruct (py_eq py id item_id).
  - destruct todo; discriminate.
  - destruct (complete_first py item_id now items) as [e|[rest|]];
      try discriminate.
    intros _. now rewrite IH.
Qed.

(** X22. [todo.complete]: when no item of the list has the id, the answer
    is a failure that names the id and nothing is written. Otherwise the
    first item with the id, and no other, gets the status [completed] and
    the time of the clock as its completion time; every other item, before
    or after it, stays as it is and in its place, and the list is
    written. *)
Theorem complete_marks_the_first_match (t : TodoTool fs)
  (d : list (string * value)) (item_id : value) (items : list value)
  (w : World) :
  dict_get "id" d = Some item_id ->
  _read_todos fs py t w = (inr (VList items), w) ->
  (complete_first py item_id (now_isoformat py w) items = inr None ->
   complete_execute fs py t (VDict d) w
   = (inr (failure ("TODO item with ID " ++ format_value py item_id
                    ++ " not found.")), w))
  /\ (forall marked,
        complete_first py item_id (now_isoformat py w) items
        = inr (Some marked) ->
        (exists before todo after id,
           items = (before ++ VDict todo :: after)%list
           /\ marked
              = (before
                 ++ VDict (dict_set "completed_at"
                             (VStr (now_isoformat py w))
                             (dict_set "status" (VStr "completed") todo))
                 :: after)%list
           /\ item_get "id" VNone (VDict todo) = inr id
           /\ py_eq py id item_id = true
           /\ without_id py item_id before = inr before)
        /\ complete_execute fs py t (VDict d) w
           = match _write_todos fs py t (VList marked) w with
             | (inr _, w') =>
                 (inr (success (message_of
                                  ("TODO item " ++ format_value py item_id
                                   ++ " marked as completed."))), w')
             | (inl e, w') =>
                 (inr (failure ("Failed to complete TODO item: "
                                ++ exn_str e)), w')
             end).
Proof.
  intros Hd Hread.
  assert (Hrun : forall found,
            complete_first py item_id (now_isoformat py w) items = inr found ->
            complete_execute fs py t (VDict d) w
            = match found with
              | None =>
                  (inr (failure ("TODO item with ID "
                                 ++ format_value py item_id
                                 ++ " not found.")), w)
              | Some marked =>
                  match _write_todos fs py t (VList marked) w with
                  | (inr _, w') =>
                      (inr (success (message_of
                                       ("TODO item "
                                        ++ format_value py item_id
                                        ++ " marked as completed."))), w')
                  | (inl e, w') =>
                      (inr (failure ("Failed to complete TODO item: "
                                     ++ exn_str e)), w')
                  end
              end).
  { intros found Hf. unfold complete_execute, try_except, subscript.
    rewrite Hd, bind_lift_value, (bind_returned _ _ _ _ _ Hread).
    cbn [iterate]. rewrite bind_lift_value.
    unfold bind at 1, reading at 1. rewrite Hf.
    destruct found as [marked|]; [|reflexivity].
    unfold bind at 1.
    destruct (_write_todos fs py t _ w) as [[e|[]] w']; reflexivity. }
  split.
  - intros Hnone. now rewrite (Hrun None Hnone).
  - intros marked Hsome. split; [|now rewrite (Hrun _ Hsome)].
    destruct (complete_first_found _ _ _ _ Hsome)
      as (before & todo & after & id & Hi & Hm & Hg & He & Hb).
    exists before, todo, after, id. repeat split; auto.
    now apply (complete_first_none item_id (now_isoformat py w)).
Qed.

(** What the selection of [todo.remove] keeps. *)
Lemma without_id_kept (item_id : value) (items kept : list value) :
  without_id py item_id items = inr kept ->
  without_id py item_id kept = inr kept
  /\ List.length kept <= List.length items
  /\ (List.length kept = List.length items -> kept = items)
  /\ (forall now, complete_first py item_id now kept = inr None)
  /\ (forall todo, In todo kept -> In todo items).
Proof.
  revert kept. induction items as [|todo items IH]; intros kept H.
  - injection H as <-. repeat split; auto.
  - cbn [without_id] in H.
    destruct (item_get "id" VNone todo) as [e|id] eqn:Hid; [discriminate|].
    destruct (without_id py item_id items) as [e|kept'] eqn:Hw;
      [discriminate|].
    destruct (IH kept' eq_refl) as (Hk & Hlen & Hsame & Hc & Hin).
    destruct (py_eq py id item_id) eqn:Heq; injection H as <-; cbn [negb].
    + repeat split; auto.
      * simpl. lia.
      * simpl. intros Hl. lia.
      * intros x Hx. right. auto.
    + repeat split.
      * cbn [without_id]. now rewrite Hid, Hk, Heq.
      * simpl. lia.
      * simpl. intros Hl. f_equal. apply Hsame. lia.
      * intros now. cbn [complete_first]. now rewrite Hid, Heq, Hc.
      * intros x [<-|Hx]; [now left | right; auto].
Qed.

(** What the selection of [todo.remove] is: the items whose id is another,
    in their order, when every item answers to [get]. *)
Lemma without_id_filter (item_id : value) (items kept : list value) :
  without_id py item_id items = inr kept ->
  kept = filter (other_id py item_id) items
  /\ forall todo, In todo items ->
       exists id, item_get "id" VNone todo = inr id.
Proof.
  revert kept. induction items as [|todo items IH]; intros kept H.
  - injection H as <-. split; [reflexivity | intros ? []].
  - cbn [without_id] in H.
    destruct (item_get "id" VNone todo) as [e|id] eqn:Hid; [discriminate|].
    destruct (without_id py item_id items) as [e|kept'] eqn:Hw;
      [discriminate|].
    destruct (IH kept' eq_refl) as (-> & Hall).
    injection H as <-. split.
    + assert (Ho : other_id py item_id todo = negb (py_eq py id item_id))
        by (unfold other_id; now rewrite Hid).
      cbn [filter]. rewrite Ho.
      now destruct (py_eq py id item_id).
    + intros x [<-|Hx]; [now exists id | now apply Hall].
Qed.

(** X23. [todo.remove] drops every item with the id, not only the first,
    and keeps the others in their order: the list that is kept is the list
    that was read without the items whose id equals the one given, so
    that each item that has another id is kept, as many times as it is
    there and where it was among the others, and no item that is kept has
    the id: removing or completing the id again finds nothing. When no item
    has the id, the answer is a failure that names the id and nothing is
    written; otherwise the list that is kept is written. *)
Theorem remove_drops_every_match (t : TodoTool fs)
  (d : list (string * value)) (item_id : value) (items kept : list value)
  (w : World) :
  dict_get "id" d = Some item_id ->
  _read_todos fs py t w = (inr (VList items), w) ->
  without_id py item_id items = inr kept ->
  kept = filter (other_id py item_id) items
  /\ (forall todo, In todo items ->
       exists id,
         item_get "id" VNone todo = inr id
         /\ (In todo kept <-> py_eq py id item_id = false))
  /\ without_id py item_id kept = inr kept
  /\ (forall now, complete_first py item_id now kept = inr None)
  /\ (forall todo, In todo kept -> In todo items)
  /\ (List.length kept = List.length items ->
      kept = items
      /\ remove_execute fs py t (VDict d) w
         = (inr (failure ("TODO item with ID " ++ format_value py item_id
                          ++ " not found.")), w))
  /\ (List.length kept < List.length items ->
      remove_execute fs py t (VDict d) w
      = match _write_todos fs py t (VList kept) w with
        | (inr _, w') =>
            (inr (success (message_of ("TODO item "
                                       ++ format_value py item_id
                                       ++ " removed."))), w')
        | (inl e, w') =>
            (inr (failure ("Failed to remove TODO item: " ++ exn_str e)), w')
        end).
Proof.
  intros Hd Hread Hkept.
  destruct (without_id_kept _ _ _ Hkept) as (Hk & Hlen & Hsame & Hc & Hin).
  destruct (without_id_filter _ _ _ Hkept) as (Hf & Hall).
  assert (Hone : forall todo, In todo items ->
            exists id,
              item_get "id" VNone todo = inr id
              /\ (In todo kept <-> py_eq py id item_id = false)).
  { intros todo Hi. destruct (Hall todo Hi) as (id & Hid).
    exists id. split; [exact Hid|].
    rewrite Hf, filter_In. unfold other_id. rewrite Hid.
    destruct (py_eq py id item_id); cbn [negb]; intuition congruence. }
  assert (Hrun : remove_execute fs py t (VDict d) w
            = if Z.eqb (Z.of_nat (List.length kept))
                       (Z.of_nat (List.length items))
              then (inr (failure ("TODO item with ID "
                                  ++ format_value py item_id
                                  ++ " not found.")), w)
              else match _write_todos fs py t (VList kept) w with
                   | (inr _, w') =>
                       (inr (success (message_of
                                        ("TODO item "
                                         ++ format_value py item_id
                                         ++ " removed."))), w')
                   | (inl e, w') =>
                       (inr (failure ("Failed to remove TODO item: "
                                      ++ exn_str e)), w')
                   end).
  { unfold remove_execute, try_except, subscript.
    rewrite Hd, bind_lift_value, (bind_returned _ _ _ _ _ Hread).
    cbn [py_len iterate]. rewrite !bind_lift_value, Hkept, bind_lift_value.
    destruct (Z.eqb _ _); [reflexivity|].
    unfold bind at 1.
    destruct (_write_todos fs py t _ w) as [[e|[]] w']; reflexivity. }
  repeat split; auto.
  - rewrite Hrun. replace (Z.of_nat (List.length kept)
                           =? Z.of_nat (List.length items))%Z with true;
      [reflexivity|].
    symmetry. apply Z.eqb_eq. lia.
  - intros Hl. rewrite Hrun.
    replace (Z.of_nat (List.length kept)
             =? Z.of_nat (List.length items))%Z with false; [reflexivity|].
    symmetry. apply Z.eqb_neq. lia.
Qed.

(** X24. The four to-do tools never raise: every statement of [execute],
    the reading of the arguments included, is inside the [try], so that
    whatever the input and the state of the file system the call returns a
    result of one of the two shapes of the tool contract. *)
Theorem todo_tools_always_answer (t : TodoTool fs) (input : value)
  (w : World) :
  answers (add_execute fs py t input w)
  /\ answers (list_execute fs py t input w)
  /\ answers (complete_execute fs py t input w)
  /\ answers (remove_execute fs py t input w).
Proof.
  repeat split;
    unfold add_execute, list_execute, complete_execute, remove_execute;
    (apply try_except_answers; [|intros e; apply failure_shaped]);
    repeat shaped_step.
Qed.

(** What [_read_todos] returns from the state of the file. *)
Lemma read_todos_cases (t : TodoTool fs) (w : World) :
  _read_todos fs py t w
  = if negb (path_exists fs (todo_file fs t) w) then (inr (VList []), w)
    else match read_text fs (todo_file fs t) w with
         | inl e => (inl e, w)
         | inr text =>
             match Json.loads (decode_limits py) text with
             | inr todos => (inr todos, w)
             | inl e => (inl (load_error py e text), w)
             end
         end.
Proof.
  unfold _read_todos. rewrite bind_asking.
  destruct (negb _); [reflexivity|].
  unfold bind, reading.
  destruct (read_text fs _ w) as [e|text]; [reflexivity|].
  now destruct (Json.loads _ text).
Qed.

(** X25. A to-do file that is there but cannot be read, or whose text
    does not decode (it is not JSON, or it is nested deeper or holds a
    longer integer than the interpreter takes), is never overwritten: each
    of the tools answers with a failure that carries the text of the
    exception, and the file system is as it was. *)
Theorem unreadable_todo_file_is_left_alone (t : TodoTool fs)
  (d : list (string * value)) (e : exn) (w : World) :
  path_exists fs (todo_file fs t) w = true ->
  (read_text fs (todo_file fs t) w = inl e
   \/ exists text err,
        read_text fs (todo_file fs t) w = inr text
        /\ Json.loads (decode_limits py) text = inl err
        /\ e = load_error py err text) ->
  add_execute fs py t (VDict d) w
  = (inr (failure ("Failed to add TODO item: " ++ exn_str e)), w)
  /\ (dict_get "status" d = None ->
      list_execute fs py t (VDict d) w
      = (inr (failure ("Failed to list TODO items: " ++ exn_str e)), w))
  /\ (forall item_id,
        dict_get "id" d = Some item_id ->
        complete_execute fs py t (VDict d) w
        = (inr (failure ("Failed to complete TODO item: " ++ exn_str e)), w)
        /\ remove_execute fs py t (VDict d) w
           = (inr (failure ("Failed to remove TODO item: " ++ exn_str e)), w)).
Proof.
  intros Hthere Hbad.
  assert (Hread : _read_todos fs py t w = (inl e, w)).
  { rewrite read_todos_cases, Hthere. cbn [negb].
    destruct Hbad as [-> | (text & err & -> & -> & ->)]; reflexivity. }
  repeat split.
  - unfold add_execute, try_except.
    now rewrite (bind_raised _ _ _ _ _ Hread).
  - intros Hs. unfold list_execute, try_except, get_default.
    rewrite Hs, bind_lift_value.
    cbn [allowed_statuses existsb py_eq String.eqb Ascii.eqb Bool.eqb orb
           negb].
    now rewrite (bind_raised _ _ _ _ _ Hread).
  - unfold complete_execute, try_except, subscript.
    rewrite H, bind_lift_value.
    now rewrite (bind_raised _ _ _ _ _ Hread).
  - unfold remove_execute, try_except, subscript.
    rewrite H, bind_lift_value.
    now rewrite (bind_raised _ _ _ _ _ Hread).
Qed.

End TodoMoreFacts.

(** * Turn numbers, the system prompt, and the spelling of protected paths *)

Section NumberFacts.

Context {World : Type} (rt : Runtime World).
Implicit Types (a : Agent rt).

Lemma execute_tool_opens_no_turn (tool_call : value) a a' :
  execute_tool rt tool_call a = inr a' ->
  exists evs,
    trace a' = (trace a ++ evs)%list /\ filter is_turn_started evs = [].
Proof.
  unfold execute_tool, tool_failed. intros H.
  destruct tool_call; try discriminate.
  destruct (negb (truthy _)).
  - injection H as <-. eexists.
    cbn [trace log append with_world]. rewrite <- !app_assoc.
    split; reflexivity.
  - destruct (get_tool rt _ _) as [e|tool].
    + injection H as <-. eexists.
      cbn [trace log append with_world]. rewrite <- !app_assoc.
      split; reflexivity.
    + destruct (validate tool _).
      * injection H as <-. eexists.
        cbn [trace log append with_world]. rewrite <- !app_assoc.
        split; reflexivity.
      * destruct (execute tool _ _) as [[e|r] w']; injection H as <-;
          eexists; cbn [trace log append with_world];
          rewrite <- !app_assoc; split; reflexivity.
Qed.

Lemma take_turn_numbered (turn : nat) a (s : Step) a' :
  take_turn rt turn a = (s, a') ->
  exists evs,
    trace a'
    = (trace a ++ TurnStarted (turn + 1) (agent_max_turns a) :: evs)%list
    /\ filter is_turn_started evs = [].
Proof.
  unfold take_turn, query_llm. intros H.
  cbn [llm history log] in H.
  destruct (generate rt _ _) as [[e|r] l'].
  - injection H as <- <-. eexists.
    cbn [trace log append with_llm]. rewrite <- !app_assoc.
    split; reflexivity.
  - destruct (PyStr.contains r TERMINATE).
    + injection H as <- <-. eexists.
      cbn [trace log append with_llm]. rewrite <- !app_assoc.
      split; reflexivity.
    + destruct (_parse_tool_call (json_limits rt) r) as [e|tool_call] eqn:Hp.
      { injection H as <- <-. eexists.
      cbn [trace log append with_llm]. rewrite <- !app_assoc.
      split; reflexivity. }
      destruct (truthy tool_call).
      * destruct (execute_tool rt _ _) as [e|a3] eqn:Hx.
        -- injection H as <- <-. eexists.
           cbn [trace log append with_llm]. rewrite <- !app_assoc.
           split; reflexivity.
        -- injection H as <- <-.
           apply execute_tool_opens_no_turn in Hx as (evs & Ht & Hno).
           cbn [trace log append with_llm] in Ht.
           exists ([Querying; Generate (map to_json (history a));
                    ResponseLogged turn r] ++ evs)%list.
           rewrite Ht, <- !app_assoc. split; [reflexivity|].
           cbn [List.app filter is_turn_started]. exact Hno.
      * injection H as <- <-. eexists.
        cbn [trace log append with_llm]. rewrite <- !app_assoc.
        split; reflexivity.
Qed.

Lemma loop_numbered (n turn : nat) a (o : Outcome) a' :
  loop rt n turn a = (o, a') ->
  exists evs,
    trace a' = (trace a ++ evs)%list
    /\ filter is_turn_started evs
       = map (fun i => TurnStarted (i + 1) (agent_max_turns a))
             (seq turn (count is_generate evs)).
Proof.
  revert turn a. induction n as [|n IH]; intros turn a H; simpl in H.
  - injection H as <- <-. now exists [MaxTurnsReached].
  - destruct (take_turn rt turn a) as [s a1] eqn:Ht.
    pose proof (take_turn_effect rt _ _ _ _ Ht)
      as (Hm & evs0 & _ & Ht0 & _ & Hg & _).
    apply take_turn_numbered in Ht as (evs & Ht & Hno).
    rewrite Ht in Ht0. apply List.app_inv_head in Ht0. subst evs0.
    assert (Hfirst : filter is_turn_started
                       (TurnStarted (turn + 1) (agent_max_turns a) :: evs)
                     = [TurnStarted (turn + 1) (agent_max_turns a)])
      by (cbn [filter is_turn_started]; now rewrite Hno).
    destruct s as [|o1].
    + apply IH in H as (evs' & Ht' & Hnum).
      exists ((TurnStarted (turn + 1) (agent_max_turns a) :: evs) ++ evs')%list.
      rewrite Ht', Ht, <- app_assoc. split; [reflexivity|].
      rewrite filter_app, Hfirst, Hnum, count_app, Hg, Hm.
      reflexivity.
    + injection H as <- <-.
      exists (TurnStarted (turn + 1) (agent_max_turns a) :: evs).
      split; [exact Ht|]. now rewrite Hfirst, Hg.
Qed.

End NumberFacts.

(** X26. The turns of a run are numbered from 1 without a gap, and each
    turn sends exactly one query: the records that open a turn are, in
    order, those of the turns 1 to [q], each with the turn limit of the
    run, where [q] is the number of queries the run sent. *)
Theorem turns_are_numbered {World : Type} (rt : Runtime World) (dir : string)
  (debug : bool) (st : Startup) (w : World) (o : Outcome) (a : Agent rt) :
  run rt dir debug st w = Finished o a ->
  filter is_turn_started (trace a)
  = map (fun i => TurnStarted (i + 1) (agent_max_turns a))
        (seq 0 (queries a)).
Proof.
  intros H. apply run_finished in H as (a0 & a1 & Hinit & Hloop & ->).
  apply initialize_effect in Hinit as (_ & Hcount & _).
  pose proof (loop_effect rt _ _ _ _ _ Hloop) as (Hm & _).
  apply loop_numbered in Hloop as (evs & Ht & Hnum).
  assert (Hq : count is_generate (trace a0) = 0) by (now apply Hcount).
  assert (Hs : filter is_turn_started (trace a0) = []).
  { assert (Hz : count is_turn_started (trace a0) = 0) by (now apply Hcount).
    unfold count in Hz. now destruct (filter is_turn_started (trace a0)). }
  unfold queries. cbn [trace agent_max_turns log] in *.
  rewrite Ht, !filter_app, !count_app, Hs, Hq, Hnum, Hm.
  cbn [filter is_turn_started count is_generate List.app List.length].
  rewrite app_nil_r. unfold count. cbn [filter is_generate List.length].
  now rewrite Nat.add_0_r.
Qed.

Section PromptFacts.

Import PyStr PyStrFacts.

Lemma concat_member (sep x : string) (l : list string) :
  In x l ->
  exists pre post, String.concat sep l = pre ++ x ++ post.
Proof.
  induction l as [|y l IH]; [easy|].
  intros [->|Hin].
  - destruct l as [|z l].
    + exists "", "". simpl. now rewrite app_empty_r.
    + exists "", (sep ++ String.concat sep (z :: l)). reflexivity.
  - destruct (IH Hin) as (pre & post & E).
    destruct l as [|z l]; [easy|].
    exists (y ++ sep ++ pre), post.
    cbn [String.concat]. cbn [String.concat] in E. rewrite E.
    now rewrite !app_assoc.
Qed.

Lemma concat_snoc (sep x : string) (l : list string) :
  l <> [] ->
  String.concat sep (l ++ [x]) = String.concat sep l ++ sep ++ x.
Proof.
  induction l as [|y l IH]; [easy|]. intros _.
  destruct l as [|z l]; [reflexivity|].
  change (String.concat sep ((y :: z :: l) ++ [x]))
    with (y ++ sep ++ String.concat sep ((z :: l) ++ [x])).
  rewrite IH by discriminate.
  change (String.concat sep (y :: z :: l))
    with (y ++ sep ++ String.concat sep (z :: l)).
  now rewrite !app_assoc.
Qed.

End PromptFacts.

(** X27. The system prompt of a run is its first history entry. It opens
    with the introduction of the agent, holds the two lines that show the
    form of a tool call and of the termination, and names every registered
    tool with its description and the names and types of its arguments;
    when no tool is registered it says so. *)
Theorem system_prompt_names_the_tools {World : Type} (rt : Runtime World)
  (dir : string) (debug : bool) (st : Startup) (w : World) (o : Outcome)
  (a : Agent rt) :
  run rt dir debug st w = Finished o a ->
  exists prompt rest,
    history a = SystemPrompt prompt :: rest
    /\ PyStr.startswith prompt
         "You are WAA, an AI agent that builds and tests web applications."
       = true
    /\ (forall line,
          In line prompt_parts ->
          exists pre post, prompt = pre ++ line ++ post)
    /\ (forall t,
          In t (tool_registry a) ->
          exists pre post, prompt = pre ++ tool_desc t ++ post)
    /\ (tool_registry a = [] ->
        exists pre, prompt = pre ++ "No tools are available.").
Proof.
  intros H. apply run_finished in H as (a0 & a1 & Hinit & Hloop & ->).
  pose proof (loop_frame rt _ _ _ _ _ Hloop) as (Hr & _).
  pose proof (loop_entries rt _ _ _ _ _ Hloop) as (hs & Hh & _).
  cbn [history tool_registry log] in *.
  assert (Hp : exists text,
            history a0
            = [SystemPrompt
                 (String.concat newline
                    match tool_registry a0 with
                    | [] => (prompt_parts ++ ["No tools are available."])%list
                    | ts => (prompt_parts ++ map tool_desc ts)%list
                    end);
               UserInstruction text]).
  { clear Hloop Hr Hh. unfold initialize, initialize_environment in Hinit.
    destruct (config_file st) as [[e|c]|]; try discriminate.
    destruct (initialize_llm rt _) as [e|l]; [discriminate|].
    unfold initialize_logger in Hinit.
    destruct (log_exists st); [discriminate|].
    match type of Hinit with
    | match initialize_tool_registry _ ?x with _ => _ end = _ =>
        set (a1' := x) in *
    end.
    destruct (initialize_tool_registry rt a1') as [e|a2] eqn:Hreg;
      [discriminate|].
    unfold initialize_tool_registry in Hreg.
    pose proof (register_all_effect rt _ _ _ _ Hreg) as (Hh2 & _).
    unfold load_instruction in Hinit.
    destruct (instruction_file st) as [[e|text]|]; try discriminate.
    injection Hinit as <-. exists text.
    cbn [history tool_registry log append load_system_prompt].
    rewrite Hh2. reflexivity. }
  destruct Hp as (text & Hp). rewrite Hr, Hh, Hp.
  eexists _, _. split; [reflexivity|].
  set (parts := match tool_registry a0 with
                | [] => (prompt_parts ++ ["No tools are available."])%list
                | ts => (prompt_parts ++ map tool_desc ts)%list
                end).
  assert (Hparts : exists more, parts = (prompt_parts ++ more)%list).
  { subst parts. destruct (tool_registry a0); eauto. }
  split; [|split; [|split]].
  - destruct Hparts as (more & ->). unfold PyStr.startswith.
    cbn [prompt_parts List.app String.concat].
    apply PyStrFacts.prefix_app.
  - intros line Hin. apply concat_member.
    destruct Hparts as (more & ->). apply in_or_app. now left.
  - intros t Hin. apply concat_member. subst parts.
    destruct (tool_registry a0) as [|u ts] eqn:E; [easy|].
    apply in_or_app. right. now apply in_map.
  - intros Hnone. subst parts. rewrite Hnone.
    exists (String.concat newline prompt_parts ++ newline).
    rewrite concat_snoc by discriminate.
    now rewrite PyStrFacts.app_assoc.
Qed.

Section SpellingFacts.

Context {World : Type} (fs : FileSystem World).

(** X28. A path is protected by its spelling. The list of protected files
    is compared with the path as it is given, before it is resolved: when
    the given text is not in the list, [fs.write], [fs.delete] and
    [fs.edit] act exactly as they would with nothing protected, also on a
    path that resolves to a protected file. *)
Theorem protection_is_by_spelling (t : FsTool fs)
  (d : list (string * value)) (p : string) (w : World) :
  dict_get "path" d = Some (VStr p) ->
  protected fs t p = false ->
  write_execute fs t (VDict d) w = write_execute fs (unprotected t) (VDict d) w
  /\ delete_execute fs t (VDict d) w
     = delete_execute fs (unprotected t) (VDict d) w
  /\ edit_execute fs t (VDict d) w
     = edit_execute fs (unprotected t) (VDict d) w.
Proof.
  intros Hp Hprot. destruct t as [wd guarded].
  unfold protected in Hprot. cbn [tool_protected_files] in Hprot.
  repeat split;
    cbv beta iota zeta
        delta [write_execute delete_execute edit_execute subscript try_except
               bind reading ret resolve_in inside unprotected protected
               tool_working_dir tool_protected_files];
    rewrite Hp; cbv beta iota;
    repeat match goal with
           | |- context [dict_get ?k d] =>
               lazymatch k with
               | "path" => fail
               | _ => destruct (dict_get k d); [|reflexivity]
               end
           end;
    (destruct (resolve fs (join fs wd p) w) as [e|full]; [reflexivity|]);
    (destruct (resolve fs wd w) as [e|root]; [reflexivity|]);
    (destruct (negb (PyStr.startswith (str fs full) (str fs root)));
     [reflexivity|]);
    rewrite Hprot; reflexivity.
Qed.

End SpellingFacts.

(** ** What is written is what is read

    The decoder gives back every storable value from the text the encoder
    writes for it. *)

Ltac euclid := zify; Z.to_euclidean_division_equations; lia.

(** Comparisons of characters that are known. *)
Ltac known_chars :=
  repeat (cbv beta iota;
          match goal with
          | |- context [Ascii.eqb ?a ?b] =>
              let v := eval vm_compute in (Ascii.eqb a b) in
              change (Ascii.eqb a b) with v
          | |- context [Json.is_digit ?a] =>
              let v := eval vm_compute in (Json.is_digit a) in
              change (Json.is_digit a) with v
          | |- context [Json.is_ws ?a] =>
              let v := eval vm_compute in (Json.is_ws a) in
              change (Json.is_ws a) with v
          end);
  cbv beta iota.

(** Steps of the scanner over characters that are known. *)
Ltac walk :=
  repeat (progress (cbn [String.append Json.skip_ws Json.after];
                    known_chars)).

Section CodePointFacts.

Local Open Scope N_scope.

Lemma pack_two (p q : N) :
  p < 32 -> q < 64 ->
  let cp := p * 64 + q in cp / 64 = p /\ cp mod 64 = q.
Proof. intros Hp Hq cp. unfold cp. split; euclid. Qed.

Lemma pack_three (p q r : N) :
  p < 16 -> q < 64 -> r < 64 ->
  let cp := (p * 64 + q) * 64 + r in
  cp / 4096 = p /\ (cp / 64) mod 64 = q /\ cp mod 64 = r.
Proof. intros Hp Hq Hr cp. unfold cp. repeat split; euclid. Qed.

Lemma pack_four (p q r s : N) :
  p < 8 -> q < 64 -> r < 64 -> s < 64 ->
  let cp := ((p * 64 + q) * 64 + r) * 64 + s in
  cp / 262144 = p /\ (cp / 4096) mod 64 = q /\ (cp / 64) mod 64 = r
  /\ cp mod 64 = s.
Proof. intros Hp Hq Hr Hs cp. unfold cp. repeat split; euclid. Qed.

(** The surrogate pair of a code point above the basic plane, and the code
    point of the pair. *)
Lemma surrogates (c : N) :
  c < 1048576 ->
  let hi := 55296 + (c / 1024) mod 1024 in
  let lo := 56320 + c mod 1024 in
  55296 <= hi <= 56319 /\ 56320 <= lo <= 57343
  /\ 65536 + (hi - 55296) * 1024 + (lo - 56320) = 65536 + c.
Proof. intros H hi lo. unfold hi, lo. repeat split; euclid. Qed.

End CodePointFacts.

Section EscapeFacts.

Import Json JsonOut PyStrFacts.

Lemma hex_digit_char (k : N) :
  (k < 16)%N -> hex_digit (hex_char k) = Some k.
Proof.
  unfold N.lt. intros H. destruct k as [|p]; [reflexivity|].
  do 5 (try destruct p as [p|p|]); try discriminate H; reflexivity.
Qed.

Lemma hex4_u4 (n : N) :
  (n < 65536)%N ->
  hex4 (hex_char (n / 4096)) (hex_char ((n / 256) mod 16))
       (hex_char ((n / 16) mod 16)) (hex_char (n mod 16))
  = Some n.
Proof.
  intros H. unfold hex4.
  rewrite !hex_digit_char by euclid. f_equal. euclid.
Qed.

Lemma scan_escape_u (pending : option N) (h1 h2 h3 h4 : ascii) (t : string) :
  scanstring pending
    (String "\" (String "u" (String h1 (String h2 (String h3 (String h4 t))))))
  = match hex4 h1 h2 h3 h4 with
    | None => Raise JSONDecodeError
    | Some u =>
        match pending with
        | Some hi =>
            if is_low u then
              emit (utf8 (65536 + (hi - 55296) * 1024 + (u - 56320))%N)
                   (scanstring None t)
            else if is_high u then emit (utf8 hi) (scanstring (Some u) t)
            else emit (utf8 hi ++ utf8 u) (scanstring None t)
        | None =>
            if is_high u then scanstring (Some u) t
            else emit (utf8 u) (scanstring None t)
        end
    end.
Proof. reflexivity. Qed.

(** A code unit that is no surrogate is read back as its code point. *)
Lemma scan_u4 (u : N) (t : string) :
  (u < 65536)%N -> is_high u = false ->
  scanstring None (u4 u ++ t) = emit (utf8 u) (scanstring None t).
Proof.
  intros H Hh. unfold u4. cbn [String.append].
  now rewrite scan_escape_u, hex4_u4, Hh.
Qed.

(** A surrogate pair is read back as the code point it stands for. *)
Lemma scan_u4_pair (hi lo : N) (t : string) :
  (hi < 65536)%N -> (lo < 65536)%N -> is_high hi = true -> is_low lo = true ->
  scanstring None (u4 hi ++ u4 lo ++ t)
  = emit (utf8 (65536 + (hi - 55296) * 1024 + (lo - 56320))%N)
         (scanstring None t).
Proof.
  intros H1 H2 Hh Hl. unfold u4. cbn [String.append].
  rewrite scan_escape_u, hex4_u4, Hh by assumption.
  now rewrite scan_escape_u, hex4_u4, Hl.
Qed.

Lemma byte_of_ascii (a : ascii) : byte (N_of_ascii a) = String a EmptyString.
Proof. unfold byte. now rewrite ascii_N_embedding. Qed.

Lemma escape_code_wide (cp : N) :
  (127 <= cp)%N -> (cp < 65536)%N -> escape_code cp = u4 cp.
Proof.
  intros H1 H2. unfold escape_code.
  repeat match goal with
         | |- context [(cp =? ?k)%N] => destruct (N.eqb_spec cp k); [lia|]
         end.
  replace (cp <=? 126)%N with false by (symmetry; apply N.leb_gt; lia).
  rewrite andb_false_r.
  now replace (cp <? 65536)%N with true by (symmetry; apply N.ltb_lt; lia).
Qed.

Lemma escape_code_pair (cp : N) :
  (65536 <= cp)%N ->
  escape_code cp
  = u4 (55296 + ((cp - 65536) / 1024) mod 1024)
    ++ u4 (56320 + (cp - 65536) mod 1024).
Proof.
  intros H. unfold escape_code.
  repeat match goal with
         | |- context [(cp =? ?k)%N] => destruct (N.eqb_spec cp k); [lia|]
         end.
  replace (cp <=? 126)%N with false by (symmetry; apply N.leb_gt; lia).
  rewrite andb_false_r.
  now replace (cp <? 65536)%N with false by (symmetry; apply N.ltb_ge; lia).
Qed.

(** One ASCII character, escaped or not, is read back as itself. *)
Lemma scan_ascii (a : ascii) (t : string) :
  (N_of_ascii a <? 128)%N = true ->
  scanstring None (escape_code (N_of_ascii a) ++ t)
  = emit (String a EmptyString) (scanstring None t).
Proof.
  destruct a as [[] [] [] [] [] [] [] []]; intros H;
    first [reflexivity | vm_compute in H; discriminate H].
Qed.

Lemma continuation_bounds (b : ascii) :
  is_continuation b = true -> (128 <= N_of_ascii b < 192)%N.
Proof.
  unfold is_continuation. intros H. apply andb_prop in H as [H1 H2].
  apply N.leb_le in H1. apply N.ltb_lt in H2. lia.
Qed.

Lemma utf8_two (n x : N) :
  (194 <= n < 224)%N -> (128 <= x < 192)%N ->
  let cp := ((n mod 32) * 64 + x mod 64)%N in
  (128 <= cp < 2048)%N /\ utf8 cp = byte n ++ byte x.
Proof.
  intros Hn Hx.
  assert (E1 : (n mod 32 = n - 192)%N) by euclid.
  assert (E2 : (x mod 64 = x - 128)%N) by euclid.
  rewrite E1, E2. intros cp.
  destruct (pack_two (n - 192) (x - 128)) as (P1 & P2); try lia.
  fold cp in P1, P2.
  assert (Hcp : (128 <= cp < 2048)%N) by (unfold cp; lia).
  split; [assumption|]. unfold utf8.
  replace (cp <? 128)%N with false by (symmetry; apply N.ltb_ge; lia).
  replace (cp <? 2048)%N with true by (symmetry; apply N.ltb_lt; lia).
  rewrite P1, P2.
  replace (192 + (n - 192))%N with n by lia.
  now replace (128 + (x - 128))%N with x by lia.
Qed.

Lemma utf8_three (n x y : N) :
  (224 <= n < 240)%N -> (128 <= x < 192)%N -> (128 <= y < 192)%N ->
  (n = 224 -> 160 <= x)%N -> (n = 237 -> x < 160)%N ->
  let cp := (((n mod 16) * 64 + x mod 64) * 64 + y mod 64)%N in
  (2048 <= cp < 65536)%N /\ is_high cp = false
  /\ utf8 cp = byte n ++ byte x ++ byte y.
Proof.
  intros Hn Hx Hy Hlow Hsur.
  assert (E1 : (n mod 16 = n - 224)%N) by euclid.
  assert (E2 : (x mod 64 = x - 128)%N) by euclid.
  assert (E3 : (y mod 64 = y - 128)%N) by euclid.
  rewrite E1, E2, E3. intros cp.
  destruct (pack_three (n - 224) (x - 128) (y - 128)) as (P1 & P2 & P3);
    try lia.
  fold cp in P1, P2, P3.
  assert (Hcp : (2048 <= cp < 65536)%N) by (unfold cp; lia).
  assert (Hs : (cp < 55296 \/ 57344 <= cp)%N) by (unfold cp; lia).
  split; [assumption|]. split.
  - unfold is_high. destruct Hs as [Hs|Hs].
    + now replace (55296 <=? cp)%N with false
        by (symmetry; apply N.leb_gt; lia).
    + replace (cp <=? 56319)%N with false
        by (symmetry; apply N.leb_gt; lia).
      apply andb_false_r.
  - unfold utf8.
    replace (cp <? 128)%N with false by (symmetry; apply N.ltb_ge; lia).
    replace (cp <? 2048)%N with false by (symmetry; apply N.ltb_ge; lia).
    replace (cp <? 65536)%N with true by (symmetry; apply N.ltb_lt; lia).
    rewrite P1, P2, P3.
    replace (224 + (n - 224))%N with n by lia.
    replace (128 + (x - 128))%N with x by lia.
    now replace (128 + (y - 128))%N with y by lia.
Qed.

Lemma utf8_four (n x y z : N) :
  (240 <= n < 245)%N ->
  (128 <= x < 192)%N -> (128 <= y < 192)%N -> (128 <= z < 192)%N ->
  (n = 240 -> 144 <= x)%N -> (n = 244 -> x < 144)%N ->
  let cp :=
    ((((n mod 8) * 64 + x mod 64) * 64 + y mod 64) * 64 + z mod 64)%N in
  (65536 <= cp < 1114112)%N
  /\ utf8 cp = byte n ++ byte x ++ byte y ++ byte z.
Proof.
  intros Hn Hx Hy Hz Hlow Htop.
  assert (E1 : (n mod 8 = n - 240)%N) by euclid.
  assert (E2 : (x mod 64 = x - 128)%N) by euclid.
  assert (E3 : (y mod 64 = y - 128)%N) by euclid.
  assert (E4 : (z mod 64 = z - 128)%N) by euclid.
  rewrite E1, E2, E3, E4. intros cp.
  destruct (pack_four (n - 240) (x - 128) (y - 128) (z - 128))
    as (P1 & P2 & P3 & P4); try lia.
  fold cp in P1, P2, P3, P4.
  assert (Hcp : (65536 <= cp < 1114112)%N) by (unfold cp; lia).
  split; [assumption|]. unfold utf8.
  replace (cp <? 128)%N with false by (symmetry; apply N.ltb_ge; lia).
  replace (cp <? 2048)%N with false by (symmetry; apply N.ltb_ge; lia).
  replace (cp <? 65536)%N with false by (symmetry; apply N.ltb_ge; lia).
  rewrite P1, P2, P3, P4.
  replace (240 + (n - 240))%N with n by lia.
  replace (128 + (x - 128))%N with x by lia.
  replace (128 + (y - 128))%N with y by lia.
  now replace (128 + (z - 128))%N with z by lia.
Qed.

Lemma scan_two (a b : ascii) (t : string) :
  (194 <= N_of_ascii a < 224)%N -> is_continuation b = true ->
  scanstring None
    (escape_code ((N_of_ascii a mod 32) * 64 + cont b) ++ t)
  = emit (String a (String b EmptyString)) (scanstring None t).
Proof.
  intros Ha Hb. apply continuation_bounds in Hb. unfold cont.
  destruct (utf8_two _ _ Ha Hb) as (Hcp & E).
  rewrite escape_code_wide, scan_u4, E, !byte_of_ascii; try lia;
    [reflexivity|].
  unfold is_high.
  now replace (55296 <=? _)%N with false by (symmetry; apply N.leb_gt; lia).
Qed.

Lemma scan_three (a b c : ascii) (t : string) :
  (224 <= N_of_ascii a < 240)%N ->
  is_continuation b = true -> is_continuation c = true ->
  (N_of_ascii a = 224 -> 160 <= N_of_ascii b)%N ->
  (N_of_ascii a = 237 -> N_of_ascii b < 160)%N ->
  scanstring None
    (escape_code (((N_of_ascii a mod 16) * 64 + cont b) * 64 + cont c) ++ t)
  = emit (String a (String b (String c EmptyString))) (scanstring None t).
Proof.
  intros Ha Hb Hc Hlow Hsur.
  apply continuation_bounds in Hb. apply continuation_bounds in Hc.
  unfold cont.
  destruct (utf8_three _ _ _ Ha Hb Hc Hlow Hsur) as (Hcp & Hh & E).
  rewrite escape_code_wide, scan_u4, E, !byte_of_ascii; try lia;
    [reflexivity|assumption].
Qed.

Lemma scan_four (a b c d : ascii) (t : string) :
  (240 <= N_of_ascii a < 245)%N ->
  is_continuation b = true -> is_continuation c = true ->
  is_continuation d = true ->
  (N_of_ascii a = 240 -> 144 <= N_of_ascii b)%N ->
  (N_of_ascii a = 244 -> N_of_ascii b < 144)%N ->
  scanstring None
    (escape_code
       ((((N_of_ascii a mod 8) * 64 + cont b) * 64 + cont c) * 64 + cont d)
     ++ t)
  = emit (String a (String b (String c (String d EmptyString))))
         (scanstring None t).
Proof.
  intros Ha Hb Hc Hd Hlow Htop.
  apply continuation_bounds in Hb. apply continuation_bounds in Hc.
  apply continuation_bounds in Hd. unfold cont.
  destruct (utf8_four _ _ _ _ Ha Hb Hc Hd Hlow Htop) as (Hcp & E).
  set (cp := (((_ * 64 + _) * 64 + _) * 64 + _)%N) in *.
  rewrite escape_code_pair by lia.
  destruct (surrogates (cp - 65536)) as (Hhi & Hlo & Hback); [lia|].
  rewrite app_assoc, scan_u4_pair; try lia.
  - rewrite Hback. replace (65536 + (cp - 65536))%N with cp by lia.
    now rewrite E, !byte_of_ascii.
  - unfold is_high. apply andb_true_intro. split; apply N.leb_le; lia.
  - unfold is_low. apply andb_true_intro. split; apply N.leb_le; lia.
Qed.

(** The escaped text of a string, closed by a quote, is read back as the
    string. *)
Lemma scan_escaped (k : nat) :
  forall s rest,
    String.length s <= k -> utf8_ok s = true ->
    scanstring None (escape s ++ String quote rest) = Found s rest.
Proof.
  induction k as [|k IH]; intros s rest Hk Hok.
  - destruct s; [reflexivity|simpl in Hk; lia].
  - destruct s as [|a r]; [reflexivity|].
    cbn [utf8_ok escape] in *. cbv zeta in *.
    cbn [String.length] in Hk.
    destruct (N.ltb_spec (N_of_ascii a) 128) as [Hn|Hn].
    { replace (N_of_ascii a <? 192)%N with true
        by (symmetry; apply N.ltb_lt; lia).
      rewrite app_assoc, scan_ascii, IH by (try apply N.ltb_lt; auto; lia).
      reflexivity. }
    destruct (N.ltb_spec (N_of_ascii a) 194) as [Hn1|Hn1]; [discriminate|].
    replace (N_of_ascii a <? 192)%N with false
      by (symmetry; apply N.ltb_ge; lia).
    destruct r as [|b r2]; [discriminate|]. cbn [String.length] in Hk.
    destruct (N.ltb_spec (N_of_ascii a) 224) as [Hn2|Hn2].
    { apply andb_prop in Hok as [Hb Hok].
      rewrite app_assoc, scan_two, IH by (auto; lia). reflexivity. }
    destruct r2 as [|c r3]; [discriminate|]. cbn [String.length] in Hk.
    destruct (N.ltb_spec (N_of_ascii a) 240) as [Hn3|Hn3].
    { apply andb_prop in Hok as [Hok Hr].
      apply andb_prop in Hok as [Hok Hsur].
      apply andb_prop in Hok as [Hok Hlow].
      apply andb_prop in Hok as [Hb Hc].
      rewrite app_assoc, scan_three, IH; auto; try lia.
      - intros E. apply N.eqb_eq in E. rewrite E in Hlow.
        now apply N.leb_le in Hlow.
      - intros E. apply N.eqb_eq in E. rewrite E in Hsur.
        now apply N.ltb_lt in Hsur. }
    destruct r3 as [|d r4]; [discriminate|]. cbn [String.length] in Hk.
    apply andb_prop in Hok as [Hok Hr].
    apply andb_prop in Hok as [Hok Htop].
    apply andb_prop in Hok as [Hok Hlow].
    apply andb_prop in Hok as [Hok Hd].
    apply andb_prop in Hok as [Hok Hc].
    apply andb_prop in Hok as [Hn4 Hb].
    apply N.ltb_lt in Hn4.
    rewrite app_assoc, scan_four, IH; auto; try lia.
    + intros E. apply N.eqb_eq in E. rewrite E in Hlow.
      now apply N.leb_le in Hlow.
    + intros E. apply N.eqb_eq in E. rewrite E in Htop.
      now apply N.ltb_lt in Htop.
Qed.

Lemma scan_quoted (s rest : string) :
  utf8_ok s = true ->
  scanstring None (escape s ++ String quote rest) = Found s rest.
Proof. now apply (scan_escaped (String.length s)). Qed.

End EscapeFacts.

Section NumberFacts.

Import Json JsonOut.

Lemma ends_number_head (c : ascii) (r : string) :
  ends_number (String c r) = true ->
  is_digit c = false /\ Ascii.eqb c "." = false /\ Ascii.eqb c "e" = false
  /\ Ascii.eqb c "E" = false.
Proof.
  cbn [ends_number]. intros H. apply negb_true_iff in H.
  apply orb_false_iff in H as [H HE]. apply orb_false_iff in H as [H He].
  apply orb_false_iff in H as [H Hdot]. auto.
Qed.

Lemma take_digits_uint (d : Decimal.uint) (rest : string) :
  ends_number rest = true ->
  take_digits (NilEmpty.string_of_uint d ++ rest)
  = (NilEmpty.string_of_uint d, rest).
Proof.
  intros H.
  induction d; cbn [NilEmpty.string_of_uint String.append take_digits];
    try (rewrite IHd; reflexivity).
  destruct rest as [|c r]; [reflexivity|].
  apply ends_number_head in H as (H & _). cbn [take_digits]. now rewrite H.
Qed.

Ltac digit_value :=
  match goal with
  | |- context [Z.of_nat (PyStr.code ?c - 48)] =>
      let v := eval vm_compute in (Z.of_nat (PyStr.code c - 48)) in
      change (Z.of_nat (PyStr.code c - 48)) with v
  end.

Lemma Z_of_digits_acc (d : Decimal.uint) :
  forall acc,
    Z_of_digits (Zpos acc) (NilEmpty.string_of_uint d)
    = Zpos (Pos.of_uint_acc d acc).
Proof.
  induction d; intros acc;
    cbn [NilEmpty.string_of_uint Z_of_digits Pos.of_uint_acc];
    [reflexivity|..];
    digit_value; rewrite <- IHd; f_equal; lia.
Qed.

Lemma Z_of_digits_uint (d : Decimal.uint) :
  Z_of_digits 0 (NilEmpty.string_of_uint d) = Z.of_N (Pos.of_uint d).
Proof.
  induction d; cbn [NilEmpty.string_of_uint Z_of_digits Pos.of_uint];
    [reflexivity|..]; digit_value; cbn [Z.mul Z.add Z.of_N];
    first [assumption | apply Z_of_digits_acc].
Qed.

(** The digits of a positive number do not start with a zero. *)
Lemma to_uint_head (p : positive) :
  match Pos.to_uint p with
  | Decimal.Nil | Decimal.D0 _ => False
  | _ => True
  end.
Proof.
  pose proof (DecimalPos.Unsigned.to_of (Pos.to_uint p)) as H.
  rewrite DecimalPos.Unsigned.of_to in H. cbn [N.to_uint] in H.
  pose proof (DecimalPos.Unsigned.to_uint_nonnil p) as Hnil.
  pose proof (DecimalPos.Unsigned.to_uint_nonzero p) as Hzero.
  destruct (Pos.to_uint p) as [|d| | | | | | | | | ] eqn:E; auto.
  unfold Decimal.unorm in H. rewrite DecimalFacts.nzhead_D0 in H.
  destruct (Decimal.nzhead d) eqn:En; try discriminate H.
  - cbn in H. congruence.
  - now apply DecimalFacts.nzhead_nonzero in En.
Qed.

Lemma Z_of_to_uint (p : positive) :
  Z_of_digits 0 (NilEmpty.string_of_uint (Pos.to_uint p)) = Zpos p.
Proof.
  now rewrite Z_of_digits_uint, DecimalPos.Unsigned.of_to.
Qed.

Lemma match_frac_none (rest : string) :
  ends_number rest = true -> match_frac rest = (None, rest).
Proof.
  destruct rest as [|c r]; [reflexivity|]. intros H.
  apply ends_number_head in H as (_ & H & _).
  unfold match_frac, after. rewrite Ascii.eqb_sym. now rewrite H.
Qed.

Lemma match_exp_none (rest : string) :
  ends_number rest = true -> match_exp rest = (None, rest).
Proof.
  destruct rest as [|c r]; [reflexivity|]. intros H.
  apply ends_number_head in H as (_ & _ & He & HE).
  unfold match_exp. now rewrite He, HE.
Qed.

(** The digits of a positive number, as the integer part of a number. *)
Lemma match_int_digits (p : positive) (rest : string) :
  ends_number rest = true ->
  match_int (NilEmpty.string_of_uint (Pos.to_uint p) ++ rest)
  = Some (false, NilEmpty.string_of_uint (Pos.to_uint p), rest)
  /\ match_int (String "-" (NilEmpty.string_of_uint (Pos.to_uint p) ++ rest))
     = Some (true, NilEmpty.string_of_uint (Pos.to_uint p), rest).
Proof.
  intros H. pose proof (to_uint_head p) as Hd.
  destruct (Pos.to_uint p) as [|d|d|d|d|d|d|d|d|d|d]; try contradiction;
    cbn [NilEmpty.string_of_uint String.append];
    unfold match_int; cbn [after]; split; known_chars;
    now rewrite take_digits_uint.
Qed.

Lemma match_number_decimal (lim : Limits) (z : Z) (rest : string) :
  ends_number rest = true ->
  too_long lim (digits z) = false ->
  match_number lim (decimal z ++ rest) = Found (VInt z) rest.
Proof.
  intros H Hz. unfold digits, decimal in Hz. unfold decimal, match_number.
  destruct z as [|p|p];
    cbn [Z.abs Z.to_int NilEmpty.string_of_int String.append] in *.
  - cbn [NilEmpty.string_of_uint String.append].
    unfold match_int. cbn [after]. known_chars.
    now rewrite match_frac_none, match_exp_none.
  - destruct (match_int_digits p rest H) as [-> _].
    rewrite match_frac_none, match_exp_none by assumption.
    rewrite Hz. cbn [signed]. now rewrite Z_of_to_uint.
  - destruct (match_int_digits p rest H) as [_ ->].
    rewrite match_frac_none, match_exp_none by assumption.
    rewrite Hz. cbn [signed]. now rewrite Z_of_to_uint.
Qed.

(** The first character of a decimal numeral opens no string, array,
    object or constant. *)
Lemma decimal_head (z : Z) :
  exists c r,
    decimal z = String c r
    /\ (is_digit c || Ascii.eqb c "-") = true
    /\ (c = "-"%char -> exists c' r', r = String c' r' /\ is_digit c' = true).
Proof.
  unfold decimal.
  destruct z as [|p|p]; cbn [Z.to_int NilEmpty.string_of_int].
  - exists "0"%char, EmptyString. repeat split. discriminate.
  - pose proof (to_uint_head p) as Hd.
    destruct (Pos.to_uint p) as [|d|d|d|d|d|d|d|d|d|d]; try contradiction;
      cbn [NilEmpty.string_of_uint];
      eexists _, _; (split; [reflexivity|]); (split; [reflexivity|]);
      discriminate.
  - pose proof (to_uint_head p) as Hd.
    eexists _, _. split; [reflexivity|]. split; [reflexivity|]. intros _.
    destruct (Pos.to_uint p) as [|d|d|d|d|d|d|d|d|d|d]; try contradiction;
      cbn [NilEmpty.string_of_uint]; eexists _, _; split; reflexivity.
Qed.

Lemma digit_cases (c : ascii) :
  is_digit c = true ->
  c <> quote /\ c <> "{"%char /\ c <> "["%char /\ c <> "n"%char
  /\ c <> "t"%char /\ c <> "f"%char /\ c <> "N"%char /\ c <> "I"%char
  /\ c <> "-"%char.
Proof.
  intros H. repeat split; intros ->; discriminate H.
Qed.

(** A decimal numeral is scanned as the integer it denotes. *)
Lemma scan_decimal (lim : Limits) (fuel depth : nat) (z : Z)
  (rest : string) :
  ends_number rest = true ->
  too_long lim (digits z) = false ->
  scan_once lim (S fuel) depth (decimal z ++ rest) = Found (VInt z) rest.
Proof.
  intros H Hz. rewrite <- (match_number_decimal lim z rest H Hz).
  destruct (decimal_head z) as (c & r & E & Hc & Hneg). rewrite E.
  cbn [String.append scan_once after].
  apply orb_prop in Hc as [Hc|Hc].
  - apply digit_cases in Hc
      as (H1 & H2 & H3 & H4 & H5 & H6 & H7 & H8 & H9).
    apply Ascii.eqb_neq in H1, H2, H3. rewrite Ascii.eqb_sym in H1, H2, H3.
    unfold quote in *. rewrite H1, H2, H3.
    unfold scan_atom, literal.
    cbn [String.prefix].
    repeat match goal with
           | |- context [ascii_dec ?a c] =>
               destruct (ascii_dec a c) as [<-|_]; [congruence|]
           end.
    reflexivity.
  - apply Ascii.eqb_eq in Hc. subst c.
    destruct (Hneg eq_refl) as (c' & r' & -> & Hd).
    apply digit_cases in Hd as (_ & _ & _ & _ & _ & _ & _ & H8 & _).
    unfold scan_atom, literal. cbn [String.prefix String.append].
    destruct (ascii_dec "n" "-") as [?|_]; [discriminate|].
    destruct (ascii_dec "t" "-") as [?|_]; [discriminate|].
    destruct (ascii_dec "f" "-") as [?|_]; [discriminate|].
    destruct (ascii_dec "N" "-") as [?|_]; [discriminate|].
    destruct (ascii_dec "I" "-") as [?|_]; [discriminate|].
    destruct (ascii_dec "-" "-") as [_|?]; [|congruence].
    destruct (ascii_dec "I" c') as [<-|_]; [congruence|].
    reflexivity.
Qed.

End NumberFacts.

Section DocumentFacts.

Import Json JsonOut PyStrFacts.

Variable lim : Limits.
Variable float_repr : Z -> Z -> string.

Lemma value_nested_ind (P : value -> Prop) :
  P VNone -> (forall b, P (VBool b)) -> (forall z, P (VInt z)) ->
  (forall m e, P (VFloat m e)) -> P VNaN -> (forall b, P (VInf b)) ->
  (forall s, P (VStr s)) ->
  (forall l, Forall P l -> P (VList l)) ->
  (forall d, Forall (fun kv => P (snd kv)) d -> P (VDict d)) ->
  forall v, P v.
Proof.
  intros HN HB HI HF HNaN HInf HS HL HD. fix IH 1.
  intros [ |b|z|m e| |b|s|l|d];
    [exact HN|apply HB|apply HI|apply HF|exact HNaN|apply HInf|apply HS| | ].
  - apply HL. induction l as [|x l IHl]; constructor; [apply IH|exact IHl].
  - apply HD.
    induction d as [|[k x] d IHd]; constructor; [apply IH|exact IHd].
Qed.

Lemma encode_list (level : nat) (x : value) (l : list value) :
  encode float_repr level (VList (x :: l))
  = "[" ++ newline_indent (S level) ++ encode float_repr (S level) x
    ++ encoded_items float_repr (S level) l ++ newline_indent level ++ "]".
Proof.
  reflexivity.
Qed.

Lemma encode_dict (level : nat) (k : string) (x : value)
  (d : list (string * value)) :
  encode float_repr level (VDict ((k, x) :: d))
  = "{" ++ newline_indent (S level) ++ quoted (escape k) ++ ": "
    ++ encode float_repr (S level) x ++ encoded_members float_repr (S level) d
    ++ newline_indent level ++ "}".
Proof.
  cbn [JsonOut.encode]. do 6 f_equal.
  induction d as [|[k' y] d IHd]; [reflexivity|].
  cbn [encoded_members fold_right fst snd]. now rewrite IHd.
Qed.

Lemma skip_ws_spaces (n : nat) (s : string) :
  skip_ws (spaces n ++ s) = skip_ws s.
Proof. induction n as [|n IH]; [reflexivity|exact IH]. Qed.

Lemma skip_ws_indent (level : nat) (s : string) :
  skip_ws (newline_indent level ++ s) = skip_ws s.
Proof.
  unfold newline_indent, newline. cbn [String.append skip_ws].
  change (is_ws "010") with true. cbv iota. apply skip_ws_spaces.
Qed.

Lemma skip_ws_head (c : ascii) (r : string) :
  is_ws c = false -> skip_ws (String c r) = String c r.
Proof. intros H. cbn [skip_ws]. now rewrite H. Qed.

Lemma ends_number_indent (level : nat) (s : string) :
  ends_number (newline_indent level ++ s) = true.
Proof. reflexivity. Qed.

Lemma number_opens (c : ascii) :
  (is_digit c || Ascii.eqb c "-") = true -> opens c.
Proof.
  destruct c as [[] [] [] [] [] [] [] []]; intros H;
    try discriminate H; repeat split.
Qed.

Lemma encode_head (level : nat) (v : value) :
  storable v = true ->
  exists c r, encode float_repr level v = String c r /\ opens c.
Proof.
  destruct v as [ |[]|z|m e| |[]|s|[|x l]|[|[k x] d]]; intros H;
    try discriminate H;
    try (eexists _, _; split; [reflexivity|repeat split]).
  destruct (decimal_head z) as (c & r & E & Hc & _).
  exists c, r. split; [exact E|]. now apply number_opens.
Qed.

Lemma skip_ws_value (level : nat) (v : value) (t : string) :
  storable v = true ->
  skip_ws (encode float_repr level v ++ t) = encode float_repr level v ++ t.
Proof.
  intros H. destruct (encode_head level v H) as (c & r & -> & Hws & _).
  cbn [String.append]. now apply skip_ws_head.
Qed.

Lemma value_closes_nothing (level : nat) (v : value) (t : string) :
  storable v = true ->
  after "]" (encode float_repr level v ++ t) = None
  /\ after "}" (encode float_repr level v ++ t) = None.
Proof.
  intros H. destruct (encode_head level v H) as (c & r & -> & _ & H1 & H2).
  cbn [String.append after]. now rewrite H1, H2.
Qed.

Lemma length_indent (level : nat) (s : string) :
  String.length (newline_indent level ++ s)
  = S (2 * level + String.length s).
Proof.
  unfold newline_indent, newline. cbn [String.append String.length].
  f_equal. induction (2 * level) as [|n IH]; [reflexivity|].
  cbn [spaces String.append String.length Nat.add]. now rewrite IH.
Qed.

(** The loop over the items of an array. *)
Lemma array_loop (level : nat) :
  forall l x values fuel depth rest,
    Forall (fun v => storable v = true /\ within lim depth v = true
                     /\ read_back lim float_repr v) (x :: l) ->
    2 * String.length
          (encode float_repr (S level) x ++ encoded_items float_repr (S level) l) + 1
    < fuel ->
    json_array lim fuel depth
      (encode float_repr (S level) x
       ++ encoded_items float_repr (S level) l
       ++ newline_indent level ++ String "]" rest)
      values
    = Found (VList (values ++ x :: l)) rest.
Proof.
  induction l as [|y l IHl]; intros x values fuel depth rest Hall Hfuel;
    inversion Hall as [|? ? (Hx & Hin & Hback) Hl]; subst;
    (destruct fuel as [|fuel]; [lia|]);
    rewrite length_app in Hfuel; cbn [json_array].
  - cbn [encoded_items fold_right String.append String.length] in *.
    rewrite Hback by (try apply ends_number_indent; try assumption; lia).
    rewrite skip_ws_indent.
    reflexivity.
  - inversion Hl as [|? ? (Hy & _) _]; subst.
    cbn [encoded_items fold_right] in *.
    fold (encoded_items float_repr (S level) l) in *.
    cbn [String.append String.length] in Hfuel.
    rewrite length_indent, length_app in Hfuel.
    rewrite !app_assoc. cbn [String.append].
    rewrite Hback by (try reflexivity; try assumption; lia).
    rewrite skip_ws_head by reflexivity. cbn [after].
    change (Ascii.eqb "]" ",") with false.
    change (Ascii.eqb "," ",") with true. cbv iota.
    rewrite skip_ws_indent.
    rewrite skip_ws_value, IHl
      by (try assumption; rewrite length_app; lia).
    now rewrite <- List.app_assoc.
Qed.

Lemma after_quoted (s t : string) :
  after quote (quoted s ++ t) = Some (s ++ String quote t).
Proof.
  unfold quoted. cbn [String.append after].
  now rewrite Ascii.eqb_refl, app_assoc.
Qed.

Lemma after_quoted_none (c : ascii) (s t : string) :
  Ascii.eqb c quote = false -> after c (quoted s ++ t) = None.
Proof. intros H. unfold quoted. cbn [String.append after]. now rewrite H. Qed.

Lemma skip_ws_quoted (s t : string) :
  skip_ws (quoted s ++ t) = quoted s ++ t.
Proof. reflexivity. Qed.

(** The loop over the members of an object. *)
Lemma object_loop (level : nat) :
  forall d k x pairs fuel depth rest,
    Forall (fun kv => utf8_ok (fst kv) = true /\ storable (snd kv) = true
                      /\ within lim depth (snd kv) = true
                      /\ read_back lim float_repr (snd kv)) ((k, x) :: d) ->
    2 * String.length
          (quoted (escape k) ++ ": " ++ encode float_repr (S level) x
           ++ encoded_members float_repr (S level) d) + 1
    < fuel ->
    json_object lim fuel depth
      (quoted (escape k) ++ ": " ++ encode float_repr (S level) x
       ++ encoded_members float_repr (S level) d
       ++ newline_indent level ++ String "}" rest)
      pairs
    = Found (VDict (dict_of_pairs (pairs ++ (k, x) :: d))) rest.
Proof.
  induction d as [|[k' y] d IHd]; intros k x pairs fuel depth rest Hall Hfuel;
    inversion Hall as [|? ? (Hk & Hx & Hin & Hback) Hd]; subst;
    cbn [fst snd] in *;
    (destruct fuel as [|fuel]; [lia|]);
    rewrite !length_app in Hfuel; cbn [String.length] in Hfuel;
    cbn [json_object];
    rewrite after_quoted, scan_quoted by assumption; walk.
  - cbn [encoded_members fold_right String.append String.length] in *.
    rewrite skip_ws_value by assumption.
    rewrite Hback by (try apply ends_number_indent; try assumption; lia).
    rewrite skip_ws_indent.
    reflexivity.
  - inversion Hd as [|? ? (Hk' & Hy & _) _]; subst. cbn [fst snd] in *.
    cbn [encoded_members fold_right fst snd] in *.
    fold (encoded_members float_repr (S level) d) in *.
    cbn [String.append String.length] in Hfuel.
    rewrite length_indent, !length_app in Hfuel.
    cbn [String.length] in Hfuel. rewrite ?length_app in Hfuel.
    rewrite skip_ws_value by assumption.
    rewrite !app_assoc. cbn [String.append].
    rewrite Hback by (try reflexivity; try assumption; lia).
    rewrite skip_ws_head by reflexivity. cbn [after]. known_chars.
    rewrite skip_ws_indent.
    change (String ":" (String " " ?u)) with (": " ++ u).
    rewrite skip_ws_quoted, IHd
      by (try assumption; rewrite !length_app; cbn [String.length]; lia).
    now rewrite <- List.app_assoc.
Qed.

Lemma dict_set_fresh (k : string) (v : value) (d : list (string * value)) :
  existsb (String.eqb k) (map fst d) = false ->
  dict_set k v d = (d ++ [(k, v)])%list.
Proof.
  induction d as [|[k' v'] d IH]; [reflexivity|].
  cbn [map fst existsb dict_set List.app]. intros H.
  apply orb_false_iff in H as [H1 H2]. now rewrite H1, IH.
Qed.

Lemma distinct_fresh (k : string) (before rest : list string) :
  distinct (before ++ k :: rest) = true ->
  existsb (String.eqb k) before = false.
Proof.
  induction before as [|a before IH]; [reflexivity|].
  cbn [List.app distinct existsb]. intros H.
  apply andb_prop in H as [Ha H]. rewrite (IH H), orb_false_r.
  destruct (String.eqb_spec k a) as [->|]; [|reflexivity].
  rewrite existsb_app in Ha. cbn [existsb] in Ha.
  now rewrite String.eqb_refl, orb_true_r in Ha.
Qed.

Lemma distinct_tail (before rest : list string) :
  distinct (before ++ rest) = true -> distinct rest = true.
Proof.
  induction before as [|a before IH]; [auto|].
  cbn [List.app distinct]. intros H. apply andb_prop in H as [_ H]. auto.
Qed.

(** [dict(pairs)] of pairs with distinct keys keeps them as they are. *)
Lemma dict_of_distinct_pairs :
  forall d done,
    distinct (map fst (done ++ d)) = true ->
    fold_left (fun d kv => dict_set (fst kv) (snd kv) d) d done
    = (done ++ d)%list.
Proof.
  induction d as [|[k v] d IH]; intros done H; cbn [fold_left fst snd].
  - now rewrite List.app_nil_r.
  - rewrite dict_set_fresh, IH, <- List.app_assoc; [reflexivity| |].
    + now rewrite <- List.app_assoc.
    + rewrite map_app in H. cbn [map fst] in H.
      now apply distinct_fresh in H.
Qed.

Lemma storable_items (depth : nat) (l : list value) :
  Forall (fun v => storable v = true -> read_back lim float_repr v) l ->
  forallb storable l = true ->
  forallb (within lim depth) l = true ->
  Forall (fun v => storable v = true /\ within lim depth v = true
                   /\ read_back lim float_repr v) l.
Proof.
  induction 1 as [|x l Hx _ IH]; [constructor|].
  cbn [forallb]. intros H Hw. apply andb_prop in H as [H1 H2].
  apply andb_prop in Hw as [Hw1 Hw2].
  constructor; auto.
Qed.

Lemma storable_members (depth : nat) (d : list (string * value)) :
  Forall (fun kv => storable (snd kv) = true
                    -> read_back lim float_repr (snd kv)) d ->
  forallb (fun kv => utf8_ok (fst kv) && storable (snd kv)) d = true ->
  forallb (fun kv => within lim depth (snd kv)) d = true ->
  Forall (fun kv => utf8_ok (fst kv) = true /\ storable (snd kv) = true
                    /\ within lim depth (snd kv) = true
                    /\ read_back lim float_repr (snd kv)) d.
Proof.
  induction 1 as [|x l Hx _ IH]; [constructor|].
  cbn [forallb]. intros H Hw. apply andb_prop in H as [H1 H2].
  apply andb_prop in H1 as [Hk Hv]. apply andb_prop in Hw as [Hw1 Hw2].
  constructor; auto.
Qed.

(** Every storable value is read back from its text. *)
Lemma storable_read_back (v : value) :
  storable v = true -> read_back lim float_repr v.
Proof.
  induction v as [ |b|z|m e| |b|s|l IH|d IH] using value_nested_ind;
    intros Hv level rest fuel depth Hrest Hin Hfuel;
    (destruct fuel as [|fuel]; [lia|]).
  - destruct rest; reflexivity.
  - destruct b, rest; reflexivity.
  - apply scan_decimal; [assumption|].
    change (negb (too_long lim (digits z)) = true) in Hin.
    now apply negb_true_iff in Hin.
  - discriminate Hv.
  - destruct rest; reflexivity.
  - destruct b, rest; reflexivity.
  - cbn [JsonOut.encode scan_once].
    now rewrite after_quoted, scan_quoted.
  - destruct depth as [|depth]; [discriminate Hin|].
    destruct l as [|x l]; [reflexivity|].
    cbn [storable] in Hv. cbn [within] in Hin.
    apply (storable_items depth _ IH) in Hv; [|exact Hin].
    rewrite encode_list in *.
    rewrite !length_app in Hfuel. cbn [String.length] in Hfuel.
    rewrite !app_assoc. cbn [String.append scan_once after]. known_chars.
    inversion Hv as [|? ? (Hx & _) _]; subst.
    rewrite skip_ws_indent, skip_ws_value by assumption.
    destruct (value_closes_nothing (S level) x
                (encoded_items float_repr (S level) l
                 ++ newline_indent level ++ String "]" rest) Hx) as [-> _].
    rewrite array_loop by (try assumption; rewrite length_app; lia).
    reflexivity.
  - destruct depth as [|depth]; [discriminate Hin|].
    destruct d as [|[k x] d]; [reflexivity|].
    cbn [storable] in Hv. cbn [within] in Hin.
    apply andb_prop in Hv as [Hkeys Hv].
    apply (storable_members depth _ IH) in Hv; [|exact Hin].
    rewrite encode_dict in *.
    rewrite !length_app in Hfuel. cbn [String.length] in Hfuel.
    rewrite !app_assoc. cbn [String.append scan_once after]. known_chars.
    change (String ":" (String " " ?u)) with (": " ++ u).
    rewrite skip_ws_indent, skip_ws_quoted.
    rewrite after_quoted_none by reflexivity.
    rewrite object_loop
      by (try assumption; rewrite !length_app; cbn [String.length]; lia).
    unfold dict_of_pairs.
    now rewrite (dict_of_distinct_pairs _ []).
Qed.

(** [json.loads(json.dumps(v, indent=2))] is [v], for a value within the
    limits of the decoder. *)
Lemma loads_dumps (v : value) :
  storable v = true ->
  within lim (nesting lim) v = true ->
  loads lim (dumps float_repr v) = inr v.
Proof.
  intros H Hin. unfold loads, dumps.
  pose proof (skip_ws_value 0 v EmptyString H) as Hs.
  rewrite app_empty_r in Hs. rewrite Hs.
  pose proof (storable_read_back v H 0 EmptyString
                (enough (encode float_repr 0 v)) (nesting lim) eq_refl Hin)
    as Hr.
  rewrite app_empty_r in Hr. rewrite Hr by (unfold enough; lia).
  reflexivity.
Qed.

End DocumentFacts.

(** ** What the decoder returns is within its limits *)

Section DecodedFacts.

Import Json JsonOut.

Variable lim : Limits.

Lemma length_uint (d : Decimal.uint) :
  String.length (NilEmpty.string_of_uint d) = Decimal.nb_digits d.
Proof.
  induction d; cbn [NilEmpty.string_of_uint String.length Decimal.nb_digits];
    congruence.
Qed.

(** A digit in front of a numeral makes a numeral. *)
Lemma digit_uint (c : ascii) (d : Decimal.uint) :
  is_digit c = true ->
  exists d', String c (NilEmpty.string_of_uint d) = NilEmpty.string_of_uint d'
             /\ d' <> Decimal.Nil.
Proof.
  destruct c as [[] [] [] [] [] [] [] []]; intros H; try discriminate H;
    first [ exists (Decimal.D0 d); split; [reflexivity | discriminate]
          | exists (Decimal.D1 d); split; [reflexivity | discriminate]
          | exists (Decimal.D2 d); split; [reflexivity | discriminate]
          | exists (Decimal.D3 d); split; [reflexivity | discriminate]
          | exists (Decimal.D4 d); split; [reflexivity | discriminate]
          | exists (Decimal.D5 d); split; [reflexivity | discriminate]
          | exists (Decimal.D6 d); split; [reflexivity | discriminate]
          | exists (Decimal.D7 d); split; [reflexivity | discriminate]
          | exists (Decimal.D8 d); split; [reflexivity | discriminate]
          | exists (Decimal.D9 d); split; [reflexivity | discriminate] ].
Qed.

Lemma take_digits_numeral (s : string) :
  forall ds rest,
    take_digits s = (ds, rest) -> exists d, ds = NilEmpty.string_of_uint d.
Proof.
  induction s as [|c s IH]; intros ds rest; cbn [take_digits].
  - intros [= <- _]. now exists Decimal.Nil.
  - destruct (is_digit c) eqn:Hc.
    + destruct (take_digits s) as [ds' rest'].
      destruct (IH ds' rest' eq_refl) as (d & ->).
      intros [= <- _]. destruct (digit_uint c d Hc) as (d' & E & _).
      now exists d'.
    + intros [= <- _]. now exists Decimal.Nil.
Qed.

(** The integer part of a number is a numeral with a digit. *)
Lemma match_int_numeral (s ip r : string) (neg : bool) :
  match_int s = Some (neg, ip, r) ->
  exists d, ip = NilEmpty.string_of_uint d /\ d <> Decimal.Nil.
Proof.
  unfold match_int.
  destruct (after "-" s) as [s1|];
    [destruct s1 as [|c t] | destruct s as [|c t]]; try discriminate;
    (destruct (Ascii.eqb c "0");
     [intros [= _ <- _]; exists (Decimal.D0 Decimal.Nil);
      split; [reflexivity | discriminate]|]);
    (destruct (is_digit c) eqn:Hc; [|discriminate]);
    destruct (take_digits t) as [ds rest] eqn:Ht;
    destruct (take_digits_numeral _ _ _ Ht) as (d & ->);
    intros [= _ <- _]; destruct (digit_uint c d Hc) as (d' & E & Hn);
    now exists d'.
Qed.

(** The integer that a numeral denotes has no more digits than the
    numeral. *)
Lemma digits_of_numeral (d : Decimal.uint) (neg : bool) :
  d <> Decimal.Nil ->
  digits (signed neg (Z_of_digits 0 (NilEmpty.string_of_uint d)))
  <= String.length (NilEmpty.string_of_uint d).
Proof.
  intros Hd. rewrite Z_of_digits_uint, length_uint.
  assert (E : Z.abs (signed neg (Z.of_N (Pos.of_uint d)))
              = Z.of_N (Pos.of_uint d)) by (destruct neg; cbn [signed]; lia).
  unfold digits, decimal. rewrite E.
  assert (Hu : Z.to_int (Z.of_N (Pos.of_uint d))
               = Decimal.Pos (N.to_uint (Pos.of_uint d)))
    by now destruct (Pos.of_uint d).
  rewrite Hu, DecimalPos.Unsigned.to_of.
  cbn [NilEmpty.string_of_int]. rewrite length_uint.
  now apply DecimalFacts.nb_digits_unorm.
Qed.

Lemma too_long_le (n m : nat) :
  n <= m -> too_long lim m = false -> too_long lim n = false.
Proof.
  unfold too_long. intros Hle H.
  destruct (Nat.ltb_spec 640 m), (Nat.ltb_spec 0 (int_max_str_digits lim)),
    (Nat.ltb_spec (int_max_str_digits lim) m); try discriminate H;
    destruct (Nat.ltb_spec 640 n), (Nat.ltb_spec (int_max_str_digits lim) n);
    cbn [andb]; try reflexivity; lia.
Qed.

Lemma match_number_within (depth : nat) (s : string) (v : value)
  (r : string) :
  match_number lim s = Found v r -> within lim depth v = true.
Proof.
  unfold match_number.
  destruct (match_int s) as [[[neg ip] r0]|] eqn:Hi; [|discriminate].
  destruct (match_int_numeral _ _ _ _ Hi) as (d & -> & Hd).
  destruct (match_frac r0) as [f r1]. destruct (match_exp r1) as [x r2].
  destruct f, x; try (intros [= <- _]; reflexivity).
  destruct (too_long lim _) eqn:Hl; [discriminate|].
  intros [= <- _]. cbn [within]. apply negb_true_iff.
  apply (too_long_le _ _ (digits_of_numeral d neg Hd) Hl).
Qed.

Lemma literal_within (depth : nat) (name : string) (c v : value)
  (s r : string) :
  within lim depth c = true ->
  literal name c s = Some (Found v r) -> within lim depth v = true.
Proof.
  unfold literal. intros Hc. destruct (String.prefix name s); [|discriminate].
  now intros [= <- _].
Qed.

Lemma literal_found (name : string) (c : value) (s : string)
  (x : scan value) :
  literal name c s = Some x -> exists r, x = Found c r.
Proof.
  unfold literal. destruct (String.prefix name s); [|discriminate].
  intros [= <-]. eauto.
Qed.

Lemma scan_atom_within (depth : nat) (s : string) (v : value) (r : string) :
  scan_atom lim s = Found v r -> within lim depth v = true.
Proof.
  unfold scan_atom.
  repeat match goal with
         | |- context [literal ?n ?c s] =>
             let H := fresh "H" in
             destruct (literal n c s) as [x|] eqn:H;
             [apply literal_found in H as (r' & ->);
              now intros [= <- _] |]
         end.
  apply match_number_within.
Qed.

Lemma within_dict_set (depth : nat) (k : string) (v : value)
  (d : list (string * value)) :
  within lim depth v = true ->
  forallb (fun kv => within lim depth (snd kv)) d = true ->
  forallb (fun kv => within lim depth (snd kv)) (dict_set k v d) = true.
Proof.
  intros Hv. induction d as [|[k' v'] d IH]; cbn [dict_set forallb snd].
  - now rewrite Hv.
  - intros H. apply andb_prop in H as [H1 H2].
    destruct (String.eqb k k'); cbn [forallb snd].
    + now rewrite Hv, H2.
    + now rewrite H1, IH.
Qed.

Lemma within_dict_of_pairs (depth : nat) (pairs : list (string * value)) :
  forallb (fun kv => within lim depth (snd kv)) pairs = true ->
  forallb (fun kv => within lim depth (snd kv)) (dict_of_pairs pairs) = true.
Proof.
  unfold dict_of_pairs.
  assert (G : forall done,
            forallb (fun kv => within lim depth (snd kv)) done = true ->
            forallb (fun kv => within lim depth (snd kv)) pairs = true ->
            forallb (fun kv => within lim depth (snd kv))
              (fold_left (fun d kv => dict_set (fst kv) (snd kv) d) pairs done)
            = true).
  { induction pairs as [|[k v] pairs IH]; intros done Hd Hp;
      cbn [fold_left forallb fst snd] in *; [exact Hd|].
    apply andb_prop in Hp as [Hv Hp].
    apply IH; [|exact Hp]. now apply within_dict_set. }
  now apply G.
Qed.

(** What the scanner finds is within the budget it was given. *)
Lemma scan_within :
  forall fuel,
    (forall depth s v r,
        scan_once lim fuel depth s = Found v r -> within lim depth v = true)
    /\ (forall depth s values v r,
          forallb (within lim depth) values = true ->
          json_array lim fuel depth s values = Found v r ->
          within lim (S depth) v = true)
    /\ (forall depth s pairs v r,
          forallb (fun kv => within lim depth (snd kv)) pairs = true ->
          json_object lim fuel depth s pairs = Found v r ->
          within lim (S depth) v = true).
Proof.
  induction fuel as [|fuel (IHs & IHa & IHo)];
    [repeat split; intros; discriminate|].
  repeat split.
  - intros depth s v r. cbn [scan_once].
    destruct (after quote s) as [r1|].
    { destruct (scanstring None r1); try discriminate.
      now intros [= <- _]. }
    destruct (after "{" s) as [r1|].
    { destruct depth as [|depth]; [discriminate|].
      destruct (after "}" (skip_ws r1)); [now intros [= <- _]|].
      now apply IHo. }
    destruct (after "[" s) as [r1|].
    { destruct depth as [|depth]; [discriminate|].
      destruct (after "]" (skip_ws r1)); [now intros [= <- _]|].
      now apply IHa. }
    apply scan_atom_within.
  - intros depth s values v r Hvs. cbn [json_array].
    destruct (scan_once lim fuel depth s) as [x r1| |] eqn:Hx;
      try discriminate.
    apply IHs in Hx.
    assert (Hall : forallb (within lim depth) (values ++ [x]) = true)
      by (rewrite forallb_app, Hvs; cbn [forallb]; now rewrite Hx).
    destruct (after "]" (skip_ws r1)); [now intros [= <- _]|].
    destruct (after "," (skip_ws r1)); [|discriminate].
    now apply IHa.
  - intros depth s pairs v r Hps. cbn [json_object].
    destruct (after quote s) as [r0|]; [|discriminate].
    destruct (scanstring None r0) as [key r1| |]; try discriminate.
    destruct (after ":" (skip_ws r1)) as [r2|]; [|discriminate].
    destruct (scan_once lim fuel depth (skip_ws r2)) as [x r3| |] eqn:Hx;
      try discriminate.
    apply IHs in Hx.
    assert (Hall : forallb (fun kv => within lim depth (snd kv))
                     (pairs ++ [(key, x)]) = true)
      by (rewrite forallb_app, Hps; cbn [forallb snd]; now rewrite Hx).
    destruct (after "}" (skip_ws r3)).
    { intros [= <- _]. cbn [within]. now apply within_dict_of_pairs. }
    destruct (after "," (skip_ws r3)); [|discriminate].
    now apply IHo.
Qed.

(** What [json.loads] returns is within the limits of the decoder. *)
Lemma loads_within (s : string) (v : value) :
  loads lim s = inr v -> within lim (nesting lim) v = true.
Proof.
  unfold loads.
  destruct (scan_once lim _ (nesting lim) (skip_ws s)) as [x r| |] eqn:Hx;
    try discriminate.
  destruct (skip_ws r); [|discriminate]. intros [= <-].
  now apply (proj1 (scan_within _)) in Hx.
Qed.

End DecodedFacts.

Section TodoFileFacts.

Context {World : Type} (fs : FileSystem World) (py : Interpreter World).

Lemma read_written (t : TodoTool fs) (todos : value) (w : World) :
  storable todos = true ->
  within (decode_limits py) (Json.nesting (decode_limits py)) todos = true ->
  path_exists fs (todo_file fs t) w = true ->
  read_text fs (todo_file fs t) w
  = inr (JsonOut.dumps (float_repr py) todos) ->
  _read_todos fs py t w = (inr todos, w).
Proof.
  intros Hs Hin He Hr. rewrite read_todos_cases, He, Hr. cbn [negb].
  now rewrite loads_dumps.
Qed.

(** A list that [_read_todos] returns is within the limits of the decoder
    one level below the list. *)
Lemma read_within (t : TodoTool fs) (items : list value) (w w' : World) :
  _read_todos fs py t w = (inr (VList items), w') ->
  forall inner,
    Json.nesting (decode_limits py) = S inner ->
    forallb (within (decode_limits py) inner) items = true.
Proof.
  rewrite read_todos_cases. intros H inner Hn.
  destruct (negb (path_exists fs (todo_file fs t) w)).
  - now injection H as <- _.
  - destruct (read_text fs (todo_file fs t) w) as [e|text];
      [discriminate|].
    destruct (Json.loads (decode_limits py) text) as [e|todos] eqn:Hl;
      [discriminate|].
    injection H as -> _. apply loads_within in Hl.
    now rewrite Hn in Hl.
Qed.

(** X29. What [_write_todos] writes, [_read_todos] reads. On a file
    system that keeps what is written (after the writing the to-do file is
    there and holds the text that was written), for a value that holds no
    float given by a literal, whose texts and keys are encodings of code
    points, whose objects have one binding per key, and that is within
    what the decoder takes (its arrays and objects nested no deeper than
    the recursion limit leaves, its integers of no more digits than [int]
    converts), writing the value and then reading the file returns the
    value, and the file system is as the writing left it. *)
Theorem written_todos_are_read_back (t : TodoTool fs) (todos : value)
  (w w' : World) :
  storable todos = true ->
  within (decode_limits py) (Json.nesting (decode_limits py)) todos = true ->
  _write_todos fs py t todos w = (inr tt, w') ->
  path_exists fs (todo_file fs t) w' = true ->
  read_text fs (todo_file fs t) w'
  = inr (JsonOut.dumps (float_repr py) todos) ->
  bind (_write_todos fs py t todos) (fun _ => _read_todos fs py t) w
  = (inr todos, w').
Proof.
  intros Hs Hin Hw He Hr.
  rewrite (bind_returned _ _ _ _ _ Hw). now apply read_written.
Qed.

Lemma storable_new_todo (new_id : Z) (description created : string) :
  utf8_ok description = true -> utf8_ok created = true ->
  storable (new_todo (VInt new_id) (VStr description) created) = true.
Proof.
  intros Hd Hc. unfold new_todo. cbn [storable map fst snd forallb].
  rewrite Hd, Hc. reflexivity.
Qed.

Lemma within_new_todo (lim : Json.Limits) (inner : nat) (new_id : Z)
  (description created : string) :
  Json.too_long lim (digits new_id) = false ->
  within lim (S inner) (new_todo (VInt new_id) (VStr description) created)
  = true.
Proof.
  intros H. unfold new_todo. cbn [within forallb snd]. now rewrite H.
Qed.

(** X30. An item that [todo.add] has added is listed. On a file system
    that keeps what is written, after [todo.add] on a storable list whose
    ids are integers, with a description and a time that are encodings of
    code points, [todo.list] without a filter answers with the items that
    were there, in their order, then the new item, and with their number;
    the decoder is one that takes a list of objects, and the new id has no
    more digits than [int] converts. *)
Theorem added_item_is_listed (t : TodoTool fs) (d : list (string * value))
  (description : string) (items ids : list value) (zs : list Z)
  (new_id : Z) (todos : value) (w w' : World) :
  dict_get "description" d = Some (VStr description) ->
  utf8_ok description = true ->
  utf8_ok (now_isoformat py w) = true ->
  _read_todos fs py t w = (inr (VList items), w) ->
  storable (VList items) = true ->
  ids_of items = inr ids ->
  ints ids = Some zs ->
  new_id = (fold_left Z.max zs 0 + 1)%Z ->
  todos = VList (items ++ [new_todo (VInt new_id) (VStr description)
                             (now_isoformat py w)]) ->
  _write_todos fs py t todos w = (inr tt, w') ->
  path_exists fs (todo_file fs t) w' = true ->
  read_text fs (todo_file fs t) w'
  = inr (JsonOut.dumps (float_repr py) todos) ->
  2 <= Json.nesting (decode_limits py) ->
  Json.too_long (decode_limits py) (digits new_id) = false ->
  add_execute fs py t (VDict d) w
  = (inr (success (message_of ("TODO item added with ID: "
                               ++ JsonOut.decimal new_id ++ "."))), w')
  /\ list_execute fs py t (VDict []) w'
     = (inr (success [("todos", todos);
                      ("count", VInt (Z.of_nat (S (List.length items))))]),
        w').
Proof.
  intros Hd Hdesc Hnow Hread Hitems Hids Hints -> -> Hwrite Hthere Htext
    Hnest Hdigits.
  split.
  - unfold add_execute, try_except.
    rewrite (bind_returned _ _ _ _ _ Hread).
    cbn [iterate]. rewrite bind_lift_value, Hids, bind_lift_value.
    unfold next_id. rewrite Hints, bind_lift_value.
    unfold subscript. rewrite Hd, bind_lift_value, bind_asking.
    cbn [py_append]. rewrite bind_lift_value.
    unfold bind at 1. now rewrite Hwrite.
  - assert (Hback : _read_todos fs py t w'
                    = (inr (VList (items
                                   ++ [new_todo
                                         (VInt (fold_left Z.max zs 0 + 1)%Z)
                                         (VStr description)
                                         (now_isoformat py w)])), w')).
    { apply read_written; [| |assumption..].
      - cbn [storable] in *. rewrite forallb_app, Hitems.
        cbn [forallb]. now rewrite storable_new_todo.
      - destruct (Json.nesting (decode_limits py)) as [|[|inner]] eqn:Hn;
          [lia | lia |].
        cbn [within]. rewrite forallb_app.
        rewrite (read_within _ _ _ _ Hread _ Hn). cbn [forallb].
        now rewrite within_new_todo. }
    unfold list_execute, try_except. cbn [get_default dict_get].
    rewrite bind_lift_value.
    cbn [allowed_statuses existsb py_eq String.eqb Ascii.eqb Bool.eqb orb
           negb].
    rewrite (bind_returned _ _ _ _ _ Hback).
    cbn [negb]. unfold bind, ret, lift. cbn [py_len].
    rewrite length_app. cbn [List.length]. now rewrite Nat.add_1_r.
Qed.

End TodoFileFacts.

Lemma refused_when_not_a_string_prefix_witness :
  dict_get "path" [("path", VStr "../elsewhere/notes.txt")]
  = Some (VStr "../elsewhere/notes.txt")
  /\ resolve mem_fs
       (join mem_fs (tool_working_dir mem_fs (Scenario.fs_tool_state []))
             "../elsewhere/notes.txt")
       Scenario.disk
     = inr ["w"; "elsewhere"; "notes.txt"]
  /\ resolve mem_fs (tool_working_dir mem_fs (Scenario.fs_tool_state []))
       Scenario.disk
     = inr ["w"; "proj"]
  /\ PyStr.startswith (str mem_fs ["w"; "elsewhere"; "notes.txt"])
       (str mem_fs ["w"; "proj"])
     = false
  /\ mkdir_execute mem_fs (Scenario.fs_tool_state [])
       (VDict [("path", VStr "../elsewhere/notes.txt")]) Scenario.disk
     = (inr (outside_error "../elsewhere/notes.txt"), Scenario.disk)
  /\ tree_execute mem_fs (Scenario.fs_tool_state [])
       (VDict [("path", VStr "../elsewhere/notes.txt")]) Scenario.disk
     = (inr (outside_error "../elsewhere/notes.txt"), Scenario.disk).
Proof.
  split; [reflexivity|]. split; [reflexivity|]. split; [reflexivity|].
  split; [reflexivity|].
  destruct (refused_when_not_a_string_prefix mem_fs
              (Scenario.fs_tool_state [])
              [("path", VStr "../elsewhere/notes.txt")]
              "../elsewhere/notes.txt" Scenario.disk
              ["w"; "elsewhere"; "notes.txt"] ["w"; "proj"]
              eq_refl eq_refl eq_refl eq_refl)
    as (_ & _ & _ & _ & Hmk & _ & _ & Htree).
  split; [exact Hmk | exact Htree].
Defined.

(** * The properties at work on the concrete installation *)

Lemma registry_is_the_allowed_tools_witness :
  run Scenario.runtime Scenario.dir false (Scenario.startup Cases.restricted)
      Scenario.disk
  = Finished (Explicit "Done.")
      (Scenario.final
         (run Scenario.runtime Scenario.dir false
              (Scenario.startup Cases.restricted) Scenario.disk))
  /\ exists c,
       config_file (Scenario.startup Cases.restricted) = Some (inr c)
       /\ map name
            (tool_registry
               (Scenario.final
                  (run Scenario.runtime Scenario.dir false
                       (Scenario.startup Cases.restricted) Scenario.disk)))
          = ["fs.read"; "fs.mkdir"]
       /\ get_tool Scenario.runtime
            (tool_registry
               (Scenario.final
                  (run Scenario.runtime Scenario.dir false
                       (Scenario.startup Cases.restricted) Scenario.disk)))
            (VStr "fs.write")
          = inl (tool_not_found Scenario.runtime (VStr "fs.write")).
Proof.
  assert (E : run Scenario.runtime Scenario.dir false
                  (Scenario.startup Cases.restricted) Scenario.disk
              = Finished (Explicit "Done.")
                  (Scenario.final
                     (run Scenario.runtime Scenario.dir false
                          (Scenario.startup Cases.restricted) Scenario.disk)))
    by (apply Scenario_finished; vm_compute; reflexivity).
  split; [exact E|].
  destruct (registry_is_the_allowed_tools Scenario.runtime Scenario.dir false
              (Scenario.startup Cases.restricted) Scenario.disk
              (Explicit "Done.") _ E)
    as (c & Hc & Hreg & _ & _ & Hout & _).
  exists c. split; [exact Hc|]. split.
  - rewrite Hreg. injection Hc as <-. reflexivity.
  - apply (Hout ["fs.mkdir"; "fs.read"; "tests.run"]).
    + now injection Hc as <-.
    + vm_compute. intuition discriminate.
Defined.

Lemma history_of_a_run_witness :
  run Scenario.runtime Scenario.dir false (Scenario.startup Cases.restricted)
      Scenario.disk
  = Finished (Explicit "Done.")
      (Scenario.final
         (run Scenario.runtime Scenario.dir false
              (Scenario.startup Cases.restricted) Scenario.disk))
  /\ exists prompt text hs,
       instruction_file (Scenario.startup Cases.restricted)
       = Some (inr text)
       /\ history
            (Scenario.final
               (run Scenario.runtime Scenario.dir false
                    (Scenario.startup Cases.restricted) Scenario.disk))
          = SystemPrompt prompt :: UserInstruction text :: hs
       /\ Turns Scenario.limits hs.
Proof.
  assert (E : run Scenario.runtime Scenario.dir false
                  (Scenario.startup Cases.restricted) Scenario.disk
              = Finished (Explicit "Done.")
                  (Scenario.final
                     (run Scenario.runtime Scenario.dir false
                          (Scenario.startup Cases.restricted) Scenario.disk)))
    by (apply Scenario_finished; vm_compute; reflexivity).
  split; [exact E|].
  exact (history_of_a_run Scenario.runtime Scenario.dir false
           (Scenario.startup Cases.restricted) Scenario.disk
           (Explicit "Done.") _ E).
Defined.


Lemma failed_query_ends_the_run_witness :
  generate Offline.runtime (llm Offline.ready)
    (map to_json (history Offline.ready))
  = (inl (Exn OtherError "Gemini API error: 503 Service Unavailable"),
     GeminiLLM Offline.runtime "gemini-2.5-flash")
  /\ exists a',
       take_turn Offline.runtime 0 Offline.ready = (Stop EmptyResponse, a')
       /\ loop Offline.runtime 50 0 Offline.ready = (EmptyResponse, a')
       /\ history a' = history Offline.ready
       /\ world a' = world Offline.ready.
Proof.
  split; [reflexivity|].
  destruct (failed_query_ends_the_run Offline.runtime 0 Offline.ready
              (Exn OtherError "Gemini API error: 503 Service Unavailable")
              (GeminiLLM Offline.runtime "gemini-2.5-flash") eq_refl)
    as (a' & Ht & Hl & Hh & Hw & _).
  exists a'. split; [exact Ht|]. split; [exact (Hl 49)|]. now split.
Defined.

Lemma tool_outcome_is_recorded_witness :
  truthy (requested_tool [("tool", VStr "fs.mkdir");
                          ("arguments", VDict [("path", VStr "a")])])
  = true
  /\ get_tool Scenario.runtime (tool_registry (Scenario.ready []))
       (requested_tool [("tool", VStr "fs.mkdir");
                        ("arguments", VDict [("path", VStr "a")])])
     = inr Cases.mkdir_tool
  /\ validate Cases.mkdir_tool
       (requested_arguments [("tool", VStr "fs.mkdir");
                             ("arguments", VDict [("path", VStr "a")])])
     = None
  /\ execute Cases.mkdir_tool
       (requested_arguments [("tool", VStr "fs.mkdir");
                             ("arguments", VDict [("path", VStr "a")])])
       (world (Scenario.ready []))
     = (inr (success (message_of "Successfully created directory a.")),
        (Scenario.disk ++ [(["w"; "proj"; "a"], MemFs.Dir)])%list)
  /\ exists a',
       execute_tool Scenario.runtime
         (VDict [("tool", VStr "fs.mkdir");
                 ("arguments", VDict [("path", VStr "a")])])
         (Scenario.ready [])
       = inr a'
       /\ history a'
          = (history (Scenario.ready [])
             ++ [ToolCallResult (VStr "fs.mkdir") (VDict [("path", VStr "a")])
                   (success (message_of
                               "Successfully created directory a."))])%list
       /\ world a' = (Scenario.disk ++ [(["w"; "proj"; "a"], MemFs.Dir)])%list
       /\ executions a' = executions (Scenario.ready []) + 1.
Proof.
  split; [reflexivity|]. split; [reflexivity|]. split; [reflexivity|].
  split; [reflexivity|].
  exact (tool_outcome_is_recorded Scenario.runtime
           [("tool", VStr "fs.mkdir");
            ("arguments", VDict [("path", VStr "a")])]
           (Scenario.ready []) Cases.mkdir_tool
           (inr (success (message_of "Successfully created directory a.")))
           (Scenario.disk ++ [(["w"; "proj"; "a"], MemFs.Dir)])%list
           eq_refl eq_refl eq_refl eq_refl).
Defined.

Lemma tool_call_that_is_no_object_raises_witness :
  generate Scenario.runtime (llm (Scenario.ready [Cases.array_block]))
    (map to_json (history (Scenario.ready [Cases.array_block])))
  = (inr Cases.array_block,
     MockLLM Scenario.runtime (Llm.Mock [Cases.array_block] 1))
  /\ PyStr.contains Cases.array_block TERMINATE = false
  /\ _parse_tool_call Scenario.limits Cases.array_block
     = inr (VList [VInt 1])
  /\ exists a',
       take_turn Scenario.runtime 0 (Scenario.ready [Cases.array_block])
       = (Stop (Raised (Exn OtherError
                          "'list' object has no attribute 'get'")), a')
       /\ history a'
          = (history (Scenario.ready [Cases.array_block])
             ++ [LLMResponse Cases.array_block])%list
       /\ executions a' = executions (Scenario.ready [Cases.array_block]).
Proof.
  split; [reflexivity|]. split; [reflexivity|]. split; [reflexivity|].
  destruct (tool_call_that_is_no_object_raises Scenario.runtime 0
              (Scenario.ready [Cases.array_block]) Cases.array_block
              (MockLLM Scenario.runtime (Llm.Mock [Cases.array_block] 1))
              (VList [VInt 1]) eq_refl eq_refl eq_refl eq_refl eq_refl)
    as (a' & Ht & _ & Hh & _ & Hx).
  exists a'. split; [exact Ht|]. now split.
Defined.

Lemma tool_call_turn_goes_on_witness :
  generate Scenario.runtime (llm (Scenario.ready [Scenario.unknown_tool_block]))
    (map to_json (history (Scenario.ready [Scenario.unknown_tool_block])))
  = (inr Scenario.unknown_tool_block,
     MockLLM Scenario.runtime (Llm.Mock [Scenario.unknown_tool_block] 1))
  /\ PyStr.contains Scenario.unknown_tool_block TERMINATE = false
  /\ _parse_tool_call Scenario.limits Scenario.unknown_tool_block
     = inr (VDict [("tool", VStr "fs.chmod"); ("arguments", VDict [])])
  /\ exists a' result,
       take_turn Scenario.runtime 0
         (Scenario.ready [Scenario.unknown_tool_block])
       = (Continue, a')
       /\ history a'
          = (history (Scenario.ready [Scenario.unknown_tool_block])
             ++ [LLMResponse Scenario.unknown_tool_block;
                 ToolCallResult (VStr "fs.chmod") (VDict []) result])%list.
Proof.
  split; [reflexivity|]. split; [reflexivity|]. split; [reflexivity|].
  destruct (tool_call_turn_goes_on Scenario.runtime 0
              (Scenario.ready [Scenario.unknown_tool_block])
              Scenario.unknown_tool_block
              (MockLLM Scenario.runtime
                 (Llm.Mock [Scenario.unknown_tool_block] 1))
              [("tool", VStr "fs.chmod"); ("arguments", VDict [])]
              eq_refl eq_refl eq_refl eq_refl)
    as (a' & result & Ht & Hh & _).
  exists a', result. now split.
Defined.

Lemma scripted_run_follows_the_script_witness :
  run Scenario.runtime Scenario.dir false (Scenario.startup Cases.restricted)
      Scenario.disk
  = Finished (Explicit "Done.")
      (Scenario.final
         (run Scenario.runtime Scenario.dir false
              (Scenario.startup Cases.restricted) Scenario.disk))
  /\ In (ResponseLogged 1 "The directory is there.")
        (trace
           (Scenario.final
              (run Scenario.runtime Scenario.dir false
                   (Scenario.startup Cases.restricted) Scenario.disk)))
  /\ "The directory is there."
     = nth (1 mod 3)
           [Scenario.one_block; "The directory is there.";
            "<terminate>Done."] "".
Proof.
  assert (E : run Scenario.runtime Scenario.dir false
                  (Scenario.startup Cases.restricted) Scenario.disk
              = Finished (Explicit "Done.")
                  (Scenario.final
                     (run Scenario.runtime Scenario.dir false
                          (Scenario.startup Cases.restricted) Scenario.disk)))
    by (apply Scenario_finished; vm_compute; reflexivity).
  assert (I1 : In (ResponseLogged 1 "The directory is there.")
                  (trace
                     (Scenario.final
                        (run Scenario.runtime Scenario.dir false
                             (Scenario.startup Cases.restricted)
                             Scenario.disk))))
    by (vm_compute; repeat (try (left; reflexivity); right)).
  split; [exact E|]. split; [exact I1|].
  exact (scripted_run_follows_the_script Scenario.runtime Scenario.dir false
           (Scenario.startup Cases.restricted) Scenario.disk
           (Explicit "Done.") _ Cases.restricted E eq_refl eq_refl
           1 "The directory is there." I1).
Defined.

Lemma fs_tools_answer_with_a_result_witness :
  dict_get "path" [("path", VStr "notes.txt")] = Some (VStr "notes.txt")
  /\ answers (delete_execute mem_fs (Scenario.fs_tool_state [])
                (VDict [("path", VStr "notes.txt")]) Cases.disk_with_files)
  /\ answers (read_execute mem_fs (Scenario.fs_tool_state [])
                (VDict [("path", VStr "notes.txt")]) Cases.disk_with_files)
  /\ answers (rmdir_execute mem_fs (Scenario.fs_tool_state [])
                (VDict [("path", VStr "notes.txt")]) Cases.disk_with_files).
Proof.
  split; [reflexivity|].
  destruct (fs_tools_answer_with_a_result mem_fs (Scenario.fs_tool_state [])
              [("path", VStr "notes.txt")] (VStr "notes.txt")
              Cases.disk_with_files eq_refl)
    as (_ & Hd & Hr & _ & _ & Hrm & _).
  split; [exact Hd|]. split; [exact Hr | exact Hrm].
Defined.

Lemma protected_delete_and_edit_refused_witness :
  dict_get "path" [("path", VStr "notes.txt"); ("old_text", VStr "one");
                   ("new_text", VStr "three")]
  = Some (VStr "notes.txt")
  /\ protected mem_fs (Scenario.fs_tool_state ["notes.txt"]) "notes.txt"
     = true
  /\ delete_execute mem_fs (Scenario.fs_tool_state ["notes.txt"])
       (VDict [("path", VStr "notes.txt"); ("old_text", VStr "one");
               ("new_text", VStr "three")])
       Cases.disk_with_files
     = (inr (failure "File is protected and cannot be deleted: notes.txt"),
        Cases.disk_with_files)
  /\ edit_execute mem_fs (Scenario.fs_tool_state ["notes.txt"])
       (VDict [("path", VStr "notes.txt"); ("old_text", VStr "one");
               ("new_text", VStr "three")])
       Cases.disk_with_files
     = (inr (failure "File is protected and cannot be edited: notes.txt"),
        Cases.disk_with_files).
Proof.
  split; [reflexivity|]. split; [reflexivity|].
  destruct (protected_delete_and_edit_refused mem_fs
              (Scenario.fs_tool_state ["notes.txt"])
              [("path", VStr "notes.txt"); ("old_text", VStr "one");
               ("new_text", VStr "three")]
              "notes.txt" Cases.disk_with_files eq_refl eq_refl)
    as [(msg & Hd & Hmsg) Hedit].
  destruct (Hedit (VStr "one") (VStr "three") eq_refl eq_refl)
    as (msg' & He & Hmsg').
  split.
  - rewrite Hd.
    now rewrite (Hmsg ["w"; "proj"; "notes.txt"] ["w"; "proj"]
                   eq_refl eq_refl eq_refl).
  - rewrite He.
    now rewrite (Hmsg' ["w"; "proj"; "notes.txt"] ["w"; "proj"]
                   eq_refl eq_refl eq_refl).
Defined.

Lemma working_directory_is_not_removed_witness :
  dict_get "path" [("path", VStr "src/.."); ("recursive", VBool true)]
  = Some (VStr "src/..")
  /\ resolve mem_fs
       (join mem_fs (tool_working_dir mem_fs (Scenario.fs_tool_state []))
             "src/..")
       Cases.disk_with_files
     = inr ["w"; "proj"]
  /\ resolve mem_fs (tool_working_dir mem_fs (Scenario.fs_tool_state []))
       Cases.disk_with_files
     = inr ["w"; "proj"]
  /\ rmdir_execute mem_fs (Scenario.fs_tool_state [])
       (VDict [("path", VStr "src/.."); ("recursive", VBool true)])
       Cases.disk_with_files
     = (inr (failure "Cannot delete the root working directory."),
        Cases.disk_with_files).
Proof.
  split; [reflexivity|]. split; [reflexivity|]. split; [reflexivity|].
  exact (working_directory_is_not_removed mem_fs (Scenario.fs_tool_state [])
           [("path", VStr "src/.."); ("recursive", VBool true)] "src/.."
           Cases.disk_with_files ["w"; "proj"] ["w"; "proj"]
           eq_refl eq_refl eq_refl eq_refl eq_refl).
Defined.

Lemma edit_replaces_the_first_occurrence_witness :
  read_text mem_fs ["w"; "proj"; "notes.txt"] Cases.disk_with_files
  = inr "one two one"
  /\ edit_execute mem_fs (Scenario.fs_tool_state [])
       (VDict [("path", VStr "notes.txt"); ("old_text", VStr "one");
               ("new_text", VStr "one")])
       Cases.disk_with_files
     = (inr (failure
               "Text to be replaced ('one') not found in file: notes.txt"),
        Cases.disk_with_files)
  /\ edit_execute mem_fs (Scenario.fs_tool_state [])
       (VDict [("path", VStr "notes.txt"); ("old_text", VStr "two");
               ("new_text", VStr "2")])
       Cases.disk_with_files
     = match write_text mem_fs ["w"; "proj"; "notes.txt"] "one 2 one"
               Cases.disk_with_files with
       | (inr _, w') =>
           (inr (success (message_of "Successfully edited file notes.txt.")),
            w')
       | (inl e, w') =>
           (inr (failure ("Failed to edit file: " ++ exn_str e)), w')
       end.
Proof.
  split; [reflexivity|]. split.
  - apply (proj1 (edit_replaces_the_first_occurrence mem_fs
                    (Scenario.fs_tool_state [])
                    [("path", VStr "notes.txt"); ("old_text", VStr "one");
                     ("new_text", VStr "one")]
                    "notes.txt" "one" "one" "one two one"
                    Cases.disk_with_files
                    ["w"; "proj"; "notes.txt"] ["w"; "proj"]
                    eq_refl eq_refl eq_refl eq_refl eq_refl eq_refl eq_refl
                    eq_refl eq_refl)).
    now right.
  - apply (proj2 (edit_replaces_the_first_occurrence mem_fs
                    (Scenario.fs_tool_state [])
                    [("path", VStr "notes.txt"); ("old_text", VStr "two");
                     ("new_text", VStr "2")]
                    "notes.txt" "two" "2" "one two one"
                    Cases.disk_with_files
                    ["w"; "proj"; "notes.txt"] ["w"; "proj"]
                    eq_refl eq_refl eq_refl eq_refl eq_refl eq_refl eq_refl
                    eq_refl eq_refl)
             "one " " one").
    + reflexivity.
    + intros i Hi. simpl in Hi.
      destruct i as [|[|[|[|i]]]]; try reflexivity. lia.
    + discriminate.
Defined.

Lemma tree_of_a_flat_directory_witness :
  iterdir mem_fs ["w"; "proj"] Cases.disk_with_files
  = inr [["w"; "proj"; "notes.txt"]; ["w"; "proj"; "Index.html"]]
  /\ exists items,
       Permutation items
         [["w"; "proj"; "notes.txt"]; ["w"; "proj"; "Index.html"]]
       /\ _build_tree mem_fs 1 ["w"; "proj"] "" Cases.disk_with_files
          = (inr (flat_lines "" (map (path_name mem_fs) items)),
             Cases.disk_with_files)
       /\ _build_tree mem_fs 1 ["w"; "proj"] "" Cases.disk_with_files
          = (inr ["├── Index.html"; "└── notes.txt"], Cases.disk_with_files).
Proof.
  split; [reflexivity|].
  destruct (tree_of_a_flat_directory mem_fs 0 ["w"; "proj"] ""
              [["w"; "proj"; "notes.txt"]; ["w"; "proj"; "Index.html"]]
              Cases.disk_with_files eq_refl)
    as (items & Hperm & _ & Hrun).
  { intros p [<-|[<-|[]]]; reflexivity. }
  exists items. split; [exact Hperm|]. split; [exact Hrun|]. reflexivity.
Defined.


Lemma complete_marks_the_first_match_witness :
  _read_todos mem_fs Cases.interpreter Cases.todo_state Cases.disk_with_todos
  = (inr (VList Cases.items), Cases.disk_with_todos)
  /\ complete_execute mem_fs Cases.interpreter Cases.todo_state
       (VDict [("id", VInt 7)]) Cases.disk_with_todos
     = (inr (failure "TODO item with ID 7 not found."),
        Cases.disk_with_todos)
  /\ complete_execute mem_fs Cases.interpreter Cases.todo_state
       (VDict [("id", VInt 3)]) Cases.disk_with_todos
     = (inr (success (message_of "TODO item 3 marked as completed.")),
        Cases.disk_with_todo_text
          (JsonOut.dumps (float_repr Cases.interpreter)
             (VList [Cases.first_item;
                     VDict [("id", VInt 3);
                            ("description", VStr "write the tests");
                            ("status", VStr "completed");
                            ("created_at", VStr "2025-01-14T09:05:00");
                            ("completed_at",
                             VStr "2025-01-15T10:30:00.250000")];
                     Cases.third_item]))).
Proof.
  assert (R : _read_todos mem_fs Cases.interpreter Cases.todo_state
                Cases.disk_with_todos
              = (inr (VList Cases.items), Cases.disk_with_todos))
    by (vm_compute; reflexivity).
  split; [exact R|]. split.
  - exact (proj1 (complete_marks_the_first_match mem_fs Cases.interpreter
                    Cases.todo_state [("id", VInt 7)] (VInt 7) Cases.items
                    Cases.disk_with_todos eq_refl R) eq_refl).
  - destruct (proj2 (complete_marks_the_first_match mem_fs Cases.interpreter
                       Cases.todo_state [("id", VInt 3)] (VInt 3) Cases.items
                       Cases.disk_with_todos eq_refl R)
                _ eq_refl) as [_ Hrun].
    rewrite Hrun. vm_compute. reflexivity.
Defined.

Lemma remove_drops_every_match_witness :
  _read_todos mem_fs Cases.interpreter Cases.todo_state
    Cases.disk_with_four_todos
  = (inr (VList Cases.four_items), Cases.disk_with_four_todos)
  /\ without_id Cases.interpreter (VInt 1) Cases.four_items
     = inr [Cases.second_item; Cases.fourth_item]
  /\ [Cases.second_item; Cases.fourth_item]
     = filter (other_id Cases.interpreter (VInt 1)) Cases.four_items
  /\ remove_execute mem_fs Cases.interpreter Cases.todo_state
       (VDict [("id", VInt 1)]) Cases.disk_with_four_todos
     = (inr (success (message_of "TODO item 1 removed.")),
        Cases.disk_with_todo_text
          (JsonOut.dumps (float_repr Cases.interpreter)
             (VList [Cases.second_item; Cases.fourth_item]))).
Proof.
  assert (R : _read_todos mem_fs Cases.interpreter Cases.todo_state
                Cases.disk_with_four_todos
              = (inr (VList Cases.four_items), Cases.disk_with_four_todos))
    by (vm_compute; reflexivity).
  split; [exact R|]. split; [reflexivity|].
  destruct (remove_drops_every_match mem_fs Cases.interpreter
              Cases.todo_state [("id", VInt 1)] (VInt 1) Cases.four_items
              [Cases.second_item; Cases.fourth_item]
              Cases.disk_with_four_todos eq_refl R eq_refl)
    as (Hf & _ & _ & _ & _ & _ & Hrun).
  split; [exact Hf|].
  rewrite Hrun by (simpl; lia). vm_compute. reflexivity.
Defined.

Lemma unreadable_todo_file_is_left_alone_witness :
  path_exists mem_fs (todo_file mem_fs Cases.todo_state)
    (Cases.disk_with_todo_text "{oops")
  = true
  /\ read_text mem_fs (todo_file mem_fs Cases.todo_state)
       (Cases.disk_with_todo_text "{oops")
     = inr "{oops"
  /\ Json.loads (decode_limits Cases.interpreter) "{oops"
     = inl Json.JSONDecodeError
  /\ add_execute mem_fs Cases.interpreter Cases.todo_state
       (VDict [("description", VStr "deploy")])
       (Cases.disk_with_todo_text "{oops")
     = (inr (failure
               "Failed to add TODO item: Expecting value: line 1 column 1 (char 0)"),
        Cases.disk_with_todo_text "{oops").
Proof.
  split; [reflexivity|]. split; [reflexivity|]. split; [reflexivity|].
  exact (proj1 (unreadable_todo_file_is_left_alone mem_fs Cases.interpreter
                  Cases.todo_state [("description", VStr "deploy")]
                  (decode_error Cases.interpreter "{oops")
                  (Cases.disk_with_todo_text "{oops") eq_refl
                  (or_intror
                     (ex_intro _ "{oops"
                        (ex_intro _ Json.JSONDecodeError
                           (conj eq_refl (conj eq_refl eq_refl))))))).
Defined.

Lemma turns_are_numbered_witness :
  run Scenario.runtime Scenario.dir false (Scenario.startup Cases.restricted)
      Scenario.disk
  = Finished (Explicit "Done.")
      (Scenario.final
         (run Scenario.runtime Scenario.dir false
              (Scenario.startup Cases.restricted) Scenario.disk))
  /\ filter is_turn_started
       (trace
          (Scenario.final
             (run Scenario.runtime Scenario.dir false
                  (Scenario.startup Cases.restricted) Scenario.disk)))
     = [TurnStarted 1 5; TurnStarted 2 5; TurnStarted 3 5].
Proof.
  assert (E : run Scenario.runtime Scenario.dir false
                  (Scenario.startup Cases.restricted) Scenario.disk
              = Finished (Explicit "Done.")
                  (Scenario.final
                     (run Scenario.runtime Scenario.dir false
                          (Scenario.startup Cases.restricted) Scenario.disk)))
    by (apply Scenario_finished; vm_compute; reflexivity).
  split; [exact E|].
  rewrite (turns_are_numbered Scenario.runtime Scenario.dir false
             (Scenario.startup Cases.restricted) Scenario.disk
             (Explicit "Done.") _ E).
  vm_compute. reflexivity.
Defined.

Lemma system_prompt_names_the_tools_witness :
  run Scenario.runtime Scenario.dir false (Scenario.startup Cases.restricted)
      Scenario.disk
  = Finished (Explicit "Done.")
      (Scenario.final
         (run Scenario.runtime Scenario.dir false
              (Scenario.startup Cases.restricted) Scenario.disk))
  /\ exists prompt rest,
       history
         (Scenario.final
            (run Scenario.runtime Scenario.dir false
                 (Scenario.startup Cases.restricted) Scenario.disk))
       = SystemPrompt prompt :: rest
       /\ exists pre post,
            prompt
            = pre
              ++ "<terminate>Final answer or summary of work done.</terminate>"
              ++ post.
Proof.
  assert (E : run Scenario.runtime Scenario.dir false
                  (Scenario.startup Cases.restricted) Scenario.disk
              = Finished (Explicit "Done.")
                  (Scenario.final
                     (run Scenario.runtime Scenario.dir false
                          (Scenario.startup Cases.restricted) Scenario.disk)))
    by (apply Scenario_finished; vm_compute; reflexivity).
  split; [exact E|].
  destruct (system_prompt_names_the_tools Scenario.runtime Scenario.dir false
              (Scenario.startup Cases.restricted) Scenario.disk
              (Explicit "Done.") _ E)
    as (prompt & rest & Hh & _ & Hlines & _).
  exists prompt, rest. split; [exact Hh|].
  apply Hlines. unfold prompt_parts.
  do 7 right. now left.
Defined.

Lemma protection_is_by_spelling_witness :
  dict_get "path" [("path", VStr "./notes.txt"); ("content", VStr "gone")]
  = Some (VStr "./notes.txt")
  /\ protected mem_fs (Scenario.fs_tool_state ["notes.txt"]) "./notes.txt"
     = false
  /\ protected mem_fs (Scenario.fs_tool_state ["notes.txt"]) "notes.txt"
     = true
  /\ resolve mem_fs
       (join mem_fs
          (tool_working_dir mem_fs (Scenario.fs_tool_state ["notes.txt"]))
          "./notes.txt")
       Cases.disk_with_files
     = inr ["w"; "proj"; "notes.txt"]
  /\ write_execute mem_fs (Scenario.fs_tool_state ["notes.txt"])
       (VDict [("path", VStr "./notes.txt"); ("content", VStr "gone")])
       Cases.disk_with_files
     = (inr (success (message_of "Successfully wrote to file ./notes.txt.")),
        [ (["w"], MemFs.Dir); (["w"; "proj"], MemFs.Dir);
          (["w"; "proj"; "Index.html"], MemFs.File "<p>one</p>");
          (["w"; "proj"; "notes.txt"], MemFs.File "gone") ]).
Proof.
  split; [reflexivity|]. split; [reflexivity|]. split; [reflexivity|].
  split; [reflexivity|].
  rewrite (proj1 (protection_is_by_spelling mem_fs
                    (Scenario.fs_tool_state ["notes.txt"])
                    [("path", VStr "./notes.txt"); ("content", VStr "gone")]
                    "./notes.txt" Cases.disk_with_files eq_refl eq_refl)).
  vm_compute. reflexivity.
Defined.

Lemma written_todos_are_read_back_witness :
  storable Cases.mixed = true
  /\ within (decode_limits Cases.interpreter)
       (Json.nesting (decode_limits Cases.interpreter)) Cases.mixed
     = true
  /\ _write_todos mem_fs Cases.interpreter Cases.todo_state Cases.mixed
       Cases.disk_with_todos
     = (inr tt,
        Cases.disk_with_todo_text
          (JsonOut.dumps (float_repr Cases.interpreter) Cases.mixed))
  /\ bind (_write_todos mem_fs Cases.interpreter Cases.todo_state
             Cases.mixed)
          (fun _ => _read_todos mem_fs Cases.interpreter Cases.todo_state)
          Cases.disk_with_todos
     = (inr Cases.mixed,
        Cases.disk_with_todo_text
          (JsonOut.dumps (float_repr Cases.interpreter) Cases.mixed)).
Proof.
  assert (W : _write_todos mem_fs Cases.interpreter Cases.todo_state
                Cases.mixed Cases.disk_with_todos
              = (inr tt,
                 Cases.disk_with_todo_text
                   (JsonOut.dumps (float_repr Cases.interpreter)
                      Cases.mixed)))
    by (vm_compute; reflexivity).
  split; [reflexivity|]. split; [reflexivity|]. split; [exact W|].
  exact (written_todos_are_read_back mem_fs Cases.interpreter
           Cases.todo_state Cases.mixed Cases.disk_with_todos
           (Cases.disk_with_todo_text
              (JsonOut.dumps (float_repr Cases.interpreter) Cases.mixed))
           eq_refl eq_refl W eq_refl eq_refl).
Defined.

Lemma added_item_is_listed_witness :
  _read_todos mem_fs Cases.interpreter Cases.todo_state Cases.disk_with_todos
  = (inr (VList Cases.items), Cases.disk_with_todos)
  /\ _write_todos mem_fs Cases.interpreter Cases.todo_state
       (VList (Cases.items ++ [Cases.added])) Cases.disk_with_todos
     = (inr tt,
        Cases.disk_with_todo_text
          (JsonOut.dumps (float_repr Cases.interpreter)
             (VList (Cases.items ++ [Cases.added]))))
  /\ add_execute mem_fs Cases.interpreter Cases.todo_state
       (VDict [("description", VStr "déployer")]) Cases.disk_with_todos
     = (inr (success (message_of "TODO item added with ID: 4.")),
        Cases.disk_with_todo_text
          (JsonOut.dumps (float_repr Cases.interpreter)
             (VList (Cases.items ++ [Cases.added]))))
  /\ list_execute mem_fs Cases.interpreter Cases.todo_state (VDict [])
       (Cases.disk_with_todo_text
          (JsonOut.dumps (float_repr Cases.interpreter)
             (VList (Cases.items ++ [Cases.added]))))
     = (inr (success
               [("todos", VList (Cases.items ++ [Cases.added]));
                ("count", VInt 4)]),
        Cases.disk_with_todo_text
          (JsonOut.dumps (float_repr Cases.interpreter)
             (VList (Cases.items ++ [Cases.added])))).
Proof.
  assert (R : _read_todos mem_fs Cases.interpreter Cases.todo_state
                Cases.disk_with_todos
              = (inr (VList Cases.items), Cases.disk_with_todos))
    by (vm_compute; reflexivity).
  assert (W : _write_todos mem_fs Cases.interpreter Cases.todo_state
                (VList (Cases.items ++ [Cases.added])) Cases.disk_with_todos
              = (inr tt,
                 Cases.disk_with_todo_text
                   (JsonOut.dumps (float_repr Cases.interpreter)
                      (VList (Cases.items ++ [Cases.added])))))
    by (vm_compute; reflexivity).
  split; [exact R|]. split; [exact W|].
  exact (added_item_is_listed mem_fs Cases.interpreter
           Cases.todo_state [("description", VStr "déployer")]
           "déployer" Cases.items [VInt 1; VInt 3; VInt 1]
           [1; 3; 1]%Z 4%Z (VList (Cases.items ++ [Cases.added]))
           Cases.disk_with_todos
           (Cases.disk_with_todo_text
              (JsonOut.dumps (float_repr Cases.interpreter)
                 (VList (Cases.items ++ [Cases.added]))))
           eq_refl eq_refl eq_refl R eq_refl eq_refl eq_refl eq_refl
           eq_refl W eq_refl eq_refl
           ltac:(vm_compute; lia) eq_refl).
Defined.
